(* ===== verification/_CoqProject ===== *)
-Q . S2P
Prelude.v
Typing.v
Errors.v
Date.v
Proto.v
ServerState.v
ServerOps.v
ServerConn.v
ServerMain.v
ServerStep.v
Sample.v
ServerInv.v
ServerOwn.v
ServerSpecs.v
ServerFinish.v
ServerUser.v
ServerRecv.v
ServerRead.v
ServerProgram.v
ServerEvents.v
ServerLife.v
ServerSafety.v
ServerSplit.v
ServerTyping.v
ServerTyped.v
ServerTypedRuns.v
ServerRuns.v
ServerFacts.v
ServerTrace.v
ServerFactRuns.v
ClientProto.v
ClientState.v
ClientOps.v
Form.v
Client.v
Pool.v
UserAgent.v
Text.v
ClientStep.v
ClientSample.v
ClientInv.v
ClientSpecs.v
ClientMoves.v
PoolSpecs.v
ClientFinish.v
ClientRead.v
ClientGrow.v
AgentSpecs.v
ClientProgram.v
ClientSafety.v
ClientRuns.v
ClientTrace.v
FormFacts.v
AgentFacts.v
PoolFacts.v
ClientFacts.v
FactRuns.v
