(* ===== verification/Prelude.v ===== *)
(** * UniEvent-HTTP

    A verification of the HTTP server and the HTTP client of UniEvent-HTTP
    ([src/src/panda/unievent/http.h], [http.icc] and [http/]).

    ** The program and its parts

    The server. A [Server] listens on locations and makes a [ServerConnection] for
    every stream that is accepted. A connection parses requests into its deque,
    tells the user about them, and writes the responses in the order of the deque;
    [ServerRequest] and [ServerResponse] are the objects the user holds, whose
    calls come back to the connection. Connections report to the server when they
    end, and the server counts them while it stops.

    The client. A [Client] is a stream that carries out one [Request] at a time:
    it connects (with TLS, through a proxy), sends the request, a form or chunks,
    parses the responses, follows redirects and reports the end. A [Pool] shares
    out clients per network location, keeps requests waiting when there are too
    many, and lets idle clients go. A [UserAgent] adds cookies and settings to
    requests, and the calls of [http.h] use the pool of a loop, the synchronous
    ones by running a loop of their own. Client and pool call each other: a client
    that is done is put back, which may start the next request on it.

    ** Conventions of the model

    Objects that are shared live in stores indexed by identity ([World],
    [CWorld]), a pointer is an identity, a null pointer is [None]. An operation is
    a function of the monad [M]: it returns, throws, or comes to a [fault], which
    is what the language leaves undefined or an [assert] that fails. What is done
    to streams, timers and listeners is recorded in a log, newest first. The code
    that is not part of the repository is given by the fields of type classes
    ([HttpProto], [ClientProto]: messages, parsers, URIs, cookie jars; [Env],
    [ClientEnv]: sockets, clocks, the order of a set; [Callbacks], [CCallbacks]:
    the user), and what is relied on of it by classes of laws; [Sample] and
    [ClientSample] are instances small enough to compute with, for which the laws
    are proved. Machine integers are [Z] with [wrap] where the source can wrap.

    ** Files

    - [Errors]: [error.h], [error.icc]. [Date]: [rfc822_date] of [Server.cc].
    - [Proto], [ServerState]: the server's parameters and objects. [ServerOps]:
      the stores, and the parts of [Server] that connections call. [ServerConn]:
      [ServerConnection.cc], [ServerRequest.icc], [ServerResponse.icc], a
      definition per method. [ServerMain]: [Server.cc]. [ServerStep]: user
      programs, the events of the environment, and their execution.
    - [ServerInv] (the invariant: the deque, its slots and the tape of what was
      written), [ServerOwn], [ServerSpecs], [ServerFinish], [ServerUser],
      [ServerRecv], [ServerRead], [ServerProgram], [ServerEvents], [ServerLife]:
      that every operation keeps it. [ServerSafety]: what follows for every run.
      [ServerSplit]: that pipelined input may be cut between its messages.
      [ServerFacts]: contracts of single operations. [ServerTrace]: an exchange,
      from the bytes that are read to the answer that is written. [ServerRuns],
      [ServerFactRuns]: concrete runs.
    - [ClientProto], [ClientState]: the client's parameters and objects.
      [ClientOps]: the stores, the stream, and the methods of [Request] in
      [Request.h] and [Request.icc]. [Form]: [Form.cc]. [Client]: [Client.cc].
      [Pool]: [Pool.cc], and the recursion of client and pool. [UserAgent]:
      [Request::Builder], [UserAgent.cc], [http.h], [http.icc]. [Text]: setters,
      addresses and what is printed. [ClientStep]: user programs and events.
    - [ClientInv] (the invariant), [ClientSpecs], [ClientMoves], [PoolSpecs],
      [ClientFinish], [ClientRead], [ClientGrow], [AgentSpecs] (user agents),
      [ClientProgram]: that every operation keeps it. [ClientSafety]: what follows for every run.
      [ClientTrace], [FormFacts], [AgentFacts], [PoolFacts], [ClientFacts]:
      contracts of single operations. [ClientRuns], [FactRuns]: concrete runs.
    - [Typing]: store typings in general, a class of a typing with its preorder of
      extensions and the judgement [keeps] for what a computation does to it.
      [ServerTyping], [ServerTyped]: that of the server, the latter with a lemma per
      operation. [ClientTyping], [ClientTyped], [PoolTyped]: that of the client.
      [ServerTypedRuns], [ClientTypedRuns]: concrete runs.

    ** What is shown

    Of every run of the server under a polite user ([ServerProgram.polite]): no
    fault ([server_never_faults]); responses in the order of the requests, framed,
    none to a dead connection, the idle timer only on idle connections; every request
    ends exactly once, with the notice that how it ended calls for ([ends_once]);
    input that is cut between its messages has the outcome it has in one piece
    ([pipelining_transparent]). Of its operations: what reading pipelined requests
    reports and queues ([read_trace]), what an answer writes and how the connection
    goes on ([respond_trace]),
    stopping ends everything ([server_stops]), stopping gracefully touches no
    request ([graceful_stop_trace]), closing reports every request once
    ([close_trace]), upgrading, listening, configuring, the cache of the Date
    header and the text it holds, answers that come twice or too late.

    Of every run of the client under a well-behaved user
    ([ClientProgram.well_behaved]), with user agents at work: every input returns ([client_always_returns]);
    every request that was handed over is answered exactly once ([answered_once])
    and until then is either served or waits in one queue ([no_lost_request]); a
    pool's lists are what they say ([pool_partition]) and keep to the bound
    ([pool_within_bound]); a request is redirected at most as often as its limit
    says for every time it is handed over ([redirects_bounded]). Of its operations: what a request, its end, a redirect
    and a form put on the wire, and the state they leave; a location of a pool
    refines a bounded resource with a waiting line ([PoolFacts.acquire],
    [PoolFacts.release]); the sweep of idle clients; what an agent does; the loop
    of [Client::on_read] needs no bound.

    Of every run of either side, under programs that are polite or not: objects stay
    well typed ([server_well_typed], [client_well_typed]), that is, pointers lead to
    objects that exist and numbers are in range, and one input undoes nothing
    ([server_only_grows], [client_only_grows]): what is closed, completed, answered
    or recorded stays so. A program is only asked to use objects it was given, and
    no pool of the client is destroyed. On the client, user agents and synchronous
    calls are included; pointers to clients are left out, since a client may be let
    go while a request that ended still names it.

    The last group shows behaviours that the source hardly means: what goes wrong
    with programs that are not polite, an idle timeout of 0, a final chunk that is
    lost, a clock below the idle timeout, an unknown proxy, a listener that
    outlives its stack frame, a limit on redirects that the counter cannot pass.

    ** Bounds and fuel

    The server's loops are bounded by [fuel], the number of requests that may be
    queued on a connection; a run is charged one unit for every byte that is read
    ([ServerSafety.cost]), which is enough because a request takes at least one
    byte. [on_read] is bounded by the length of the buffer, [close_all] by the
    number of connections. Callbacks nest: two levels are enough for a polite
    program of the server, and a level for every cancel for one of the client,
    which may cancel only where a level is left. [Client::on_read] is bounded by
    the length of the buffer, and [on_read_terminates] shows the bound to be
    invisible. A client's reset comes back to [cancel] once
    ([Pool.client_cancel]).

    ** What is not modelled, and what the theorems leave out

    Not modelled: what a stream, a timer and a loop do between their events (they
    are inputs), OpenSSL, the logging, reference counts (an object lives until the
    model destroys it where the source says so, and a pool is taken to hold the
    last reference to its free clients), the umbrella files [compose.cc] and
    [msg.h]. The listeners of the library on a request run after the user's.

    The safety of the server is about users who do not close, stop, upgrade or
    reconfigure from inside of a callback, and who answer nothing while a request
    is being removed; [ServerFactRuns] shows runs that go wrong otherwise. The
    safety of the client includes user agents that have no SSL context of their own
    (one that has puts it on a request in the middle of a redirect, which can move
    the request to another location under the hands of its client); it leaves out
    synchronous calls ([ClientFacts] has contracts for them), streamed files, pools
    with a factory, and the destruction of pools. *)
From stdpp Require Export base tactics list gmap strings fin_maps.
From Stdlib Require Export ZArith Lia.

(** ** Record update

    [r <| f := v |>] stores [v] into the field [f] of [r], [r <| f ::= g |>]
    applies [g] to it; a record declares a [Setter] per field. *)
Class Setter {R E : Type} (proj : R → E) := setter : (E → E) → R → R.
Declare Scope record_scope.
Notation "r <| p ::= f |>" := (setter (proj := p) f r)
  (at level 1, left associativity, p at level 9, f at level 99) : record_scope.
Notation "r <| p := v |>" := (setter (proj := p) (λ _, v) r)
  (at level 1, left associativity, p at level 9, v at level 99) : record_scope.
Open Scope record_scope.

(** Unsigned machine integers: the value after a wrap at [w] bits. *)
Definition wrap (w : Z) (z : Z) : Z := (z mod 2 ^ w)%Z.
Abbreviation u16 := (wrap 16).
Abbreviation u32 := (wrap 32).
Abbreviation u64 := (wrap 64).

Lemma wrap_small w z : (0 ≤ z < 2 ^ w)%Z → wrap w z = z.
Proof. apply Z.mod_small. Qed.

Lemma wrap_range w z : (0 ≤ w)%Z → (0 ≤ wrap w z < 2 ^ w)%Z.
Proof. intros. apply Z.mod_pos_bound. lia. Qed.

(** ** Outcomes

    A C++ call either returns, throws an exception, or does something the
    language leaves undefined (or, in a debug build, trips an [assert]). *)

Inductive fault :=
  | NullDeref      (* a null smart or raw pointer is dereferenced *)
  | EmptyFront     (* front() or pop_front() of an empty deque *)
  | AssertFailed   (* an assert() of the source does not hold *)
  | BadIterator    (* end() or an invalidated iterator is dereferenced *)
  | OutOfBounds    (* an array is indexed outside of its bounds *)
  | DanglingRef    (* an object that was deleted, or a stack frame that has ended, is used *)
  | OutOfFuel.     (* the model's bound on a loop is exhausted *)

Inductive exn :=
  | HttpError (msg : string)
  | LogicError (msg : string)
  | PandaException (msg : string)
  | UserException (n : nat).

Inductive outcome (S A : Type) :=
  | Ok (a : A) (s : S)
  | Throw (e : exn) (s : S)
  | Fault (f : fault).
Arguments Ok {_ _} a s.
Arguments Throw {_ _} e s.
Arguments Fault {_ _} f.

(** The monad of a stateful operation over the object store [S]. *)
Definition M (S A : Type) : Type := S → outcome S A.

#[export] Instance M_ret {S} : MRet (M S) := λ A a s, Ok a s.
#[export] Instance M_bind {S} : MBind (M S) := λ A B k m s,
  match m s with
  | Ok a s' => k a s'
  | Throw e s' => Throw e s'
  | Fault f => Fault f
  end.

Section Primitives.
Context {S : Type}.

Definition gets {A} (f : S → A) : M S A := λ s, Ok (f s) s.
Definition modify (f : S → S) : M S unit := λ s, Ok tt (f s).
Definition throw {A} (e : exn) : M S A := λ s, Throw e s.
Definition fault_with {A} (f : fault) : M S A := λ _, Fault f.

(** [deref o]: follow a pointer. *)
Definition deref {A} (o : option A) : M S A :=
  match o with Some a => mret a | None => fault_with NullDeref end.

(** [assert b]: the [assert] macro of a debug build. *)
Definition assert (b : bool) : M S unit :=
  if b then mret tt else fault_with AssertFailed.

Definition when (b : bool) (m : M S unit) : M S unit :=
  if b then m else mret tt.

(** [try { m } catch (...) { h }]. *)
Definition try_catch {A} (m : M S A) (h : exn → M S A) : M S A := λ s,
  match m s with Throw e s' => h e s' | o => o end.

(** Run [m] for every element, in order (a range [for]). *)
Fixpoint for_each {A} (f : A → M S unit) (l : list A) : M S unit :=
  match l with
  | [] => mret tt
  | a :: l' => f a ;; for_each f l'
  end.
End Primitives.

(** ** Weakest preconditions

    [wpf T m Q E s]: from [s], [m] ends without a fault but those that [T] tolerates;
    [Q] holds of the result and state of a normal return, [E] of the exception and
    state of a throw. [wp] tolerates no fault. *)
Definition wpf {S A} (T : fault → Prop) (m : M S A) (Q : A → S → Prop) (E : exn → S → Prop) (s : S) : Prop :=
  match m s with
  | Ok a s' => Q a s'
  | Throw e s' => E e s'
  | Fault f => T f
  end.

Definition no_fault : fault → Prop := λ _, False.
Abbreviation wp := (wpf no_fault).

(** No exception escapes. *)
Definition no_throw {S} : exn → S → Prop := λ _ _, False.

Section Wp.
Context {S : Type} {T : fault → Prop}.
Implicit Types (s : S) (E : exn → S → Prop).
Local Abbreviation wp := (wpf T).

Lemma wp_ret {A} (a : A) Q E s : Q a s → wp (mret a) Q E s.
Proof. done. Qed.

Lemma wp_bind {A B} (m : M S A) (k : A → M S B) Q E s :
  wp m (λ a, wp (k a) Q E) E s → wp (m ≫= k) Q E s.
Proof. unfold wpf, mbind, M_bind. by destruct (m s). Qed.

Lemma wp_unbind {A B} (m : M S A) (k : A → M S B) Q E s :
  wp (m ≫= k) Q E s → wp m (λ a, wp (k a) Q E) E s.
Proof. unfold wpf, mbind, M_bind. by destruct (m s). Qed.

Lemma wp_gets {A} (f : S → A) Q E s : Q (f s) s → wp (gets f) Q E s.
Proof. done. Qed.

Lemma wp_modify (f : S → S) Q E s : Q tt (f s) → wp (modify f) Q E s.
Proof. done. Qed.

Lemma wp_throw {A} e (Q : A → S → Prop) E s : E e s → wp (throw e) Q E s.
Proof. done. Qed.

Lemma wp_deref {A} (o : option A) a Q E s : o = Some a → Q a s → wp (deref o) Q E s.
Proof. by intros ->. Qed.

Lemma wp_assert b Q E s : b = true → Q tt s → wp (assert b) Q E s.
Proof. by intros ->. Qed.

Lemma wp_when b m Q E s :
  (b = true → wp m Q E s) → (b = false → Q tt s) → wp (when b m) Q E s.
Proof. destruct b; intros H1 H2; [by apply H1|by apply wp_ret, H2]. Qed.

Lemma wp_try_catch {A} (m : M S A) h Q E s :
  wp m Q (λ e, wp (h e) Q E) s → wp (try_catch m h) Q E s.
Proof. unfold wpf, try_catch. by destruct (m s). Qed.

Lemma wp_mono {A} (m : M S A) (Q Q' : A → S → Prop) E E' s :
  wp m Q E s → (∀ a s', Q a s' → Q' a s') → (∀ e s', E e s' → E' e s') → wp m Q' E' s.
Proof. unfold wpf. destruct (m s); auto. Qed.

(** Equations for the result of a call: those of its parts. *)
Lemma bind_ok {A B} {m : M S A} {f : A → M S B} {s s' a} : m s = Ok a s' → (m ≫= f) s = f a s'.
Proof. unfold mbind, M_bind. by intros ->. Qed.

(** A loop rule: an invariant of the body is an invariant of the loop. *)
Lemma wp_for_each {A} (f : A → M S unit) l (I : S → Prop) E s :
  I s → (∀ a s', a ∈ l → I s' → wp (f a) (λ _, I) E s') →
  wp (for_each f l) (λ _, I) E s.
Proof.
  revert s. induction l as [|a l IH]; intros s Hs Hf; [by apply wp_ret|].
  apply wp_bind. eapply wp_mono; [apply Hf; [by left|done]| |done].
  intros [] s' Hs'. apply IH; [done|]. intros. apply Hf; [by right|done].
Qed.

Lemma wp_for_each_single {A} (f : A → M S unit) a Q E s :
  wp (f a) Q E s → wp (for_each f [a]) Q E s.
Proof. intros Hf. apply wp_bind. eapply wp_mono; [exact Hf| |done]. by intros []. Qed.
End Wp.

(** What neither faults nor throws returns. *)
Lemma wp_no_throw_value {S A} (m : M S A) (s : S) (Q : A → S → Prop) :
  wp m Q no_throw s → ∃ a s', m s = Ok a s' ∧ Q a s'.
Proof. unfold wpf. destruct (m s) as [a s'|e s'|f]; [eauto|done..]. Qed.

Lemma wp_no_throw {S} (m : M S unit) s (Q : S → Prop) :
  wp m (λ _, Q) no_throw s → ∃ s', m s = Ok tt s' ∧ Q s'.
Proof. intros (a & s' & Hm & HQ)%wp_no_throw_value. destruct a. by exists s'. Qed.

Lemma wp_equals {S} (m : M S unit) s s1 : wp m (λ _ s', s' = s1) no_throw s → m s = Ok tt s1.
Proof. by intros (s' & -> & ->)%wp_no_throw. Qed.

(** A property of the outcome, whatever it is. *)
Lemma wpf_outcome {S A} (m : M S A) s (P : outcome S A → Prop) :
  wpf (λ f, P (Fault f)) m (λ a s', P (Ok a s')) (λ e s', P (Throw e s')) s → P (m s).
Proof. unfold wpf. by destruct (m s). Qed.

(** [lia] for goals with [Z.div] and [Z.modulo]. *)
Ltac div_lia := Z.div_mod_to_equations; lia.
