(* ===== verification/Typing.v ===== *)
(** * Typed stores

    What every operation keeps, whatever the user does: a predicate on the state,
    and a relation between the state before and after. [keeps m Q w] is partial: it
    says nothing about faults, so that it holds of code that may fault, and it
    speaks of exceptions too, since they leave the state that was reached. *)
From S2P Require Import Prelude.

(** The objects of a state are well formed, and a state has grown out of another. *)
Class StoreTyping (S : Type) := {
  typed : S → Prop;
  extends : S → S → Prop;
  #[global] extends_preorder :: PreOrder extends
}.

Definition keeps {S A} `{StoreTyping S} (m : M S A) (Q : A → S → Prop) (w : S) : Prop :=
  match m w with
  | Ok a w' => typed w' ∧ extends w w' ∧ Q a w'
  | Throw _ w' => typed w' ∧ extends w w'
  | Fault _ => True
  end.

(** Nothing is said about the result. *)
Definition anything {A S} : A → S → Prop := λ _ _, True.
Arguments anything {_ _} _ _ /.

Section Keeps.
Context {S : Type} `{StoreTyping S}.
Implicit Types (w : S).

Lemma keeps_ret {A} (a : A) (Q : A → S → Prop) w : typed w → Q a w → keeps (mret a) Q w.
Proof. intros Ht HQ. unfold keeps. split_and!; [done|reflexivity|done]. Qed.

Lemma keeps_throw {A} e (Q : A → S → Prop) w : typed w → keeps (throw e) Q w.
Proof. intros Ht. split; [done|reflexivity]. Qed.

Lemma keeps_fault {A} f (Q : A → S → Prop) w : keeps (fault_with f) Q w.
Proof. done. Qed.

Lemma keeps_assert b w : typed w → keeps (assert b) anything w.
Proof. destruct b; intros Ht; [by apply keeps_ret|done]. Qed.

Lemma keeps_modify f w : typed (f w) → extends w (f w) → keeps (modify f) anything w.
Proof. intros Ht He. by split_and!. Qed.

(** The state after the first part is as good as any. *)
Lemma keeps_bind {A B} (P : A → S → Prop) (Q : B → S → Prop) (m : M S A) (k : A → M S B) w :
  keeps m P w → (∀ a w', typed w' → extends w w' → P a w' → keeps (k a) Q w') → keeps (m ≫= k) Q w.
Proof.
  unfold keeps, mbind, M_bind. destruct (m w) as [a w'|e w'|f]; [|done..].
  intros (Ht & He & HP) Hk. specialize (Hk a w' Ht He HP).
  destruct (k a w') as [b w2|e w2|f]; [|destruct Hk..|done]; naive_solver (by etrans).
Qed.

Lemma keeps_mono {A} (P Q : A → S → Prop) (m : M S A) w :
  keeps m P w → (∀ a w', typed w' → extends w w' → P a w' → Q a w') → keeps m Q w.
Proof. unfold keeps. destruct (m w); naive_solver. Qed.

Lemma keeps_anything {A} (P : A → S → Prop) (m : M S A) w : keeps m P w → keeps m anything w.
Proof. intros Hm. by eapply keeps_mono. Qed.

Lemma keeps_assoc {A B C} (Q : C → S → Prop) (m : M S A) (k : A → M S B) (h : B → M S C) w :
  keeps (m ≫= λ a, k a ≫= h) Q w → keeps ((m ≫= k) ≫= h) Q w.
Proof. unfold keeps, mbind, M_bind. by destruct (m w). Qed.

(** Code that only reads: the state stays what it is. *)
Lemma keeps_ret_bind {A B} (a : A) (k : A → M S B) Q w : keeps (k a) Q w → keeps (mret a ≫= k) Q w.
Proof. done. Qed.

Lemma keeps_gets {A B} (f : S → A) (k : A → M S B) Q w : keeps (k (f w)) Q w → keeps (gets f ≫= k) Q w.
Proof. done. Qed.

Lemma keeps_gets_tail {A} (f : S → A) (Q : A → S → Prop) w : typed w → Q (f w) w → keeps (gets f) Q w.
Proof. intros Ht HQ. unfold keeps. cbn. split_and!; [done|reflexivity|done]. Qed.

Lemma keeps_deref {A B} (o : option A) (k : A → M S B) Q w :
  (∀ a, o = Some a → keeps (k a) Q w) → keeps (deref o ≫= k) Q w.
Proof. destruct o as [a|]; [|done]. intros Hk. by apply Hk. Qed.

Lemma keeps_deref_tail {A} (o : option A) (Q : A → S → Prop) w :
  typed w → (∀ a, o = Some a → Q a w) → keeps (deref o) Q w.
Proof. destruct o as [a|]; [|done]. intros Ht HQ. apply keeps_ret; [done|by apply HQ]. Qed.

Lemma keeps_assert_bind {B} b (k : unit → M S B) Q w :
  (b = true → keeps (k tt) Q w) → keeps (assert b ≫= k) Q w.
Proof. destruct b; [|done]. intros Hk. by apply Hk. Qed.

Lemma keeps_when b m w : typed w → (b = true → keeps m anything w) → keeps (when b m) anything w.
Proof. destruct b; intros Ht Hm; [by apply Hm|by apply keeps_ret]. Qed.

Lemma keeps_try_catch {A} (Q : A → S → Prop) (m : M S A) h w :
  keeps m Q w → (∀ e w', typed w' → extends w w' → keeps (h e) Q w') → keeps (try_catch m h) Q w.
Proof.
  unfold keeps, try_catch. destruct (m w) as [a w'|e w'|f]; [done| |done].
  intros [Ht He] Hh. specialize (Hh e w' Ht He).
  destruct (h e w') as [b w2|e2 w2|f]; [|destruct Hh..|done]; naive_solver (by etrans).
Qed.

Lemma keeps_for_each {A} (f : A → M S unit) l w :
  typed w → (∀ a w', a ∈ l → typed w' → extends w w' → keeps (f a) anything w') → keeps (for_each f l) anything w.
Proof.
  revert w. induction l as [|a l IH]; intros w Ht Hf; [by apply keeps_ret|].
  apply (keeps_bind anything); [apply Hf; [by left|done|done]|]. intros [] w1 Ht1 He1 _.
  apply IH; [done|]. intros b w2 Hb Ht2 He2. apply Hf; [by right|done|by etrans].
Qed.
End Keeps.

Create HintDb keeps.
Create HintDb grown.

(** *** Walking through code

    One step of a proof of [keeps m Q w]. [known] proves that the state is typed and
    what else is at hand, [lift] carries that over to the next state given that it
    has grown, [call] is for what is not built from the primitives of the monad. *)
Ltac keeps_next lift :=
  let Ht := fresh "Ht" in let He := fresh "He" in intros ? ? Ht He ?; lift He; clear He; cbv beta in *.

Ltac keeps_step known lift call :=
  lazymatch goal with
  | |- keeps ((_ ≫= _) ≫= _) _ _ => apply keeps_assoc
  | |- keeps (mret _ ≫= _) _ _ => apply keeps_ret_bind
  | |- keeps (gets _ ≫= _) _ _ => apply keeps_gets
  | |- keeps (deref _ ≫= _) _ _ => apply keeps_deref; intros ? ?
  | |- keeps (assert _ ≫= _) _ _ => apply keeps_assert_bind; intros _
  | |- keeps (fault_with _ ≫= _) _ _ => exact I
  | |- keeps (when _ _ ≫= _) _ _ => apply (keeps_bind anything); [|keeps_next lift]
  | |- keeps (for_each _ _ ≫= _) _ _ => apply (keeps_bind anything); [|keeps_next lift]
  | |- keeps (match ?x with _ => _ end ≫= _) _ _ => apply (keeps_bind anything); [|keeps_next lift]
  | |- keeps (match ?x with _ => _ end) _ _ => destruct x eqn:?
  | |- keeps (_ ≫= _) _ _ => eapply keeps_bind; [call|keeps_next lift]
  | |- keeps (for_each _ _) _ _ =>
      let He := fresh "He" in apply keeps_for_each; [known|intros ? ? ? ? He; lift He; clear He]
  | |- keeps (mret _) _ _ => apply keeps_ret; [known|try exact I; try known]
  | |- keeps (gets _) _ _ => apply keeps_gets_tail; [known|try exact I; try known]
  | |- keeps (deref _) _ _ => apply keeps_deref_tail; [known|intros ? ?; try exact I; try known]
  | |- keeps (throw _) _ _ => apply keeps_throw; known
  | |- keeps (fault_with _) _ _ => apply keeps_fault
  | |- keeps (assert _) _ _ => apply keeps_assert; known
  | |- keeps (when _ _) _ _ => apply keeps_when; [known|intros _]
  | |- keeps _ _ _ => call
  end; cbv beta.
