(* ===== verification/Errors.v ===== *)
(** * Error codes ([error.h], [error.icc])

    The library's own error enumeration, its messages, and the error values
    the source passes to its callbacks: a code of the library, a standard or
    system code, or a code nested in a library code ([nest_error]). *)
From S2P Require Import Prelude.
Local Open Scope string_scope.

(** [enum class errc]. *)
Inductive errc :=
  | connect_error
  | no_redirect_uri
  | redirection_limit
  | unexpected_redirect
  | transfer_aborted
  | server_stopping
  | pipeline_canceled
  | upgrade_in_pipeline
  | upgrade_wrong_request.

#[export] Instance errc_eq_dec : EqDecision errc.
Proof. solve_decision. Defined.

Definition all_errc : list errc :=
  [connect_error; no_redirect_uri; redirection_limit; unexpected_redirect;
   transfer_aborted; server_stopping; pipeline_canceled; upgrade_in_pipeline;
   upgrade_wrong_request].

(** The enumerators' values: [connect_error = 1] and then one after another. *)
Definition errc_to_int (e : errc) : Z :=
  match e with
  | connect_error => 1
  | no_redirect_uri => 2
  | redirection_limit => 3
  | unexpected_redirect => 4
  | transfer_aborted => 5
  | server_stopping => 6
  | pipeline_canceled => 7
  | upgrade_in_pipeline => 8
  | upgrade_wrong_request => 9
  end.

(** [(errc)condition]: the cast the [switch] of [message] dispatches on; a
    value that is no enumerator reaches none of its cases. *)
Definition errc_of_int (condition : Z) : option errc :=
  find (λ e, bool_decide (errc_to_int e = condition)) all_errc.

(** [ErrorCategory::name]. *)
Definition category_name : string := "unievent-http".

(** [ErrorCategory::message]. *)
Definition message (condition : Z) : string :=
  match errc_of_int condition with
  | Some connect_error => "connect error"
  | Some no_redirect_uri => "server did not return valid Location header in redirection response"
  | Some redirection_limit => "redirection limit exceeded"
  | Some unexpected_redirect => "unexpected redirection response"
  | Some transfer_aborted => "server aborted body transfer by sending final response code"
  | Some server_stopping => "server is stopping"
  | Some pipeline_canceled => "pipelined requests were canceled"
  | Some upgrade_in_pipeline => "received upgrade request in a pipelined http connection"
  | Some upgrade_wrong_request => "this request can't be upgraded"
  | None => EmptyString
  end.

(** The [std::errc] values the source makes errors of. *)
Inductive std_errc :=
  | operation_canceled
  | timed_out
  | connection_reset
  | connection_aborted
  | not_connected.

#[export] Instance std_errc_eq_dec : EqDecision std_errc.
Proof. solve_decision. Defined.

(** [panda::ErrorCode] as the source uses it. A default-constructed code, "no
    error", is [None] of [option ErrorCode]. [SysErr] is a code that comes from
    a library (a socket error, a parser error). *)
Inductive ErrorCode :=
  | HttpErr (e : errc)
  | StdErr (e : std_errc)
  | SysErr (n : Z)
  | Nested (outer : errc) (inner : ErrorCode).

#[export] Instance ErrorCode_eq_dec : EqDecision ErrorCode.
Proof. solve_decision. Defined.

(** [make_error_code(errc)]: the code and the category it belongs to. *)
Definition make_error_code (code : errc) : Z * string := (errc_to_int code, category_name).

(** ** The enumeration and its messages *)

Lemma errc_of_to_int e : errc_of_int (errc_to_int e) = Some e.
Proof. by destruct e. Qed.

(** The codes of the library are told apart by number and by message:
    the value of an enumerator converts back to it, every enumerator has a
    non-empty message that no other value has, and a value that is no
    enumerator has the empty message. *)
Lemma message_identifies_code (e : errc) :
  errc_of_int (make_error_code e).1 = Some e ∧
  message (make_error_code e).1 ≠ EmptyString ∧
  ∀ c : Z, (message c = message (make_error_code e).1 ↔ c = (make_error_code e).1).
Proof.
  split; [apply errc_of_to_int|]. split; [by destruct e|].
  intros c. split; [|by intros ->]. unfold message at 1.
  destruct (errc_of_int c) as [e'|] eqn:He; [|by destruct e].
  apply find_some in He as [_ He]. apply bool_decide_eq_true in He. subst c.
  by destruct e, e'.
Qed.
