(* ===== verification/Date.v ===== *)
(** * The Date header ([Server.cc], [rfc822_date])

    The formatter of RFC 822 dates that [Server::date_header_now] puts into
    every response, and a reference parser against which it is checked. *)
From S2P Require Import Prelude.
From Stdlib Require Import Ascii.
From Stdlib Require String.
Local Open Scope Z_scope.

(** [panda::time::datetime], the fields the formatter reads. *)
Record datetime := mkDate {
  dt_year : Z; dt_mon : Z; dt_mday : Z; dt_wday : Z;
  dt_hour : Z; dt_min : Z; dt_sec : Z
}.

Definition month_snames : list string :=
  ["Jan"; "Feb"; "Mar"; "Apr"; "May"; "Jun"; "Jul"; "Aug"; "Sep"; "Oct"; "Nov"; "Dec"]%string.
Definition day_snames : list string :=
  ["Sun"; "Mon"; "Tue"; "Wed"; "Thu"; "Fri"; "Sat"]%string.

(** [*date_str++ = n + '0'] : an [int] stored into a [char]. *)
Definition digit (n : Z) : ascii := ascii_of_N (Z.to_N ((n + 48) mod 256)).

(** Indexing the name tables is undefined outside of them: [None]. *)
Definition name_at (names : list string) (i : Z) : option string :=
  if 0 <=? i then names !! Z.to_nat i else None.

Definition two_digits (n : Z) : list ascii := [digit (Z.quot n 10); digit (Z.rem n 10)].

Definition four_digits (n : Z) : list ascii :=
  [digit (Z.quot n 1000); digit (Z.quot (Z.rem n 1000) 100);
   digit (Z.quot (Z.rem n 100) 10); digit (Z.rem n 10)].

(** [rfc822_date], after the call of [time::gmtime] that fills [dt]: the
    characters in the order they are stored. *)
Definition rfc822_of_datetime (dt : datetime) : option string :=
  day ← name_at day_snames (dt_wday dt);
  mon ← name_at month_snames (dt_mon dt);
  Some (String.string_of_list_ascii (
    String.list_ascii_of_string day ++ [","; " "]%char ++
    two_digits (dt_mday dt) ++ [" "]%char ++
    String.list_ascii_of_string mon ++ [" "]%char ++
    four_digits (dt_year dt) ++ [" "]%char ++
    two_digits (dt_hour dt) ++ [":"]%char ++
    two_digits (dt_min dt) ++ [":"]%char ++
    two_digits (dt_sec dt) ++ [" "; "G"; "M"; "T"]%char)).

(** [rfc822_date]: [gmtime] is the library's conversion of the epoch. *)
Definition rfc822_date (gmtime : Z → datetime) (epoch : Z) : option string :=
  rfc822_of_datetime (gmtime epoch).

(** ** A reference parser *)

Definition digit_val (c : ascii) : option Z :=
  let n := Z.of_N (N_of_ascii c) - 48 in
  if (0 <=? n) && (n <=? 9) then Some n else None.

Definition num2 (a b : ascii) : option Z :=
  x ← digit_val a; y ← digit_val b; Some (10 * x + y).

Fixpoint name_index (names : list string) (s : string) (i : Z) : option Z :=
  match names with
  | [] => None
  | n :: ns => if String.eqb n s then Some i else name_index ns s (i + 1)
  end.

Definition three (a b c : ascii) : string := String a (String b (String c EmptyString)).

Definition parse_rfc822 (s : string) : option datetime :=
  match String.list_ascii_of_string s with
  | [d1; d2; d3; ","; " "; m1; m2; " "; n1; n2; n3; " "; y1; y2; y3; y4; " ";
     h1; h2; ":"; i1; i2; ":"; s1; s2; " "; "G"; "M"; "T"]%char =>
      wday ← name_index day_snames (three d1 d2 d3) 0;
      mday ← num2 m1 m2;
      mon ← name_index month_snames (three n1 n2 n3) 0;
      hi ← num2 y1 y2; lo ← num2 y3 y4;
      hour ← num2 h1 h2; min ← num2 i1 i2; sec ← num2 s1 s2;
      Some (mkDate (100 * hi + lo) mon mday wday hour min sec)
  | _ => None
  end.

(** A calendar time whose fields are in their ranges, in a four-digit year. *)
Definition date_ok (dt : datetime) : Prop :=
  0 ≤ dt_year dt ≤ 9999 ∧ 0 ≤ dt_mon dt ≤ 11 ∧ 1 ≤ dt_mday dt ≤ 31 ∧
  0 ≤ dt_wday dt ≤ 6 ∧ 0 ≤ dt_hour dt ≤ 23 ∧ 0 ≤ dt_min dt ≤ 59 ∧ 0 ≤ dt_sec dt ≤ 60.

Lemma digit_val_digit n : 0 ≤ n ≤ 9 → digit_val (digit n) = Some n.
Proof.
  intros Hn.
  assert (n = 0 ∨ n = 1 ∨ n = 2 ∨ n = 3 ∨ n = 4 ∨ n = 5 ∨ n = 6 ∨ n = 7 ∨ n = 8 ∨ n = 9)
    as Hin by lia.
  by repeat destruct Hin as [->|Hin]; subst.
Qed.

Lemma num2_digits a b : 0 ≤ a ≤ 9 → 0 ≤ b ≤ 9 → num2 (digit a) (digit b) = Some (10 * a + b).
Proof. intros Ha Hb. unfold num2. by rewrite !digit_val_digit. Qed.

Lemma num2_two_digits n :
  0 ≤ n ≤ 99 → num2 (digit (Z.quot n 10)) (digit (Z.rem n 10)) = Some n.
Proof.
  intros Hn. rewrite Z.quot_div_nonneg, Z.rem_mod_nonneg by lia.
  rewrite num2_digits by div_lia. f_equal. div_lia.
Qed.

(** A name of a table: three letters, found again at its own index. *)
Lemma name_at_spec names i :
  names = month_snames ∨ names = day_snames → 0 ≤ i < Z.of_nat (length names) →
  ∃ a b c, name_at names i = Some (three a b c) ∧ name_index names (three a b c) 0 = Some i.
Proof.
  intros Hn Hi. unfold name_at. rewrite (proj2 (Z.leb_le 0 i)) by lia.
  assert (i = Z.of_nat (Z.to_nat i)) as Ei by lia. revert Ei.
  assert (Z.to_nat i < length names)%nat as Hlt by lia. revert Hlt.
  generalize (Z.to_nat i) as k. intros k Hk ->.
  destruct Hn as [-> | ->];
    repeat (destruct k as [|k]; [by repeat eexists|]); simpl in Hk; lia.
Qed.

(** C37: for a calendar time with a four-digit year, [rfc822_date] yields a
    29-character string, and parsing that string gives the calendar time back:
    no field is truncated, swapped or shifted. *)
Theorem rfc822_date_roundtrip (gmtime : Z → datetime) (epoch : Z) :
  date_ok (gmtime epoch) →
  ∃ s, rfc822_date gmtime epoch = Some s ∧ String.length s = 29%nat ∧
       parse_rfc822 s = Some (gmtime epoch).
Proof.
  intros (Hy & Hmon & Hmd & Hw & Hh & Hmi & Hs). unfold rfc822_date, rfc822_of_datetime.
  destruct (gmtime epoch) as [y mo md wd h mi se]; cbn [dt_year dt_mon dt_mday dt_wday dt_hour dt_min dt_sec] in *.
  destruct (name_at_spec day_snames wd) as (d1 & d2 & d3 & -> & Hd); [by right|simpl; lia|].
  destruct (name_at_spec month_snames mo) as (n1 & n2 & n3 & -> & Hm); [by left|simpl; lia|].
  eexists. split; [reflexivity|]. split; [reflexivity|].
  unfold parse_rfc822. cbn [String.list_ascii_of_string String.string_of_list_ascii app three two_digits four_digits].
  rewrite Hd, Hm, !num2_two_digits by lia.
  rewrite (Z.quot_div_nonneg y), (Z.rem_mod_nonneg y 1000), (Z.rem_mod_nonneg y 100),
    (Z.rem_mod_nonneg y 10), !Z.quot_div_nonneg by div_lia.
  rewrite !num2_digits by div_lia. cbn. do 2 f_equal. div_lia.
Qed.

Lemma rfc822_date_roundtrip_witness :
  let dt := mkDate 2020 0 20 1 20 20 20 in
  date_ok dt ∧ ∃ s, rfc822_date (λ _, dt) 0 = Some s ∧ String.length s = 29%nat ∧
    parse_rfc822 s = Some dt.
Proof.
  assert (date_ok (mkDate 2020 0 20 1 20 20 20)) as Hok by (unfold date_ok; simpl; lia).
  split; [exact Hok|]. exact (rfc822_date_roundtrip (λ _, mkDate 2020 0 20 1 20 20 20) 0 Hok).
Defined.
