(* ===== verification/Proto.v ===== *)
(** * What the source takes from Protocol-HTTP and UniEvent

    The message classes, the request parser and the streams are third-party
    code: they are the fields of the class [HttpProto], and what the source
    relies on about them is the class [HttpProtoLaws]. *)
From S2P Require Import Prelude Errors.
Local Open Scope Z_scope.

(** [protocol::http::State], as far as the source tells its values apart:
    [state <= State::headers], a body state, [State::done], [State::error]
    (which is greater than [State::done]). *)
Inductive proto_state := PsHeaders | PsBody | PsDone | PsError.

#[export] Instance proto_state_eq_dec : EqDecision proto_state.
Proof. solve_decision. Defined.

Definition state_le_headers (s : proto_state) : bool :=
  match s with PsHeaders => true | _ => false end.
Definition state_ge_done (s : proto_state) : bool :=
  match s with PsDone | PsError => true | _ => false end.
Definition state_is_done (s : proto_state) : bool :=
  match s with PsDone => true | _ => false end.

(** The data of a [protocol::http::Response]; [rm_codec] is the library's own
    state in the object (the compressor), opaque here. *)
Record ResMsg (Headers Codec : Type) := mkResMsg {
  rm_code : Z;
  rm_headers : Headers;
  rm_parts : list string;       (* body.parts *)
  rm_chunked : bool;
  rm_http_version : Z;
  rm_message : string;
  rm_codec : Codec
}.
Arguments mkResMsg {_ _}. Arguments rm_code {_ _}. Arguments rm_headers {_ _}.
Arguments rm_parts {_ _}. Arguments rm_chunked {_ _}. Arguments rm_http_version {_ _}.
Arguments rm_message {_ _}. Arguments rm_codec {_ _}.

Section ResMsgSetters.
Context {H C : Type}.
Local Abbreviation T := (ResMsg H C).
#[export] Instance set_rm_code : Setter (R:=T) rm_code := λ f r,
  mkResMsg (f (rm_code r)) (rm_headers r) (rm_parts r) (rm_chunked r) (rm_http_version r) (rm_message r) (rm_codec r).
#[export] Instance set_rm_headers : Setter (R:=T) rm_headers := λ f r,
  mkResMsg (rm_code r) (f (rm_headers r)) (rm_parts r) (rm_chunked r) (rm_http_version r) (rm_message r) (rm_codec r).
#[export] Instance set_rm_parts : Setter (R:=T) rm_parts := λ f r,
  mkResMsg (rm_code r) (rm_headers r) (f (rm_parts r)) (rm_chunked r) (rm_http_version r) (rm_message r) (rm_codec r).
#[export] Instance set_rm_codec : Setter (R:=T) rm_codec := λ f r,
  mkResMsg (rm_code r) (rm_headers r) (rm_parts r) (rm_chunked r) (rm_http_version r) (rm_message r) (f (rm_codec r)).
End ResMsgSetters.

Class HttpProto := {
  (* protocol::http::Headers *)
  Headers : Type;
  headers_empty : Headers;
  headers_has : Headers → string → bool;
  headers_set : Headers → string → string → Headers;
  headers_date : Headers → string → Headers;
  headers_location : Headers → string → Headers;
  headers_connection : Headers → string;
  iequals : string → string → bool;
  (* protocol::http::Request, as parsed *)
  ReqMsg : Type;
  req_empty : ReqMsg;
  req_headers : ReqMsg → Headers;
  req_http_version : ReqMsg → Z;
  req_keep_alive : ReqMsg → bool;
  req_expects_continue : ReqMsg → bool;
  (* protocol::http::Response *)
  Codec : Type;
  codec_init : Codec;
  msg_keep_alive : Headers → Z → bool;            (* keep_alive() *)
  headers_keep_alive : Headers → bool → Headers;  (* keep_alive(bool) *)
  body_length : list string → Z;                  (* body.length() *)
  full_message : ResMsg Headers Codec → string;
  to_vector : ResMsg Headers Codec → ReqMsg → list string * Codec;
  make_chunk : ResMsg Headers Codec → string → list string * Codec;
  final_chunk : ResMsg Headers Codec → string → list string * Codec;
  (* protocol::http::RequestParser *)
  PState : Type;
  parser_init : PState;
  parser_idle : PState → bool;    (* no message is being received *)
  (* limits, parser, buffer -> parser, a new request object was made, message,
     state, error, rest of the buffer *)
  parse_shift : Z * Z → PState → string →
    PState * (bool * ReqMsg * proto_state * option ErrorCode * string)
}.

Abbreviation RMsg := (ResMsg Headers Codec).

(** [Response::keep_alive()]. *)
Definition res_keep_alive `{HttpProto} (m : RMsg) : bool :=
  msg_keep_alive (rm_headers m) (rm_http_version m).

(** What the source relies on. *)
Class HttpProtoLaws `{HttpProto} := {
  (* keep_alive(false) makes keep_alive() false, whatever the version *)
  keep_alive_close : ∀ h v, msg_keep_alive (headers_keep_alive h false) v = false;
  (* a Date header does not change what keep_alive() says *)
  keep_alive_date : ∀ h d v, msg_keep_alive (headers_date h d) v = msg_keep_alive h v;
  (* a body without parts is empty *)
  body_length_nil : body_length [] = 0;
  parser_init_idle : parser_idle parser_init = true;
  (* a request object is made when, and only when, a message starts *)
  parse_shift_new : ∀ lim p buf p' new msg st err rest,
    parse_shift lim p buf = (p', (new, msg, st, err, rest)) → new = parser_idle p;
  (* a message is over when it is done or in error *)
  parse_shift_idle : ∀ lim p buf p' new msg st err rest,
    parse_shift lim p buf = (p', (new, msg, st, err, rest)) →
    parser_idle p' = state_ge_done st;
  (* the error state and a reported error are the same thing *)
  parse_shift_error : ∀ lim p buf p' new msg st err rest,
    parse_shift lim p buf = (p', (new, msg, st, err, rest)) →
    (st = PsError ↔ err ≠ None);
  (* without an error the parser consumes input, and all of it when the
     message is not over *)
  parse_shift_shrinks : ∀ lim p buf p' new msg st rest,
    buf ≠ EmptyString →
    parse_shift lim p buf = (p', (new, msg, st, None, rest)) →
    (String.length rest < String.length buf)%nat ∧
    (st ≠ PsDone → rest = EmptyString)
}.

(** A parser that takes one message: when the message is over, with an error or
    not, what follows it does not matter and is left in the buffer. *)
Class OneMessageParser `{HttpProto} : Prop := {
  parse_shift_more : ∀ lim p buf more p' new msg st err rest,
    buf ≠ EmptyString → state_ge_done st = true →
    parse_shift lim p buf = (p', (new, msg, st, err, rest)) →
    ∃ rest', parse_shift lim p (buf +:+ more) = (p', (new, msg, st, err, rest')) ∧
      (err = None → rest' = rest +:+ more)
}.
