(* ===== verification/ServerState.v ===== *)
(** * The objects of the HTTP server ([ServerRequest.h], [ServerResponse.h],
      [ServerConnection.h], [Server.h])

    Requests and responses are shared, mutable objects: the parser, the
    connection's deque and the user's code hold references to the same one.
    They live in stores indexed by object identity; a raw or smart pointer is an
    identity, a null pointer is [None]. *)
From S2P Require Import Prelude Errors Proto.
Local Open Scope Z_scope.

Abbreviation ReqId := nat (only parsing).
Abbreviation ResId := nat (only parsing).
Abbreviation ConnId := nat (only parsing).

Section Objects.
Context `{HttpProto}.

(** [struct ServerRequest]; [sr_server] says whether [_server] holds the server. *)
Record ServerRequest := mkSReq {
  sr_connection : option ConnId;
  sr_server : bool;
  sr_response : option ResId;
  sr_routed : bool;
  sr_partial : bool;
  sr_finish_on_receive : bool;
  sr_is_done : bool;
  sr_is_secure : bool;
  sr_msg : ReqMsg
}.

(** [struct ServerResponse]. *)
Record ServerResponse := mkSRes {
  rs_request : option ReqId;
  rs_completed : bool;
  rs_msg : RMsg
}.

(** [struct ServerConnection]. The stream's part that the connection controls:
    whether the connection is its event listener, whether reads are ignored
    ([read_ignore]), whether it was disconnected. [sc_limits] are the parser's
    [max_headers_size] and [max_body_size]; [sc_current] is the request object the
    parser is filling. [sc_idle_timer] is null, or whether the timer is active. *)
Record ServerConnection := mkConn {
  sc_id : Z;
  sc_listener : bool;
  sc_ignored : bool;
  sc_disconnected : bool;
  sc_secure : bool;
  sc_factory : bool;
  sc_parser : PState;
  sc_current : option ReqId;
  sc_limits : Z * Z;
  sc_requests : list ReqId;
  sc_requests_processed : Z;
  sc_idle_timeout : Z;
  sc_max_keepalive_requests : Z;
  sc_idle_timer : option bool;
  sc_closing : bool;
  sc_stopping : bool;
  sc_establish_time : Z
}.

(** [struct Server::Location]; an SSL context is identified by its address. *)
Record Location := mkLocation {
  lc_host : string;
  lc_port : Z;
  lc_path : string;
  lc_reuse_port : bool;
  lc_backlog : Z;
  lc_domain : Z;
  lc_tcp_nodelay : bool;
  lc_ssl_ctx : option nat;
  lc_sock : option Z
}.

(** [struct Server::Config]. *)
Record Config := mkConfig {
  cf_locations : list Location;
  cf_idle_timeout : Z;
  cf_max_headers_size : Z;
  cf_max_body_size : Z;
  cf_tcp_nodelay : bool;
  cf_max_keepalive_requests : Z
}.

(** [enum class Server::State]. *)
Inductive SrvState := initial | running | stopping.

(** An element of [_listeners]: whether it is a [Pipe], and its location. *)
Record Listener := mkListener { ls_is_pipe : bool; ls_location : Location }.

(** [struct Server]; [_connections] maps an id to the connection object. *)
Record Server := mkServer {
  sv_factory : bool;
  sv_conf : Config;
  sv_listeners : list Listener;
  sv_state : SrvState;
  sv_connections : gmap Z ConnId;
  sv_hdate_time : Z;
  sv_hdate_str : string
}.

(** The callbacks of the library: [route_event], [request_event], [error_event],
    [run_event], [stop_event], [connect_event] of the server and [receive_event],
    [partial_event], [drop_event], [finish_event] of a request. *)
Inductive Event :=
  | EvRoute (r : ReqId)
  | EvRequest (r : ReqId)
  | EvError (r : ReqId) (err : option ErrorCode)
  | EvRun
  | EvStop
  | EvConnect (c : ConnId)
  | EvReceive (r : ReqId)
  | EvPartial (r : ReqId) (err : option ErrorCode)
  | EvDrop (r : ReqId) (err : option ErrorCode)
  | EvFinish (r : ReqId).

(** What a connection writes into its stream, tagged with the statement that
    writes it: a response head (with the body that is known), a chunk, the
    final chunk, an interim 100. *)
Inductive Wire :=
  | WHead (r : ReqId) (s : ResId) (data : list string)
  | WChunk (s : ResId) (data : list string)
  | WFinal (s : ResId) (data : list string)
  | WContinue (r : ReqId) (data : string).

(** The observable actions, in the log newest first: the calls made on the
    streams, the timers started, the callbacks called, and [OArrive], which marks
    the moment a request enters a connection's deque. *)
Inductive Obs :=
  | OWrite (c : ConnId) (x : Wire)
  | OReadIgnore (c : ConnId)
  | OShutdown (c : ConnId)
  | ODisconnect (c : ConnId)
  | OReset (c : ConnId)
  | OTimerOnce (c : ConnId) (ms : Z)
  | OTimerStop (c : ConnId)
  | OEvent (ev : Event)
  | OArrive (c : ConnId) (r : ReqId)
  | OListen (l : Location)
  | OUnlink (path : string).

(** The whole state: the object stores, the server, the static [lastid], the
    loop's time [ms], the wall clock [s], the connection whose [on_read] is running
    and holds it, and the log. *)
Record World := mkWorld {
  w_reqs : gmap nat ServerRequest;
  w_ress : gmap nat ServerResponse;
  w_conns : gmap nat ServerConnection;
  w_server : Server;
  w_lastid : Z;
  w_now : Z;
  w_time : Z;
  w_held : option ConnId;
  w_log : list Obs
}.

#[export] Instance set_sr_connection : Setter sr_connection := λ g r,
  mkSReq (g (sr_connection r)) (sr_server r) (sr_response r) (sr_routed r) (sr_partial r)
    (sr_finish_on_receive r) (sr_is_done r) (sr_is_secure r) (sr_msg r).
#[export] Instance set_sr_server : Setter sr_server := λ g r,
  mkSReq (sr_connection r) (g (sr_server r)) (sr_response r) (sr_routed r) (sr_partial r)
    (sr_finish_on_receive r) (sr_is_done r) (sr_is_secure r) (sr_msg r).
#[export] Instance set_sr_response : Setter sr_response := λ g r,
  mkSReq (sr_connection r) (sr_server r) (g (sr_response r)) (sr_routed r) (sr_partial r)
    (sr_finish_on_receive r) (sr_is_done r) (sr_is_secure r) (sr_msg r).
#[export] Instance set_sr_routed : Setter sr_routed := λ g r,
  mkSReq (sr_connection r) (sr_server r) (sr_response r) (g (sr_routed r)) (sr_partial r)
    (sr_finish_on_receive r) (sr_is_done r) (sr_is_secure r) (sr_msg r).
#[export] Instance set_sr_partial : Setter sr_partial := λ g r,
  mkSReq (sr_connection r) (sr_server r) (sr_response r) (sr_routed r) (g (sr_partial r))
    (sr_finish_on_receive r) (sr_is_done r) (sr_is_secure r) (sr_msg r).
#[export] Instance set_sr_finish_on_receive : Setter sr_finish_on_receive := λ g r,
  mkSReq (sr_connection r) (sr_server r) (sr_response r) (sr_routed r) (sr_partial r) (g
    (sr_finish_on_receive r)) (sr_is_done r) (sr_is_secure r) (sr_msg r).
#[export] Instance set_sr_is_done : Setter sr_is_done := λ g r,
  mkSReq (sr_connection r) (sr_server r) (sr_response r) (sr_routed r) (sr_partial r)
    (sr_finish_on_receive r) (g (sr_is_done r)) (sr_is_secure r) (sr_msg r).
#[export] Instance set_sr_is_secure : Setter sr_is_secure := λ g r,
  mkSReq (sr_connection r) (sr_server r) (sr_response r) (sr_routed r) (sr_partial r)
    (sr_finish_on_receive r) (sr_is_done r) (g (sr_is_secure r)) (sr_msg r).
#[export] Instance set_sr_msg : Setter sr_msg := λ g r,
  mkSReq (sr_connection r) (sr_server r) (sr_response r) (sr_routed r) (sr_partial r)
    (sr_finish_on_receive r) (sr_is_done r) (sr_is_secure r) (g (sr_msg r)).
#[export] Instance set_rs_request : Setter rs_request := λ g r,
  mkSRes (g (rs_request r)) (rs_completed r) (rs_msg r).
#[export] Instance set_rs_completed : Setter rs_completed := λ g r,
  mkSRes (rs_request r) (g (rs_completed r)) (rs_msg r).
#[export] Instance set_rs_msg : Setter rs_msg := λ g r,
  mkSRes (rs_request r) (rs_completed r) (g (rs_msg r)).
#[export] Instance set_sc_id : Setter sc_id := λ g r,
  mkConn (g (sc_id r)) (sc_listener r) (sc_ignored r) (sc_disconnected r) (sc_secure r)
    (sc_factory r) (sc_parser r) (sc_current r) (sc_limits r) (sc_requests r)
    (sc_requests_processed r) (sc_idle_timeout r) (sc_max_keepalive_requests r) (sc_idle_timer r)
    (sc_closing r) (sc_stopping r) (sc_establish_time r).
#[export] Instance set_sc_listener : Setter sc_listener := λ g r,
  mkConn (sc_id r) (g (sc_listener r)) (sc_ignored r) (sc_disconnected r) (sc_secure r)
    (sc_factory r) (sc_parser r) (sc_current r) (sc_limits r) (sc_requests r)
    (sc_requests_processed r) (sc_idle_timeout r) (sc_max_keepalive_requests r) (sc_idle_timer r)
    (sc_closing r) (sc_stopping r) (sc_establish_time r).
#[export] Instance set_sc_ignored : Setter sc_ignored := λ g r,
  mkConn (sc_id r) (sc_listener r) (g (sc_ignored r)) (sc_disconnected r) (sc_secure r)
    (sc_factory r) (sc_parser r) (sc_current r) (sc_limits r) (sc_requests r)
    (sc_requests_processed r) (sc_idle_timeout r) (sc_max_keepalive_requests r) (sc_idle_timer r)
    (sc_closing r) (sc_stopping r) (sc_establish_time r).
#[export] Instance set_sc_disconnected : Setter sc_disconnected := λ g r,
  mkConn (sc_id r) (sc_listener r) (sc_ignored r) (g (sc_disconnected r)) (sc_secure r)
    (sc_factory r) (sc_parser r) (sc_current r) (sc_limits r) (sc_requests r)
    (sc_requests_processed r) (sc_idle_timeout r) (sc_max_keepalive_requests r) (sc_idle_timer r)
    (sc_closing r) (sc_stopping r) (sc_establish_time r).
#[export] Instance set_sc_secure : Setter sc_secure := λ g r,
  mkConn (sc_id r) (sc_listener r) (sc_ignored r) (sc_disconnected r) (g (sc_secure r))
    (sc_factory r) (sc_parser r) (sc_current r) (sc_limits r) (sc_requests r)
    (sc_requests_processed r) (sc_idle_timeout r) (sc_max_keepalive_requests r) (sc_idle_timer r)
    (sc_closing r) (sc_stopping r) (sc_establish_time r).
#[export] Instance set_sc_factory : Setter sc_factory := λ g r,
  mkConn (sc_id r) (sc_listener r) (sc_ignored r) (sc_disconnected r) (sc_secure r) (g
    (sc_factory r)) (sc_parser r) (sc_current r) (sc_limits r) (sc_requests r)
    (sc_requests_processed r) (sc_idle_timeout r) (sc_max_keepalive_requests r) (sc_idle_timer r)
    (sc_closing r) (sc_stopping r) (sc_establish_time r).
#[export] Instance set_sc_parser : Setter sc_parser := λ g r,
  mkConn (sc_id r) (sc_listener r) (sc_ignored r) (sc_disconnected r) (sc_secure r) (sc_factory r)
    (g (sc_parser r)) (sc_current r) (sc_limits r) (sc_requests r) (sc_requests_processed r)
    (sc_idle_timeout r) (sc_max_keepalive_requests r) (sc_idle_timer r) (sc_closing r)
    (sc_stopping r) (sc_establish_time r).
#[export] Instance set_sc_current : Setter sc_current := λ g r,
  mkConn (sc_id r) (sc_listener r) (sc_ignored r) (sc_disconnected r) (sc_secure r) (sc_factory r)
    (sc_parser r) (g (sc_current r)) (sc_limits r) (sc_requests r) (sc_requests_processed r)
    (sc_idle_timeout r) (sc_max_keepalive_requests r) (sc_idle_timer r) (sc_closing r)
    (sc_stopping r) (sc_establish_time r).
#[export] Instance set_sc_limits : Setter sc_limits := λ g r,
  mkConn (sc_id r) (sc_listener r) (sc_ignored r) (sc_disconnected r) (sc_secure r) (sc_factory r)
    (sc_parser r) (sc_current r) (g (sc_limits r)) (sc_requests r) (sc_requests_processed r)
    (sc_idle_timeout r) (sc_max_keepalive_requests r) (sc_idle_timer r) (sc_closing r)
    (sc_stopping r) (sc_establish_time r).
#[export] Instance set_sc_requests : Setter sc_requests := λ g r,
  mkConn (sc_id r) (sc_listener r) (sc_ignored r) (sc_disconnected r) (sc_secure r) (sc_factory r)
    (sc_parser r) (sc_current r) (sc_limits r) (g (sc_requests r)) (sc_requests_processed r)
    (sc_idle_timeout r) (sc_max_keepalive_requests r) (sc_idle_timer r) (sc_closing r)
    (sc_stopping r) (sc_establish_time r).
#[export] Instance set_sc_requests_processed : Setter sc_requests_processed := λ g r,
  mkConn (sc_id r) (sc_listener r) (sc_ignored r) (sc_disconnected r) (sc_secure r) (sc_factory r)
    (sc_parser r) (sc_current r) (sc_limits r) (sc_requests r) (g (sc_requests_processed r))
    (sc_idle_timeout r) (sc_max_keepalive_requests r) (sc_idle_timer r) (sc_closing r)
    (sc_stopping r) (sc_establish_time r).
#[export] Instance set_sc_idle_timeout : Setter sc_idle_timeout := λ g r,
  mkConn (sc_id r) (sc_listener r) (sc_ignored r) (sc_disconnected r) (sc_secure r) (sc_factory r)
    (sc_parser r) (sc_current r) (sc_limits r) (sc_requests r) (sc_requests_processed r) (g
    (sc_idle_timeout r)) (sc_max_keepalive_requests r) (sc_idle_timer r) (sc_closing r)
    (sc_stopping r) (sc_establish_time r).
#[export] Instance set_sc_max_keepalive_requests : Setter sc_max_keepalive_requests := λ g r,
  mkConn (sc_id r) (sc_listener r) (sc_ignored r) (sc_disconnected r) (sc_secure r) (sc_factory r)
    (sc_parser r) (sc_current r) (sc_limits r) (sc_requests r) (sc_requests_processed r)
    (sc_idle_timeout r) (g (sc_max_keepalive_requests r)) (sc_idle_timer r) (sc_closing r)
    (sc_stopping r) (sc_establish_time r).
#[export] Instance set_sc_idle_timer : Setter sc_idle_timer := λ g r,
  mkConn (sc_id r) (sc_listener r) (sc_ignored r) (sc_disconnected r) (sc_secure r) (sc_factory r)
    (sc_parser r) (sc_current r) (sc_limits r) (sc_requests r) (sc_requests_processed r)
    (sc_idle_timeout r) (sc_max_keepalive_requests r) (g (sc_idle_timer r)) (sc_closing r)
    (sc_stopping r) (sc_establish_time r).
#[export] Instance set_sc_closing : Setter sc_closing := λ g r,
  mkConn (sc_id r) (sc_listener r) (sc_ignored r) (sc_disconnected r) (sc_secure r) (sc_factory r)
    (sc_parser r) (sc_current r) (sc_limits r) (sc_requests r) (sc_requests_processed r)
    (sc_idle_timeout r) (sc_max_keepalive_requests r) (sc_idle_timer r) (g (sc_closing r))
    (sc_stopping r) (sc_establish_time r).
#[export] Instance set_sc_stopping : Setter sc_stopping := λ g r,
  mkConn (sc_id r) (sc_listener r) (sc_ignored r) (sc_disconnected r) (sc_secure r) (sc_factory r)
    (sc_parser r) (sc_current r) (sc_limits r) (sc_requests r) (sc_requests_processed r)
    (sc_idle_timeout r) (sc_max_keepalive_requests r) (sc_idle_timer r) (sc_closing r) (g
    (sc_stopping r)) (sc_establish_time r).
#[export] Instance set_sc_establish_time : Setter sc_establish_time := λ g r,
  mkConn (sc_id r) (sc_listener r) (sc_ignored r) (sc_disconnected r) (sc_secure r) (sc_factory r)
    (sc_parser r) (sc_current r) (sc_limits r) (sc_requests r) (sc_requests_processed r)
    (sc_idle_timeout r) (sc_max_keepalive_requests r) (sc_idle_timer r) (sc_closing r)
    (sc_stopping r) (g (sc_establish_time r)).
#[export] Instance set_lc_host : Setter lc_host := λ g r,
  mkLocation (g (lc_host r)) (lc_port r) (lc_path r) (lc_reuse_port r) (lc_backlog r)
    (lc_domain r) (lc_tcp_nodelay r) (lc_ssl_ctx r) (lc_sock r).
#[export] Instance set_lc_port : Setter lc_port := λ g r,
  mkLocation (lc_host r) (g (lc_port r)) (lc_path r) (lc_reuse_port r) (lc_backlog r)
    (lc_domain r) (lc_tcp_nodelay r) (lc_ssl_ctx r) (lc_sock r).
#[export] Instance set_lc_path : Setter lc_path := λ g r,
  mkLocation (lc_host r) (lc_port r) (g (lc_path r)) (lc_reuse_port r) (lc_backlog r)
    (lc_domain r) (lc_tcp_nodelay r) (lc_ssl_ctx r) (lc_sock r).
#[export] Instance set_lc_reuse_port : Setter lc_reuse_port := λ g r,
  mkLocation (lc_host r) (lc_port r) (lc_path r) (g (lc_reuse_port r)) (lc_backlog r)
    (lc_domain r) (lc_tcp_nodelay r) (lc_ssl_ctx r) (lc_sock r).
#[export] Instance set_lc_backlog : Setter lc_backlog := λ g r,
  mkLocation (lc_host r) (lc_port r) (lc_path r) (lc_reuse_port r) (g (lc_backlog r))
    (lc_domain r) (lc_tcp_nodelay r) (lc_ssl_ctx r) (lc_sock r).
#[export] Instance set_lc_domain : Setter lc_domain := λ g r,
  mkLocation (lc_host r) (lc_port r) (lc_path r) (lc_reuse_port r) (lc_backlog r) (g
    (lc_domain r)) (lc_tcp_nodelay r) (lc_ssl_ctx r) (lc_sock r).
#[export] Instance set_lc_tcp_nodelay : Setter lc_tcp_nodelay := λ g r,
  mkLocation (lc_host r) (lc_port r) (lc_path r) (lc_reuse_port r) (lc_backlog r) (lc_domain r) (g
    (lc_tcp_nodelay r)) (lc_ssl_ctx r) (lc_sock r).
#[export] Instance set_lc_ssl_ctx : Setter lc_ssl_ctx := λ g r,
  mkLocation (lc_host r) (lc_port r) (lc_path r) (lc_reuse_port r) (lc_backlog r) (lc_domain r)
    (lc_tcp_nodelay r) (g (lc_ssl_ctx r)) (lc_sock r).
#[export] Instance set_lc_sock : Setter lc_sock := λ g r,
  mkLocation (lc_host r) (lc_port r) (lc_path r) (lc_reuse_port r) (lc_backlog r) (lc_domain r)
    (lc_tcp_nodelay r) (lc_ssl_ctx r) (g (lc_sock r)).
#[export] Instance set_cf_locations : Setter cf_locations := λ g r,
  mkConfig (g (cf_locations r)) (cf_idle_timeout r) (cf_max_headers_size r) (cf_max_body_size r)
    (cf_tcp_nodelay r) (cf_max_keepalive_requests r).
#[export] Instance set_cf_idle_timeout : Setter cf_idle_timeout := λ g r,
  mkConfig (cf_locations r) (g (cf_idle_timeout r)) (cf_max_headers_size r) (cf_max_body_size r)
    (cf_tcp_nodelay r) (cf_max_keepalive_requests r).
#[export] Instance set_cf_max_headers_size : Setter cf_max_headers_size := λ g r,
  mkConfig (cf_locations r) (cf_idle_timeout r) (g (cf_max_headers_size r)) (cf_max_body_size r)
    (cf_tcp_nodelay r) (cf_max_keepalive_requests r).
#[export] Instance set_cf_max_body_size : Setter cf_max_body_size := λ g r,
  mkConfig (cf_locations r) (cf_idle_timeout r) (cf_max_headers_size r) (g (cf_max_body_size r))
    (cf_tcp_nodelay r) (cf_max_keepalive_requests r).
#[export] Instance set_cf_tcp_nodelay : Setter cf_tcp_nodelay := λ g r,
  mkConfig (cf_locations r) (cf_idle_timeout r) (cf_max_headers_size r) (cf_max_body_size r) (g
    (cf_tcp_nodelay r)) (cf_max_keepalive_requests r).
#[export] Instance set_cf_max_keepalive_requests : Setter cf_max_keepalive_requests := λ g r,
  mkConfig (cf_locations r) (cf_idle_timeout r) (cf_max_headers_size r) (cf_max_body_size r)
    (cf_tcp_nodelay r) (g (cf_max_keepalive_requests r)).
#[export] Instance set_sv_factory : Setter sv_factory := λ g r,
  mkServer (g (sv_factory r)) (sv_conf r) (sv_listeners r) (sv_state r) (sv_connections r)
    (sv_hdate_time r) (sv_hdate_str r).
#[export] Instance set_sv_conf : Setter sv_conf := λ g r,
  mkServer (sv_factory r) (g (sv_conf r)) (sv_listeners r) (sv_state r) (sv_connections r)
    (sv_hdate_time r) (sv_hdate_str r).
#[export] Instance set_sv_listeners : Setter sv_listeners := λ g r,
  mkServer (sv_factory r) (sv_conf r) (g (sv_listeners r)) (sv_state r) (sv_connections r)
    (sv_hdate_time r) (sv_hdate_str r).
#[export] Instance set_sv_state : Setter sv_state := λ g r,
  mkServer (sv_factory r) (sv_conf r) (sv_listeners r) (g (sv_state r)) (sv_connections r)
    (sv_hdate_time r) (sv_hdate_str r).
#[export] Instance set_sv_connections : Setter sv_connections := λ g r,
  mkServer (sv_factory r) (sv_conf r) (sv_listeners r) (sv_state r) (g (sv_connections r))
    (sv_hdate_time r) (sv_hdate_str r).
#[export] Instance set_sv_hdate_time : Setter sv_hdate_time := λ g r,
  mkServer (sv_factory r) (sv_conf r) (sv_listeners r) (sv_state r) (sv_connections r) (g
    (sv_hdate_time r)) (sv_hdate_str r).
#[export] Instance set_sv_hdate_str : Setter sv_hdate_str := λ g r,
  mkServer (sv_factory r) (sv_conf r) (sv_listeners r) (sv_state r) (sv_connections r)
    (sv_hdate_time r) (g (sv_hdate_str r)).
#[export] Instance set_w_reqs : Setter w_reqs := λ g r,
  mkWorld (g (w_reqs r)) (w_ress r) (w_conns r) (w_server r) (w_lastid r) (w_now r) (w_time r) (w_held r)
    (w_log r).
#[export] Instance set_w_ress : Setter w_ress := λ g r,
  mkWorld (w_reqs r) (g (w_ress r)) (w_conns r) (w_server r) (w_lastid r) (w_now r) (w_time r) (w_held r)
    (w_log r).
#[export] Instance set_w_conns : Setter w_conns := λ g r,
  mkWorld (w_reqs r) (w_ress r) (g (w_conns r)) (w_server r) (w_lastid r) (w_now r) (w_time r) (w_held r)
    (w_log r).
#[export] Instance set_w_server : Setter w_server := λ g r,
  mkWorld (w_reqs r) (w_ress r) (w_conns r) (g (w_server r)) (w_lastid r) (w_now r) (w_time r) (w_held r)
    (w_log r).
#[export] Instance set_w_lastid : Setter w_lastid := λ g r,
  mkWorld (w_reqs r) (w_ress r) (w_conns r) (w_server r) (g (w_lastid r)) (w_now r) (w_time r) (w_held r)
    (w_log r).
#[export] Instance set_w_now : Setter w_now := λ g r,
  mkWorld (w_reqs r) (w_ress r) (w_conns r) (w_server r) (w_lastid r) (g (w_now r)) (w_time r) (w_held r)
    (w_log r).
#[export] Instance set_w_time : Setter w_time := λ g r,
  mkWorld (w_reqs r) (w_ress r) (w_conns r) (w_server r) (w_lastid r) (w_now r) (g (w_time r)) (w_held r)
    (w_log r).
#[export] Instance set_w_held : Setter w_held := λ g r,
  mkWorld (w_reqs r) (w_ress r) (w_conns r) (w_server r) (w_lastid r) (w_now r) (w_time r) (g (w_held r))
    (w_log r).
#[export] Instance set_w_log : Setter w_log := λ g r,
  mkWorld (w_reqs r) (w_ress r) (w_conns r) (w_server r) (w_lastid r) (w_now r) (w_time r) (w_held r)
    (g (w_log r)).

End Objects.
