(* ===== verification/ServerOps.v ===== *)
(** * The store operations and the parts of [Server] a connection calls
      ([Server.h], [Server.cc])

    Access to the object stores, the log, the callback dispatchers, and the three
    operations of the server that a connection uses: [remove], [_stop_if_done]
    and [date_header_now]. *)
From S2P Require Import Prelude Errors Date Proto ServerState.
Local Open Scope Z_scope.

(** The event loop and the standard library, as the server sees them. *)
Class Env := {
  (* Stream::write_queue_size() of a connection's stream, given what happened *)
  write_queue_size : ConnId → list Obs → Z;
  (* panda::time::gmtime *)
  gmtime : Z → datetime;
  (* unievent::getsockname of a socket: the path of a unix socket, or an inet
     address; None when the call fails *)
  getsockname : Z → option (option string);
  (* what open, bind or listen throws for a location, given what happened *)
  listen_error : Location → list Obs → option exn;
  (* sockname() of a listening pipe *)
  pipe_sockname : Location → option string
}.

(** The documented ranges of [gmtime]'s fields, as array indices. *)
Class EnvLaws `{Env} := {
  gmtime_wday : ∀ t, 0 ≤ dt_wday (gmtime t) ≤ 6;
  gmtime_mon : ∀ t, 0 ≤ dt_mon (gmtime t) ≤ 11
}.

(** The user's code: the listeners of the callback dispatchers, and the
    factory of request objects. *)
Class Callbacks `{HttpProto} := {
  fire : Event → M World unit;
  factory_new_request : ConnId → M World ReqId
}.

Section Store.
Context `{HttpProto}.

Definition log (o : Obs) : M World unit := modify (λ w, w <| w_log ::= cons o |>).

Definition get_req (r : ReqId) : M World ServerRequest :=
  o ← gets (λ w, w_reqs w !! r); deref o.
Definition get_res (s : ResId) : M World ServerResponse :=
  o ← gets (λ w, w_ress w !! s); deref o.
Definition get_conn (c : ConnId) : M World ServerConnection :=
  o ← gets (λ w, w_conns w !! c); deref o.
Definition get_server : M World Server := gets w_server.

Definition mod_req (r : ReqId) (f : ServerRequest → ServerRequest) : M World unit :=
  modify (λ w, w <| w_reqs ::= alter f r |>).
Definition mod_res (s : ResId) (f : ServerResponse → ServerResponse) : M World unit :=
  modify (λ w, w <| w_ress ::= alter f s |>).
Definition mod_conn (c : ConnId) (f : ServerConnection → ServerConnection) : M World unit :=
  modify (λ w, w <| w_conns ::= alter f c |>).
Definition mod_server (f : Server → Server) : M World unit :=
  modify (λ w, w <| w_server ::= f |>).

(** [new ServerRequest(conn)], [new ServerResponse(...)]: a fresh object. *)
Definition fresh_key {A} (m : gmap nat A) : nat :=
  S (map_fold (λ k _ n, Nat.max k n) 0%nat m).
Definition alloc_req (x : ServerRequest) : M World ReqId :=
  r ← gets (λ w, fresh_key (w_reqs w));
  modify (λ w, w <| w_reqs ::= <[r := x]> |>) ;; mret r.
Definition alloc_res (x : ServerResponse) : M World ResId :=
  s ← gets (λ w, fresh_key (w_ress w));
  modify (λ w, w <| w_ress ::= <[s := x]> |>) ;; mret s.
Definition alloc_conn (x : ServerConnection) : M World ConnId :=
  c ← gets (λ w, fresh_key (w_conns w));
  modify (λ w, w <| w_conns ::= <[c := x]> |>) ;; mret c.

End Store.

Section ServerPart.
Context `{HttpProto} `{Env} `{!Callbacks}.

(** Calling a [CallbackDispatcher]: the user's listeners run. *)
Definition emit (ev : Event) : M World unit := log (OEvent ev) ;; fire ev.

(** [Server::_stop_if_done]. *)
Definition stop_if_done : M World unit :=
  srv ← get_server;
  assert (match sv_state srv with stopping => true | _ => false end) ;;
  if Nat.eqb (size (sv_connections srv)) 0
  then mod_server (λ s, s <| sv_state := initial |>) ;; emit EvStop
  else mret tt.

(** [Server::remove]. *)
Definition remove (c : ConnId) : M World unit :=
  conn ← get_conn c;
  mod_server (λ s, s <| sv_connections ::= delete (sc_id conn) |>) ;;
  srv ← get_server;
  match sv_state srv with stopping => stop_if_done | _ => mret tt end.

(** [Server::date_header_now]: the header's text is made at most once a second. *)
Definition date_header_now : M World string :=
  srv ← get_server;
  now ← gets w_now;
  (if (sv_hdate_time srv =? 0) || (sv_hdate_time srv <=? u64 (now - 1000))
   then
     mod_server (λ s, s <| sv_hdate_time := now |>) ;;
     t ← gets w_time;
     match rfc822_date gmtime t with
     | Some str => mod_server (λ s, s <| sv_hdate_str := str |>)
     | None => fault_with OutOfBounds
     end
   else mret tt) ;;
  srv ← get_server;
  mret (sv_hdate_str srv).

End ServerPart.
