(* ===== verification/ServerConn.v ===== *)
(** * A connection of the server ([ServerConnection.cc], [ServerRequest.icc],
      [ServerResponse.icc])

    The operations of [ServerConnection], one definition per method, and the
    methods of requests and responses that delegate to it. [fuel] bounds the loops
    of the model; [ServerSafety] shows that a bound on the number of queued
    requests is enough. *)
From S2P Require Import Prelude Errors Date Proto ServerState ServerOps.
From Stdlib Require Import Ascii.
Local Open Scope Z_scope.

Section Connection.
Context `{HttpProto} `{Env} `{!Callbacks}.
Context (fuel : nat).

(** ** The stream *)

Definition stream_write (c : ConnId) (x : Wire) : M World unit := log (OWrite c x).
Definition read_ignore (c : ConnId) : M World unit :=
  log (OReadIgnore c) ;; mod_conn c (λ k, k <| sc_ignored := true |>).
Definition unlisten (c : ConnId) : M World unit :=
  mod_conn c (λ k, k <| sc_listener := false |>).

(** [if (idle_timer) idle_timer->stop()]. *)
Definition stop_idle_timer (c : ConnId) : M World unit :=
  conn ← get_conn c;
  match sc_idle_timer conn with
  | Some _ => log (OTimerStop c) ;; mod_conn c (λ k, k <| sc_idle_timer := Some false |>)
  | None => mret tt
  end.

(** [idle_timer->once(idle_timeout)]. *)
Definition start_idle_timer (c : ConnId) : M World unit :=
  conn ← get_conn c;
  log (OTimerOnce c (sc_idle_timeout conn)) ;;
  mod_conn c (λ k, k <| sc_idle_timer := Some true |>).

(** [requests.front()]. *)
Definition front (c : ConnId) : M World ReqId :=
  conn ← get_conn c;
  match sc_requests conn with
  | r :: _ => mret r
  | [] => fault_with EmptyFront
  end.

(** [ServerConnection::ServerConnection]. *)
Definition new_connection (id : Z) (factory secure : bool) (conf : Config) : M World ConnId :=
  now ← gets w_now;
  c ← alloc_conn {|
    sc_id := id; sc_listener := true; sc_ignored := false; sc_disconnected := false;
    sc_secure := secure; sc_factory := factory;
    sc_parser := parser_init; sc_current := None;
    sc_limits := (cf_max_headers_size conf, cf_max_body_size conf);
    sc_requests := []; sc_requests_processed := 0;
    sc_idle_timeout := cf_idle_timeout conf;
    sc_max_keepalive_requests := cf_max_keepalive_requests conf;
    sc_idle_timer := None; sc_closing := false; sc_stopping := false;
    sc_establish_time := now |};
  (if negb (cf_idle_timeout conf =? 0) then start_idle_timer c else mret tt) ;;
  mret c.

(** [ServerRequest::ServerRequest(conn)]. *)
Definition new_ServerRequest (c : ConnId) : M World ReqId :=
  conn ← get_conn c;
  alloc_req {|
    sr_connection := Some c; sr_server := false; sr_response := None;
    sr_routed := false; sr_partial := false; sr_finish_on_receive := false;
    sr_is_done := false; sr_is_secure := sc_secure conn; sr_msg := req_empty |}.

(** [ServerConnection::new_request]. *)
Definition new_request (c : ConnId) : M World ReqId :=
  conn ← get_conn c;
  if sc_factory conn then factory_new_request c else new_ServerRequest c.

(** [requests.emplace_back(req)]. *)
Definition emplace_back (c : ConnId) (r : ReqId) : M World unit :=
  mod_conn c (λ k, k <| sc_requests ::= λ l, l ++ [r] |>) ;; log (OArrive c r).

(** ** Finishing requests *)

(** [ServerConnection::check_if_idle]. *)
Definition check_if_idle (c : ConnId) : M World unit :=
  conn ← get_conn c;
  match sc_requests conn with
  | [] =>
      active ← deref (sc_idle_timer conn);
      wq ← gets (λ w, write_queue_size c (w_log w));
      if negb active && (wq =? 0) then start_idle_timer c else mret tt
  | _ :: _ => mret tt
  end.

(** [ServerConnection::cleanup_request]. *)
Definition cleanup_request (c : ConnId) : M World unit :=
  r ← front c;
  mod_req r (λ q, q <| sr_connection := None |> <| sr_server := false |>) ;;
  mod_conn c (λ k, k <| sc_requests ::= tail |>) ;;
  emit (EvFinish r).

(** [req->_response && req->_response->_completed]. *)
Definition response_completed (req : ServerRequest) : M World bool :=
  match sr_response req with
  | Some s => res ← get_res s; mret (rs_completed res)
  | None => mret false
  end.

(** The notification of one dropped request, in [ServerConnection::drop_requests]. *)
Definition notify_dropped (r : ReqId) (err : option ErrorCode) : M World unit :=
  req ← get_req r;
  if negb (sr_is_done req) then
    if sr_partial req then emit (EvPartial r err) else emit (EvError r err)
  else
    completed ← response_completed req;
    if (completed : bool) then mret tt else emit (EvDrop r err).

(** [ServerConnection::drop_requests]. *)
Fixpoint drop_requests (n : nat) (c : ConnId) (err : option ErrorCode) : M World unit :=
  conn ← get_conn c;
  match sc_requests conn with
  | [] => mret tt
  | r :: _ =>
      match n with
      | O => fault_with OutOfFuel
      | S n' =>
          cleanup_request c ;;
          notify_dropped r err ;;
          drop_requests n' c err
      end
  end.

(** [ServerConnection::do_close]. *)
Definition do_close (c : ConnId) (err : option ErrorCode) (soft : bool) : M World unit :=
  (if soft then
     log (OShutdown c) ;;
     log (ODisconnect c) ;; mod_conn c (λ k, k <| sc_disconnected := true |>)
   else
     stop_idle_timer c ;;
     unlisten c ;;
     log (OReset c)) ;;
  drop_requests fuel c err ;;
  when (negb soft) (remove c).

Definition close (c : ConnId) (err : option ErrorCode) : M World unit := do_close c err false.
Definition shutdown (c : ConnId) (err : option ErrorCode) : M World unit := do_close c err true.

(** [ServerConnection::graceful_stop]. *)
Definition conn_graceful_stop (c : ConnId) : M World unit :=
  conn ← get_conn c;
  match sc_requests conn with
  | [] => shutdown c (Some (HttpErr server_stopping))
  | _ :: _ => mod_conn c (λ k, k <| sc_stopping := true |>)
  end.

(** ** Sending responses *)

(** Writing a chunk of response [s], with the library's [make_chunk]. *)
Definition write_chunk (c : ConnId) (s : ResId) (chunk : string) : M World unit :=
  res ← get_res s;
  let '(v, codec) := make_chunk (rs_msg res) chunk in
  mod_res s (λ x, x <| rs_msg ::= λ m, m <| rm_codec := codec |> |>) ;;
  stream_write c (WChunk s v).

(** The part of [ServerConnection::write_next_response] that fills in the status
    code and the Date header. *)
Definition prepare_head (s : ResId) : M World unit :=
  res ← get_res s;
  when (rm_code (rs_msg res) =? 0)
    (mod_res s (λ x, x <| rs_msg ::= λ m, m <| rm_code := 200 |> |>)) ;;
  if headers_has (rm_headers (rs_msg res)) "Date" then mret tt
  else
    d ← date_header_now;
    mod_res s (λ x, x <| rs_msg ::= λ m, m <| rm_headers ::= λ h, headers_date h d |> |>).

(** The part that moves the chunks collected so far out of the body. *)
Definition take_chunks (s : ResId) : M World (list string) :=
  res ← get_res s;
  let m := rs_msg res in
  if rm_chunked m && negb (rs_completed res) && negb (body_length (rm_parts m) =? 0)
  then
    mod_res s (λ x, x <| rs_msg ::= λ m, m <| rm_parts := [] |> |>) ;;
    mret (rm_parts m)
  else mret [].

(** The part that writes the head (with the body that is left in the message). *)
Definition write_head (c : ConnId) (r : ReqId) (s : ResId) : M World unit :=
  req ← get_req r;
  res ← get_res s;
  let '(v, codec) := to_vector (rs_msg res) (sr_msg req) in
  mod_res s (λ x, x <| rs_msg ::= λ m, m <| rm_codec := codec |> |>) ;;
  stream_write c (WHead r s v).

(** The part that ends the connection when the request or the response is not
    keep-alive: the pipelined requests behind the front one are dropped. *)
Definition close_after_response (c : ConnId) (r : ReqId) : M World unit :=
  mod_conn c (λ k, k <| sc_closing := true |>) ;;
  req ← get_req r;
  when (sr_is_done req) (read_ignore c) ;;
  conn ← get_conn c;
  when (1 <? Z.of_nat (length (sc_requests conn)))
    (mod_conn c (λ k, k <| sc_requests ::= tail |>) ;;
     drop_requests fuel c (Some (HttpErr pipeline_canceled)) ;;
     mod_conn c (λ k, k <| sc_requests ::= cons r |>)).

(** [ServerConnection::write_next_response]; [finish] is [finish_request], which
    it calls in the end. *)
Definition write_next_response_with (finish : M World unit) (c : ConnId) : M World unit :=
  r ← front c;
  req ← get_req r;
  s ← deref (sr_response req);
  prepare_head s ;;
  tmp_chunks ← take_chunks s;
  write_head c r s ;;
  req ← get_req r;
  res ← get_res s;
  when (negb (res_keep_alive (rs_msg res)) || negb (req_keep_alive (sr_msg req)))
    (close_after_response c r) ;;
  res ← get_res s;
  if negb (rs_completed res)
  then for_each (write_chunk c s) tmp_chunks
  else finish.

(** [ServerConnection::finish_request]; [write_next] is [write_next_response]. *)
Definition finish_request_with (write_next : M World unit) (c : ConnId) : M World unit :=
  r ← front c;
  req ← get_req r;
  completed ← response_completed req;
  assert completed ;;
  if negb (sr_is_done req) then
    mod_req r (λ q, q <| sr_finish_on_receive := true |>)
  else
    cleanup_request c ;;
    conn ← get_conn c;
    if sc_closing conn || sc_stopping conn then
      assert (match sc_requests conn with [] => true | _ => false end) ;;
      shutdown c None
    else
      match sc_requests conn with
      | r' :: _ =>
          req' ← get_req r';
          match sr_response req' with
          | Some _ => write_next
          | None => mret tt
          end
      | [] => check_if_idle c
      end.

(** The two methods call each other, once per queued request. *)
Fixpoint finish_request_n (n : nat) (c : ConnId) : M World unit :=
  match n with
  | O => fault_with OutOfFuel
  | S n' => finish_request_with (write_next_response_with (finish_request_n n' c) c) c
  end.

Definition finish_request (c : ConnId) : M World unit := finish_request_n fuel c.
Definition write_next_response (c : ConnId) : M World unit :=
  write_next_response_with (finish_request c) c.

(** [ServerConnection::respond]. *)
Definition respond (c : ConnId) (r : ReqId) (s : ResId) : M World unit :=
  req ← get_req r;
  assert (bool_decide (sr_connection req = Some c)) ;;
  match sr_response req with
  | Some _ => throw (HttpError "double response for request given")
  | None =>
      mod_req r (λ q, q <| sr_response := Some s |>) ;;
      mod_res s (λ x, x <| rs_request := Some r |>) ;;
      mod_conn c (λ k, k <| sc_requests_processed ::= λ n, u64 (n + 1) |>) ;;
      conn ← get_conn c;
      when (negb (sc_max_keepalive_requests conn =? 0)
            && (sc_max_keepalive_requests conn <=? sc_requests_processed conn)
            && (Z.of_nat (length (sc_requests conn)) =? 1))
        (conn_graceful_stop c) ;;
      conn ← get_conn c;
      when (sc_stopping conn)
        (mod_res s (λ x, x <| rs_msg ::= λ m,
           m <| rm_headers ::= λ h, headers_keep_alive h false |> |>)) ;;
      res ← get_res s;
      when (negb (rm_chunked (rs_msg res)) || negb (body_length (rm_parts (rs_msg res)) =? 0))
        (mod_res s (λ x, x <| rs_completed := true |>)) ;;
      f ← front c;
      if Nat.eqb f r then write_next_response c else mret tt
  end.

(** [assert(requests.size())]. *)
Definition assert_requests (c : ConnId) : M World unit :=
  conn ← get_conn c;
  assert (match sc_requests conn with [] => false | _ => true end).

(** [ServerConnection::send_continue]. *)
Definition conn_send_continue (c : ConnId) (r : ReqId) : M World unit :=
  assert_requests c ;;
  f ← front c;
  if negb (Nat.eqb f r) then mret tt else
  req ← get_req r;
  if negb (req_expects_continue (sr_msg req)) || (req_http_version (sr_msg req) =? 10)
  then mret tt
  else
    match sr_response req with
    | Some _ => throw (HttpError "100-continue can only be sent before response")
    | None => stream_write c (WContinue r ("HTTP/1.1 100 Continue" +:+
                String "013" (String "010" (String "013" (String "010" EmptyString)))))
    end.

(** [ServerConnection::send_chunk]. *)
Definition conn_send_chunk (c : ConnId) (s : ResId) (chunk : string) : M World unit :=
  assert_requests c ;;
  match chunk with
  | EmptyString => mret tt
  | _ =>
      f ← front c;
      req ← get_req f;
      if bool_decide (sr_response req = Some s) then write_chunk c s chunk
      else mod_res s (λ x, x <| rs_msg ::= λ m, m <| rm_parts ::= λ l, l ++ [chunk] |> |>)
  end.

(** [ServerConnection::send_final_chunk]. *)
Definition conn_send_final_chunk (c : ConnId) (s : ResId) (chunk : string) : M World unit :=
  assert_requests c ;;
  mod_res s (λ x, x <| rs_completed := true |>) ;;
  f ← front c;
  req ← get_req f;
  if bool_decide (sr_response req = Some s) then
    res ← get_res s;
    let '(v, codec) := final_chunk (rs_msg res) chunk in
    mod_res s (λ x, x <| rs_msg ::= λ m, m <| rm_codec := codec |> |>) ;;
    stream_write c (WFinal s v) ;;
    finish_request c
  else mret tt.

(** [ServerConnection::upgrade]: the stream is handed over to the caller. *)
Definition conn_upgrade (c : ConnId) (r : ReqId) : M World unit :=
  conn ← get_conn c;
  if bool_decide (sc_requests conn = [r]) then
    unlisten c ;;
    stop_idle_timer c ;;
    mod_conn c (λ k, k <| sc_idle_timer := None |>) ;;
    cleanup_request c ;;
    remove c
  else throw (LogicError "should not happen").

(** ** Errors *)

(** The HTML page of [ServerConnection::default_error_response]. *)
Definition nl : string := String "010" EmptyString.
Definition dquote : string := String "034" EmptyString.
Definition error_padding : string :=
  "<!-- a padding to disable MSIE and Chrome friendly error page -->" +:+ nl.
Definition error_page (full_message : string) : string :=
  "<html>" +:+ nl +:+
  "<head><title>" +:+
  full_message +:+
  "</title></head>" +:+ nl +:+
  "<body bgcolor=" +:+ dquote +:+ "white" +:+ dquote +:+ ">" +:+ nl +:+
  "<center><h1>" +:+
  full_message +:+
  "</h1></center>" +:+ nl +:+
  "<hr><center>UniEvent-HTTP</center>" +:+ nl +:+
  "</body>" +:+ nl +:+
  "</html>" +:+ nl +:+
  Nat.iter 6 (λ s, s +:+ error_padding) EmptyString.

(** [ServerResponse::ServerResponse(code, headers)]. *)
Definition new_ServerResponse (code : Z) (h : Headers) : ServerResponse := {|
  rs_request := None; rs_completed := false;
  rs_msg := {| rm_code := code; rm_headers := h; rm_parts := []; rm_chunked := false;
               rm_http_version := 0; rm_message := EmptyString; rm_codec := codec_init |} |}.

(** [ServerConnection::default_error_response]. *)
Definition default_error_response (code : Z) : M World ResId :=
  d ← date_header_now;
  let res := new_ServerResponse code (headers_date (headers_keep_alive headers_empty false) d) in
  alloc_res (res <| rs_msg ::= λ m, m <| rm_parts := [error_page (full_message m)] |> |>).

(** [ServerConnection::request_error]. *)
Definition request_error (c : ConnId) (r : ReqId) (err : ErrorCode) : M World unit :=
  read_ignore c ;;
  req ← get_req r;
  (if sr_partial req then emit (EvPartial r (Some err)) else emit (EvError r (Some err))) ;;
  req ← get_req r;
  match sr_response req with
  | None => s ← default_error_response 400; respond c r s
  | Some s =>
      res ← get_res s;
      when (res_keep_alive (rs_msg res))
        (mod_res s (λ x, x <| rs_msg ::= λ m,
           m <| rm_headers ::= λ h, headers_set h "Connection" "close" |> |>))
  end.

(** ** The events of the stream *)

(** [ServerConnection::on_connection]. *)
Definition on_connection (c : ConnId) (err : option ErrorCode) : M World unit :=
  match err with None => mret tt | Some _ => close c err end.

(** [requests.back()]. *)
Definition back (c : ConnId) : M World ReqId :=
  conn ← get_conn c;
  match last (sc_requests conn) with
  | Some r => mret r
  | None => fault_with EmptyFront
  end.

(** [!requests.size() || requests.back()->is_done()]. *)
Definition back_is_done (c : ConnId) : M World bool :=
  conn ← get_conn c;
  match last (sc_requests conn) with
  | None => mret true
  | Some r => req ← get_req r; mret (sr_is_done req)
  end.

(** The error branch of [ServerConnection::on_read]. *)
Definition on_read_error (c : ConnId) (err : ErrorCode) : M World unit :=
  stop_idle_timer c ;;
  need_new ← back_is_done c;
  when need_new (r ← new_request c; emplace_back c r) ;;
  r ← back c;
  mod_req r (λ q, q <| sr_is_done := true |>) ;;
  r ← back c;
  request_error c r err.

(** [parser.parse_shift(buf)]: the parser asks its factory, the connection, for a
    request object when a message starts, and fills the object it has. *)
Definition parse_next (c : ConnId) (buf : string) :
    M World (ReqId * proto_state * option ErrorCode * string) :=
  conn ← get_conn c;
  let '(p, (new, msg, st, err, rest)) := parse_shift (sc_limits conn) (sc_parser conn) buf in
  r ← (if new : bool then new_request c else deref (sc_current conn));
  mod_req r (λ q, q <| sr_msg := msg |>) ;;
  mod_conn c (λ k, k <| sc_parser := p |> <| sc_current := Some r |>) ;;
  mret (r, st, err, rest).

(** [if (!requests.size() || requests.back() != req) requests.emplace_back(req)]. *)
Definition enqueue_parsed (c : ConnId) (r : ReqId) : M World unit :=
  conn ← get_conn c;
  if bool_decide (last (sc_requests conn) = Some r) then mret tt else emplace_back c r.

(** The first call of [route_event] for a request. *)
Definition route (c : ConnId) (r : ReqId) : M World unit :=
  req ← get_req r;
  when (negb (sr_routed req))
    (mod_req r (λ q, q <| sr_routed := true |> <| sr_server := true |>) ;;
     emit (EvRoute r)).

(** Delivering what was received to the user. *)
Definition deliver (r : ReqId) (st : proto_state) : M World unit :=
  req ← get_req r;
  if sr_partial req then emit (EvPartial r None)
  else when (state_is_done st) (emit (EvReceive r) ;; emit (EvRequest r)).

(** What follows the delivery of a fully received request; the result says whether
    the loop is left. *)
Definition after_done (c : ConnId) (r : ReqId) : M World bool :=
  req ← get_req r;
  if sr_finish_on_receive req then finish_request c ;; mret false
  else
    conn ← get_conn c;
    if sc_closing conn || negb (req_keep_alive (sr_msg req))
    then read_ignore c ;; mret true
    else mret false.

(** One iteration of the loop of [ServerConnection::on_read]: [None] when the loop
    is left (by [return] or [break]), or the rest of the buffer. *)
Definition on_read_iter (c : ConnId) (buf : string) : M World (option string) :=
  stop_idle_timer c ;;
  '(r, st, err, rest) ← parse_next c buf;
  enqueue_parsed c r ;;
  mod_req r (λ q, q <| sr_is_done := state_ge_done st |>) ;;
  match err with
  | Some e => request_error c r e ;; mret None
  | None =>
      if state_le_headers st then mret None else
      conn ← get_conn c;
      req ← get_req r;
      if (1 <? Z.of_nat (length (sc_requests conn)))
         && String.eqb (headers_connection (req_headers (sr_msg req))) "upgrade"
      then request_error c r (HttpErr upgrade_in_pipeline) ;; read_ignore c ;; mret None
      else
        route c r ;;
        deliver r st ;;
        if state_is_done st then
          leave ← after_done c r;
          mret (if leave : bool then None else Some rest)
        else mret (Some rest)
  end.

(** [while (buf) { ... }]. *)
Fixpoint on_read_loop (n : nat) (c : ConnId) (buf : string) : M World unit :=
  match buf with
  | EmptyString => mret tt
  | _ =>
      match n with
      | O => fault_with OutOfFuel
      | S n' =>
          next ← on_read_iter c buf;
          match next with
          | None => mret tt
          | Some rest => on_read_loop n' c rest
          end
      end
  end.

(** [ServerConnection::on_read]. *)
Definition on_read (c : ConnId) (buf : string) (err : option ErrorCode) : M World unit :=
  match err with
  | Some e => on_read_error c e
  | None => on_read_loop (String.length buf) c buf
  end.

(** [ServerConnection::on_write]. *)
Definition on_write (c : ConnId) (err : option ErrorCode) : M World unit :=
  match err with
  | Some _ => close c err
  | None => check_if_idle c
  end.

(** [ServerConnection::on_shutdown]. *)
Definition on_shutdown (c : ConnId) : M World unit :=
  stop_idle_timer c ;;
  unlisten c ;;
  remove c.

(** [ServerConnection::on_eof]. *)
Definition on_eof (c : ConnId) : M World unit :=
  shutdown c (Some (StdErr connection_reset)).

(** The listener of the idle timer (set in the constructor). *)
Definition on_idle_timer (c : ConnId) : M World unit :=
  mod_conn c (λ k, k <| sc_idle_timer := Some false |>) ;;
  conn ← get_conn c;
  assert (match sc_requests conn with [] => true | _ => false end) ;;
  close c None.

(** ** The methods of requests and responses *)

(** The connection object exists: the server holds it, or its [on_read], which holds
    it, is running. (The other methods that hold it, [respond], [do_close] and
    [upgrade], leave no request that points to it when they remove it.) *)
Definition lives (w : World) (c : ConnId) (k : ServerConnection) : bool :=
  bool_decide (sv_connections (w_server w) !! sc_id k = Some c) || bool_decide (w_held w = Some c).

(** A raw pointer to a connection is followed. *)
Definition alive (c : ConnId) : M World unit :=
  conn ← get_conn c;
  ok ← gets (λ w, lives w c conn);
  if ok : bool then mret tt else fault_with DanglingRef.

(** [ServerRequest::respond]. *)
Definition req_respond (r : ReqId) (s : ResId) : M World unit :=
  req ← get_req r;
  match sr_connection req with
  | None => mret tt
  | Some c => alive c ;; respond c r s
  end.

(** [ServerRequest::send_continue]. *)
Definition req_send_continue (r : ReqId) : M World unit :=
  req ← get_req r;
  match sr_connection req with
  | None => mret tt
  | Some c => alive c ;; conn_send_continue c r
  end.

(** [ServerRequest::redirect]. *)
Definition req_redirect (r : ReqId) (uri : string) : M World unit :=
  s ← alloc_res (new_ServerResponse 302 (headers_location headers_empty uri));
  req_respond r s.

(** [ServerRequest::drop]. *)
Definition req_drop (r : ReqId) : M World unit :=
  req ← get_req r;
  match sr_connection req with
  | None => mret tt
  | Some c =>
      completed ← response_completed req;
      if (completed : bool) then mret tt else alive c ;; close c (Some (StdErr operation_canceled))
  end.

(** [ServerRequest::upgrade]. *)
Definition req_upgrade (r : ReqId) : M World (unit + ErrorCode) :=
  req ← get_req r;
  match sr_connection req with
  | None => mret (inr (StdErr connection_aborted))
  | Some c =>
      if negb (iequals (headers_connection (req_headers (sr_msg req))) "upgrade")
      then mret (inr (HttpErr upgrade_wrong_request))
      else alive c ;; conn_upgrade c r ;; mret (inl tt)
  end.

(** [ServerRequest::enable_partial]. *)
Definition enable_partial (r : ReqId) : M World unit :=
  mod_req r (λ q, q <| sr_partial := true |>).

(** [ServerRequest::~ServerRequest]. *)
Definition destroy_request (r : ReqId) : M World unit :=
  req ← get_req r;
  match sr_response req with
  | Some s => mod_res s (λ x, x <| rs_request := None |>)
  | None => mret tt
  end ;;
  modify (λ w, w <| w_reqs ::= delete r |>).

(** The connection a response belongs to: [_request->_connection]. *)
Definition response_connection (res : ServerResponse) : M World (option ConnId) :=
  match rs_request res with
  | None => mret None
  | Some r => req ← get_req r; mret (sr_connection req)
  end.

(** [ServerResponse::send_chunk]. *)
Definition res_send_chunk (s : ResId) (chunk : string) : M World unit :=
  res ← get_res s;
  if rs_completed res
  then throw (HttpError "can't send chunk: response has already been completed")
  else
    oc ← response_connection res;
    match oc with
    | None => mret tt
    | Some c => alive c ;; conn_send_chunk c s chunk
    end.

(** [ServerResponse::send_final_chunk]. *)
Definition res_send_final_chunk (s : ResId) (chunk : string) : M World unit :=
  res ← get_res s;
  if rs_completed res
  then throw (HttpError "can't send chunk: response has already been completed")
  else
    oc ← response_connection res;
    match oc with
    | None => mret tt
    | Some c => alive c ;; conn_send_final_chunk c s chunk
    end.

End Connection.
