(* ===== verification/ServerMain.v ===== *)
(** * The server ([Server.cc], [Server.h])

    Configuration, listening, the life cycle [run] / [stop] / [graceful_stop], and
    new connections. [fuel] is the bound that the connection operations take. *)
From S2P Require Import Prelude Errors Date Proto ServerState ServerOps ServerConn.
From stdpp Require Import sorting.
Local Open Scope Z_scope.

Definition DEFAULT_BACKLOG : Z := 4096.
Definition DEFAULT_IDLE_TIMEOUT : Z := 300000.
Definition DEFAULT_MAX_HEADERS_SIZE : Z := 16384.

#[export] Instance Location_eq_dec : EqDecision Location.
Proof. solve_decision. Defined.

(** [Server::Location::operator==]. *)
Definition Location_eqb (a b : Location) : bool :=
  String.eqb (lc_host a) (lc_host b) && (lc_port a =? lc_port b) &&
  String.eqb (lc_path a) (lc_path b) && eqb (lc_reuse_port a) (lc_reuse_port b) &&
  (lc_backlog a =? lc_backlog b) && (lc_domain a =? lc_domain b) &&
  bool_decide (lc_ssl_ctx a = lc_ssl_ctx b) && bool_decide (lc_sock a = lc_sock b) &&
  eqb (lc_tcp_nodelay a) (lc_tcp_nodelay b).

(** [Server::Location::operator!=]. *)
Definition Location_neqb (a oth : Location) : bool := negb (Location_eqb a oth).

(** [std::equal] over the two location vectors. *)
Fixpoint std_equal (a b : list Location) : bool :=
  match a, b with
  | [], _ => true
  | x :: a', y :: b' => Location_eqb x y && std_equal a' b'
  | _ :: _, [] => false
  end.

(** [Server::Config::operator==]. *)
Definition Config_eqb (a b : Config) : bool :=
  (cf_idle_timeout a =? cf_idle_timeout b) &&
  (cf_max_headers_size a =? cf_max_headers_size b) &&
  (cf_max_body_size a =? cf_max_body_size b) &&
  eqb (cf_tcp_nodelay a) (cf_tcp_nodelay b) &&
  (cf_max_keepalive_requests a =? cf_max_keepalive_requests b) &&
  Nat.eqb (length (cf_locations a)) (length (cf_locations b)) &&
  std_equal (cf_locations a) (cf_locations b).

(** [Server::Config::operator!=]. *)
Definition Config_neqb (a oth : Config) : bool := negb (Config_eqb a oth).

(** The order of [std::map<uint64_t, ...>]. *)
Definition row_le (a b : Z * ConnId) : Prop := a.1 ≤ b.1.
#[export] Instance row_le_dec : RelDecision row_le.
Proof. intros a b. unfold row_le. apply _. Defined.

Section ServerMain.
Context `{HttpProto} `{Env} `{!Callbacks}.
Context (fuel : nat).

Definition is_running (s : SrvState) : bool := match s with running => true | _ => false end.
Definition is_initial (s : SrvState) : bool := match s with initial => true | _ => false end.
Definition is_stopping (s : SrvState) : bool := match s with stopping => true | _ => false end.

(** The rows of [_connections], in the order of [std::map]. *)
Definition connection_rows (m : gmap Z ConnId) : list (Z * ConnId) :=
  merge_sort row_le (map_to_list m).

(** ** Listening *)

(** [Server::stop_listening]. *)
Definition stop_listening : M World unit :=
  srv ← get_server;
  for_each (λ l : Listener,
    if ls_is_pipe l then
      match pipe_sockname (ls_location l) with
      | Some path => log (OUnlink path)
      | None => mret tt
      end
    else mret tt) (sv_listeners srv) ;;
  mod_server (λ s, s <| sv_listeners := [] |>).

(** The body of the loop of [Server::start_listening]: the listener for a location,
    whose [path] is filled in when its socket turns out to be a unix socket. *)
Definition make_listener (loc : Location) : M World Listener :=
  l ← match lc_sock loc with
      | Some fd =>
          match getsockname fd with
          | None => throw (PandaException "bad expected access")
          | Some (Some path) => mret (mkListener true (loc <| lc_path := path |>))
          | Some None => mret (mkListener false loc)
          end
      | None =>
          if String.eqb (lc_path loc) EmptyString then mret (mkListener false loc)
          else log (OUnlink (lc_path loc)) ;; mret (mkListener true loc)
      end : M World Listener;
  err ← gets (λ w, listen_error (ls_location l) (w_log w));
  match err with
  | Some e => throw e
  | None => log (OListen (ls_location l)) ;; mret l
  end.

(** The loop over [_conf.locations], which it modifies in place; [done] are the
    locations behind the loop's position. *)
Fixpoint listen_all (visited : list Location) (todo : list Location) : M World unit :=
  match todo with
  | [] => mret tt
  | loc :: todo' =>
      l ← make_listener loc;
      let visited' := visited ++ [ls_location l] in
      mod_server (λ s, s <| sv_conf ::= λ c, c <| cf_locations := visited' ++ todo' |> |>
                         <| sv_listeners ::= λ ls, ls ++ [l] |>) ;;
      listen_all visited' todo'
  end.

(** [Server::start_listening]. *)
Definition start_listening : M World unit :=
  srv ← get_server;
  match sv_listeners srv with
  | _ :: _ => throw (HttpError "server is already listening")
  | [] => listen_all [] (cf_locations (sv_conf srv))
  end.

(** ** Configuration *)

(** [!loc.host && !loc.path && !loc.sock]. *)
Definition location_undefined (loc : Location) : bool :=
  String.eqb (lc_host loc) EmptyString && String.eqb (lc_path loc) EmptyString &&
  match lc_sock loc with None => true | Some _ => false end.

Definition normalize_location (conf : Config) (loc : Location) : Location :=
  let loc := if lc_backlog loc =? 0 then loc <| lc_backlog := DEFAULT_BACKLOG |> else loc in
  if cf_tcp_nodelay conf then loc <| lc_tcp_nodelay := true |> else loc.

(** [Server::configure]. *)
Definition configure (conf : Config) : M World unit :=
  match cf_locations conf with
  | [] => throw (HttpError "no locations to listen supplied")
  | _ =>
    if existsb location_undefined (cf_locations conf)
    then throw (HttpError "neither host nor path nor socket defined in one of the locations")
    else
      srv ← get_server;
      when (is_running (sv_state srv)) stop_listening ;;
      mod_server (λ s, s <| sv_conf := conf <| cf_locations ::= map (normalize_location conf) |> |>) ;;
      srv ← get_server;
      when (is_running (sv_state srv)) start_listening
  end.

(** ** Life cycle *)

(** [Server::run]. *)
Definition run : M World unit :=
  srv ← get_server;
  if negb (is_initial (sv_state srv)) then throw (HttpError "server is already running")
  else
    mod_server (λ s, s <| sv_state := running |>) ;;
    start_listening ;;
    emit EvRun.

(** [while (_connections.size()) _connections.begin()->second->close(err)]; [n] bounds
    the number of iterations. *)
Fixpoint close_all (n : nat) (err : ErrorCode) : M World unit :=
  srv ← get_server;
  match connection_rows (sv_connections srv) with
  | [] => mret tt
  | (_, c) :: _ =>
      match n with
      | O => fault_with OutOfFuel
      | S n' => close fuel c (Some err) ;; close_all n' err
      end
  end.

(** The loop, bounded by the number of connections it starts with. *)
Definition close_connections (err : ErrorCode) : M World unit :=
  srv ← get_server;
  close_all (size (sv_connections srv)) err.

(** [Server::stop]. *)
Definition stop : M World unit :=
  srv ← get_server;
  if negb (is_running (sv_state srv)) && negb (is_stopping (sv_state srv)) then mret tt
  else
    stop_listening ;;
    close_connections (HttpErr server_stopping) ;;
    mod_server (λ s, s <| sv_state := initial |>) ;;
    emit EvStop.

(** [Server::graceful_stop]. *)
Definition graceful_stop : M World unit :=
  srv ← get_server;
  if negb (is_running (sv_state srv)) then mret tt
  else
    mod_server (λ s, s <| sv_state := stopping |>) ;;
    stop_listening ;;
    srv ← get_server;
    for_each (conn_graceful_stop fuel) (connection_rows (sv_connections srv)).*2 ;;
    stop_if_done.

(** [Server::~Server]. *)
Definition destroy_server : M World unit := close_connections (StdErr connection_reset).

(** [Server::on_establish] (with [Server::new_connection]). *)
Definition on_establish (secure : bool) (err : option ErrorCode) : M World unit :=
  match err with
  | Some _ => mret tt
  | None =>
      srv ← get_server;
      modify (λ w, w <| w_lastid ::= λ n, u64 (n + 1) |>) ;;
      id ← gets w_lastid;
      c ← new_connection id (sv_factory srv) secure (sv_conf srv);
      mod_server (λ s, s <| sv_connections ::= <[id := c]> |>) ;;
      emit (EvConnect c)
  end.

(** [Server::sockaddr]: the location of the first listener. *)
Definition sockaddr : M World (Location + ErrorCode) :=
  srv ← get_server;
  match sv_listeners srv with
  | [] => mret (inr (StdErr not_connected))
  | l :: _ => mret (inl (ls_location l))
  end.

End ServerMain.

(** ** Comparing configurations *)

Lemma Location_eqb_eq a b : Location_eqb a b = true ↔ a = b.
Proof.
  unfold Location_eqb. rewrite !andb_true_iff, !String.eqb_eq, !Z.eqb_eq, !eqb_true_iff,
    !bool_decide_eq_true. destruct a, b; simpl. split; [|by intros [=]; subst].
  intros H. destruct_and! H. by subst.
Qed.

Lemma std_equal_eq a b :
  length a = length b → (std_equal a b = true ↔ a = b).
Proof.
  revert b. induction a as [|x a IH]; intros [|y b] Hl; simplify_eq/=; [done|].
  rewrite andb_true_iff, Location_eqb_eq, IH by done. split; [by intros [-> ->]|by intros [=]].
Qed.

(** C39: configurations, and the locations in them, are the same for [operator==]
    exactly when they are equal: no field is left out of the comparison, and the
    lengths of the vectors are compared before [std::equal] walks them. *)
Theorem Config_eqb_eq a b : Config_eqb a b = true ↔ a = b.
Proof.
  unfold Config_eqb. rewrite !andb_true_iff, !Z.eqb_eq, !eqb_true_iff, Nat.eqb_eq.
  split; [|intros ->; repeat split; by apply std_equal_eq].
  intros [H Hl]. destruct_and! H. apply std_equal_eq in Hl; [|done]. destruct a, b; simpl in *. by subst.
Qed.
