(* ===== verification/ServerStep.v ===== *)
(** * Runs of the server: user programs, stream events, reachability

    The user's code is a [Program]: for every callback, a list of calls into the
    library that may depend on the whole state. The environment delivers stream
    events, timer events and top-level calls of the user; [step] executes one. *)
From S2P Require Import Prelude Errors Date Proto ServerState ServerOps ServerConn ServerMain.
Local Open Scope Z_scope.

Section Steps.
Context `{HttpProto} `{Env}.

(** The calls the user can make. [ARespondNew] and [ARespond] answer with a new or
    an existing response object. *)
Inductive Action :=
  | ARespondNew (r : ReqId) (m : RMsg)
  | ARespond (r : ReqId) (s : ResId)
  | ARedirect (r : ReqId) (uri : string)
  | ASendContinue (r : ReqId)
  | ASendChunk (s : ResId) (chunk : string)
  | ASendFinalChunk (s : ResId) (chunk : string)
  | AEnablePartial (r : ReqId)
  | AThrow (n : nat)
  | ADrop (r : ReqId)
  | AUpgrade (r : ReqId)
  | AClose (c : ConnId) (err : option ErrorCode)
  | AShutdown (c : ConnId) (err : option ErrorCode)
  | AConnGracefulStop (c : ConnId)
  | ARun
  | AStop
  | AGracefulStop
  | AConfigure (conf : Config).

Definition respond_new `{!Callbacks} (fuel : nat) (r : ReqId) (m : RMsg) : M World unit :=
  s ← alloc_res {| rs_request := None; rs_completed := false; rs_msg := m |};
  req_respond fuel r s.

(** A call on an object that does not exist is no call. *)
Definition on_req (r : ReqId) (m : M World unit) : M World unit :=
  o ← gets (λ w, w_reqs w !! r); match o with Some _ => m | None => mret tt end.
Definition on_res (s : ResId) (m : M World unit) : M World unit :=
  o ← gets (λ w, w_ress w !! s); match o with Some _ => m | None => mret tt end.
Definition on_conn (c : ConnId) (m : M World unit) : M World unit :=
  o ← gets (λ w, w_conns w !! c); match o with Some _ => m | None => mret tt end.

Definition exec_action {CB : Callbacks} (fuel : nat) (a : Action) : M World unit :=
  match a with
  | ARespondNew r m => on_req r (respond_new fuel r m)
  | ARespond r s => on_req r (on_res s (req_respond fuel r s))
  | ARedirect r uri => on_req r (req_redirect fuel r uri)
  | ASendContinue r => on_req r (req_send_continue r)
  | ASendChunk s chunk => on_res s (res_send_chunk s chunk)
  | ASendFinalChunk s chunk => on_res s (res_send_final_chunk fuel s chunk)
  | AEnablePartial r => on_req r (enable_partial r)
  | AThrow n => throw (UserException n)
  | ADrop r => on_req r (req_drop fuel r)
  | AUpgrade r => on_req r (req_upgrade r ;; mret tt)
  | AClose c err => on_conn c (close fuel c err)
  | AShutdown c err => on_conn c (shutdown fuel c err)
  | AConnGracefulStop c => on_conn c (conn_graceful_stop fuel c)
  | ARun => run
  | AStop => stop fuel
  | AGracefulStop => graceful_stop fuel
  | AConfigure conf => configure conf
  end.

(** A user program: what the listeners of a callback do. *)
Definition Program := Event → World → list Action.

(** The callbacks of a program; [n] bounds how deep callbacks nest. *)
Fixpoint program_fire (P : Program) (fuel n : nat) (ev : Event) : M World unit :=
  match n with
  | O => fault_with OutOfFuel
  | S n' => λ w,
      for_each (exec_action (CB := {|
        fire := program_fire P fuel n';
        factory_new_request := new_ServerRequest |}) fuel) (P ev w) w
  end.

Definition program_callbacks (P : Program) (fuel n : nat) : Callbacks := {|
  fire := program_fire P fuel n;
  factory_new_request := new_ServerRequest |}.

(** What the environment delivers. *)
Inductive Input :=
  | InEstablish (secure : bool) (err : option ErrorCode)
  | InConnection (c : ConnId) (err : option ErrorCode)
  | InRead (c : ConnId) (buf : string) (err : option ErrorCode)
  | InWrite (c : ConnId) (err : option ErrorCode)
  | InShutdown (c : ConnId)
  | InEof (c : ConnId)
  | InIdleTimer (c : ConnId)
  | InTick (now time : Z)
  | InUser (a : Action).

(** [on_read] holds its connection until it is left, by whatever way. *)
Definition holding (c : ConnId) (m : M World unit) : M World unit := λ w,
  match m (w <| w_held := Some c |>) with
  | Ok a w' => Ok a (w' <| w_held := None |>)
  | Throw e w' => Throw e (w' <| w_held := None |>)
  | Fault f => Fault f
  end.

(** A stream calls the connection by a raw pointer; a timer goes with its connection. *)
Definition exec_input `{!Callbacks} (fuel : nat) (i : Input) : M World unit :=
  match i with
  | InEstablish secure err => on_establish secure err
  | InConnection c err => alive c ;; on_connection fuel c err
  | InRead c buf err => alive c ;; holding c (on_read fuel c buf err)
  | InWrite c err => alive c ;; on_write fuel c err
  | InShutdown c => alive c ;; on_shutdown c
  | InEof c => alive c ;; on_eof fuel c
  | InIdleTimer c => on_idle_timer fuel c
  | InTick now time => modify (λ w, w <| w_now := now |> <| w_time := time |>)
  | InUser a => exec_action fuel a
  end.

(** The state a run starts in: a server that was constructed. *)
Definition init_world (conf : Config) (factory : bool) : World := {|
  w_reqs := ∅; w_ress := ∅; w_conns := ∅;
  w_server := {| sv_factory := factory; sv_conf := conf; sv_listeners := [];
                 sv_state := initial; sv_connections := ∅; sv_hdate_time := 0;
                 sv_hdate_str := EmptyString |};
  w_lastid := 0; w_now := 0; w_time := 0; w_held := None; w_log := [] |}.

End Steps.
