(* ===== verification/Sample.v ===== *)
(** * A concrete protocol library and environment

    An instance of [HttpProto] small enough to compute with, which satisfies
    [HttpProtoLaws]; the witnesses and the counterexamples run the server with it.

    On its wire a request is one letter ([G]: keep-alive, [C]: connection close,
    [U]: upgrade), or [P], a body, and a full stop; [H] stands for headers that
    are not complete; anything else is an error. *)
From S2P Require Import Prelude Errors Date Proto ServerState ServerOps ServerConn ServerMain ServerStep.
From Stdlib Require Import Ascii.
Local Open Scope Z_scope.

Definition SHeaders : Type := list (string * string).

Record SReq := mkSampleReq {
  sq_headers : SHeaders; sq_version : Z; sq_continue : bool; sq_body : string }.

Definition s_get (h : SHeaders) (k : string) : string :=
  match find (λ p, String.eqb p.1 k) h with Some p => p.2 | None => EmptyString end.
Definition s_has (h : SHeaders) (k : string) : bool := existsb (λ p, String.eqb p.1 k) h.
Definition s_set (h : SHeaders) (k v : string) : SHeaders :=
  (k, v) :: List.filter (λ p, negb (String.eqb p.1 k)) h.
Definition s_keep_alive (h : SHeaders) (version : Z) : bool :=
  let c := s_get h "Connection" in
  if String.eqb c "close" then false
  else if String.eqb c "keep-alive" then true else negb (version =? 10).

Definition s_request (headers : SHeaders) (body : string) : SReq :=
  mkSampleReq headers 11 false body.

(** Reading a body up to the full stop. *)
Fixpoint s_scan (body s : string) : string * option string :=
  match s with
  | EmptyString => (body, None)
  | String "." rest => (body, Some rest)
  | String ch rest => s_scan (body +:+ String ch EmptyString) rest
  end.

Definition s_body (start : bool) (body s : string) :
    option string * (bool * SReq * proto_state * option ErrorCode * string) :=
  match s_scan body s with
  | (b, Some rest) => (None, (start, s_request [] b, PsDone, None, rest))
  | (b, None) => (Some b, (start, s_request [] b, PsBody, None, EmptyString))
  end.

Definition s_parse (limits : Z * Z) (p : option string) (buf : string) :
    option string * (bool * SReq * proto_state * option ErrorCode * string) :=
  match p with
  | Some body => s_body false body buf
  | None =>
      match buf with
      | String "G" rest => (None, (true, s_request [] EmptyString, PsDone, None, rest))
      | String "C" rest =>
          (None, (true, s_request [("Connection"%string, "close"%string)] EmptyString, PsDone, None, rest))
      | String "U" rest =>
          (None, (true, s_request [("Connection"%string, "upgrade"%string)] EmptyString, PsDone, None, rest))
      | String "P" rest => s_body true EmptyString rest
      | String "H" _ => (Some EmptyString, (true, s_request [] EmptyString, PsHeaders, None, EmptyString))
      | _ => (None, (true, s_request [] EmptyString, PsError, Some (SysErr 1), EmptyString))
      end
  end.

#[export] Instance sample_proto : HttpProto := {
  Headers := SHeaders;
  headers_empty := [];
  headers_has := s_has;
  headers_set := s_set;
  headers_date h d := s_set h "Date" d;
  headers_location h u := s_set h "Location" u;
  headers_connection h := s_get h "Connection";
  iequals := String.eqb;
  ReqMsg := SReq;
  req_empty := s_request [] EmptyString;
  req_headers := sq_headers;
  req_http_version := sq_version;
  req_keep_alive q := s_keep_alive (sq_headers q) (sq_version q);
  req_expects_continue := sq_continue;
  Codec := unit;
  codec_init := tt;
  msg_keep_alive := s_keep_alive;
  headers_keep_alive h b := s_set h "Connection" (if b then "keep-alive" else "close")%string;
  body_length l := Z.of_nat (list_sum (map String.length l));
  full_message _ := "Error"%string;
  to_vector m _ := (rm_parts m, tt);
  make_chunk _ c := ([c], tt);
  final_chunk _ c := ([c], tt);
  PState := option string;
  parser_init := None;
  parser_idle p := match p with None => true | Some _ => false end;
  parse_shift := s_parse
}.

#[export] Instance sample_env : Env := {
  write_queue_size _ _ := 0;
  gmtime _ := mkDate 2020 0 20 1 20 20 20;
  getsockname _ := Some None;
  listen_error _ _ := None;
  pipe_sockname _ := None
}.

Lemma s_scan_shrinks b s b' rest :
  s_scan b s = (b', Some rest) → (String.length rest < String.length s)%nat.
Proof.
  revert b. induction s as [|a s IH]; intros b; [done|]. cbn [s_scan String.length].
  destruct (Ascii.eqb_spec a ".") as [->|Ha]; [by intros [= <- <-]; lia|].
  intros Hs. assert (s_scan (b +:+ String a EmptyString) s = (b', Some rest)) as Hs'.
  { rewrite <-Hs. destruct a as [[] [] [] [] [] [] [] []]; done. }
  apply IH in Hs'. lia.
Qed.

Lemma s_body_laws start b s p' new msg st err rest :
  s_body start b s = (p', (new, msg, st, err, rest)) →
  new = start ∧ match p' with None => true | _ => false end = state_ge_done st ∧
  st ≠ PsError ∧ err = None ∧ (String.length rest ≤ String.length s)%nat ∧
  (s ≠ EmptyString → (String.length rest < String.length s)%nat) ∧
  (st ≠ PsDone → rest = EmptyString).
Proof.
  unfold s_body. destruct (s_scan b s) as [b' [r|]] eqn:Hs; intros [= <- <- <- <- <- <-].
  - apply s_scan_shrinks in Hs. repeat split; try done; lia.
  - repeat split; try done; simpl; [lia|]. destruct s; simpl; [done|lia].
Qed.

(** The shape of every result of the parser. *)
Lemma s_parse_laws lim p buf p' new msg st err rest :
  s_parse lim p buf = (p', (new, msg, st, err, rest)) →
  new = match p with None => true | _ => false end ∧
  match p' with None => true | _ => false end = state_ge_done st ∧
  (st = PsError ↔ err ≠ None) ∧
  (buf ≠ EmptyString → err = None →
   (String.length rest < String.length buf)%nat ∧ (st ≠ PsDone → rest = EmptyString)).
Proof.
  unfold s_parse. destruct p as [b|].
  { intros Hb. apply s_body_laws in Hb as (-> & ? & ? & -> & ? & ? & ?). naive_solver. }
  destruct buf as [|a buf]; [intros [= <- <- <- <- <- <-]; naive_solver|].
  destruct a as [[] [] [] [] [] [] [] []];
    try (intros [= <- <- <- <- <- <-]; simpl; repeat split; intros; try done; lia).
  intros Hb. apply s_body_laws in Hb as (-> & ? & ? & -> & ? & ? & ?).
  cbn [String.length]. split; [done|]. split; [done|]. split; [done|].
  intros _ _. split; [lia|done].
Qed.

#[export] Instance sample_laws : HttpProtoLaws.
Proof.
  split.
  - intros h v. done.
  - intros h d v. unfold msg_keep_alive, headers_date; cbn. unfold s_keep_alive, s_get, s_set.
    cbn. f_equal. clear. assert (∀ k, k ≠ "Date"%string →
      find (λ p : string * string, String.eqb p.1 k) (List.filter (λ p, negb (String.eqb p.1 "Date")) h)
      = find (λ p : string * string, String.eqb p.1 k) h) as Hf.
    { intros k Hk. induction h as [|[x y] h IH]; [done|]. cbn -[String.eqb].
      destruct (String.eqb_spec x "Date") as [->|]; cbn -[String.eqb]; [|by rewrite IH].
      destruct (String.eqb_spec "Date" k); [by subst|exact IH]. }
    by rewrite !Hf.
  - done.
  - done.
  - intros. by apply s_parse_laws in H as (? & ? & ? & ?).
  - intros. by apply s_parse_laws in H as (? & ? & ? & ?).
  - intros. by apply s_parse_laws in H as (? & ? & ? & ?).
  - intros ??????????. apply s_parse_laws in H0 as (? & ? & ? & Hs). by apply Hs.
Qed.

Lemma s_scan_more more s : ∀ b b' rest,
  s_scan b s = (b', Some rest) → s_scan b (s +:+ more) = (b', Some (rest +:+ more)).
Proof.
  induction s as [|a s IH]; intros b b' rest; [done|].
  change (String a s +:+ more) with (String a (s +:+ more)). cbn [s_scan].
  destruct a as [[] [] [] [] [] [] [] []]; try apply IH. by intros [= <- <-].
Qed.

Lemma s_body_more start b s more p' new msg st err rest :
  state_ge_done st = true → s_body start b s = (p', (new, msg, st, err, rest)) →
  s_body start b (s +:+ more) = (p', (new, msg, st, err, rest +:+ more)).
Proof.
  unfold s_body. destruct (s_scan b s) as [b' [r|]] eqn:Hs; intros Hst [= <- <- <- <- <- <-]; [|done].
  by rewrite (s_scan_more _ _ _ _ _ Hs).
Qed.

#[export] Instance sample_one_message : OneMessageParser.
Proof.
  split. intros lim p buf more p' new msg st err rest Hne Hst. cbn. unfold s_parse. destruct p as [b|].
  { intros Hp. eexists. split; [by eapply s_body_more|done]. }
  destruct buf as [|a buf]; [done|]. change (String a buf +:+ more) with (String a (buf +:+ more)).
  destruct a as [[] [] [] [] [] [] [] []]; cbv iota; intros Hp;
    try (injection Hp as <- <- <- <- <- <-; eexists; split; [reflexivity|done]).
  eexists. split; [by eapply s_body_more|done].
Qed.

#[export] Instance sample_env_laws : EnvLaws.
Proof. split; intros; simpl; lia. Qed.

(** A listening location and a configuration with an idle timeout. *)
Definition sample_location : Location := {|
  lc_host := "*"; lc_port := 80; lc_path := EmptyString; lc_reuse_port := true;
  lc_backlog := DEFAULT_BACKLOG; lc_domain := 2; lc_tcp_nodelay := false;
  lc_ssl_ctx := None; lc_sock := None |}.
Definition sample_config : Config := {|
  cf_locations := [sample_location]; cf_idle_timeout := 1000;
  cf_max_headers_size := DEFAULT_MAX_HEADERS_SIZE; cf_max_body_size := 1000000;
  cf_tcp_nodelay := false; cf_max_keepalive_requests := 0 |}.

(** Running a list of inputs; an exception leaves the state it was thrown in. *)
Fixpoint run_inputs (P : Program) (fuel : nat) (l : list Input) : M World unit :=
  match l with
  | [] => mret tt
  | i :: l' => λ w,
      match @exec_input _ _ (program_callbacks P fuel fuel) fuel i w with
      | Ok _ w' => run_inputs P fuel l' w'
      | Throw _ w' => run_inputs P fuel l' w'
      | Fault f => Fault f
      end
  end.
