(* ===== verification/ServerInv.v ===== *)
(** * The invariant of the server

    For every connection: its deque holds exactly the live requests that point to
    it, only the last one may still be in receipt, only the front one may have been
    answered on the wire, and what was written so far is a well-framed sequence of
    responses in the order of arrival. For every request: it has ended, with one
    finish event and the notice its state calls for, exactly when it has left its
    connection. *)
From S2P Require Import Prelude Errors Date Proto ServerState ServerOps ServerConn ServerMain.
Local Open Scope Z_scope.

(** ** The tape of a connection: arrivals and writes *)

Inductive tape_item := TArrive (r : ReqId) | TWire (x : Wire).

Definition tape_of (c : ConnId) (o : Obs) : option tape_item :=
  match o with
  | OWrite c' x => if Nat.eqb c' c then Some (TWire x) else None
  | OArrive c' r => if Nat.eqb c' c then Some (TArrive r) else None
  | _ => None
  end.

(** Newest first, as the log. *)
Definition tape (c : ConnId) (lg : list Obs) : list tape_item := omap (tape_of c) lg.

(** The requests that arrived, oldest first. *)
Fixpoint arrived (tp : list tape_item) : list ReqId :=
  match tp with
  | [] => []
  | TArrive r :: tp' => arrived tp' ++ [r]
  | _ :: tp' => arrived tp'
  end.

(** The requests whose response head was written, oldest first. *)
Fixpoint heads (tp : list tape_item) : list ReqId :=
  match tp with
  | [] => []
  | TWire (WHead r _ _) :: tp' => heads tp' ++ [r]
  | _ :: tp' => heads tp'
  end.

(** The response that the last head opened and no final chunk closed. *)
Fixpoint open_response (tp : list tape_item) : option ResId :=
  match tp with
  | [] => None
  | TWire (WHead _ s _) :: _ => Some s
  | TWire (WFinal _ _) :: _ => None
  | _ :: tp' => open_response tp'
  end.

(** Chunks belong to the response that is open; an interim 100 precedes the
    response of its request. *)
Fixpoint framed (tp : list tape_item) : Prop :=
  match tp with
  | [] => True
  | TWire (WChunk s _) :: tp' => open_response tp' = Some s ∧ framed tp'
  | TWire (WFinal s _) :: tp' => open_response tp' = Some s ∧ framed tp'
  | TWire (WContinue r _) :: tp' => (r ∉ heads tp') ∧ framed tp'
  | _ :: tp' => framed tp'
  end.

(** ** The end of a request *)

(** The events that end a request: it has left its connection, or it is told why
    it did so early. *)
Definition is_finish (r : ReqId) (ev : Event) : bool :=
  match ev with EvFinish r' => Nat.eqb r' r | _ => false end.
Definition is_notice (r : ReqId) (ev : Event) : bool :=
  match ev with
  | EvDrop r' _ | EvError r' _ | EvPartial r' (Some _) => Nat.eqb r' r
  | _ => false
  end.

(** The end of the request [r] in a log, newest first: that it has left, and what
    it was told since. *)
Fixpoint epilogue (r : ReqId) (lg : list Obs) : list Event :=
  match lg with
  | [] => []
  | OEvent ev :: lg' =>
      if is_finish r ev then ev :: epilogue r lg'
      else if is_notice r ev && negb (bool_decide (epilogue r lg' = [])) then ev :: epilogue r lg'
      else epilogue r lg'
  | _ :: lg' => epilogue r lg'
  end.

(** Entries that end no request. *)
Definition ends_none (o : Obs) : bool :=
  match o with
  | OEvent (EvFinish _ | EvDrop _ _ | EvError _ _ | EvPartial _ (Some _)) => false
  | _ => true
  end.

Lemma epilogue_none r o lg : ends_none o = true → epilogue r (o :: lg) = epilogue r lg.
Proof. by destruct o as [| | | | | | |[| | | | | | |? []| |]| | |]. Qed.

(** Entries that are neither an arrival nor a write nor the end of a request. *)
Definition plain (o : Obs) : Prop := (∀ c, tape_of c o = None) ∧ ends_none o = true.

(** ** What a run risks

    A connection that was shut down may still queue what follows in the buffer it is
    reading; when its stream then reports the end of the shutdown, the connection is
    deleted and those requests are left with a pointer to it. The invariant is stated
    for any proposition that holds once that has happened; a fault that comes of it
    is tolerated where [Tolerant] says so. *)
Class Risk := risk : Prop.
Class Tolerant `{Risk} (T : fault → Prop) : Prop := tolerant : risk → T DanglingRef.

(** ** Slots: the requests of a deque with their responses *)

Abbreviation slot := (ServerRequest * option ServerResponse)%type.

Section Inv.
Context `{HttpProto} `{Rk : Risk}.

Definition slot_at (w : World) (c : ConnId) (r : ReqId) (sl : slot) : Prop :=
  w_reqs w !! r = Some sl.1 ∧ sr_connection sl.1 = Some c ∧
  match sr_response sl.1, sl.2 with
  | None, None => True
  | Some s, Some res => w_ress w !! s = Some res ∧ rs_request res = Some r
  | _, _ => False
  end.

Definition slot_done (sl : slot) : bool := sr_is_done sl.1.
Definition slot_fin (sl : slot) : bool := sr_finish_on_receive sl.1.
Definition slot_answered (sl : slot) : bool :=
  match sl.2 with Some _ => true | None => false end.
Definition slot_completed (sl : slot) : bool :=
  match sl.2 with Some res => rs_completed res | None => false end.

(** All entries but the last one are [true]. *)
Fixpoint front_done (ds : list bool) : Prop :=
  match ds with
  | [] => True
  | [_] => True
  | d :: ds' => d = true ∧ front_done ds'
  end.

(** The stream still delivers data to the connection. *)
Definition deliverable (k : ServerConnection) : bool :=
  sc_listener k && negb (sc_ignored k) && negb (sc_disconnected k).

(** The wire is in order: [written] tells whether the head of the front request's
    response was written, [op] is the front response if it still takes chunks.
    [rest] are the pipelined requests that a closing connection dropped behind it. *)
Record tape_ok (closing : bool) (tp : list tape_item) (ids : list ReqId) (written : bool)
    (op : option ResId) : Prop := {
  to_nodup : NoDup (arrived tp);
  to_order : ∃ gone rest, arrived tp = gone ++ ids ++ rest ∧
    sublist (heads tp) (gone ++ (if written then take 1 ids else [])) ∧
    (closing = false → rest = []);
  to_framed : framed tp;
  to_open : ∀ s, written = true → op = Some s → open_response tp = Some s
}.

(** The local invariant of a connection between two operations. [ds]: which of the
    queued requests are fully received; [ans]: the front one is answered. [busy]:
    the connection's [on_read] is running. [room]: how many more requests the deque
    may take within the model's bound. *)
Record conn_base (fuel room : nat) (busy : bool) (k : ServerConnection) (ds : list bool)
    (ans : bool) : Prop := {
  cp_done : front_done ds;
  cp_timer : sc_idle_timer k = Some true → ds = [];
  cp_live : ds ≠ [] → sc_listener k = true ∨ sc_disconnected k = true ∧ risk;
  cp_has_timer : sc_listener k = true ∨ ds ≠ [] → is_Some (sc_idle_timer k);
  cp_closing : sc_closing k = true → (length ds ≤ 1)%nat ∧ (ds = [] → deliverable k = false);
  cp_stopping : sc_stopping k = true → ds = [] → deliverable k = false;
  cp_stopping_ans : sc_stopping k = true → ans = true → sc_closing k = true;
  cp_receiving : deliverable k = true → parser_idle (sc_parser k) = false →
    last ds = Some false ∧ is_Some (sc_current k) ∧ sc_current k = last (sc_requests k);
  cp_received : deliverable k = true → parser_idle (sc_parser k) = true → last ds ≠ Some false;
  cp_not_more : busy = false → sc_closing k = true → deliverable k = true →
    parser_idle (sc_parser k) = false;
  cp_len : (length ds + room ≤ fuel)%nat
}.

(** Exactly an answered front request may wait for the end of its receipt. *)
Definition front_ok (sls : list slot) : Prop :=
  match sls with
  | [] => True
  | sl :: sls' => slot_fin sl = slot_completed sl ∧ Forall (λ x, slot_fin x = false) sls'
  end.

Definition front_written (sls : list slot) : bool :=
  match sls with sl :: _ => slot_answered sl | [] => false end.

Definition front_open (sls : list slot) : option ResId :=
  match sls with
  | sl :: _ => if slot_completed sl then None else sr_response sl.1
  | [] => None
  end.

Definition settled (fuel room : nat) (busy : bool) (k : ServerConnection) (sls : list slot)
    (tp : list tape_item) : Prop :=
  conn_base fuel room busy k (map slot_done sls) (front_written sls) ∧
  front_ok sls ∧
  tape_ok (sc_closing k) tp (sc_requests k) (front_written sls) (front_open sls).

Definition registered (w : World) (c : ConnId) (k : ServerConnection) : Prop :=
  sv_connections (w_server w) !! sc_id k = Some c.

Definition conn_ok (fuel room : nat) (busy : bool) (w : World) (c : ConnId) (k : ServerConnection) : Prop :=
  ∃ sls, Forall2 (slot_at w c) (sc_requests k) sls ∧ NoDup (sc_requests k) ∧
    settled fuel room busy k sls (tape c (w_log w)) ∧
    (sc_listener k = true → registered w c k).

(** How a request ends: it was received and answered in full, or its stream was
    handed over, or it was told that it was dropped, or that its receipt failed. *)
Definition wants_upgrade (q : ServerRequest) : bool :=
  iequals (headers_connection (req_headers (sr_msg q))) "upgrade".
Definition completed_of (w : World) (q : ServerRequest) : bool :=
  match sr_response q with Some s => from_option rs_completed false (w_ress w !! s) | None => false end.

Inductive farewell (r : ReqId) (q : ServerRequest) (completed : bool) : list Event → Prop :=
  | fw_answered : sr_is_done q = true → completed = true → farewell r q completed [EvFinish r]
  | fw_upgraded : wants_upgrade q = true → farewell r q completed [EvFinish r]
  | fw_dropped e : sr_is_done q = true → completed = false →
      farewell r q completed [EvDrop r (Some e); EvFinish r]
  | fw_error e : sr_is_done q = false → farewell r q completed [EvError r (Some e); EvFinish r]
  | fw_partial e : sr_is_done q = false → farewell r q completed [EvPartial r (Some e); EvFinish r].

(** Exactly the requests that have left their connection have ended. *)
Definition ended (w : World) (r : ReqId) : Prop :=
  match w_reqs w !! r with
  | Some q =>
      match sr_connection q with
      | Some _ => epilogue r (w_log w) = []
      | None => farewell r q (completed_of w q) (epilogue r (w_log w))
      end
  | None => epilogue r (w_log w) = []
  end.

(** What holds of the stores as a whole. *)
Record glob_ok (w : World) : Prop := {
  g_resp : ∀ r q s, w_reqs w !! r = Some q → sr_response q = Some s →
    ∃ res, w_ress w !! s = Some res ∧ rs_request res = Some r;
  g_back : ∀ s res r, w_ress w !! s = Some res → rs_request res = Some r →
    ∃ q, w_reqs w !! r = Some q ∧ sr_response q = Some s;
  g_ids : ∀ c c' k k', w_conns w !! c = Some k → w_conns w !! c' = Some k' →
    sc_id k = sc_id k' → c = c';
  g_srv : ∀ id c, sv_connections (w_server w) !! id = Some c →
    ∃ k, w_conns w !! c = Some k ∧ sc_id k = id;
  g_lastid : ∀ c k, w_conns w !! c = Some k → sc_id k ≤ w_lastid w;
  g_lastpos : 0 ≤ w_lastid w;
  g_arrived : ∀ c r, r ∈ arrived (tape c (w_log w)) → is_Some (w_reqs w !! r);
  g_tapes : ∀ c, w_conns w !! c = None → tape c (w_log w) = [];
  g_timeout : cf_idle_timeout (sv_conf (w_server w)) ≠ 0;
  g_ended : ∀ r, ended w r
}.

Definition is_busy (ex : option ConnId) (c : ConnId) : bool := bool_decide (ex = Some c).

(** The invariant: [ex] is the connection whose [on_read] is running. *)
Record Inv (fuel room : nat) (ex : option ConnId) (w : World) : Prop := {
  i_glob : glob_ok w;
  i_held : w_held w = ex;
  i_live : ∀ r q c, w_reqs w !! r = Some q → sr_connection q = Some c →
    ∃ k, w_conns w !! c = Some k ∧ r ∈ sc_requests k;
  i_conn : ∀ c k, w_conns w !! c = Some k → conn_ok fuel room (is_busy ex c) w c k
}.

(** ** Ownership of one connection

    [own w c k ids sls tp]: connection [c] has the record [k], the requests that
    point to it are [ids], their slots are [sls], its tape is [tp]; the rest of
    the state is as the invariant says. [ids] need not be the deque of [k]. *)
Record own (fuel room : nat) (ex : option ConnId) (w : World) (c : ConnId)
    (k : ServerConnection) (ids : list ReqId) (sls : list slot) (tp : list tape_item) : Prop := {
  o_glob : glob_ok w;
  o_held : w_held w = ex;
  o_conn : w_conns w !! c = Some k;
  o_slots : Forall2 (slot_at w c) ids sls;
  o_nodup : NoDup ids;
  o_tape : tape c (w_log w) = tp;
  o_reg : sc_listener k = true → registered w c k;
  o_mine : ∀ r q, w_reqs w !! r = Some q → sr_connection q = Some c → r ∈ ids;
  o_live : ∀ r q c', w_reqs w !! r = Some q → sr_connection q = Some c' → c' ≠ c →
    ∃ k', w_conns w !! c' = Some k' ∧ r ∈ sc_requests k';
  o_others : ∀ c' k', c' ≠ c → w_conns w !! c' = Some k' →
    conn_ok fuel room (is_busy ex c') w c' k'
}.

Lemma Inv_own fuel room ex w c k :
  Inv fuel room ex w → w_conns w !! c = Some k →
  ∃ sls, own fuel room ex w c k (sc_requests k) sls (tape c (w_log w)) ∧
    settled fuel room (is_busy ex c) k sls (tape c (w_log w)).
Proof.
  intros [Hg Hh Hl Hc] Hk. destruct (Hc c k Hk) as (sls & Hs & Hn & Hp & Hr).
  exists sls. split; [|done]. split; try done; eauto.
  intros r q Hq Hqc. destruct (Hl r q c Hq Hqc) as (k' & Hk' & Hin). by simplify_eq.
Qed.

Lemma own_Inv fuel room ex w c k sls tp :
  own fuel room ex w c k (sc_requests k) sls tp →
  settled fuel room (is_busy ex c) k sls tp →
  Inv fuel room ex w.
Proof.
  intros [] Hp. split; [done|done| |].
  - intros r q c' Hq Hqc. destruct (decide (c' = c)) as [->|]; eauto.
  - intros c' k' Hk'. destruct (decide (c' = c)) as [->|]; [|eauto].
    simplify_eq. by exists sls.
Qed.

(** What the user's polite calls leave alone, for a caller in the middle of
    [on_read]: the state of receipt, and requests that await the end of receipt; nothing
    arrives. *)
Definition req_kept (q q' : ServerRequest) : Prop :=
  sr_is_done q' = sr_is_done q ∧ sr_msg q' = sr_msg q ∧
  (sr_is_done q = true → sr_finish_on_receive q' = sr_finish_on_receive q) ∧
  (sr_finish_on_receive q = true →
   sr_finish_on_receive q' = true ∧ sr_connection q' = sr_connection q) ∧
  (sr_response q ≠ None → sr_response q' = sr_response q).

Definition conn_kept (k k' : ServerConnection) : Prop :=
  sc_parser k' = sc_parser k ∧ sc_current k' = sc_current k ∧ sc_limits k' = sc_limits k ∧
  (deliverable k = true → deliverable k' = true ∨ sc_closing k' = true) ∧
  (sc_closing k = true → sc_closing k' = true) ∧
  (sc_ignored k = true → sc_ignored k' = true) ∧ sc_listener k' = sc_listener k.

Record kept (w w' : World) : Prop := {
  k_reqs : ∀ r q, w_reqs w !! r = Some q → ∃ q', w_reqs w' !! r = Some q' ∧ req_kept q q';
  k_conns : ∀ c k, w_conns w !! c = Some k → ∃ k', w_conns w' !! c = Some k' ∧ conn_kept k k';
  k_arrived : ∀ c, arrived (tape c (w_log w')) = arrived (tape c (w_log w))
}.

(** A step that at most makes responses that no request has. *)
Record quiet_step (w w' : World) : Prop := {
  qs_reqs : w_reqs w' = w_reqs w;
  qs_conns : w_conns w' = w_conns w;
  qs_server : w_server w' = w_server w;
  qs_lastid : w_lastid w' = w_lastid w;
  qs_held : w_held w' = w_held w;
  qs_log : w_log w' = w_log w;
  qs_old : ∀ s res, w_ress w !! s = Some res → w_ress w' !! s = Some res;
  qs_new : ∀ s res, w_ress w' !! s = Some res → w_ress w !! s = Some res ∨ rs_request res = None
}.
End Inv.
