(* ===== verification/ServerOwn.v ===== *)
(** * Ownership of a connection under the primitive state changes

    One lemma per primitive: what [own] says after it. The operations of the
    connection are then verified without looking at the stores again. *)
From S2P Require Import Prelude Errors Date Proto ServerState ServerOps ServerConn ServerMain ServerInv.
Local Open Scope Z_scope.

(** Reduce the projections of an updated world. *)
Ltac wsimpl :=
  cbn [setter set_w_reqs set_w_ress set_w_conns set_w_server set_w_lastid set_w_now set_w_time
       set_w_held set_w_log w_reqs w_ress w_conns w_server w_lastid w_now w_time w_held w_log
       set_sv_connections sv_connections fst snd] in *.

Lemma fresh_key_None {A} (m : gmap nat A) : m !! fresh_key m = None.
Proof.
  unfold fresh_key.
  assert (∀ k, is_Some (m !! k) → (k ≤ map_fold (λ k _ n, Nat.max k n) 0 m)%nat) as Hle.
  { apply (map_fold_weak_ind (λ n (m : gmap nat A), ∀ k, is_Some (m !! k) → (k ≤ n)%nat)).
    - intros k [x Hx]. by rewrite lookup_empty in Hx.
    - intros i x m' n Hi IH k. destruct (decide (i = k)) as [->|Hk]; [lia|].
      rewrite lookup_insert_ne by done. intros Hs. specialize (IH k Hs). lia. }
  destruct (m !! S _) eqn:E; [|done].
  assert (S (map_fold (λ k _ n, Nat.max k n) 0 m) ≤ map_fold (λ k _ n, Nat.max k n) 0 m)%nat; [|lia].
  apply Hle. eauto.
Qed.

Section Own.
Context `{HttpProto} `{Rk : Risk}.
Context (fuel room : nat) (ex : option ConnId).
Implicit Types (w : World) (c : ConnId) (r : ReqId) (s : ResId) (k : ServerConnection) (ids : list ReqId)
  (sls : list slot) (tp : list tape_item) (q : ServerRequest) (res : ServerResponse).

(** The requests that a list of slots covers. *)
Lemma slots_lookup w c ids sls r :
  Forall2 (slot_at w c) ids sls → r ∈ ids → ∃ sl, slot_at w c r sl.
Proof.
  intros Hf Hr. apply list_elem_of_lookup in Hr as [i Hi].
  destruct (Forall2_lookup_l _ _ _ _ _ Hf Hi) as (sl & _ & ?). eauto.
Qed.

Lemma slots_mono w w' c ids sls :
  (∀ r sl, r ∈ ids → slot_at w c r sl → slot_at w' c r sl) →
  Forall2 (slot_at w c) ids sls → Forall2 (slot_at w' c) ids sls.
Proof.
  intros Hm Hf. induction Hf as [|r sl ids sls Hr Hf IH]; constructor.
  - apply Hm; [by left|done].
  - apply IH. intros. apply Hm; [by right|done].
Qed.

(** The other connections do not notice a change of what they do not own. *)
Lemma conn_ok_frame w w' room' busy c k :
  conn_ok fuel room' busy w c k →
  (∀ r sl, r ∈ sc_requests k → slot_at w c r sl → slot_at w' c r sl) →
  tape c (w_log w') = tape c (w_log w) →
  (registered w c k → registered w' c k) →
  conn_ok fuel room' busy w' c k.
Proof.
  intros (sls & Hs & Hn & Hp & Hr) Hm Htp Hreg. exists sls.
  rewrite Htp. split_and!; eauto using slots_mono.
Qed.

(** *** What has ended stays as it is *)

Lemma ended_frame w w' r :
  ended w r → w_reqs w' !! r = w_reqs w !! r →
  (∀ q, w_reqs w !! r = Some q → sr_connection q = None → completed_of w' q = completed_of w q) →
  epilogue r (w_log w') = epilogue r (w_log w) → ended w' r.
Proof.
  unfold ended. intros He Er Hc El. rewrite Er, El. destruct (w_reqs w !! r) as [q|] eqn:Hq; [|done].
  destruct (sr_connection q) eqn:Hqc; [done|]. by rewrite Hc.
Qed.

(** A request of a connection has not ended. *)
Lemma ended_live w r q c :
  ended w r → w_reqs w !! r = Some q → sr_connection q = Some c → epilogue r (w_log w) = [].
Proof. unfold ended. intros He Hq Hc. by rewrite Hq, Hc in He. Qed.

Lemma live_ended w r q c :
  w_reqs w !! r = Some q → sr_connection q = Some c → epilogue r (w_log w) = [] → ended w r.
Proof. unfold ended. by intros -> ->. Qed.

(** The response of one request changes, or a response becomes its own. *)
Lemma completed_alter w w' s q (f : ServerResponse → ServerResponse) :
  w_ress w' = alter f s (w_ress w) → (sr_response q = Some s → False) →
  completed_of w' q = completed_of w q.
Proof.
  unfold completed_of. intros -> Hs. destruct (sr_response q) as [s'|]; [|done].
  rewrite lookup_alter_ne; [done|]. intros <-. by apply Hs.
Qed.

Lemma farewell_same r q q' b evs :
  sr_is_done q' = sr_is_done q → sr_msg q' = sr_msg q → farewell r q b evs → farewell r q' b evs.
Proof.
  unfold wants_upgrade. intros Ed Em []; [apply fw_answered|apply fw_upgraded|apply fw_dropped|apply fw_error|apply fw_partial];
    unfold wants_upgrade in *; congruence.
Qed.

(** A farewell at the head of a log. *)
Lemma tape_events c evs lg : tape c (map OEvent evs ++ lg) = tape c lg.
Proof. by induction evs. Qed.

Lemma epilogue_own r q b evs lg :
  farewell r q b evs → epilogue r lg = [] → epilogue r (map OEvent evs ++ lg) = evs.
Proof. by intros [] E; cbn; rewrite ?Nat.eqb_refl; cbn; rewrite ?E, ?Nat.eqb_refl. Qed.

Lemma epilogue_other r r' q b evs lg :
  farewell r q b evs → r' ≠ r → epilogue r' (map OEvent evs ++ lg) = epilogue r' lg.
Proof. intros Hf Hne%not_eq_sym%Nat.eqb_neq. by destruct Hf; cbn; rewrite ?Hne; cbn; rewrite ?Hne. Qed.

Lemma completed_slot w c r q o : slot_at w c r (q, o) → completed_of w q = slot_completed (q, o).
Proof.
  intros (_ & _ & Hs). unfold completed_of, slot_completed. cbn in *.
  destruct (sr_response q) as [s|], o as [res|]; try done. by destruct Hs as [-> _].
Qed.

(** ** Changes of the connection record and of the log *)

Lemma own_mod_conn w c k ids sls tp (f : ServerConnection → ServerConnection) :
  own fuel room ex w c k ids sls tp →
  sc_id (f k) = sc_id k → (sc_listener (f k) = true → sc_listener k = true) →
  own fuel room ex (w <| w_conns ::= alter f c |>) c (f k) ids sls tp.
Proof.
  intros Ho Hid Hl. pose proof (o_conn _ _ _ _ _ _ _ _ _ Ho) as Hk. destruct Ho.
  assert (∀ c' k', alter f c (w_conns w) !! c' = Some k' →
    ∃ k0, w_conns w !! c' = Some k0 ∧ sc_id k0 = sc_id k' ∧
      (c' = c ∧ k' = f k ∨ c' ≠ c ∧ k' = k0)) as Hinv.
  { intros c' k'. rewrite lookup_alter. case_decide as Hc; [subst c'|by eauto 10].
    rewrite Hk. intros [= <-]. eauto 10. }
  split; wsimpl; try done.
  - destruct o_glob. split; wsimpl; try done.
    + intros c1 c2 k1 k2 (k1' & H1 & E1 & _)%Hinv (k2' & H2 & E2 & _)%Hinv Hids.
      eapply g_ids; eauto; congruence.
    + intros id c' Hc'. destruct (g_srv id c' Hc') as (k' & Hk' & Hid').
      rewrite lookup_alter. case_decide; [subst|by eauto]. rewrite Hk. simpl.
      simplify_eq. eauto.
    + intros c' k' (k0 & Hk0 & <- & _)%Hinv. eauto.
    + intros c' Hc'. apply g_tapes. rewrite lookup_alter in Hc'. case_decide; [subst|done].
      by rewrite Hk in Hc'.
  - rewrite lookup_alter. case_decide; [|done]. by rewrite Hk.
  - intros Hlf. specialize (o_reg (Hl Hlf)). unfold registered in *. wsimpl. congruence.
  - intros r q c' Hq Hqc Hne. destruct (o_live r q c' Hq Hqc Hne) as (k' & Hk' & Hin).
    exists k'. by rewrite lookup_alter_ne.
  - intros c' k' Hne. rewrite lookup_alter_ne by done. eauto.
Qed.

Lemma own_log w c k ids sls tp o :
  own fuel room ex w c k ids sls tp →
  (∀ c', c' ≠ c → tape_of c' o = None) →
  (∀ r, tape_of c o = Some (TArrive r) → is_Some (w_reqs w !! r)) →
  (∀ r, epilogue r (o :: w_log w) = epilogue r (w_log w)) →
  own fuel room ex (w <| w_log ::= cons o |>) c k ids sls
    (match tape_of c o with Some i => i :: tp | None => tp end).
Proof.
  intros [] Ho Harr Hend.
  assert (∀ c', c' ≠ c → tape c' (o :: w_log w) = tape c' (w_log w)) as Hne.
  { intros c' Hc'. unfold tape. cbn [omap list_omap]. by rewrite Ho. }
  split; wsimpl; try done.
  - destruct o_glob. split; wsimpl; try done.
    + intros c' r. destruct (decide (c' = c)) as [->|Hc']; [|rewrite Hne by done; eauto].
      unfold tape. cbn [omap list_omap]. destruct (tape_of c o) as [[r'|x]|] eqn:E; simpl; [|by eauto|by eauto].
      rewrite elem_of_app, list_elem_of_singleton. intros [?| ->]; eauto.
    + intros c' Hc'. destruct (decide (c' = c)) as [->|]; [by rewrite o_conn in Hc'|].
      rewrite Hne by done. eauto.
    + intros r. by apply (ended_frame w).
  - unfold tape. cbn [omap list_omap]. unfold tape in o_tape. rewrite <-o_tape.
    by destruct (tape_of c o).
  - intros c' k' Hc' Hk'. eapply conn_ok_frame; eauto.
Qed.

(** ** Changes of a request or of its response *)

Lemma slot_at_mod_req w c r r' sl (f : ServerRequest → ServerRequest) :
  slot_at w c r' sl → r' ≠ r → slot_at (w <| w_reqs ::= alter f r |>) c r' sl.
Proof. intros (Hq & Hc & Hs) Hne. unfold slot_at. wsimpl. by rewrite lookup_alter_ne. Qed.

Lemma slot_at_mod_res w c r' s res sl (f : ServerResponse → ServerResponse) :
  slot_at w c r' sl → w_ress w !! s = Some res → rs_request res ≠ Some r' →
  slot_at (w <| w_ress ::= alter f s |>) c r' sl.
Proof.
  intros (Hq & Hc & Hs) Hres Hne. unfold slot_at. wsimpl. split_and!; [done..|].
  destruct (sr_response sl.1) as [s'|], sl.2 as [res'|]; try done. destruct Hs as [Hs' Hr'].
  rewrite lookup_alter_ne; [done|]. intros ->. simplify_eq.
Qed.

(** A member of the owned list: its slot, and the lists around it. *)
Lemma slots_split w c l1 r l2 xs (sl : slot) ys :
  Forall2 (slot_at w c) (l1 ++ r :: l2) (xs ++ sl :: ys) → length l1 = length xs →
  slot_at w c r sl ∧ Forall2 (slot_at w c) l1 xs ∧ Forall2 (slot_at w c) l2 ys.
Proof.
  intros Hf Hl. apply Forall2_app_inv in Hf as [H1 H2]; [|done].
  by apply Forall2_cons in H2 as [? ?].
Qed.

Lemma slots_update w w' c l1 r l2 xs sl sl' ys :
  Forall2 (slot_at w c) (l1 ++ r :: l2) (xs ++ sl :: ys) → length l1 = length xs →
  NoDup (l1 ++ r :: l2) →
  (∀ r' sl0, r' ≠ r → slot_at w c r' sl0 → slot_at w' c r' sl0) →
  slot_at w' c r sl' →
  Forall2 (slot_at w' c) (l1 ++ r :: l2) (xs ++ sl' :: ys).
Proof.
  intros Hf Hl Hn Hne Hr. destruct (slots_split _ _ _ _ _ _ _ _ Hf Hl) as (_ & H1 & H2).
  apply NoDup_app in Hn as (_ & Hn1 & Hn2). apply NoDup_cons in Hn2 as [Hn2 _].
  apply Forall2_app; [|constructor; [done|]]; (eapply slots_mono; [|done]);
    intros r' sl0 Hin; apply Hne; intros ->; [|by apply Hn2].
  apply (Hn1 r); [done|by left].
Qed.

Lemma own_mod_req w c k l1 r l2 xs q o ys tp (f : ServerRequest → ServerRequest) :
  own fuel room ex w c k (l1 ++ r :: l2) (xs ++ (q, o) :: ys) tp → length l1 = length xs →
  sr_connection (f q) = sr_connection q → sr_response (f q) = sr_response q →
  own fuel room ex (w <| w_reqs ::= alter f r |>) c k (l1 ++ r :: l2) (xs ++ (f q, o) :: ys) tp.
Proof.
  intros [] Hl Hfc Hfr.
  destruct (slots_split _ _ _ _ _ _ _ _ o_slots Hl) as [(Hq & Hc & Hs) _]. wsimpl.
  assert (∀ r' q', alter f r (w_reqs w) !! r' = Some q' → ∃ q0, w_reqs w !! r' = Some q0 ∧
    sr_connection q' = sr_connection q0 ∧ sr_response q' = sr_response q0) as Hinv.
  { intros r' q'. rewrite lookup_alter. case_decide; [subst r'|by eauto].
    rewrite Hq. intros [= <-]. eauto. }
  split; wsimpl; try done.
  - destruct o_glob. split; wsimpl; try done.
    + intros r' q' s (q0 & Hq0 & _ & ->)%Hinv. eauto.
    + intros s res r' Hres Hr'. destruct (g_back s res r' Hres Hr') as (q0 & Hq0 & Hs0).
      rewrite lookup_alter. case_decide; [subst r'|by eauto]. rewrite Hq0. simplify_eq.
      eexists. split; [done|]. by rewrite Hfr.
    + intros c' r' Hin. rewrite lookup_alter_is_Some. eauto.
    + intros r'. destruct (decide (r' = r)) as [->|Hne].
      * apply (live_ended _ _ (f q) c); [by wsimpl; rewrite lookup_alter_eq, Hq|congruence|].
        by apply (ended_live w r q c).
      * apply (ended_frame w); [done|by wsimpl; rewrite lookup_alter_ne|done..].
  - eapply (slots_update w); [done..| |]; [intros; by apply slot_at_mod_req|].
    unfold slot_at. wsimpl. rewrite lookup_alter_eq, Hq, Hfc, Hfr. done.
  - intros r' q' (q0 & Hq0 & -> & _)%Hinv. eauto.
  - intros r' q' c' (q0 & Hq0 & -> & _)%Hinv. eauto.
  - intros c' k' Hne Hk'. eapply conn_ok_frame; eauto.
    intros r' sl Hin Hsl. apply slot_at_mod_req; [done|]. intros ->.
    destruct Hsl as (Hq' & Hc' & _). congruence.
Qed.

Lemma own_mod_res w c k l1 r l2 xs q res ys tp s (f : ServerResponse → ServerResponse) :
  own fuel room ex w c k (l1 ++ r :: l2) (xs ++ (q, Some res) :: ys) tp → length l1 = length xs →
  sr_response q = Some s → rs_request (f res) = rs_request res →
  own fuel room ex (w <| w_ress ::= alter f s |>) c k (l1 ++ r :: l2) (xs ++ (q, Some (f res)) :: ys) tp.
Proof.
  intros [] Hl Hqs Hf.
  destruct (slots_split _ _ _ _ _ _ _ _ o_slots Hl) as [(Hq & Hc & Hs) _]. wsimpl.
  rewrite Hqs in Hs. destruct Hs as [Hres Hrr].
  assert (∀ s' res', alter f s (w_ress w) !! s' = Some res' → ∃ res0, w_ress w !! s' = Some res0 ∧
    rs_request res' = rs_request res0) as Hinv.
  { intros s' res'. rewrite lookup_alter. case_decide; [subst s'|by eauto].
    rewrite Hres. intros [= <-]. eauto. }
  split; wsimpl; try done.
  - destruct o_glob. split; wsimpl; try done.
    + intros r' q' s' Hq' Hs'. destruct (g_resp r' q' s' Hq' Hs') as (res' & Hres' & Hrr').
      rewrite lookup_alter. case_decide; [subst s'|by eauto]. rewrite Hres. simpl. simplify_eq. eexists. by split; [|rewrite Hf].
    + intros s' res' r' (res0 & Hres0 & ->)%Hinv. eauto.
    + intros r'. apply (ended_frame w); [done|done| |done]. intros q' Hq' Hc'.
      eapply completed_alter; [done|]. intros Hs'. destruct (g_resp r' q' s Hq' Hs') as (? & ? & ?). simplify_eq.
  - eapply (slots_update w); [done..| |].
    + intros r' sl0 Hne Hsl. apply (slot_at_mod_res _ _ _ _ _ _ _ Hsl Hres). congruence.
    + unfold slot_at. wsimpl. rewrite Hqs, lookup_alter_eq, Hres. by rewrite Hf.
  - intros c' k' Hne Hk'. eapply conn_ok_frame; eauto.
    intros r' sl Hin Hsl. apply (slot_at_mod_res _ _ _ _ _ _ _ Hsl Hres).
    rewrite Hrr. intros [= ->].
    destruct Hsl as (Hq' & Hc' & _). congruence.
Qed.

(** The request leaves the connection, and is told so. *)
Lemma own_detach w c k l1 r l2 xs q o ys tp evs (f : ServerRequest → ServerRequest) :
  own fuel room ex w c k (l1 ++ r :: l2) (xs ++ (q, o) :: ys) tp → length l1 = length xs →
  sr_connection (f q) = None → sr_response (f q) = sr_response q →
  farewell r (f q) (slot_completed (q, o)) evs →
  own fuel room ex (w <| w_reqs ::= alter f r |> <| w_log ::= app (map OEvent evs) |>) c k (l1 ++ l2) (xs ++ ys) tp.
Proof.
  intros [] Hl Hfc Hfr Hfw.
  destruct (slots_split _ _ _ _ _ _ _ _ o_slots Hl) as [Hsl [Hxs Hys]]. pose proof (completed_slot _ _ _ _ _ Hsl) as Hcomp.
  destruct Hsl as (Hq & Hc & Hs). wsimpl.
  assert (∀ r' q', alter f r (w_reqs w) !! r' = Some q' → ∃ q0, w_reqs w !! r' = Some q0 ∧
    (r' ≠ r ∧ q' = q0 ∨ r' = r ∧ sr_connection q' = None) ∧ sr_response q' = sr_response q0) as Hinv.
  { intros r' q'. rewrite lookup_alter. case_decide; [subst r'|by eauto 10].
    rewrite Hq. intros [= <-]. eauto 10. }
  apply NoDup_app in o_nodup as (Hn1 & Hn12 & Hn2). apply NoDup_cons in Hn2 as [Hr2 Hn2].
  assert (r ∉ l1) as Hr1 by (intros Hin; by apply (Hn12 r); [|left]).
  split; wsimpl; try done.
  - destruct o_glob. split; wsimpl; try done.
    + intros r' q' s (q0 & Hq0 & _ & ->)%Hinv. eauto.
    + intros s res r' Hres Hr'. destruct (g_back s res r' Hres Hr') as (q0 & Hq0 & Hs0).
      rewrite lookup_alter. case_decide; [subst r'|by eauto]. rewrite Hq0. simplify_eq.
      eexists. split; [done|]. by rewrite Hfr.
    + intros c' r'. rewrite tape_events. intros Hin. rewrite lookup_alter_is_Some. eauto.
    + intros c' Hc'. rewrite tape_events. eauto.
    + intros r'. destruct (decide (r' = r)) as [->|Hne].
      * unfold ended. wsimpl. rewrite lookup_alter_eq, Hq. cbn. rewrite Hfc.
        assert (completed_of (w <| w_reqs ::= alter f r |> <| w_log ::= app (map OEvent evs) |>) (f q) =
          slot_completed (q, o)) as -> by (rewrite <-Hcomp; unfold completed_of; by rewrite Hfr).
        by rewrite (epilogue_own _ _ _ _ _ Hfw (ended_live w r q c (g_ended r) Hq Hc)).
      * apply (ended_frame w); [done|by wsimpl; rewrite lookup_alter_ne|done|].
        wsimpl. by eapply epilogue_other.
  - apply Forall2_app; (eapply slots_mono; [|done]); intros r' sl Hin Hsl;
      (apply (slot_at_mod_req w); [done|by intros ->]).
  - apply NoDup_app. split_and!; [done| |done]. intros x Hx Hx2. apply (Hn12 x Hx). by right.
  - by rewrite tape_events.
  - intros r' q' (q0 & Hq0 & [[Hne ->]|[-> Hnone]] & _)%Hinv Hc'; [|congruence].
    specialize (o_mine r' q0 Hq0 Hc'). rewrite elem_of_app, elem_of_cons in o_mine.
    apply elem_of_app. by destruct o_mine as [?|[->|?]]; [left| |right].
  - intros r' q' c' (q0 & Hq0 & [[Hne ->]|[-> Hnone]] & _)%Hinv Hc'; [eauto|congruence].
  - intros c' k' Hne Hk'. eapply conn_ok_frame; eauto; [|by wsimpl; rewrite tape_events].
    intros r' sl Hin Hsl. apply (slot_at_mod_req w); [done|]. intros ->.
    destruct Hsl as (Hq' & Hc' & _). congruence.
Qed.

(** ** Answering a request: it gets a response that no request has *)

Lemma own_answer w c k l1 r l2 xs q ys tp s res
    (f : ServerRequest → ServerRequest) (g : ServerResponse → ServerResponse) :
  own fuel room ex w c k (l1 ++ r :: l2) (xs ++ (q, None) :: ys) tp → length l1 = length xs →
  w_ress w !! s = Some res → rs_request res = None →
  sr_connection (f q) = sr_connection q → sr_response (f q) = Some s → rs_request (g res) = Some r →
  own fuel room ex (w <| w_reqs ::= alter f r |> <| w_ress ::= alter g s |>) c k
    (l1 ++ r :: l2) (xs ++ (f q, Some (g res)) :: ys) tp.
Proof.
  intros [] Hl Hres Hnone Hfc Hfr Hg.
  destruct (slots_split _ _ _ _ _ _ _ _ o_slots Hl) as [(Hq & Hc & Hs) _]. wsimpl.
  assert (∀ r' q', alter f r (w_reqs w) !! r' = Some q' → ∃ q0, w_reqs w !! r' = Some q0 ∧
    sr_connection q' = sr_connection q0 ∧
    (r' = r ∧ q' = f q ∨ r' ≠ r ∧ q' = q0)) as Hinv.
  { intros r' q'. rewrite lookup_alter. case_decide; [subst r'|by eauto 10].
    rewrite Hq. intros [= <-]. eauto 10. }
  assert (∀ c' r' sl, r' ≠ r → slot_at w c' r' sl →
    slot_at (w <| w_reqs ::= alter f r |> <| w_ress ::= alter g s |>) c' r' sl) as Hother.
  { intros c' r' sl Hne Hsl. eapply (slot_at_mod_res _ _ _ _ res).
    - by apply slot_at_mod_req.
    - done.
    - by rewrite Hnone. }
  split; wsimpl; try done.
  - destruct o_glob. split; wsimpl; try done.
    + intros r' q' s' (q0 & Hq0 & _ & [[-> ->]|[Hne ->]])%Hinv Hs'.
      * rewrite Hfr in Hs'. simplify_eq. rewrite lookup_alter_eq, Hres. eexists. by split; [|done].
      * destruct (g_resp r' q0 s' Hq0 Hs') as (res' & Hres' & Hrr').
        rewrite lookup_alter_ne; [by eauto|]. intros ->. congruence.
    + intros s' res' r'. rewrite lookup_alter. case_decide; [subst s'|].
      * rewrite Hres. intros [= <-] Hr'. rewrite Hg in Hr'. simplify_eq. rewrite lookup_alter_eq, Hq. eauto.
      * intros Hres' Hr'. destruct (g_back s' res' r' Hres' Hr') as (q0 & Hq0 & Hs0).
        exists q0. rewrite lookup_alter_ne; [done|]. intros ->. simplify_eq.
        by rewrite Hs0 in Hs.
    + intros c' r' Hin. rewrite lookup_alter_is_Some. eauto.
    + intros r'. destruct (decide (r' = r)) as [->|Hne].
      * apply (live_ended _ _ (f q) c); [by wsimpl; rewrite lookup_alter_eq, Hq|congruence|].
        by apply (ended_live w r q c).
      * apply (ended_frame w); [done|by wsimpl; rewrite lookup_alter_ne| |done]. intros q' Hq' Hc'.
        eapply completed_alter; [done|]. intros Hs'. destruct (g_resp r' q' s Hq' Hs') as (? & ? & ?). simplify_eq.
  - eapply (slots_update w); [done..|by intros; apply Hother|].
    unfold slot_at. wsimpl. by rewrite lookup_alter_eq, Hq, Hfc, Hfr, lookup_alter_eq, Hres.
  - intros r' q' (q0 & Hq0 & -> & _)%Hinv. eauto.
  - intros r' q' c' (q0 & Hq0 & -> & _)%Hinv. eauto.
  - intros c' k' Hne Hk'. eapply conn_ok_frame; eauto. intros r' sl Hin Hsl.
    apply Hother; [|done]. intros ->. destruct Hsl as (Hq' & Hc' & _). congruence.
Qed.

(** ** New objects *)

Lemma quiet_step_refl w : quiet_step w w.
Proof. split; eauto. Qed.

Lemma quiet_alloc_res w res :
  rs_request res = None → quiet_step w (w <| w_ress ::= <[fresh_key (w_ress w) := res]> |>).
Proof.
  intros Hres. split; wsimpl; try done.
  - intros s res' Hs. rewrite lookup_insert_ne; [done|]. intros <-. by rewrite fresh_key_None in Hs.
  - intros s res' [[<- <-]|[? ?]]%lookup_insert_Some; eauto.
Qed.

Lemma slot_at_quiet w w' c r sl : quiet_step w w' → slot_at w c r sl → slot_at w' c r sl.
Proof.
  intros [] (Hq & Hc & Hs). unfold slot_at. rewrite qs_reqs. split_and!; [done..|].
  destruct (sr_response sl.1), sl.2; try done. destruct Hs. eauto.
Qed.

Lemma glob_quiet w w' : quiet_step w w' → glob_ok w → glob_ok w'.
Proof.
  intros [] []. split; rewrite ?qs_reqs, ?qs_conns, ?qs_server, ?qs_lastid, ?qs_log; try done.
  - intros r q s Hq Hs. destruct (g_resp r q s Hq Hs) as (res & ? & ?). eauto.
  - intros s res r Hs Hr. destruct (qs_new s res Hs) as [?|?]; [eauto|congruence].
  - intros r. apply (ended_frame w); [done|by rewrite qs_reqs| |by rewrite qs_log]. intros q Hq _.
    unfold completed_of. destruct (sr_response q) as [s|] eqn:Hs; [|done].
    destruct (g_resp r q s Hq Hs) as (res & Hres & _). by rewrite Hres, (qs_old s res Hres).
Qed.

Lemma conn_ok_quiet w w' room' busy c k :
  quiet_step w w' → conn_ok fuel room' busy w c k → conn_ok fuel room' busy w' c k.
Proof.
  intros Hq Hok. eapply conn_ok_frame; eauto.
  - intros. by eapply slot_at_quiet.
  - by rewrite (qs_log _ _ Hq).
  - unfold registered. by rewrite (qs_server _ _ Hq).
Qed.

Lemma own_quiet w w' c k ids sls tp :
  quiet_step w w' → own fuel room ex w c k ids sls tp → own fuel room ex w' c k ids sls tp.
Proof.
  intros Hq []. pose proof Hq as [].
  split; unfold registered; rewrite ?qs_reqs, ?qs_conns, ?qs_server, ?qs_held, ?qs_log; try done.
  - by eapply glob_quiet.
  - eapply slots_mono; [|done]. intros. by eapply slot_at_quiet.
  - intros. eapply conn_ok_quiet; eauto.
Qed.

Lemma Inv_quiet w w' : quiet_step w w' → Inv fuel room ex w → Inv fuel room ex w'.
Proof.
  intros Hq []. split; [by eapply glob_quiet|by rewrite (qs_held _ _ Hq)| |].
  - destruct Hq. by rewrite qs_reqs, qs_conns.
  - intros c k. rewrite (qs_conns _ _ Hq). intros. eapply conn_ok_quiet; eauto.
Qed.

(** A new request of the connection. *)
Lemma own_alloc_req w c k ids sls tp q :
  own fuel room ex w c k ids sls tp → sr_connection q = Some c → sr_response q = None →
  own fuel room ex (w <| w_reqs ::= <[fresh_key (w_reqs w) := q]> |>) c k
    (ids ++ [fresh_key (w_reqs w)]) (sls ++ [(q, None)]) tp.
Proof.
  intros [] Hqc Hqr. set (r := fresh_key (w_reqs w)).
  assert (w_reqs w !! r = None) as Hr by apply fresh_key_None.
  assert (∀ c' r' sl, slot_at w c' r' sl →
    slot_at (w <| w_reqs ::= <[r := q]> |>) c' r' sl) as Hsl.
  { intros c' r' sl (Hq & Hc & Hs). unfold slot_at. wsimpl.
    rewrite lookup_insert_ne; [done|]. intros ->. congruence. }
  assert (∀ r', is_Some (w_reqs w !! r') → is_Some (<[r := q]> (w_reqs w) !! r')) as Hdom.
  { intros r' ?. rewrite lookup_insert_is_Some'. by right. }
  split; wsimpl; try done.
  - destruct o_glob. split; wsimpl; eauto; try done.
    + intros r' q' s [[<- <-]|[Hne Hq']]%lookup_insert_Some Hs; [congruence|eauto].
    + intros s res r' Hres Hr'. destruct (g_back s res r' Hres Hr') as (q0 & Hq0 & Hs0).
      exists q0. rewrite lookup_insert_ne; [done|]. intros <-. congruence.
    + intros r'. destruct (decide (r' = r)) as [->|Hne].
      * apply (live_ended _ _ q c); [by wsimpl; rewrite lookup_insert_eq|done|].
        specialize (g_ended r). unfold ended in g_ended. by rewrite Hr in g_ended.
      * apply (ended_frame w); [done|by wsimpl; rewrite lookup_insert_ne|done..].
  - apply Forall2_app; [apply (slots_mono w); auto|]. constructor; [|done].
    unfold slot_at. wsimpl. by rewrite lookup_insert_eq, Hqr.
  - apply NoDup_app. split_and!; [done| |apply NoDup_singleton].
    intros r' Hin ->%list_elem_of_singleton.
    destruct (slots_lookup _ _ _ _ _ o_slots Hin) as (sl & Hq & _). congruence.
  - intros r' q' [[<- <-]|[Hne Hq']]%lookup_insert_Some Hc'; apply elem_of_app;
      [right; by apply list_elem_of_singleton|left; eauto].
  - intros r' q' c' [[<- <-]|[Hne Hq']]%lookup_insert_Some Hc'; [congruence|eauto].
  - intros c' k' Hne Hk'. eapply conn_ok_frame; eauto.
Qed.

(** ** Changes of the server *)

Lemma own_mod_server w c k ids sls tp (f : Server → Server) :
  own fuel room ex w c k ids sls tp →
  sv_connections (f (w_server w)) = sv_connections (w_server w) →
  sv_conf (f (w_server w)) = sv_conf (w_server w) →
  own fuel room ex (w <| w_server ::= f |>) c k ids sls tp.
Proof.
  intros [] Hf Hconf. split; unfold registered; wsimpl; rewrite ?Hf; try done.
  - destruct o_glob. split; wsimpl; rewrite ?Hf, ?Hconf; done.
  - intros c' k' Hne Hk'. eapply conn_ok_frame; eauto. unfold registered. wsimpl. by rewrite Hf.
Qed.

Lemma own_remove w c k ids sls tp (f : Server → Server) :
  own fuel room ex w c k ids sls tp → sc_listener k = false →
  sv_connections (f (w_server w)) = delete (sc_id k) (sv_connections (w_server w)) →
  sv_conf (f (w_server w)) = sv_conf (w_server w) →
  own fuel room ex (w <| w_server ::= f |>) c k ids sls tp.
Proof.
  intros [] Hl Hf Hconf. split; unfold registered; wsimpl; try done; [|congruence|].
  - destruct o_glob. split; wsimpl; rewrite ?Hf, ?Hconf; try done.
    intros id c' [_ Hc']%lookup_delete_Some. eauto.
  - intros c' k' Hne Hk'. eapply conn_ok_frame; eauto. unfold registered. wsimpl.
    rewrite Hf. intros Hc'. rewrite lookup_delete_ne; [done|]. intros Hid.
    apply Hne. symmetry. by apply (g_ids _ o_glob c c' k k').
Qed.
End Own.
