(* ===== verification/ServerSpecs.v ===== *)
(** * Specifications of the store operations and of the smaller methods

    Weakest-precondition rules in continuation form: to verify an operation from a
    state that owns a connection, it is enough to verify what follows it from a
    state that owns the changed connection. [rel] is what the run is
    compared with, when a caller needs that. *)
From S2P Require Import Prelude Errors Date Proto ServerState ServerOps ServerConn ServerMain ServerInv ServerOwn.
Local Open Scope Z_scope.

(** ** The relation [kept] is a preorder that the primitives respect *)

(** A connection is used: it has to be alive. *)
Lemma alive_at `{HttpProto} w c k :
  w_conns w !! c = Some k → alive c w = if lives w c k then Ok tt w else Fault DanglingRef.
Proof. intros Hk. unfold alive, get_conn, mbind, M_bind, gets. rewrite Hk. by destruct (lives w c k) eqn:E; cbn; rewrite E. Qed.

Section Kept.
Context `{HttpProto}.

Lemma req_kept_refl q : req_kept q q.
Proof. by repeat split. Qed.

Lemma conn_kept_refl k : conn_kept k k.
Proof. repeat split; auto. Qed.

Lemma req_kept_trans q q1 q2 : req_kept q q1 → req_kept q1 q2 → req_kept q q2.
Proof.
  intros (E1 & E2 & E3 & E4 & E5) (F1 & F2 & F3 & F4 & F5). unfold req_kept. split_and!; try congruence.
  - intros Hd. rewrite F3, E3; congruence.
  - intros Hf. destruct (E4 Hf) as [Hf1 Hc1]. destruct (F4 Hf1). split; congruence.
  - intros Hr. rewrite F5, E5; [done|done|by rewrite E5].
Qed.

Lemma conn_kept_trans k k1 k2 : conn_kept k k1 → conn_kept k1 k2 → conn_kept k k2.
Proof.
  intros (E1 & E2 & E3 & E4 & E5 & E6 & E7) (F1 & F2 & F3 & F4 & F5 & F6 & F7). unfold conn_kept.
  split_and!; try congruence; [|auto..].
  intros Hd. destruct (E4 Hd) as [?|?]; auto.
Qed.

Lemma kept_refl w : kept w w.
Proof. split; eauto using req_kept_refl, conn_kept_refl. Qed.

Lemma kept_trans w w' w'' : kept w w' → kept w' w'' → kept w w''.
Proof.
  intros [R1 C1 A1] [R2 C2 A2]. split; [| |congruence].
  - intros r q Hq. destruct (R1 r q Hq) as (q1 & Hq1 & E1).
    destruct (R2 r q1 Hq1) as (q2 & Hq2 & E2). eauto using req_kept_trans.
  - intros c k Hk. destruct (C1 c k Hk) as (k1 & Hk1 & E1).
    destruct (C2 c k1 Hk1) as (k2 & Hk2 & E2). eauto using conn_kept_trans.
Qed.

Lemma kept_mod_req w r q (f : ServerRequest → ServerRequest) :
  w_reqs w !! r = Some q → req_kept q (f q) → kept w (w <| w_reqs ::= alter f r |>).
Proof.
  intros Hq Hf. split; wsimpl; [|by eauto using conn_kept_refl|done].
  intros r' q' Hq'. rewrite lookup_alter. case_decide; [subst r'|eauto using req_kept_refl].
  simplify_eq. rewrite Hq. eexists. by split; [|done].
Qed.

Lemma kept_mod_conn w c k (f : ServerConnection → ServerConnection) :
  w_conns w !! c = Some k → conn_kept k (f k) → kept w (w <| w_conns ::= alter f c |>).
Proof.
  intros Hk Hf. split; wsimpl; [by eauto using req_kept_refl| |done].
  intros c' k' Hk'. rewrite lookup_alter. case_decide; [subst c'|eauto using conn_kept_refl].
  simplify_eq. rewrite Hk. eexists. by split; [|done].
Qed.

Lemma kept_same w w' :
  w_reqs w' = w_reqs w → w_conns w' = w_conns w →
  (∀ c, arrived (tape c (w_log w')) = arrived (tape c (w_log w))) → kept w w'.
Proof. intros Hr Hc Ha. split; rewrite ?Hr, ?Hc; eauto using req_kept_refl, conn_kept_refl. Qed.

Lemma kept_quiet w w' : quiet_step w w' → kept w w'.
Proof. intros []. apply kept_same; congruence. Qed.

Lemma kept_alloc_req w q : kept w (w <| w_reqs ::= <[fresh_key (w_reqs w) := q]> |>).
Proof.
  split; wsimpl; [|by eauto using conn_kept_refl|done]. intros r q' Hq'.
  exists q'. split; [|apply req_kept_refl]. rewrite lookup_insert_ne; [done|].
  intros <-. by rewrite fresh_key_None in Hq'.
Qed.

(** How the server may change while connections are closed. *)
Definition srv_le (s s' : Server) : Prop :=
  sv_connections s' ⊆ sv_connections s ∧ sv_conf s' = sv_conf s ∧
  sv_listeners s' = sv_listeners s ∧
  (sv_state s' = sv_state s ∨ sv_state s = stopping ∧ sv_state s' = initial).

Lemma srv_le_refl s : srv_le s s.
Proof. split_and!; [done|done|done|by left]. Qed.

Lemma srv_le_trans s1 s2 s3 : srv_le s1 s2 → srv_le s2 s3 → srv_le s1 s3.
Proof.
  intros (C1 & F1 & L1 & S1) (C2 & F2 & L2 & S2).
  split_and!; [by transitivity (sv_connections s2)|congruence..|].
  destruct S1 as [E1|[E1 E1']], S2 as [E2|[E2 E2']]; rewrite ?E1, ?E2 in *; try naive_solver congruence.
Qed.

(** What a run is compared with: nothing, the server as it was, or all that
    [kept] speaks of. *)
Inductive base := Free | After (s0 : Server) | Since (w0 : World).

Definition strict (rel : base) : Prop := match rel with Since _ => True | _ => False end.

Definition tracked (rel : base) (w : World) : Prop :=
  match rel with Free => True | After s0 => srv_le s0 (w_server w) | Since w0 => kept w0 w end.

Lemma tracked_server rel w w' :
  tracked rel w → srv_le (w_server w) (w_server w') → (strict rel → kept w w') → tracked rel w'.
Proof.
  destruct rel as [|s0|w0]; simpl; [done| |].
  - intros. by eapply srv_le_trans.
  - intros ?? Hk. eapply kept_trans; eauto.
Qed.

Lemma tracked_step rel w w' :
  tracked rel w → w_server w' = w_server w → (strict rel → kept w w') → tracked rel w'.
Proof. intros Ht Hs. apply tracked_server; [done|]. rewrite Hs. apply srv_le_refl. Qed.
End Kept.

(** ** The user's code in the middle of an operation

    Between the removal of a request and the end of the operation that removed it,
    the connection is not in a consistent state. [PassiveCallbacks] states what the
    callbacks called there may do: make objects, nothing else of the library. *)
Definition passive_event (ev : Event) : bool :=
  match ev with
  | EvFinish _ | EvDrop _ _ | EvStop | EvRun | EvConnect _ => true
  | _ => false
  end.

Class PassiveCallbacks `{HttpProto} `{!Callbacks} : Prop := {
  fire_passive : ∀ ev w, passive_event ev = true → ∃ w', fire ev w = Ok tt w' ∧ quiet_step w w';
  fire_detached : ∀ r err w q, w_reqs w !! r = Some q → sr_connection q = None →
    (∃ w', fire (EvError r err) w = Ok tt w' ∧ quiet_step w w') ∧
    (err ≠ None → ∃ w', fire (EvPartial r err) w = Ok tt w' ∧ quiet_step w w');
  factory_makes : ∀ c w, factory_new_request c w = new_ServerRequest c w
}.

Section Specs.
Context `{HttpProto} `{!HttpProtoLaws} `{Env} `{!EnvLaws} `{!Callbacks} `{!PassiveCallbacks}.
Context `{Rk : Risk} {T : fault → Prop}.
Local Abbreviation wp := (wpf T).
Context (fuel room : nat) (ex : option ConnId) (rel : base).
Implicit Types (w : World) (k : ServerConnection) (E : exn → World → Prop).

(** [owns w c k ids sls tp]: [own], and the run so far is tracked. *)
Definition owns w (c : ConnId) k (ids : list ReqId) (sls : list slot) (tp : list tape_item) : Prop :=
  own fuel room ex w c k ids sls tp ∧ tracked rel w.

(** *** Reading *)

Lemma wp_get_conn w c k ids sls tp (Q : ServerConnection → World → Prop) E :
  owns w c k ids sls tp → Q k w → wp (get_conn c) Q E w.
Proof.
  intros [Ho _] HQ. apply wp_bind, wp_gets. eapply wp_deref; [|done]. apply Ho.
Qed.

Lemma wp_get_server (Q : Server → World → Prop) E w : Q (w_server w) w → wp get_server Q E w.
Proof. done. Qed.

Lemma wp_get_req_at w r q (Q : ServerRequest → World → Prop) E :
  w_reqs w !! r = Some q → Q q w → wp (get_req r) Q E w.
Proof. intros Hq HQ. apply wp_bind, wp_gets. by eapply wp_deref. Qed.

Lemma wp_get_res_at w s res (Q : ServerResponse → World → Prop) E :
  w_ress w !! s = Some res → Q res w → wp (get_res s) Q E w.
Proof. intros Hs HQ. apply wp_bind, wp_gets. by eapply wp_deref. Qed.

Lemma own_slot w c k l1 r l2 xs q o ys tp :
  owns w c k (l1 ++ r :: l2) (xs ++ (q, o) :: ys) tp → length l1 = length xs →
  slot_at w c r (q, o).
Proof. intros [Ho _] Hl. by destruct (slots_split _ _ _ _ _ _ _ _ (o_slots _ _ _ _ _ _ _ _ _ Ho) Hl). Qed.

Lemma wp_get_req w c k l1 r l2 xs q o ys tp (Q : ServerRequest → World → Prop) E :
  owns w c k (l1 ++ r :: l2) (xs ++ (q, o) :: ys) tp → length l1 = length xs →
  Q q w → wp (get_req r) Q E w.
Proof. intros Ho Hl. apply wp_get_req_at. by destruct (own_slot _ _ _ _ _ _ _ _ _ _ _ Ho Hl). Qed.

Lemma wp_get_res w c k l1 r l2 xs q res ys tp s (Q : ServerResponse → World → Prop) E :
  owns w c k (l1 ++ r :: l2) (xs ++ (q, Some res) :: ys) tp → length l1 = length xs →
  sr_response q = Some s → Q res w → wp (get_res s) Q E w.
Proof.
  intros Ho Hl Hs. apply wp_get_res_at.
  destruct (own_slot _ _ _ _ _ _ _ _ _ _ _ Ho Hl) as (_ & _ & Hr). simpl in Hr.
  rewrite Hs in Hr. tauto.
Qed.

(** *** Writing *)

Lemma wp_mod_conn_step w c k ids sls tp (f : ServerConnection → ServerConnection) Q E :
  owns w c k ids sls tp →
  sc_id (f k) = sc_id k → (sc_listener (f k) = true → sc_listener k = true) →
  (strict rel → conn_kept k (f k)) →
  (∀ w', owns w' c (f k) ids sls tp → w_reqs w' = w_reqs w → Q tt w') → wp (mod_conn c f) Q E w.
Proof.
  intros [Ho Ht] Hid Hl Hk HQ. apply wp_modify, HQ; [|done]. split; [by apply own_mod_conn|].
  eapply tracked_step; [done|done|]. intros Hr. eapply kept_mod_conn; [apply Ho|auto].
Qed.

Lemma wp_mod_conn w c k ids sls tp (f : ServerConnection → ServerConnection) Q E :
  owns w c k ids sls tp →
  sc_id (f k) = sc_id k → (sc_listener (f k) = true → sc_listener k = true) →
  (strict rel → conn_kept k (f k)) →
  (∀ w', owns w' c (f k) ids sls tp → Q tt w') → wp (mod_conn c f) Q E w.
Proof. intros. eapply wp_mod_conn_step; eauto. Qed.

Lemma wp_mod_req w c k l1 r l2 xs q o ys tp (f : ServerRequest → ServerRequest) Q E :
  owns w c k (l1 ++ r :: l2) (xs ++ (q, o) :: ys) tp → length l1 = length xs →
  sr_connection (f q) = sr_connection q → sr_response (f q) = sr_response q →
  (strict rel → req_kept q (f q)) →
  (∀ w', owns w' c k (l1 ++ r :: l2) (xs ++ (f q, o) :: ys) tp → Q tt w') →
  wp (mod_req r f) Q E w.
Proof.
  intros Ho Hl Hc Hs Hk HQ. destruct (own_slot _ _ _ _ _ _ _ _ _ _ _ Ho Hl) as (Hq & _).
  destruct Ho as [Ho Ht]. apply wp_modify, HQ. split; [by apply own_mod_req|].
  eapply tracked_step; [done|done|]. intros Hr. eapply kept_mod_req; eauto.
Qed.

Lemma wp_mod_res w c k l1 r l2 xs q res ys tp s (f : ServerResponse → ServerResponse) Q E :
  owns w c k (l1 ++ r :: l2) (xs ++ (q, Some res) :: ys) tp → length l1 = length xs →
  sr_response q = Some s → rs_request (f res) = rs_request res →
  (∀ w', owns w' c k (l1 ++ r :: l2) (xs ++ (q, Some (f res)) :: ys) tp → Q tt w') →
  wp (mod_res s f) Q E w.
Proof.
  intros [Ho Ht] Hl Hs Hf HQ. apply wp_modify, HQ. split; [by apply own_mod_res|].
  eapply tracked_step; [done|done|]. intros _. by apply kept_same.
Qed.

(** Log entries of other kinds than arrivals and writes. *)
Lemma wp_log_other w c k ids sls tp o Q E :
  owns w c k ids sls tp → plain o →
  (∀ w', owns w' c k ids sls tp → Q tt w') → wp (log o) Q E w.
Proof.
  intros [Ho Ht] [Hn He] HQ. apply wp_modify, HQ. split.
  - eapply own_log in Ho; [|by intros; apply Hn|by rewrite Hn|by intros r; apply epilogue_none]. by rewrite Hn in Ho.
  - eapply tracked_step; [done|done|]. intros _. apply kept_same; [done..|]. intros c'. wsimpl.
    unfold tape. cbn [omap list_omap]. by rewrite Hn.
Qed.

Lemma wp_stream_write w c k ids sls tp x Q E :
  owns w c k ids sls tp →
  (∀ w', owns w' c k ids sls (TWire x :: tp) → Q tt w') → wp (stream_write c x) Q E w.
Proof.
  intros [Ho Ht] HQ. apply wp_modify, HQ. split.
  - eapply (own_log _ _ _ _ _ _ _ _ _ (OWrite c x)) in Ho.
    + simpl in Ho. by rewrite Nat.eqb_refl in Ho.
    + intros c' Hne. simpl. by destruct (Nat.eqb_spec c c').
    + intros r. simpl. by rewrite Nat.eqb_refl.
    + done.
  - eapply tracked_step; [done|done|]. intros _. apply kept_same; [done..|]. intros c'. wsimpl.
    unfold tape. cbn [omap list_omap tape_of]. by destruct (Nat.eqb c c').
Qed.

(** The same, when the requests matter to what follows. *)
Lemma wp_log_step w c k ids sls tp o Q E :
  owns w c k ids sls tp → plain o →
  (∀ w', owns w' c k ids sls tp → w_reqs w' = w_reqs w → Q tt w') → wp (log o) Q E w.
Proof.
  intros Ho Hn HQ. assert (wp (log o) (λ _ w', owns w' c k ids sls tp) E w) as Hw.
  { eapply wp_log_other; eauto. }
  by apply HQ.
Qed.

Lemma wp_log_step_server w c k ids sls tp o Q E :
  owns w c k ids sls tp → plain o →
  (∀ w', owns w' c k ids sls tp → w_server w' = w_server w → Q tt w') → wp (log o) Q E w.
Proof.
  intros Ho Hn HQ. assert (wp (log o) (λ _ w', owns w' c k ids sls tp) E w) as Hw.
  { eapply wp_log_other; eauto. }
  by apply HQ.
Qed.

Lemma owns_quiet w w' c k ids sls tp :
  quiet_step w w' → owns w c k ids sls tp → owns w' c k ids sls tp.
Proof.
  intros Hq [Ho Ht]. split; [by eapply own_quiet|].
  eapply tracked_step; [done|by apply Hq|]. intros _. by apply kept_quiet.
Qed.

(** *** Timers and the stream *)

Lemma requests_update k (f : list ReqId → list ReqId) l :
  f (sc_requests k) = l → k <| sc_requests ::= f |> = k <| sc_requests := l |>.
Proof. intros <-. done. Qed.

Lemma wp_read_ignore w c k ids sls tp Q E :
  owns w c k ids sls tp → (strict rel → sc_closing k = true ∨ deliverable k = false) →
  (∀ w', owns w' c (k <| sc_ignored := true |>) ids sls tp → Q tt w') → wp (read_ignore c) Q E w.
Proof.
  intros Ho Hr HQ. apply wp_bind. eapply wp_log_other; [done|done|]. intros w1 Ho1.
  eapply wp_mod_conn; [done|done|done| |done].
  intros Hrel. unfold conn_kept. split_and!; try done. intros Hd. right.
  destruct (Hr Hrel); [done|congruence].
Qed.

Lemma wp_unlisten w c k ids sls tp Q E :
  owns w c k ids sls tp → ¬ strict rel →
  (∀ w', owns w' c (k <| sc_listener := false |>) ids sls tp → Q tt w') → wp (unlisten c) Q E w.
Proof. intros Ho Hr HQ. eapply wp_mod_conn; [done|done|done|by intros ?%Hr|done]. Qed.

(** What [stop_idle_timer] leaves in [idle_timer]. *)
Definition timer_stopped (o : option bool) : option bool :=
  match o with Some _ => Some false | None => None end.

Lemma wp_stop_idle_timer w c k ids sls tp Q E :
  owns w c k ids sls tp →
  (∀ w', owns w' c (k <| sc_idle_timer ::= timer_stopped |>) ids sls tp → Q tt w') →
  wp (stop_idle_timer c) Q E w.
Proof.
  intros Ho HQ. apply wp_bind. eapply wp_get_conn; [done|].
  destruct (sc_idle_timer k) as [b|] eqn:Ht.
  - apply wp_bind. eapply wp_log_other; [done|done|]. intros w1 Ho1.
    eapply wp_mod_conn; [done|done|done|by repeat split; auto|]. intros w2 Ho2. apply HQ.
    replace (k <| sc_idle_timer ::= timer_stopped |>) with (k <| sc_idle_timer := Some false |>);
      [done|]. unfold setter, set_sc_idle_timer. by rewrite Ht.
  - apply wp_ret, HQ.
    replace (k <| sc_idle_timer ::= timer_stopped |>) with k; [done|].
    unfold setter, set_sc_idle_timer. rewrite Ht. simpl. rewrite <-Ht. by destruct k.
Qed.

Lemma wp_start_idle_timer w c k ids sls tp Q E :
  owns w c k ids sls tp →
  (∀ w', owns w' c (k <| sc_idle_timer := Some true |>) ids sls tp → Q tt w') →
  wp (start_idle_timer c) Q E w.
Proof.
  intros Ho HQ. apply wp_bind. eapply wp_get_conn; [done|].
  apply wp_bind. eapply wp_log_other; [done|done|]. intros w1 Ho1.
  eapply wp_mod_conn; [done|done|done|by repeat split; auto|done].
Qed.

Lemma wp_front w c k ids sls tp r l (Q : ReqId → World → Prop) E :
  owns w c k ids sls tp → sc_requests k = r :: l → Q r w → wp (front c) Q E w.
Proof. intros Ho Hr HQ. apply wp_bind. eapply wp_get_conn; [done|]. by rewrite Hr. Qed.

(** *** Requests leave the deque *)

Definition leave (q : ServerRequest) : ServerRequest :=
  q <| sr_connection := None |> <| sr_server := false |>.

(** The front request has left its connection and has been told so. *)
Lemma owns_leave w c k h r l xs q o ys tp l' evs :
  owns w c k (h ++ r :: l) (xs ++ (q, o) :: ys) tp → length h = length xs →
  sc_requests k = r :: l' → (strict rel → sr_finish_on_receive q = false) →
  farewell r q (slot_completed (q, o)) evs →
  owns (w <| w_reqs ::= alter leave r |> <| w_conns ::= alter (λ k, k <| sc_requests ::= tail |>) c |>
          <| w_log ::= app (map OEvent evs) |>) c (k <| sc_requests := l' |>) (h ++ l) (xs ++ ys) tp.
Proof.
  intros Ho Hl Hk Hf Hfw. destruct (own_slot _ _ _ _ _ _ _ _ _ _ _ Ho Hl) as (Hq & _). destruct Ho as [Ho Ht].
  pose proof (o_conn _ _ _ _ _ _ _ _ _ Ho) as Hc.
  apply (own_detach _ _ _ _ _ _ _ _ _ _ _ _ _ _ evs leave) in Ho; [|done..|by apply (farewell_same r q)].
  apply (own_mod_conn _ _ _ _ _ _ _ _ _ (λ k, k <| sc_requests ::= tail |>)) in Ho; [|done..].
  rewrite (requests_update _ _ l') in Ho by by rewrite Hk. split; [exact Ho|].
  eapply tracked_step; [done|done|]. intros Hr.
  eapply kept_trans; [eapply (kept_mod_req w r q leave); [done|]|].
  { unfold req_kept. split_and!; try done. simpl. rewrite Hf; done. }
  eapply kept_trans; [eapply (kept_mod_conn _ c k (λ k, k <| sc_requests ::= tail |>)); [done|by repeat split; auto]|].
  apply kept_same; [done..|]. intros c'. wsimpl. by rewrite tape_events.
Qed.

Lemma quiet_log w w' o : quiet_step w w' → quiet_step (w <| w_log ::= cons o |>) (w' <| w_log ::= cons o |>).
Proof. intros []. split; wsimpl; try done. by rewrite qs_log. Qed.

Lemma wp_cleanup_step w c k r l Q E :
  w_conns w !! c = Some k → sc_requests k = r :: l →
  (∀ w', quiet_step (w <| w_reqs ::= alter leave r |> <| w_conns ::= alter (λ k, k <| sc_requests ::= tail |>) c |>
                       <| w_log ::= cons (OEvent (EvFinish r)) |>) w' → Q tt w') →
  wp (cleanup_request c) Q E w.
Proof.
  intros Hc Hk HQ. apply wp_bind, wp_bind, wp_bind, wp_gets. eapply wp_deref; [done|]. rewrite Hk.
  apply wp_ret, wp_bind, wp_modify, wp_bind, wp_modify, wp_bind, wp_modify.
  match goal with |- wp _ _ _ ?w1 => destruct (fire_passive (EvFinish r) w1 eq_refl) as (w2 & Hf & Hq) end.
  unfold wpf. rewrite Hf. by apply HQ.
Qed.

(** [cleanup_request] for a request that is not told more: it was answered in full
    or its stream was handed over. *)
Lemma wp_cleanup_request w c k h r l xs q o ys tp l' Q E :
  owns w c k (h ++ r :: l) (xs ++ (q, o) :: ys) tp → length h = length xs →
  sc_requests k = r :: l' → (strict rel → sr_finish_on_receive q = false) →
  farewell r q (slot_completed (q, o)) [EvFinish r] →
  (∀ w', owns w' c (k <| sc_requests := l' |>) (h ++ l) (xs ++ ys) tp → Q tt w') →
  wp (cleanup_request c) Q E w.
Proof.
  intros Ho Hl Hk Hf Hfw HQ. eapply (wp_cleanup_step w c k); [apply Ho|done|]. intros w' Hq. apply HQ.
  eapply owns_quiet; [exact Hq|]. by apply (owns_leave w c k h r l xs q o ys tp l' [EvFinish r]).
Qed.

Lemma wp_response_completed w c k ids sls tp q r (Q : bool → World → Prop) E :
  owns w c k ids sls tp → w_reqs w !! r = Some q → (∀ b, Q b w) → wp (response_completed q) Q E w.
Proof.
  intros [Ho _] Hq HQ. unfold response_completed.
  destruct (sr_response q) as [s|] eqn:Hs; [|apply HQ].
  destruct (g_resp _ (o_glob _ _ _ _ _ _ _ _ _ Ho) r q s Hq Hs) as (res & Hres & _).
  apply wp_bind. eapply wp_get_res_at; [done|]. apply HQ.
Qed.

(** A quiet event at the end of what has been done. *)
Lemma wp_emit_quiet ev w (Q : unit → World → Prop) E :
  (∃ w', fire ev (w <| w_log ::= cons (OEvent ev) |>) = Ok tt w' ∧
     quiet_step (w <| w_log ::= cons (OEvent ev) |>) w') →
  (∀ w', quiet_step (w <| w_log ::= cons (OEvent ev) |>) w' → Q tt w') → wp (emit ev) Q E w.
Proof. intros (w' & Hf & Hq) HQ. apply wp_bind, wp_modify. unfold wpf. rewrite Hf. by apply HQ. Qed.

(** A request that is dropped leaves and is told why. *)
Lemma wp_drop_front w c k h r l xs q o ys tp l' e Q E :
  owns w c k (h ++ r :: l) (xs ++ (q, o) :: ys) tp → length h = length xs →
  sc_requests k = r :: l' → (strict rel → sr_finish_on_receive q = false) →
  (∀ w', owns w' c (k <| sc_requests := l' |>) (h ++ l) (xs ++ ys) tp → Q tt w') →
  wp (cleanup_request c) (λ _, wp (notify_dropped r (Some e)) Q E) E w.
Proof.
  intros Ho Hl Hk Hf HQ. eapply (wp_cleanup_step w c k); [apply Ho|done|].
  pose proof (own_slot _ _ _ _ _ _ _ _ _ _ _ Ho Hl) as Hsl. pose proof (completed_slot _ _ _ _ _ Hsl) as Hcomp.
  destruct Hsl as (Hq & Hqc & Hs). cbn in Hq, Hqc, Hs.
  set (w1 := w <| w_reqs ::= _ |> <| w_conns ::= _ |> <| w_log ::= _ |>). intros w2 Hq2.
  assert (w_reqs w2 !! r = Some (leave q)) as Hr2.
  { rewrite (qs_reqs _ _ Hq2). unfold w1. wsimpl. by rewrite lookup_alter_eq, Hq. }
  assert (∀ ev, farewell r q (slot_completed (q, o)) [ev; EvFinish r] →
    (∃ w', fire ev (w2 <| w_log ::= cons (OEvent ev) |>) = Ok tt w' ∧
       quiet_step (w2 <| w_log ::= cons (OEvent ev) |>) w') → wp (emit ev) Q E w2) as Hemit.
  { intros ev Hfw Hev. apply wp_emit_quiet; [done|]. intros w3 Hq3. apply HQ.
    eapply owns_quiet; [exact Hq3|]. eapply owns_quiet; [by apply quiet_log|].
    by apply (owns_leave w c k h r l xs q o ys tp l' [ev; EvFinish r]). }
  apply wp_bind. eapply wp_get_req_at; [done|].
  destruct (sr_is_done (leave q)) eqn:Hd; cbn [negb].
  - apply wp_bind. unfold response_completed. change (sr_response (leave q)) with (sr_response q).
    assert (wp (if slot_completed (q, o) then mret tt else emit (EvDrop r (Some e))) Q E w2) as Hrest.
    { destruct (slot_completed (q, o)) eqn:Hco; [|by apply Hemit; [constructor|apply fire_passive]].
      apply wp_ret, HQ. eapply owns_quiet; [exact Hq2|].
      apply (owns_leave w c k h r l xs q o ys tp l' [EvFinish r]); try done. rewrite Hco. by apply fw_answered. }
    unfold slot_completed in Hrest. cbn [snd] in Hrest.
    destruct (sr_response q) as [s|], o as [res|]; try done.
    destruct Hs as [Hs _]. apply wp_bind. eapply wp_get_res_at; [by apply (qs_old _ _ Hq2)|]. by apply wp_ret.
  - destruct (sr_partial (leave q)); apply Hemit; [by constructor| |by constructor|].
    + by apply (fire_detached r (Some e) _ (leave q)).
    + by apply (fire_detached r (Some e) _ (leave q)).
Qed.

Lemma owns_length w c k ids sls tp : owns w c k ids sls tp → length ids = length sls.
Proof. intros [Ho _]. eapply Forall2_length, Ho. Qed.

Lemma wp_drop_requests n w c k h l xs ys tp err Q E :
  owns w c k (h ++ l) (xs ++ ys) tp → length h = length xs → sc_requests k = l →
  (length l ≤ n)%nat → (l ≠ [] → err ≠ None) →
  (strict rel → Forall (λ sl, slot_fin sl = false) ys) →
  (∀ w', owns w' c (k <| sc_requests := [] |>) h xs tp → Q tt w') →
  wp (drop_requests n c err) Q E w.
Proof.
  revert w k l ys. induction n as [|n IH]; intros w k l ys Ho Hl Hk Hn He Hf HQ;
    pose proof (owns_length _ _ _ _ _ _ Ho) as Hlen; rewrite !length_app in Hlen;
    (apply wp_bind; eapply wp_get_conn; [done|]; rewrite Hk);
    (destruct l as [|r l]; [|simpl in Hn]).
  1, 3: destruct ys; [|simpl in Hlen; lia]; rewrite !app_nil_r in Ho;
    apply wp_ret, HQ; rewrite <-(requests_update k (λ l, l) [] Hk); by destruct k.
  - lia.
  - destruct ys as [|[q o] ys]; [simpl in Hlen; lia|].
    destruct err as [e|]; [|by destruct He].
    apply wp_bind. eapply wp_mono; [|intros ? w1 Hw1; apply wp_bind; exact Hw1|done].
    eapply wp_drop_front; [done|done|done| |].
    { intros Hr. by specialize (Hf Hr) as [? _]%Forall_cons. }
    intros w2 Ho2. eapply IH; [done|done|done|lia|by intros; apply He| |done].
    intros Hr. by specialize (Hf Hr) as [_ ?]%Forall_cons.
Qed.

(** *** The server *)

Lemma wp_date_header_now w c k ids sls tp (Q : string → World → Prop) E :
  owns w c k ids sls tp → (∀ d w', owns w' c k ids sls tp → Q d w') →
  wp date_header_now Q E w.
Proof.
  intros Ho HQ. apply wp_bind, wp_get_server, wp_bind, wp_gets, wp_bind.
  assert (∀ (f : Server → Server) w', owns w' c k ids sls tp →
    sv_connections (f (w_server w')) = sv_connections (w_server w') →
    sv_conf (f (w_server w')) = sv_conf (w_server w') →
    sv_listeners (f (w_server w')) = sv_listeners (w_server w') →
    sv_state (f (w_server w')) = sv_state (w_server w') →
    owns (w' <| w_server ::= f |>) c k ids sls tp) as Hmod.
  { intros f w' [Ho' Ht'] Hf Hconf Hli Hst. split; [by apply own_mod_server|].
    eapply tracked_server; [done| |intros _; by apply kept_same]. wsimpl.
    split_and!; [by rewrite Hf|done|done|by left]. }
  destruct (_ || _); [|by apply wp_ret, wp_bind, wp_get_server, wp_ret, HQ].
  apply wp_bind, wp_modify, wp_bind, wp_gets.
  unfold rfc822_date, rfc822_of_datetime. wsimpl.
  assert (∀ t, 0 ≤ dt_wday (gmtime t) ≤ 6 ∧ 0 ≤ dt_mon (gmtime t) ≤ 11) as Hdt
    by (intros t; split; [apply gmtime_wday|apply gmtime_mon]).
  specialize (Hdt (w_time w)). destruct Hdt as [Hw Hm].
  destruct (name_at_spec day_snames (dt_wday (gmtime (w_time w)))) as (? & ? & ? & -> & _);
    [by right|simpl; lia|].
  destruct (name_at_spec month_snames (dt_mon (gmtime (w_time w)))) as (? & ? & ? & -> & _);
    [by left|simpl; lia|].
  apply wp_modify, wp_bind, wp_get_server, wp_ret, HQ.
  apply Hmod; [|done..]. by apply Hmod.
Qed.

Lemma wp_remove w c k ids sls tp Q E :
  owns w c k ids sls tp → sc_listener k = false →
  (∀ w', owns w' c k ids sls tp → sv_connections (w_server w') !! sc_id k = None → Q tt w') →
  wp (remove c) Q E w.
Proof.
  intros Ho Hl HQ. apply wp_bind. eapply wp_get_conn; [done|].
  apply wp_bind, wp_modify, wp_bind, wp_get_server.
  assert (owns (w <| w_server ::= λ s, s <| sv_connections ::= delete (sc_id k) |> |>)
    c k ids sls tp) as Ho1.
  { destruct Ho as [Ho Ht]. split; [by apply own_remove|].
    eapply tracked_server; [done| |intros _; by apply kept_same]. wsimpl.
    split_and!; [apply delete_subseteq|done|done|by left]. }
  assert (sv_connections (w_server (w <| w_server ::= λ s, s <| sv_connections ::= delete (sc_id k) |> |>))
    !! sc_id k = None) as Hn1 by (wsimpl; apply lookup_delete_eq).
  revert Ho1 Hn1. generalize (w <| w_server ::= λ s, s <| sv_connections ::= delete (sc_id k) |> |>).
  clear Ho. intros w1 Ho Hn. destruct (sv_state (w_server w1)) eqn:Hs; [by apply HQ..|].
  apply wp_bind, wp_get_server, wp_bind, wp_assert; [by rewrite Hs|].
  destruct (Nat.eqb _ _); [|by apply HQ]. apply wp_bind, wp_modify, wp_bind.
  eapply wp_log_step_server; [|done|].
  { destruct Ho as [Ho Ht]. split; [by apply own_mod_server|].
    eapply tracked_server; [done| |intros _; by apply kept_same]. wsimpl.
    split_and!; [done|done|done|by right]. }
  intros w2 Ho2 Hw2. unfold wpf. destruct (fire_passive EvStop w2 eq_refl) as (w3 & -> & Hq).
  apply HQ; [by eapply owns_quiet|]. by rewrite (qs_server _ _ Hq), Hw2.
Qed.

(** *** Closing *)

Lemma wp_shutdown w c k l ys tp err Q E :
  owns w c k l ys tp → sc_requests k = l → (length l ≤ fuel)%nat →
  (l ≠ [] → err ≠ None) →
  (strict rel → Forall (λ sl, slot_fin sl = false) ys ∧ sc_closing k = true) →
  (∀ w', owns w' c (k <| sc_disconnected := true |> <| sc_requests := [] |>) [] [] tp → Q tt w') →
  wp (shutdown fuel c err) Q E w.
Proof.
  intros Ho Hk Hn He Hr HQ. apply wp_bind, wp_bind. eapply wp_log_other; [done|done|].
  intros w1 Ho1. apply wp_bind. eapply wp_log_other; [done|done|]. intros w2 Ho2.
  eapply wp_mod_conn; [done|done|done| |].
  { intros Hrel. unfold conn_kept. split_and!; try done. intros _. right. by apply Hr. }
  intros w3 Ho3. apply wp_bind.
  eapply (wp_drop_requests _ _ _ _ [] l []); [done|done|done|done|done|by intros; apply Hr|].
  intros w4 Ho4. by apply wp_ret, HQ.
Qed.

Lemma wp_close w c k l ys tp err Q E :
  owns w c k l ys tp → ¬ strict rel → sc_requests k = l → (length l ≤ fuel)%nat →
  (l ≠ [] → err ≠ None) →
  (∀ w', owns w' c (k <| sc_idle_timer ::= timer_stopped |> <| sc_listener := false |>
                      <| sc_requests := [] |>) [] [] tp →
     sv_connections (w_server w') !! sc_id k = None → Q tt w') →
  wp (close fuel c err) Q E w.
Proof.
  intros Ho Hrel Hk Hn He HQ. apply wp_bind, wp_bind. eapply wp_stop_idle_timer; [done|].
  intros w1 Ho1. apply wp_bind. eapply wp_unlisten; [done|done|]. intros w2 Ho2.
  eapply wp_log_other; [done|done|]. intros w3 Ho3. apply wp_bind.
  eapply (wp_drop_requests _ _ _ _ [] l []); [done|done|done|done|done|by intros ?%Hrel|].
  intros w4 Ho4. eapply wp_remove; [done|done|done].
Qed.
End Specs.
