(* ===== verification/ServerFinish.v ===== *)
(** * Answering and finishing requests preserve the invariant

    [finish_request] and [write_next_response] call each other; they are verified
    together, by induction on the number of queued requests. *)
From S2P Require Import Prelude Errors Date Proto ServerState ServerOps ServerConn ServerMain ServerInv ServerOwn ServerSpecs.
Local Open Scope Z_scope.

Ltac ksimpl :=
  cbn [setter set_sc_id set_sc_listener set_sc_ignored set_sc_disconnected set_sc_parser
       set_sc_current set_sc_requests set_sc_requests_processed set_sc_idle_timer
       set_sc_closing set_sc_stopping
       sc_id sc_listener sc_ignored sc_disconnected sc_secure sc_factory sc_parser sc_current
       sc_limits sc_requests sc_requests_processed sc_idle_timeout sc_max_keepalive_requests
       sc_idle_timer sc_closing sc_stopping sc_establish_time] in *.

(** ** The local invariant under the changes of the connection record *)

Section Base.
Context `{HttpProto}.
Context `{Rk : Risk}.
Context (fuel room : nat) (busy : bool).
Implicit Types (k : ServerConnection) (ds : list bool).

Lemma front_done_tail d ds : front_done (d :: ds) → front_done ds.
Proof. destruct ds; [done|]. by intros [_ ?]. Qed.

Lemma front_done_cons d d' ds : front_done (d :: d' :: ds) → d = true.
Proof. by intros [? _]. Qed.

Lemma front_done_not d ds : front_done (d :: ds) → d = false → ds = [].
Proof. destruct ds; [done|]. intros [-> _]. done. Qed.

(** The front request has been answered, and the connection is closing or is not
    stopping. *)
Lemma base_answer k ds ans :
  conn_base fuel room busy k ds ans → (sc_stopping k = true → sc_closing k = true) →
  conn_base fuel room busy k ds true.
Proof. intros [] Hs. split; auto. Qed.

(** An unanswered front. *)
Lemma base_unanswered k ds ans :
  conn_base fuel room busy k ds ans → conn_base fuel room busy k ds false.
Proof. intros []. split; auto; done. Qed.

(** The front request leaves. *)
Lemma base_tail k ds l ans :
  conn_base fuel room busy k (true :: ds) ans → length (sc_requests k) = S (length ds) →
  l = tail (sc_requests k) → sc_closing k = false → sc_stopping k = false →
  conn_base fuel room busy (k <| sc_requests := l |>) ds false.
Proof.
  intros [] Hlen -> Hc Hs. split; unfold deliverable in *; ksimpl; try done; try congruence.
  - by eapply front_done_tail.
  - intros Ht. by specialize (cp_timer Ht).
  - intros _. by apply cp_live.
  - intros _. apply cp_has_timer. by right.
  - intros Hd Hi. destruct (cp_receiving Hd Hi) as (Hl & Hcur & Heq).
    destruct ds as [|d ds]; [by simpl in Hl|]. split; [by rewrite last_cons_cons in Hl|].
    split; [done|]. rewrite Heq. destruct (sc_requests k) as [|r [|r' l]]; simpl in Hlen; try lia. done.
  - intros Hd Hi. specialize (cp_received Hd Hi). destruct ds as [|d ds]; [done|].
    by rewrite last_cons_cons in cp_received.
  - simpl in cp_len. lia.
Qed.

(** Nothing is left, and the stream is shut down. *)
Lemma base_shut k :
  (sc_listener k = true → is_Some (sc_idle_timer k)) → deliverable k = false → (room ≤ fuel)%nat →
  conn_base fuel room busy k [] false.
Proof.
  intros Ht Hd Hr. split; simpl; try done; try (intros; congruence); [by intros [?|?]; auto|]. intros _. split; [lia|done].
Qed.

(** The connection closes after the response of the front request. *)
Lemma base_closing k r d ds :
  conn_base fuel room busy k (d :: ds) false → (r :: tail (sc_requests k)) = sc_requests k →
  length (sc_requests k) = S (length ds) →
  conn_base fuel room busy
    (k <| sc_closing := true |> <| sc_ignored := sc_ignored k || d |> <| sc_requests := [r] |>) [d] true.
Proof.
  intros [] Hr Hlen. split; unfold deliverable in *; ksimpl; try done.
  - intros Ht. by specialize (cp_timer Ht).
  - intros _. by apply cp_live.
  - intros _. apply cp_has_timer. by right.
  - intros Hd Hi. destruct d; [rewrite orb_true_r in Hd; by destruct (sc_listener k)|].
    rewrite orb_false_r in Hd. destruct (cp_receiving Hd Hi) as (_ & Hcur & Heq).
    apply front_done_not in cp_done; [|done]. subst ds.
    split; [done|]. split; [done|]. rewrite Heq, <-Hr.
    destruct (sc_requests k) as [|? [|]]; simpl in Hlen; try lia. done.
  - intros Hd Hi. destruct d; [done|]. rewrite orb_false_r in Hd.
    specialize (cp_received Hd Hi). apply front_done_not in cp_done; [|done]. by subst ds.
  - intros Hb _ Hd. destruct d; [rewrite orb_true_r in Hd; by destruct (sc_listener k)|].
    rewrite orb_false_r in Hd. apply front_done_not in cp_done; [|done]. subst ds.
    destruct (parser_idle (sc_parser k)); [|done]. by specialize (cp_received Hd eq_refl).
  - simpl in *. lia.
Qed.

(** Starting the idle timer of an idle connection. *)
Lemma base_timer k ans :
  conn_base fuel room busy k [] ans →
  conn_base fuel room busy (k <| sc_idle_timer := Some true |>) [] ans.
Proof. intros []. split; unfold deliverable in *; ksimpl; done. Qed.
End Base.

(** ** The tape when a request arrives or leaves, or a head is written *)

Section Tape.
Implicit Types (tp : list tape_item) (l : list ReqId).

Lemma tape_leave cl tp r l w op :
  tape_ok cl tp (r :: l) w op → tape_ok cl tp l false None.
Proof.
  intros [Hn (gone & rest & Ha & Hs & Hr) Hf _]. split; [done| |done|done].
  exists (gone ++ [r]), rest. split_and!; [by rewrite Ha, <-app_assoc| |done]. rewrite app_nil_r.
  destruct w; [done|]. rewrite app_nil_r in Hs. by apply sublist_inserts_r.
Qed.

Lemma tape_head cl tp r l s data op :
  tape_ok cl tp (r :: l) false op → tape_ok cl (TWire (WHead r s data) :: tp) (r :: l) true (Some s).
Proof.
  intros [Hn (gone & rest & Ha & Hs & Hr) Hf _]. split; simpl; [done| |done|by intros ? _ [= <-]].
  exists gone, rest. split_and!; [done| |done]. rewrite app_nil_r in Hs. by apply sublist_app.
Qed.

(** The requests behind the front one are dropped. *)
Lemma tape_cut cl tp r l op :
  tape_ok cl tp (r :: l) true op → tape_ok true tp [r] true op.
Proof.
  intros [Hn (gone & rest & Ha & Hs & Hr) Hf Ho]. split; [done| |done|done].
  exists gone, (l ++ rest). by rewrite Ha.
Qed.

Lemma tape_closed cl tp ids w op op' :
  tape_ok cl tp ids w op → (op' = None ∨ op' = op) → tape_ok cl tp ids w op'.
Proof. intros [] [->| ->]; split; done. Qed.

Lemma tape_chunk cl tp ids s data :
  tape_ok cl tp ids true (Some s) → tape_ok cl (TWire (WChunk s data) :: tp) ids true (Some s).
Proof. intros []. split; simpl; auto. Qed.

Lemma tape_final cl tp ids s data :
  tape_ok cl tp ids true (Some s) → tape_ok cl (TWire (WFinal s data) :: tp) ids true None.
Proof. intros []. split; simpl; auto; done. Qed.

Lemma tape_continue cl tp r l data :
  tape_ok cl tp (r :: l) false None → tape_ok cl (TWire (WContinue r data) :: tp) (r :: l) false None.
Proof.
  intros [Hn (gone & rest & Ha & Hs & Hr) Hf Ho]. split; simpl; try done; [by eauto 10|].
  split; [|done]. intros Hin. rewrite app_nil_r in Hs.
  eapply elem_of_sublist in Hin; [|done]. rewrite Ha in Hn.
  apply NoDup_app in Hn as (_ & Hn & _). apply (Hn r); [done|by left].
Qed.

Lemma tape_arrive cl tp ids w op r :
  tape_ok cl tp ids w op → r ∉ arrived tp → (cl = false ∨ ids = []) →
  (ids = [] → w = false) →
  tape_ok cl (TArrive r :: tp) (ids ++ [r]) w op.
Proof.
  intros [Hn (gone & rest & Ha & Hs & Hr) Hf Ho] Hnew Hcl Hw. split; simpl; [| |done|done].
  - apply NoDup_app. split_and!; [done| |apply NoDup_singleton].
    by intros x Hx ->%list_elem_of_singleton.
  - destruct Hcl as [Hcl|Hi].
    + exists gone, []. rewrite Ha, (Hr Hcl), !app_nil_r, <-app_assoc. split_and!; [done| |done].
      destruct w; [|done]. destruct ids; [by specialize (Hw eq_refl)|done].
    + subst ids. rewrite Hw in * by done. exists (gone ++ rest), [].
      rewrite Ha, !app_nil_r. split_and!; [done| |done]. rewrite app_nil_r in Hs.
      by apply sublist_inserts_r.
Qed.

Lemma tape_unclosed tp ids w op : tape_ok false tp ids w op → tape_ok true tp ids w op.
Proof. intros [Hn (gone & rest & Ha & Hs & Hr) Hf Ho]. split; eauto 10; done. Qed.
End Tape.

(** ** Writing the front response *)

Section Finish.
Context `{HttpProto} `{!HttpProtoLaws} `{Env} `{!EnvLaws} `{!Callbacks} `{!PassiveCallbacks}.
Context `{Rk : Risk} {T : fault → Prop}.
Local Abbreviation wp := (wpf T).
Context (fuel room : nat) (ex : option ConnId) (rel : base).
Implicit Types (w : World) (c : ConnId) (k : ServerConnection) (E : exn → World → Prop)
  (q : ServerRequest) (res : ServerResponse) (tp : list tape_item).
Local Abbreviation owns := (owns fuel room ex rel).

(** What filling in the head of a response leaves alone. *)
Definition same_answer (a b : ServerResponse) : Prop :=
  rs_request b = rs_request a ∧ rs_completed b = rs_completed a ∧
  res_keep_alive (rs_msg b) = res_keep_alive (rs_msg a).

Lemma same_answer_refl a : same_answer a a.
Proof. done. Qed.

Lemma same_answer_trans a b d : same_answer a b → same_answer b d → same_answer a d.
Proof. intros (? & ? & ?) (? & ? & ?). split_and!; congruence. Qed.

(** Changing the response of the front request. *)
Lemma wp_mod_front w c k r l q res ys tp s (f : ServerResponse → ServerResponse) Q E :
  owns w c k (r :: l) ((q, Some res) :: ys) tp → sr_response q = Some s →
  rs_request (f res) = rs_request res →
  (∀ w', owns w' c k (r :: l) ((q, Some (f res)) :: ys) tp → Q tt w') → wp (mod_res s f) Q E w.
Proof. intros. by eapply (wp_mod_res _ _ _ _ _ _ _ [] r l []). Qed.

Lemma wp_front_req w c k r l q o ys tp (Q : ServerRequest → World → Prop) E :
  owns w c k (r :: l) ((q, o) :: ys) tp → Q q w → wp (get_req r) Q E w.
Proof. intros Ho. by eapply (wp_get_req _ _ _ _ _ _ _ [] r l []). Qed.

Lemma wp_front_res w c k r l q res ys tp s (Q : ServerResponse → World → Prop) E :
  owns w c k (r :: l) ((q, Some res) :: ys) tp → sr_response q = Some s → Q res w →
  wp (get_res s) Q E w.
Proof. intros Ho. by eapply (wp_get_res _ _ _ _ _ _ _ [] r l []). Qed.

Lemma front_slot w c k r l q o ys tp :
  owns w c k (r :: l) ((q, o) :: ys) tp → slot_at w c r (q, o).
Proof. intros Ho. by eapply (own_slot _ _ _ _ _ _ _ [] r l []). Qed.

(** The front request has a response, and the slot shows it. *)
Lemma front_response w c k r l q res ys tp :
  owns w c k (r :: l) ((q, Some res) :: ys) tp → ∃ s, sr_response q = Some s.
Proof.
  intros Ho. destruct (front_slot _ _ _ _ _ _ _ _ _ Ho) as (_ & _ & Hr). simpl in Hr.
  destruct (sr_response q); [eauto|done].
Qed.

Lemma wp_prepare_head w c k r l q res ys tp s Q E :
  owns w c k (r :: l) ((q, Some res) :: ys) tp → sr_response q = Some s →
  (∀ w' res', owns w' c k (r :: l) ((q, Some res') :: ys) tp → same_answer res res' → Q tt w') →
  wp (prepare_head s) Q E w.
Proof.
  intros Ho Hs HQ. apply wp_bind. eapply wp_front_res; [done..|]. apply wp_bind.
  assert (∀ w1 res1, owns w1 c k (r :: l) ((q, Some res1) :: ys) tp → same_answer res res1 →
    wp (if headers_has (rm_headers (rs_msg res)) "Date" then mret tt
        else d ← date_header_now;
          mod_res s (λ x, x <| rs_msg ::= λ m, m <| rm_headers ::= λ h, headers_date h d |> |>))
      Q E w1) as Hdate.
  { intros w1 res1 Ho1 Hsame. destruct (headers_has _ _); [by eapply wp_ret, HQ|].
    apply wp_bind. eapply wp_date_header_now; [done|]. intros d w2 Ho2.
    eapply wp_mod_front; [done..|]. intros w3 Ho3. eapply HQ; [done|].
    destruct Hsame as (? & ? & Hka). split_and!; [done..|]. rewrite <-Hka.
    apply keep_alive_date. }
  apply wp_when; intros _; [|eapply Hdate; [done|apply same_answer_refl]].
  eapply wp_mod_front; [done..|]. intros w1 Ho1. by eapply Hdate.
Qed.

Lemma wp_take_chunks w c k r l q res ys tp s (Q : list string → World → Prop) E :
  owns w c k (r :: l) ((q, Some res) :: ys) tp → sr_response q = Some s →
  (∀ v w' res', owns w' c k (r :: l) ((q, Some res') :: ys) tp → same_answer res res' → Q v w') →
  wp (take_chunks s) Q E w.
Proof.
  intros Ho Hs HQ. apply wp_bind. eapply wp_front_res; [done..|].
  cbv zeta; case_match; [|by eapply wp_ret, HQ]. apply wp_bind.
  eapply wp_mod_front; [done..|]. intros w1 Ho1. by eapply wp_ret, HQ.
Qed.

Lemma wp_write_head w c k r l q res ys tp s Q E :
  owns w c k (r :: l) ((q, Some res) :: ys) tp → sr_response q = Some s →
  (∀ v w' res', owns w' c k (r :: l) ((q, Some res') :: ys) (TWire (WHead r s v) :: tp) →
     same_answer res res' → Q tt w') →
  wp (write_head c r s) Q E w.
Proof.
  intros Ho Hs HQ. apply wp_bind. eapply wp_front_req; [done|]. apply wp_bind.
  eapply wp_front_res; [done..|]. destruct (to_vector _ _) as [v codec]. apply wp_bind.
  eapply wp_mod_front; [done..|]. intros w1 Ho1. eapply wp_stream_write; [done|].
  intros w2 Ho2. by eapply HQ.
Qed.

Lemma wp_write_chunk w c k r l q res ys tp s chunk Q E :
  owns w c k (r :: l) ((q, Some res) :: ys) tp → sr_response q = Some s →
  (∀ v w' res', owns w' c k (r :: l) ((q, Some res') :: ys) (TWire (WChunk s v) :: tp) →
     same_answer res res' → Q tt w') →
  wp (write_chunk c s chunk) Q E w.
Proof.
  intros Ho Hs HQ. apply wp_bind. eapply wp_front_res; [done..|].
  destruct (make_chunk _ _) as [v codec]. apply wp_bind.
  eapply wp_mod_front; [done..|]. intros w1 Ho1. eapply wp_stream_write; [done|].
  intros w2 Ho2. by eapply HQ.
Qed.

(** The collected chunks. *)
Lemma wp_write_chunks chunks w c k r l q res ys tp s cl Q E :
  owns w c k (r :: l) ((q, Some res) :: ys) tp → sr_response q = Some s →
  tape_ok cl tp (r :: l) true (Some s) →
  (∀ w' res' tp', owns w' c k (r :: l) ((q, Some res') :: ys) tp' →
     same_answer res res' → tape_ok cl tp' (r :: l) true (Some s) → Q tt w') →
  wp (for_each (write_chunk c s) chunks) Q E w.
Proof.
  revert w res tp. induction chunks as [|chunk chunks IH]; intros w res tp Ho Hs Ht HQ;
    [by eapply wp_ret, HQ|].
  apply wp_bind. eapply wp_write_chunk; [done..|]. intros v w1 res1 Ho1 Hsame.
  eapply IH; [done..|by apply tape_chunk|]. intros w2 res2 tp2 Ho2 Hsame2.
  eapply HQ; [done|]. by eapply same_answer_trans.
Qed.

(** ** The end of the connection after the front response *)

Lemma ignored_same k : k <| sc_ignored := sc_ignored k || false |> = k.
Proof. rewrite orb_false_r. by destruct k. Qed.

Definition unfinished (sl : slot) : Prop := slot_fin sl = false.

Lemma wp_close_after w c k r l q o ys tp Q E :
  owns w c k (r :: l) ((q, o) :: ys) tp → sc_requests k = r :: l → (length l ≤ fuel)%nat →
  Forall unfinished ys →
  (∀ w', owns w' c (k <| sc_closing := true |> <| sc_ignored := sc_ignored k || sr_is_done q |>
                      <| sc_requests := [r] |>) [r] [(q, o)] tp → Q tt w') →
  wp (close_after_response fuel c r) Q E w.
Proof.
  intros Ho Hk Hn Hf HQ. apply wp_bind. eapply wp_mod_conn; [done|done|done|by repeat split; auto|].
  intros w1 Ho1. apply wp_bind. eapply wp_front_req; [done|]. apply wp_bind.
  set (k1 := k <| sc_closing := true |>) in *.
  set (k2 := k1 <| sc_ignored := sc_ignored k || sr_is_done q |>).
  assert (∀ w2, owns w2 c k2 (r :: l) ((q, o) :: ys) tp →
    wp (conn ← get_conn c;
        when (1 <? Z.of_nat (length (sc_requests conn)))
          (mod_conn c (λ k, k <| sc_requests ::= tail |>) ;;
           drop_requests fuel c (Some (HttpErr pipeline_canceled)) ;;
           mod_conn c (λ k, k <| sc_requests ::= cons r |>))) Q E w2) as Htail.
  { intros w2 Ho2. apply wp_bind. eapply wp_get_conn; [done|]. apply wp_when; intros Hlen.
    - apply wp_bind. eapply wp_mod_conn; [done|done|done|by repeat split; auto|]. intros w3 Ho3.
      apply wp_bind.
      eapply (wp_drop_requests _ _ _ _ fuel _ _ _ [r] l [(q, o)] ys); [done|done| |done|done| |].
      + unfold k2, k1. ksimpl. by rewrite Hk.
      + intros _. exact Hf.
      + intros w4 Ho4. eapply wp_mod_conn; [done|done|done|by repeat split; auto|].
        intros w5 Ho5. apply HQ. by rewrite (requests_update _ _ [r]) in Ho5.
    - apply HQ. assert (l = []) as -> by (revert Hlen; unfold k2, k1; ksimpl; rewrite Hk;
        destruct l; [done|simpl; rewrite Z.ltb_ge; lia]).
      destruct ys; [|by pose proof (owns_length _ _ _ _ _ _ _ _ _ _ Ho2)].
      assert (k2 <| sc_requests := [r] |> = k2) as Ek.
      { unfold k2, k1, setter, set_sc_requests, set_sc_ignored; ksimpl. by rewrite Hk. }
      unfold k2 in Ek. by rewrite Ek. }
  apply wp_when; intros Hd.
  - eapply wp_read_ignore; [done|by left|]. intros w2 Ho2. apply Htail. unfold k2.
    by rewrite Hd, orb_true_r.
  - apply Htail. unfold k2. rewrite Hd.
    by rewrite (ignored_same k1 : k1 <| sc_ignored := sc_ignored k || false |> = k1).
Qed.

(** ** Finishing and writing, one after another *)

Definition finished : World → Prop := λ w, Inv fuel room ex w ∧ tracked rel w.

(** The front request is answered, its response complete and written; [n] bounds
    the deque. *)
Record answered w c k r l q res ys tp : Prop := {
  an_owns : owns w c k (r :: l) ((q, Some res) :: ys) tp;
  an_requests : sc_requests k = r :: l;
  an_base : conn_base fuel room (is_busy ex c) k (sr_is_done q :: map slot_done ys) true;
  an_completed : rs_completed res = true;
  an_rest : Forall unfinished ys;
  an_kept : strict rel → sr_finish_on_receive q = false;
  an_tape : tape_ok (sc_closing k) tp (r :: l) true None
}.

(** The front request is answered, nothing of its response is written. *)
Record to_write w c k r l q res ys tp : Prop := {
  tw_owns : owns w c k (r :: l) ((q, Some res) :: ys) tp;
  tw_requests : sc_requests k = r :: l;
  tw_base : conn_base fuel room (is_busy ex c) k (sr_is_done q :: map slot_done ys) false;
  tw_rest : Forall unfinished ((q, Some res) :: ys);
  tw_stopping : sc_stopping k = true → sc_closing k = true ∨ res_keep_alive (rs_msg res) = false;
  tw_tape : tape_ok (sc_closing k) tp (r :: l) false None
}.

Lemma owns_settled w c k sls tp :
  owns w c k (sc_requests k) sls tp → settled fuel room (is_busy ex c) k sls tp → finished w.
Proof. intros [Ho Ht] Hs. split; [by eapply own_Inv|done]. Qed.

Lemma wp_check_if_idle_step w c k tp Q E :
  owns w c k [] [] tp → sc_requests k = [] → is_Some (sc_idle_timer k) →
  (∀ b w', owns w' c (if b : bool then k <| sc_idle_timer := Some true |> else k) [] [] tp → Q tt w') →
  wp (check_if_idle c) Q E w.
Proof.
  intros Ho Hk [b Hb] HQ. apply wp_bind. eapply wp_get_conn; [done|]. rewrite Hk.
  apply wp_bind. eapply wp_deref; [done|]. apply wp_bind, wp_gets.
  destruct (_ && _); [|by apply (HQ false)].
  eapply wp_start_idle_timer; [done|]. intros w1 Ho1. by apply (HQ true).
Qed.

Lemma settled_idle busy k tp (b : bool) :
  sc_requests k = [] → conn_base fuel room busy k [] false → tape_ok (sc_closing k) tp [] false None →
  settled fuel room busy (if b then k <| sc_idle_timer := Some true |> else k) [] tp.
Proof.
  intros Hk Hb Ht. destruct b; (split; [|split; [done|]]); ksimpl; rewrite ?Hk; try done.
  by apply base_timer.
Qed.

Lemma wp_check_if_idle w c k tp E :
  owns w c k [] [] tp → sc_requests k = [] → is_Some (sc_idle_timer k) →
  conn_base fuel room (is_busy ex c) k [] false → tape_ok (sc_closing k) tp [] false None →
  wp (check_if_idle c) (λ _, finished) E w.
Proof.
  intros Ho Hk Ht Hb Htp. eapply wp_check_if_idle_step; [done..|]. intros b w1 Ho1.
  eapply (owns_settled _ c (if b then k <| sc_idle_timer := Some true |> else k) []);
    [|by apply settled_idle]. by destruct b; ksimpl; rewrite Hk.
Qed.

Lemma front_open_completed q res ys :
  rs_completed res = true → front_open ((q, Some res) :: ys) = None.
Proof. intros Hc. unfold front_open, slot_completed. simpl. by rewrite Hc. Qed.

(** An answered front request that waits for the end of its receipt. *)
Lemma answered_waits w c k r l q res ys tp :
  answered w c k r l q res ys tp → sr_finish_on_receive q = true → finished w.
Proof.
  intros [] Hf. eapply (owns_settled _ _ k); [by rewrite an_requests0|].
  split_and!; [done| |].
  - split; [|done]. unfold slot_fin, slot_completed. simpl. by rewrite Hf, an_completed0.
  - rewrite an_requests0. eapply tape_closed; [done|]. left. by apply front_open_completed.
Qed.

Lemma wp_finish_with write_next w c k r l q res ys tp E :
  answered w c k r l q res ys tp →
  (∀ w' r' l' q' res' ys', to_write w' c (k <| sc_requests := l |>) r' l' q' res' ys' tp →
     l = r' :: l' → wp write_next (λ _, finished) E w') →
  wp (finish_request_with fuel write_next c) (λ _, finished) E w.
Proof.
  intros Ha Hnext. pose proof Ha as []. apply wp_bind. eapply wp_front; [done..|]. apply wp_bind.
  eapply wp_front_req; [done|]. destruct (front_response _ _ _ _ _ _ _ _ _ an_owns0) as [s Hs].
  apply wp_bind. unfold response_completed. rewrite Hs. apply wp_bind.
  eapply wp_front_res; [done..|]. rewrite an_completed0. apply wp_ret, wp_bind, wp_assert; [done|].
  destruct (sr_is_done q) eqn:Hd; simpl.
  - apply wp_bind. eapply (wp_cleanup_request _ _ _ _ _ _ _ [] r l []); [done..|by constructor|]. cbn [app].
    intros w1 Ho1. set (k1 := k <| sc_requests := l |>) in *.
    apply wp_bind. eapply wp_get_conn; [done|].
    assert (length l = length ys) as Hly by eauto using owns_length.
    apply tape_leave in an_tape0.
    assert (is_Some (sc_idle_timer k)) as Htim by (apply (cp_has_timer _ _ _ _ _ _ an_base0); by right).
    destruct (sc_closing k1 || sc_stopping k1) eqn:Hcs.
    + assert (sc_closing k = true) as Hcl.
      { apply orb_true_iff in Hcs as [?|?]; [done|]. by apply (cp_stopping_ans _ _ _ _ _ _ an_base0). }
      destruct (cp_closing _ _ _ _ _ _ an_base0 Hcl) as [Hlen _]. simpl in Hlen. rewrite length_map in Hlen.
      destruct ys; [|simpl in Hlen; lia]. destruct l; [|done].
      apply wp_bind, wp_assert; [done|]. eapply wp_shutdown; [done|done|simpl; lia|done|done|].
      intros w2 Ho2. eapply (owns_settled _ _ (_ <| sc_requests := [] |>)); [done|].
      split_and!; [|done|done]. apply base_shut; ksimpl; [done| |].
      * unfold deliverable; ksimpl. by rewrite andb_false_r.
      * apply cp_len in an_base0. simpl in an_base0. lia.
    + apply orb_false_iff in Hcs as [Hcl Hst].
      assert (conn_base fuel room (is_busy ex c) k1 (map slot_done ys) false) as Hb1.
      { eapply base_tail; [done| |by rewrite an_requests0|done|done].
        rewrite an_requests0, length_map. simpl. f_equal. exact Hly. }
      destruct l as [|r' l]; (destruct ys as [|[q' o'] ys]; [|]); try done.
      * by eapply wp_check_if_idle.
      * apply wp_bind. eapply wp_front_req; [done|].
        destruct (front_slot _ _ _ _ _ _ _ _ _ Ho1) as (_ & _ & Hr'). simpl in Hr'.
        pose proof an_rest0 as [Hf' Hfs]%Forall_cons.
        destruct (sr_response q') as [s'|] eqn:Hs', o' as [res'|]; try done.
        -- eapply Hnext; [|done]. split; try done. intros Hst'. by rewrite Hst in Hst'.
        -- apply wp_ret, (owns_settled _ c k1 ((q', None) :: ys) tp); [done|].
           split; [done|split; [by split|]]. unfold front_open. simpl. rewrite Hs'. exact an_tape0.
  - eapply (wp_mod_req _ _ _ _ _ _ _ [] r l []); [done|done|done|done| |].
    { intros _. unfold req_kept. simpl. rewrite Hd. split_and!; try done. }
    cbn [app]. intros w1 Ho1. eapply (owns_settled _ _ k); [by rewrite an_requests0|].
    split; [|split].
    + cbn [map]. unfold slot_done at 1. simpl. by rewrite Hd.
    + by split.
    + rewrite an_requests0. eapply tape_closed; [done|]. left. by apply front_open_completed.
Qed.

(** What [finish_request] promises for a deque of at most [n] requests. *)
Definition finishes c (n : nat) (finish : M World unit) : Prop :=
  ∀ w k r l q res ys tp E, answered w c k r l q res ys tp → (length (r :: l) ≤ n)%nat →
    wp finish (λ _, finished) E w.

(** The response is written: the head, the chunks collected so far, and when it is
    complete the request is finished. *)
Lemma wp_write_next_with finish n w c k r l q res ys tp E :
  finishes c n finish → (length (r :: l) ≤ n)%nat → to_write w c k r l q res ys tp →
  wp (write_next_response_with fuel finish c) (λ _, finished) E w.
Proof.
  intros Hfin Hn []. destruct (front_response _ _ _ _ _ _ _ _ _ tw_owns0) as [s Hs].
  apply wp_bind. eapply wp_front; [done..|]. apply wp_bind. eapply wp_front_req; [done|].
  apply wp_bind. eapply wp_deref; [done|]. apply wp_bind. eapply wp_prepare_head; [done..|].
  intros w1 res1 Ho1 Hsame1. apply wp_bind. eapply wp_take_chunks; [done..|].
  intros chunks w2 res2 Ho2 Hsame2. apply wp_bind. eapply wp_write_head; [done..|].
  intros v w3 res3 Ho3 Hsame3. apply wp_bind. eapply wp_front_req; [done|]. apply wp_bind.
  eapply wp_front_res; [done..|]. apply wp_bind.
  assert (same_answer res res3) as (_ & Hc3 & Hka3) by eauto using same_answer_trans.
  apply (tape_head _ _ _ _ s v) in tw_tape0. apply Forall_cons in tw_rest0 as [Hf Hfs].
  assert (∀ w4 k4 l4 ys4, owns w4 c k4 (r :: l4) ((q, Some res3) :: ys4) (TWire (WHead r s v) :: tp) →
    sc_requests k4 = r :: l4 → (length l4 ≤ length l)%nat → Forall unfinished ys4 →
    conn_base fuel room (is_busy ex c) k4 (sr_is_done q :: map slot_done ys4) true →
    tape_ok (sc_closing k4) (TWire (WHead r s v) :: tp) (r :: l4) true (Some s) →
    wp (res ← get_res s;
        if negb (rs_completed res) then for_each (write_chunk c s) chunks else finish)
      (λ _, finished) E w4) as Hrest.
  { intros w4 k4 l4 ys4 Ho4 Hk4 Hl4 Hf4 Hb4 Ht4. apply wp_bind. eapply wp_front_res; [done..|].
    destruct (rs_completed res3) eqn:Hc; simpl.
    - eapply (Hfin _ _ r l4); [split; try done|simpl in *; lia]. eapply tape_closed; [done|by left].
    - eapply wp_write_chunks; [done..|]. intros w5 res5 tp5 Ho5 (_ & Hc5 & _) Ht5.
      eapply (owns_settled _ c k4); [by rewrite Hk4|].
      split_and!; [done| |].
      + split; [|done]. unfold slot_completed. simpl. by rewrite Hc5, Hc.
      + rewrite Hk4. unfold front_open, slot_completed. simpl. by rewrite Hc5, Hc, Hs. }
  pose proof (owns_length _ _ _ _ _ _ _ _ _ _ Ho3) as Hlen. simpl in Hlen.
  apply wp_when; intros Hka.
  - eapply wp_close_after; [done|done| |done|].
    { pose proof (cp_len _ _ _ _ _ _ tw_base0) as Hl. simpl in Hl. rewrite length_map in Hl. lia. }
    intros w4 Ho4. eapply Hrest; [done|done|simpl; lia|done| |].
    + eapply base_closing; [done|by rewrite tw_requests0|].
      rewrite tw_requests0, length_map. simpl. lia.
    + by eapply tape_cut.
  - eapply Hrest; [done|done|done|done| |done]. eapply base_answer; [done|]. intros Hst.
    destruct (tw_stopping0 Hst) as [?|Hno]; [done|]. rewrite Hka3, Hno in Hka. done.
Qed.

Lemma finish_request_n_ok c n : finishes c n (finish_request_n fuel n c).
Proof.
  induction n as [|n IH]; intros w k r l q res ys tp E Ha Hn; [simpl in Hn; lia|].
  eapply wp_finish_with; [done|]. intros w' r' l' q' res' ys' Hw' ->.
  eapply wp_write_next_with; [done| |done]. simpl in *. lia.
Qed.

(** The bound that the invariant keeps on the deque. *)
Lemma base_length busy k r l d ds ans :
  conn_base fuel room busy k (d :: ds) ans → length (sc_requests k) = S (length ds) →
  sc_requests k = r :: l → (length (r :: l) ≤ fuel)%nat.
Proof. intros Hb Hl <-. apply cp_len in Hb. simpl in Hb. lia. Qed.

Lemma wp_finish_request w c k r l q res ys tp E :
  answered w c k r l q res ys tp → wp (finish_request fuel c) (λ _, finished) E w.
Proof.
  intros Ha. pose proof Ha as []. eapply finish_request_n_ok; [done|].
  pose proof (owns_length _ _ _ _ _ _ _ _ _ _ an_owns0) as Hlen.
  eapply base_length; [done| |done]. by rewrite an_requests0, length_map.
Qed.

Lemma wp_write_next_response w c k r l q res ys tp E :
  to_write w c k r l q res ys tp → wp (write_next_response fuel c) (λ _, finished) E w.
Proof.
  intros Hw. pose proof Hw as []. eapply wp_write_next_with; [apply finish_request_n_ok| |done].
  pose proof (owns_length _ _ _ _ _ _ _ _ _ _ tw_owns0) as Hlen.
  eapply base_length; [done| |done]. by rewrite tw_requests0, length_map.
Qed.

(** ** The user answers a request *)

(** A live request: where it stands in the deque of its connection. *)
Lemma Inv_live w r q c :
  Inv fuel room ex w → tracked rel w → w_reqs w !! r = Some q → sr_connection q = Some c →
  ∃ k l1 l2 xs o ys tp,
    owns w c k (l1 ++ r :: l2) (xs ++ (q, o) :: ys) tp ∧ length l1 = length xs ∧
    sc_requests k = l1 ++ r :: l2 ∧
    settled fuel room (is_busy ex c) k (xs ++ (q, o) :: ys) tp.
Proof.
  intros Hi Ht Hq Hc. destruct (i_live _ _ _ _ Hi r q c Hq Hc) as (k & Hk & Hin).
  destruct (Inv_own _ _ _ _ _ _ Hi Hk) as (sls & Ho & Hs).
  apply list_elem_of_split in Hin as (l1 & l2 & Hr). rewrite Hr in Ho.
  pose proof (o_slots _ _ _ _ _ _ _ _ _ Ho) as (xs & ys' & Hf1 & Hf2 & ->)%Forall2_app_inv_l.
  apply Forall2_cons_inv_l in Hf2 as ([q' o] & ys & Hsl & Hf2 & ->).
  assert (q' = q) as -> by (destruct Hsl as [Hq' _]; simpl in Hq'; congruence).
  exists k, l1, l2, xs, o, ys, (tape c (w_log w)). split_and!; try done.
  by eapply Forall2_length.
Qed.

(** The local invariant does not read the counters. *)
Lemma base_processed busy k ds ans n :
  conn_base fuel room busy k ds ans →
  conn_base fuel room busy (k <| sc_requests_processed ::= n |>) ds ans.
Proof. intros []. split; done. Qed.

Lemma base_stop busy k ds :
  conn_base fuel room busy k ds false → ds ≠ [] →
  conn_base fuel room busy (k <| sc_stopping := true |>) ds false.
Proof. intros [] Hds. split; done. Qed.

(** The effect of the limit on keep-alive requests: at most [stopping] is set,
    and then the request that is answered is the only one. *)
Lemma wp_keepalive_limit (K : M World unit) w c k l1 r l2 sls tp Q E :
  owns w c k (l1 ++ r :: l2) sls tp → sc_requests k = l1 ++ r :: l2 →
  (∀ k' w', owns w' c k' (l1 ++ r :: l2) sls tp →
    (k' = k ∨ l1 = [] ∧ l2 = [] ∧ k' = k <| sc_stopping := true |>) → wp K Q E w') →
  wp (conn ← get_conn c;
      when (negb (sc_max_keepalive_requests conn =? 0)
            && (sc_max_keepalive_requests conn <=? sc_requests_processed conn)
            && (Z.of_nat (length (sc_requests conn)) =? 1))
        (conn_graceful_stop fuel c) ;; K) Q E w.
Proof.
  intros Ho Hk HQ. apply wp_bind. eapply wp_get_conn; [done|]. apply wp_bind, wp_when.
  - intros [_ Hlen%Z.eqb_eq]%andb_true_iff. rewrite Hk, length_app in Hlen. simpl in Hlen.
    assert (l1 = []) as -> by (destruct l1; [done|simpl in Hlen; lia]).
    assert (l2 = []) as -> by (destruct l2; [done|simpl in Hlen; lia]).
    apply wp_bind. eapply wp_get_conn; [done|]. rewrite Hk. cbn [app].
    eapply wp_mod_conn; [done|done|done|by repeat split; auto|]. intros w1 Ho1.
    eapply HQ; [done|]. by right.
  - intros _. eapply HQ; [done|by left].
Qed.

(** The message of a response that is about to be sent: what [respond] does to it. *)
Lemma wp_mark_response (K : M World unit) w c k l1 r l2 xs q res ys tp s (b : bool) Q E :
  owns w c k (l1 ++ r :: l2) (xs ++ (q, Some res) :: ys) tp → length l1 = length xs →
  sr_response q = Some s →
  (∀ w' res', owns w' c k (l1 ++ r :: l2) (xs ++ (q, Some res') :: ys) tp →
    (b = true → res_keep_alive (rs_msg res') = false) → wp K Q E w') →
  wp (when b (mod_res s (λ x, x <| rs_msg ::= λ m,
        m <| rm_headers ::= λ h, headers_keep_alive h false |> |>)) ;;
      res ← get_res s;
      when (negb (rm_chunked (rs_msg res)) || negb (body_length (rm_parts (rs_msg res)) =? 0))
        (mod_res s (λ x, x <| rs_completed := true |>)) ;; K) Q E w.
Proof.
  intros Ho Hl Hs HQ. apply wp_bind.
  assert (∀ w1 res1, owns w1 c k (l1 ++ r :: l2) (xs ++ (q, Some res1) :: ys) tp →
    (b = true → res_keep_alive (rs_msg res1) = false) →
    wp (res ← get_res s;
        when (negb (rm_chunked (rs_msg res)) || negb (body_length (rm_parts (rs_msg res)) =? 0))
          (mod_res s (λ x, x <| rs_completed := true |>)) ;; K) Q E w1) as Hrest.
  { intros w1 res1 Ho1 Hb. apply wp_bind. eapply wp_get_res; [done..|]. apply wp_bind, wp_when; intros _.
    - eapply wp_mod_res; [done..|]. intros w2 Ho2. by eapply HQ.
    - by eapply HQ. }
  apply wp_when; intros Hb; [|by eapply Hrest; [|rewrite Hb]].
  eapply wp_mod_res; [done..|]. intros w1 Ho1. eapply Hrest; [done|]. intros _.
  apply keep_alive_close.
Qed.

Lemma settled_unanswered busy k xs q ys tp :
  settled fuel room busy k (xs ++ (q, None) :: ys) tp → unfinished (q, None) ∧ Forall unfinished ys.
Proof.
  intros (_ & Hf & _). destruct xs as [|x xs]; [done|]. destruct Hf as [_ Hf].
  apply Forall_app in Hf as [_ Hf]. by apply Forall_cons in Hf.
Qed.

(** Answering a request of the invariant: the states in which [respond] goes on. *)
Lemma respond_settled w c k l1 r l2 xs q res ys tp s :
  owns w c k (l1 ++ r :: l2) (xs ++ (q <| sr_response := Some s |>, Some res) :: ys) tp →
  length l1 = length xs → l1 ≠ [] → sc_requests k = l1 ++ r :: l2 →
  settled fuel room (is_busy ex c) k (xs ++ (q, None) :: ys) tp → finished w.
Proof.
  intros Ho Hl Hne Hk Hs. eapply owns_settled; [rewrite Hk; exact Ho|].
  destruct Hs as (Hb & Hf & Ht). destruct xs as [|x xs]; [by destruct l1|].
  split_and!; [by rewrite map_app in *| |done].
  destruct Hf as [Hf0 Hf]. split; [done|]. apply Forall_app in Hf as [? Hf].
  apply Forall_cons in Hf as [? ?]. apply Forall_app. split; [done|]. by apply Forall_cons.
Qed.

(** What [respond] does once the request has its response. *)
Lemma wp_respond_tail w c k l1 r l2 xs q res ys tp s E :
  owns w c k (l1 ++ r :: l2) (xs ++ (q <| sr_response := Some s |>, Some res) :: ys) tp →
  length l1 = length xs → sc_requests k = l1 ++ r :: l2 →
  settled fuel room (is_busy ex c) k (xs ++ (q, None) :: ys) tp →
  wp (mod_conn c (λ k, k <| sc_requests_processed ::= λ n, u64 (n + 1) |>) ;;
      conn ← get_conn c;
      when (negb (sc_max_keepalive_requests conn =? 0)
            && (sc_max_keepalive_requests conn <=? sc_requests_processed conn)
            && (Z.of_nat (length (sc_requests conn)) =? 1))
        (conn_graceful_stop fuel c) ;;
      conn ← get_conn c;
      when (sc_stopping conn)
        (mod_res s (λ x, x <| rs_msg ::= λ m,
           m <| rm_headers ::= λ h, headers_keep_alive h false |> |>)) ;;
      res ← get_res s;
      when (negb (rm_chunked (rs_msg res)) || negb (body_length (rm_parts (rs_msg res)) =? 0))
        (mod_res s (λ x, x <| rs_completed := true |>)) ;;
      f ← front c;
      if Nat.eqb f r then write_next_response fuel c else mret tt) (λ _, finished) E w.
Proof.
  intros Ho Hl Hk Hs. apply wp_bind.
  eapply wp_mod_conn; [done|done|done|by repeat split; auto|].
  set (k1 := k <| sc_requests_processed ::= λ n, u64 (n + 1) |>).
  assert (settled fuel room (is_busy ex c) k1 (xs ++ (q, None) :: ys) tp) as Hs1.
  { destruct Hs as (? & ? & ?). split_and!; [by apply base_processed|done..]. }
  change (sc_requests k1 = l1 ++ r :: l2) in Hk. clearbody k1. clear Hs Ho. intros w2 Ho2.
  eapply wp_keepalive_limit; [done|done|]. intros k3 w3 Ho3 Hk3. apply wp_bind.
  eapply wp_get_conn; [done|]. eapply wp_mark_response; [done..|]. intros w4 res4 Ho4 Hka.
  destruct l1 as [|f l1].
  - destruct xs; [|done]. cbn [app] in *. destruct (settled_unanswered _ _ [] _ _ _ Hs1) as [Hu Hus].
    destruct Hs1 as (Hb & Hf & Htp).
    assert (sc_requests k3 = r :: l2 ∧ sc_closing k3 = sc_closing k1 ∧
      conn_base fuel room (is_busy ex c) k3 (sr_is_done q :: map slot_done ys) false) as (Hk3' & Hcl & Hb3).
    { destruct Hk3 as [->|(_ & _ & ->)]; [done|]. split_and!; [done..|]. by apply base_stop. }
    apply wp_bind. eapply wp_front; [done..|]. rewrite Nat.eqb_refl.
    eapply wp_write_next_response. split; [done|done|done|by apply Forall_cons| |].
    + intros Hst. right. auto.
    + rewrite Hcl, <-Hk. eapply tape_closed; [exact Htp|by left].
  - assert (k3 = k1) as -> by by destruct Hk3 as [->|(? & _)].
    apply wp_bind. eapply wp_front; [done..|].
    destruct (Nat.eqb_spec f r) as [->|_]; [|by eapply wp_ret, respond_settled].
    destruct Ho4 as [Ho4 _]. pose proof (o_nodup _ _ _ _ _ _ _ _ _ Ho4) as Hn.
    cbn in Hn. apply NoDup_cons in Hn as [Hn _]. destruct Hn. apply elem_of_app. right. by left.
Qed.

Lemma respond_start w c r q k l1 l2 xs o ys tp :
  owns w c k (l1 ++ r :: l2) (xs ++ (q, o) :: ys) tp → length l1 = length xs →
  sr_response q = None → o = None.
Proof.
  intros Ho Hl Hr. destruct (own_slot _ _ _ _ _ _ _ _ _ _ _ _ _ _ _ Ho Hl) as (_ & _ & Hsl).
  simpl in Hsl. rewrite Hr in Hsl. by destruct o.
Qed.
End Finish.

(** ** [respond] *)

Section Respond.
Context `{HttpProto} `{!HttpProtoLaws} `{Env} `{!EnvLaws} `{!Callbacks} `{!PassiveCallbacks}.
Context `{Rk : Risk} {T : fault → Prop}.
Local Abbreviation wp := (wpf T).
Context (fuel room : nat) (ex : option ConnId).
Implicit Types (w : World) (q : ServerRequest) (res : ServerResponse).

(** The state in which the request has its response. *)
Definition answered_world w r s : World :=
  w <| w_reqs ::= alter (λ q, q <| sr_response := Some s |>) r |>
    <| w_ress ::= alter (λ x, x <| rs_request := Some r |>) s |>.

Lemma owns_answer rel w c k l1 r l2 xs q ys tp s res :
  owns fuel room ex rel w c k (l1 ++ r :: l2) (xs ++ (q, None) :: ys) tp → length l1 = length xs →
  sr_response q = None → w_ress w !! s = Some res → rs_request res = None →
  own fuel room ex (answered_world w r s) c k (l1 ++ r :: l2)
    (xs ++ (q <| sr_response := Some s |>, Some (res <| rs_request := Some r |>)) :: ys) tp ∧
  kept w (answered_world w r s).
Proof.
  intros Ho Hl Hr Hs Hn. destruct (own_slot _ _ _ _ _ _ _ _ _ _ _ _ _ _ _ Ho Hl) as (Hq & _).
  destruct Ho as [Ho _]. split; [by apply own_answer|]. eapply kept_trans.
  - eapply (kept_mod_req w r q (λ q, q <| sr_response := Some s |>)); [done|].
    unfold req_kept. by split_and!.
  - by apply kept_same.
Qed.

(** [respond] from a live request without response, compared with [rel]. *)
Lemma wp_respond_live rel w c r s q res E :
  Inv fuel room ex w → w_reqs w !! r = Some q → sr_connection q = Some c → sr_response q = None →
  w_ress w !! s = Some res → rs_request res = None → tracked rel (answered_world w r s) →
  wp (respond fuel c r s) (λ _, finished fuel room ex rel) E w.
Proof.
  intros Hi Hq Hc Hr Hres Hnone Ht.
  apply wp_bind. eapply wp_get_req_at; [done|]. apply wp_bind, wp_assert; [by apply bool_decide_eq_true|].
  rewrite Hr.
  destruct (Inv_live fuel room ex Free w r q c Hi I Hq Hc) as (k & l1 & l2 & xs & o & ys & tp & Ho & Hl & Hk & Hs).
  assert (o = None) as -> by by eapply respond_start.
  destruct (owns_answer _ _ _ _ _ _ _ _ _ _ _ _ _ Ho Hl Hr Hres Hnone) as [Ho1 _].
  apply wp_bind, wp_modify, wp_bind, wp_modify. fold (answered_world w r s).
  by eapply wp_respond_tail.
Qed.

Lemma tracked_answered rel w c r s q res :
  Inv fuel room ex w → w_reqs w !! r = Some q → sr_connection q = Some c → sr_response q = None →
  w_ress w !! s = Some res → rs_request res = None → tracked rel w →
  kept w (answered_world w r s) ∧ tracked rel (answered_world w r s).
Proof.
  intros Hi Hq Hc Hr Hres Hnone Ht.
  destruct (Inv_live fuel room ex Free w r q c Hi I Hq Hc) as (k & l1 & l2 & xs & o & ys & tp & Ho & Hl & Hk & Hs).
  assert (o = None) as -> by by eapply respond_start.
  destruct (owns_answer _ _ _ _ _ _ _ _ _ _ _ _ _ Ho Hl Hr Hres Hnone) as [_ Hk1].
  split; [done|]. by eapply tracked_step.
Qed.

Lemma wp_respond rel w c r s q res E :
  Inv fuel room ex w → tracked rel w → w_reqs w !! r = Some q → sr_connection q = Some c →
  w_ress w !! s = Some res → rs_request res = None → (∀ e w', finished fuel room ex rel w' → E e w') →
  wp (respond fuel c r s) (λ _, finished fuel room ex rel) E w.
Proof.
  intros Hi Ht Hq Hc Hres Hnone HE. destruct (sr_response q) eqn:Hr.
  - apply wp_bind. eapply wp_get_req_at; [done|]. apply wp_bind, wp_assert; [by apply bool_decide_eq_true|].
    rewrite Hr. by apply wp_throw, HE.
  - eapply wp_respond_live; try done. by eapply tracked_answered.
Qed.

(** Afterwards the request has a response. *)
Lemma wp_respond_answers w c r s q res :
  Inv fuel room ex w → w_reqs w !! r = Some q → sr_connection q = Some c →
  w_ress w !! s = Some res → rs_request res = None →
  wp (respond fuel c r s) (λ _ w', Inv fuel room ex w' ∧ kept w w' ∧
    ∃ q', w_reqs w' !! r = Some q' ∧ sr_response q' ≠ None) (λ _ _, True) w.
Proof.
  intros Hi Hq Hc Hres Hnone. destruct (sr_response q) eqn:Hr.
  - apply wp_bind. eapply wp_get_req_at; [done|]. apply wp_bind, wp_assert; [by apply bool_decide_eq_true|].
    by rewrite Hr.
  - eapply (wp_mono _ (λ _, finished fuel room ex (Since (answered_world w r s))) _ (λ _ _, True)).
    + eapply wp_respond_live; try done. apply kept_refl.
    + intros _ w' [Hi' Hk']. destruct (tracked_answered Free w c r s q res) as [Hk _]; try done.
      split_and!; [done|by eapply kept_trans|].
      destruct (k_reqs _ _ Hk' r (q <| sr_response := Some s |>)) as (q' & Hq' & (_ & _ & _ & _ & Hr')).
      { unfold answered_world. wsimpl. by rewrite lookup_alter_eq, Hq. }
      exists q'. split; [done|]. by rewrite Hr'.
    + done.
Qed.
End Respond.
