(* ===== verification/ServerUser.v ===== *)
(** * The calls of the user's code preserve the invariant

    The methods of [ServerRequest] and [ServerResponse], called at any moment when
    the invariant holds: between two events, or by a callback in the middle of
    [on_read]. *)
From S2P Require Import Prelude Errors Date Proto ServerState ServerOps ServerConn ServerMain ServerInv ServerOwn ServerSpecs ServerFinish.
Local Open Scope Z_scope.

Section User.
Context `{HttpProto} `{!HttpProtoLaws} `{Env} `{!EnvLaws} `{!Callbacks} `{!PassiveCallbacks}.
Context `{Rk : Risk} {T : fault → Prop}.
Local Abbreviation wp := (wpf T).
Context (fuel room : nat) (ex : option ConnId) (rel : base).
Implicit Types (w : World) (c : ConnId) (k : ServerConnection) (E : exn → World → Prop)
  (q : ServerRequest) (res : ServerResponse) (tp : list tape_item).
Local Abbreviation owns := (owns fuel room ex rel).
Local Abbreviation finished := (finished fuel room ex rel).

Lemma finished_quiet w w' : quiet_step w w' → finished w → finished w'.
Proof.
  intros Hq [Hi Ht]. split; [by eapply Inv_quiet|].
  eapply tracked_step; [done|by apply Hq|]. intros _. by apply kept_quiet.
Qed.

(** [settled] reads of the requests behind the front one only how far they are
    received. *)
Lemma settled_behind busy k x xs a b ys tp :
  slot_done b = slot_done a → slot_fin b = slot_fin a →
  settled fuel room busy k (x :: xs ++ a :: ys) tp → settled fuel room busy k (x :: xs ++ b :: ys) tp.
Proof.
  intros Hd Hf (Hb & [Hf0 Hfs] & Ht). split; [|split; [split; [done|]|done]].
  - cbn [map] in *. rewrite map_app in *. cbn [map] in *. by rewrite Hd.
  - apply Forall_app in Hfs as [Hxs Hys]. apply Forall_cons in Hys as [Ha Hys].
    apply Forall_app. split; [done|]. apply Forall_cons. split; [by rewrite Hf|done].
Qed.

(** [settled], when the front request is answered. *)
Lemma settled_front busy k r l q res ys tp :
  sc_requests k = r :: l →
  settled fuel room busy k ((q, Some res) :: ys) tp ↔
    conn_base fuel room busy k (sr_is_done q :: map slot_done ys) true ∧
    (sr_finish_on_receive q = rs_completed res ∧ Forall unfinished ys) ∧
    tape_ok (sc_closing k) tp (r :: l) true (if rs_completed res then None else sr_response q).
Proof. intros Hk. unfold settled. by rewrite Hk. Qed.

(** The connection of a live request exists, or the run was at risk. *)
Lemma wp_alive `{!Tolerant T} w r q c (Q : unit → World → Prop) E :
  finished w → w_reqs w !! r = Some q → sr_connection q = Some c → Q tt w → wp (alive c) Q E w.
Proof.
  intros [Hi _] Hq Hc HQ. destruct (i_live _ _ _ _ Hi r q c Hq Hc) as (k & Hk & Hin).
  destruct (i_conn _ _ _ _ Hi c k Hk) as (sls & Hs & _ & (Hb & _) & Hreg).
  apply wp_bind, wp_bind, wp_gets. eapply wp_deref; [done|]. apply wp_bind, wp_gets.
  destruct (lives w c k) eqn:Hl; [done|]. apply orb_false_iff in Hl as [Hl%bool_decide_eq_false _].
  destruct (cp_live _ _ _ _ _ _ Hb) as [Hlis|[_ Hr]].
  - destruct Hs; [by apply elem_of_nil in Hin|done].
  - by destruct Hl; apply Hreg.
  - by apply tolerant.
Qed.

(** A new response object. *)
Lemma wp_alloc_res w x (Q : ResId → World → Prop) E :
  finished w → rs_request x = None →
  (∀ s w', finished w' → w_reqs w' = w_reqs w → w_ress w' !! s = Some x → Q s w') →
  wp (alloc_res x) Q E w.
Proof.
  intros Hfin Hx HQ. apply wp_bind, wp_gets, wp_bind, wp_modify, wp_ret, HQ.
  - eapply finished_quiet; [by apply quiet_alloc_res|done].
  - done.
  - wsimpl. by rewrite lookup_insert_eq.
Qed.

Lemma wp_req_respond `{!Tolerant T} w r q s res E :
  finished w → w_reqs w !! r = Some q → w_ress w !! s = Some res → rs_request res = None →
  (∀ e w', finished w' → E e w') → wp (req_respond fuel r s) (λ _, finished) E w.
Proof.
  intros [Hi Ht] Hq Hs Hn HE. apply wp_bind. eapply wp_get_req_at; [done|].
  destruct (sr_connection q) as [c|] eqn:Hc; [|by split].
  apply wp_bind. eapply wp_alive; [by split|done..|]. by eapply wp_respond.
Qed.

Lemma wp_req_redirect `{!Tolerant T} w r q uri E :
  finished w → w_reqs w !! r = Some q → (∀ e w', finished w' → E e w') →
  wp (req_redirect fuel r uri) (λ _, finished) E w.
Proof.
  intros Hfin Hq HE. apply wp_bind. eapply wp_alloc_res; [done|done|].
  intros s w' Hfin' Hr Hs. eapply wp_req_respond; [done|by rewrite Hr|done|done|done].
Qed.

Lemma wp_assert_requests w c k r l ids sls tp Q E :
  owns w c k ids sls tp → sc_requests k = r :: l → Q tt w → wp (assert_requests c) Q E w.
Proof.
  intros Ho Hk HQ. apply wp_bind. eapply wp_get_conn; [done|]. by rewrite Hk.
Qed.

(** The live request is the front one, or there is another one in front. *)
Lemma front_or_behind w c k l1 r l2 xs sl ys tp :
  owns w c k (l1 ++ r :: l2) (xs ++ sl :: ys) tp → length l1 = length xs →
  (l1 = [] ∧ xs = []) ∨
  ∃ f l1' x xs', l1 = f :: l1' ∧ xs = x :: xs' ∧ f ≠ r ∧ slot_at w c f x.
Proof.
  intros [Ho _] Hl. destruct l1 as [|f l1], xs as [|x xs]; try done; [by left|right].
  exists f, l1, x, xs. split_and!; [done..| |].
  - intros ->. pose proof (o_nodup _ _ _ _ _ _ _ _ _ Ho) as Hn. cbn in Hn.
    apply NoDup_cons in Hn as [Hn _]. destruct Hn. apply elem_of_app. right. by left.
  - pose proof (o_slots _ _ _ _ _ _ _ _ _ Ho) as Hf. by apply Forall2_cons in Hf as [? _].
Qed.

Lemma wp_req_send_continue `{!Tolerant T} w r q E :
  finished w → w_reqs w !! r = Some q → (∀ e w', finished w' → E e w') →
  wp (req_send_continue r) (λ _, finished) E w.
Proof.
  intros Hfin Hq HE. pose proof Hfin as [Hi Ht]. apply wp_bind. eapply wp_get_req_at; [done|].
  destruct (sr_connection q) as [c|] eqn:Hc; [|done].
  destruct (Inv_live _ _ _ _ _ _ _ _ Hi Ht Hq Hc) as (k & l1 & l2 & xs & o & ys & tp & Ho & Hl & Hk & Hs).
  apply wp_bind. eapply wp_alive; [done..|].
  apply wp_bind. destruct (front_or_behind _ _ _ _ _ _ _ _ _ _ Ho Hl)
    as [[-> ->]|(f & l1' & x & xs' & -> & -> & Hne & _)]; cbn [app] in *;
    (eapply wp_assert_requests; [done|done|]); apply wp_bind; (eapply wp_front; [done..|]).
  2: by rewrite (proj2 (Nat.eqb_neq f r) Hne).
  rewrite Nat.eqb_refl. cbn [negb]. apply wp_bind. eapply wp_get_req_at; [done|].
  destruct (_ || _); [done|]. destruct (sr_response q) as [s|] eqn:Hr; [by apply wp_throw, HE|].
  destruct (front_slot _ _ _ _ _ _ _ _ _ _ _ _ _ Ho) as (_ & _ & Hsl). simpl in Hsl. rewrite Hr in Hsl.
  destruct o; [done|]. destruct Hs as (Hb & Hf & Htp).
  eapply wp_stream_write; [done|]. intros w1 Ho1. eapply owns_settled; [rewrite Hk; exact Ho1|].
  split_and!; [done..|]. rewrite Hk in *. unfold front_open in *. simpl in *. rewrite Hr in *.
  by apply tape_continue.
Qed.

(** *** Chunks *)

(** The live request of a response. *)
Lemma finished_response w s res c :
  finished w → w_ress w !! s = Some res →
  ∀ E (Q : option ConnId → World → Prop),
  (∀ r q, rs_request res = Some r → w_reqs w !! r = Some q → sr_response q = Some s →
     Q (sr_connection q) w) →
  (rs_request res = None → Q None w) → wp (response_connection res) Q E w.
Proof.
  intros [Hi _] Hs E Q HQ Hn. unfold response_connection.
  destruct (rs_request res) as [r|] eqn:Hr; [|by apply Hn].
  destruct (g_back _ (i_glob _ _ _ _ Hi) s res r Hs Hr) as (q & Hq & Hqs).
  apply wp_bind. eapply wp_get_req_at; [done|]. by eapply HQ.
Qed.

Lemma live_response w s res r q c :
  finished w → w_ress w !! s = Some res → w_reqs w !! r = Some q → sr_response q = Some s →
  sr_connection q = Some c →
  ∃ k l1 l2 xs ys tp, owns w c k (l1 ++ r :: l2) (xs ++ (q, Some res) :: ys) tp ∧
    length l1 = length xs ∧ sc_requests k = l1 ++ r :: l2 ∧
    settled fuel room (is_busy ex c) k (xs ++ (q, Some res) :: ys) tp.
Proof.
  intros [Hi Ht] Hs Hq Hqs Hc.
  destruct (Inv_live _ _ _ _ _ _ _ _ Hi Ht Hq Hc) as (k & l1 & l2 & xs & o & ys & tp & Ho & Hl & Hk & Hset).
  destruct (own_slot _ _ _ _ _ _ _ _ _ _ _ _ _ _ _ Ho Hl) as (_ & _ & Hsl). simpl in Hsl.
  rewrite Hqs in Hsl. destruct o as [res'|]; [|done]. destruct Hsl as [Hs' _]. simplify_eq.
  eauto 15.
Qed.

(** The front request of the deque has another response. *)
Lemma front_other w c k l1 r l2 xs q res ys tp s f x :
  owns w c k (l1 ++ r :: l2) (xs ++ (q, Some res) :: ys) tp → length l1 = length xs →
  sr_response q = Some s → f ≠ r → slot_at w c f x → sr_response x.1 ≠ Some s.
Proof.
  intros Ho Hl Hs Hne (_ & _ & Hx) Hf.
  destruct (own_slot _ _ _ _ _ _ _ _ _ _ _ _ _ _ _ Ho Hl) as (_ & _ & Hr). simpl in Hr.
  rewrite Hs in Hr. rewrite Hf in Hx. destruct x.2; [|done]. destruct Hr, Hx. congruence.
Qed.

Lemma wp_res_send_chunk `{!Tolerant T} w s res chunk E :
  finished w → w_ress w !! s = Some res → (∀ e w', finished w' → E e w') →
  wp (res_send_chunk s chunk) (λ _, finished) E w.
Proof.
  intros Hfin Hs HE. apply wp_bind. eapply wp_get_res_at; [done|].
  destruct (rs_completed res) eqn:Hcomp; [by apply wp_throw, HE|]. apply wp_bind.
  eapply (finished_response w s res 0); [done..| |done]. intros r q _ Hq Hqs.
  destruct (sr_connection q) as [c|] eqn:Hc; [|done].
  destruct (live_response _ _ _ _ _ _ Hfin Hs Hq Hqs Hc) as (k & l1 & l2 & xs & ys & tp & Ho & Hl & Hk & Hset).
  apply wp_bind. eapply wp_alive; [done..|].
  apply wp_bind. destruct (front_or_behind _ _ _ _ _ _ _ _ _ _ Ho Hl)
    as [[-> ->]|(f & l1' & x & xs' & -> & -> & Hne & Hx)]; cbn [app] in *;
    (eapply wp_assert_requests; [done|done|]); (destruct chunk; [done|]); apply wp_bind;
    (eapply wp_front; [done..|]); apply wp_bind.
  - eapply wp_front_req; [done|]. rewrite bool_decide_true by done.
    eapply wp_write_chunk; [done..|]. intros v w1 res1 Ho1 (_ & Hc1 & _).
    eapply (owns_settled _ _ _ _ _ _ k); [rewrite Hk; exact Ho1|].
    rewrite settled_front in Hset |- * by exact Hk. rewrite Hc1. destruct Hset as (Hb & Hf & Ht).
    rewrite Hcomp, Hqs in *. split; [done|split; [done|]]. by apply tape_chunk.
  - eapply wp_get_req_at; [apply Hx|]. rewrite bool_decide_false.
    2: by eapply (front_other _ _ _ (f :: l1') _ _ (x :: xs')).
    eapply (wp_mod_res _ _ _ _ _ _ _ (f :: l1') r l2 (x :: xs')); [done..|]. intros w1 Ho1.
    eapply (owns_settled _ _ _ _ _ _ k); [rewrite Hk; exact Ho1|]. by eapply settled_behind in Hset.
Qed.

Lemma wp_res_send_final_chunk `{!Tolerant T} w s res chunk E :
  finished w → w_ress w !! s = Some res → (∀ e w', finished w' → E e w') →
  wp (res_send_final_chunk fuel s chunk) (λ _, finished) E w.
Proof.
  intros Hfin Hs HE. apply wp_bind. eapply wp_get_res_at; [done|].
  destruct (rs_completed res) eqn:Hcomp; [by apply wp_throw, HE|]. apply wp_bind.
  eapply (finished_response w s res 0); [done..| |done]. intros r q _ Hq Hqs.
  destruct (sr_connection q) as [c|] eqn:Hc; [|done].
  destruct (live_response _ _ _ _ _ _ Hfin Hs Hq Hqs Hc) as (k & l1 & l2 & xs & ys & tp & Ho & Hl & Hk & Hset).
  apply wp_bind. eapply wp_alive; [done..|].
  apply wp_bind. destruct (front_or_behind _ _ _ _ _ _ _ _ _ _ Ho Hl)
    as [[-> ->]|(f & l1' & x & xs' & -> & -> & Hne & Hx)]; cbn [app] in *;
    (eapply wp_assert_requests; [done|done|]); apply wp_bind.
  - eapply wp_mod_front; [done..|]. intros w1 Ho1. apply wp_bind. eapply wp_front; [done..|].
    apply wp_bind. eapply wp_front_req; [done|]. rewrite bool_decide_true by done.
    apply wp_bind. eapply wp_front_res; [done..|]. destruct (final_chunk _ _) as [v codec].
    apply wp_bind. eapply wp_mod_front; [done..|]. intros w2 Ho2. apply wp_bind.
    eapply wp_stream_write; [done|]. intros w3 Ho3.
    rewrite settled_front in Hset by exact Hk. destruct Hset as (Hb & [Hf Hfs] & Ht).
    rewrite Hcomp, Hqs in *.
    eapply wp_finish_request. split; [done|done|done|done|done|done|by apply tape_final].
  - eapply (wp_mod_res _ _ _ _ _ _ _ (f :: l1') r l2 (x :: xs')); [done..|]. intros w1 Ho1.
    apply wp_bind. eapply wp_front; [done..|]. apply wp_bind.
    assert (slot_at w1 c f x) as Hx1.
    { destruct (front_or_behind _ _ _ (f :: l1') _ _ (x :: xs') _ _ _ Ho1 Hl)
        as [[? _]|(f' & ? & x' & ? & [= <- <-] & [= <- <-] & _ & ?)]; done. }
    eapply wp_get_req_at; [apply Hx1|]. rewrite bool_decide_false.
    2: by eapply (front_other _ _ _ (f :: l1') _ _ (x :: xs')).
    eapply wp_ret, (owns_settled _ _ _ _ _ _ k); [rewrite Hk; exact Ho1|]. by eapply settled_behind in Hset.
Qed.
End User.
