(* ===== verification/ServerRecv.v ===== *)
(** * Receiving requests: the invariant in the middle of [on_read]

    What parsing does to the local invariant, and the specifications of the parts
    of [on_read] that touch only the connection. *)
From S2P Require Import Prelude Errors Date Proto ServerState ServerOps ServerConn ServerMain ServerInv ServerOwn ServerSpecs ServerFinish ServerUser.
Local Open Scope Z_scope.

(** ** The bound on the deque can be given away *)

Section Room.
Context `{HttpProto}.
Context `{Rk : Risk}.
Context (fuel : nat).

Lemma base_room room room' busy k ds ans :
  (room' ≤ room)%nat → conn_base fuel room busy k ds ans → conn_base fuel room' busy k ds ans.
Proof. intros Hr []. split; try done. lia. Qed.

Lemma conn_ok_room room room' busy w c k :
  (room' ≤ room)%nat → conn_ok fuel room busy w c k → conn_ok fuel room' busy w c k.
Proof.
  intros Hr (sls & Hs & Hn & (Hb & ? & ?) & Hreg). exists sls. split_and!; try done.
  split_and!; try done. by eapply base_room.
Qed.

Lemma own_room room room' ex w c k ids sls tp :
  (room' ≤ room)%nat → own fuel room ex w c k ids sls tp → own fuel room' ex w c k ids sls tp.
Proof. intros Hr []. split; try done. intros. eapply conn_ok_room; eauto. Qed.

Lemma Inv_room room room' ex w :
  (room' ≤ room)%nat → Inv fuel room ex w → Inv fuel room' ex w.
Proof. intros Hr []. split; try done. intros. eapply conn_ok_room; eauto. Qed.

(** A log entry that is no arrival and no write. *)
Lemma Inv_log room ex w o :
  (∀ c, tape_of c o = None) → (∀ r, epilogue r (o :: w_log w) = epilogue r (w_log w)) → Inv fuel room ex w →
  Inv fuel room ex (w <| w_log ::= cons o |>) ∧ kept w (w <| w_log ::= cons o |>).
Proof.
  intros Ho He [[] Hh Hl Hc].
  assert (∀ c, tape c (o :: w_log w) = tape c (w_log w)) as Ht.
  { intros c. unfold tape. cbn [omap list_omap]. by rewrite Ho. }
  split; [|apply kept_same; [done..|]; intros c; wsimpl; by rewrite Ht]. split; wsimpl; [|done|done|].
  - split; wsimpl; try done; [intros c; rewrite Ht; eauto..|]. intros r. by apply (ended_frame w).
  - intros c k Hk. eapply conn_ok_frame; [by apply Hc|done|by wsimpl|done].
Qed.

(** The connection whose [on_read] ends is like the others again. *)
Lemma Inv_unbusy room c w :
  Inv fuel room (Some c) w →
  (∀ k, w_conns w !! c = Some k → sc_closing k = true → deliverable k = true →
     parser_idle (sc_parser k) = false) →
  Inv fuel room None (w <| w_held := None |>).
Proof.
  intros [[] _ Hl Hc] Hrest. split; [by split|done..|]. intros c' k Hk. specialize (Hc c' k Hk).
  destruct (decide (c' = c)) as [->|Hne].
  - destruct Hc as (sls & Hs & Hn & (Hb & ? & ?) & Hreg). exists sls. split_and!; try done.
    split_and!; try done. destruct Hb. split; try done. intros _. by apply Hrest.
  - unfold is_busy in *. rewrite bool_decide_false in Hc by congruence. done.
Qed.

Lemma Inv_busy room c w : Inv fuel room None w → Inv fuel room (Some c) (w <| w_held := Some c |>).
Proof.
  intros [[] _ Hl Hc]. split; [by split|done..|]. intros c' k Hk. specialize (Hc c' k Hk).
  unfold is_busy in *. destruct (decide (Some c = Some c')).
  - destruct Hc as (sls & Hs & Hn & (Hb & ? & ?) & Hreg). exists sls. split_and!; try done.
    split_and!; try done. destruct Hb. split; try done. by rewrite bool_decide_true.
  - by rewrite bool_decide_false.
Qed.
End Room.

(** ** The local invariant while a request is received *)

Section Base.
Context `{HttpProto}.
Context `{Rk : Risk}.
Context (fuel room : nat) (busy : bool).
Implicit Types (k : ServerConnection) (ds : list bool).

Lemma base_ignored k ds ans :
  conn_base fuel room busy k ds ans →
  conn_base fuel room busy (k <| sc_ignored := true |>) ds ans.
Proof.
  intros []. split; unfold deliverable in *; ksimpl; rewrite ?andb_false_r; try done.
  intros Hc. destruct (cp_closing Hc). done.
Qed.

Lemma base_stopped k ds ans :
  conn_base fuel room busy k ds ans →
  conn_base fuel room busy (k <| sc_idle_timer ::= timer_stopped |>) ds ans.
Proof.
  intros []. split; unfold deliverable in *; ksimpl; try done.
  - by destruct (sc_idle_timer k).
  - intros Hl. destruct (cp_has_timer Hl) as [b ->]. done.
Qed.

Lemma front_done_snoc ds d d' :
  front_done (ds ++ [d]) → front_done (ds ++ [d']).
Proof.
  induction ds as [|x ds IH]; [done|]. destruct ds; cbn in *; [|tauto]. by intros [-> _].
Qed.

Lemma front_done_all ds d :
  front_done ds → last ds ≠ Some false → front_done (ds ++ [d]).
Proof.
  induction ds as [|x ds IH]; [done|]. destruct ds as [|y ds].
  - cbn. intros _ Hx. split; [|done]. by destruct x.
  - intros [-> Hf] Hl. split; [done|]. apply IH; [done|]. by rewrite last_cons_cons in Hl.
Qed.

(** The connection record after a parse: the parser's new state [p], the request
    being filled [r]. *)
Definition parsed k (p : PState) (r : ReqId) (l : list ReqId) : ServerConnection :=
  k <| sc_idle_timer ::= timer_stopped |> <| sc_parser := p |> <| sc_current := Some r |>
    <| sc_requests := l |>.

Lemma deliverable_parsed k p r l : deliverable (parsed k p r l) = deliverable k.
Proof. done. Qed.

(** A request in receipt is received further; [d]: it is complete now. *)
Lemma base_receive k ds ans p r l d :
  conn_base fuel room true k (ds ++ [false]) ans → last l = Some r →
  parser_idle p = d →
  conn_base fuel room true (parsed k p r l) (ds ++ [d]) ans.
Proof.
  intros [] Hl Hp.
  split; unfold parsed in *; ksimpl; rewrite ?deliverable_parsed.
  - by eapply front_done_snoc.
  - by destruct (sc_idle_timer k).
  - intros _. apply cp_live. by destruct ds.
  - intros _. destruct cp_has_timer as [b ->]; [right; by destruct ds|done].
  - intros Hc. destruct (cp_closing Hc) as [Hlen _]. rewrite length_app in *. split; [done|].
    by destruct ds.
  - intros _. by destruct ds.
  - done.
  - intros _ Hi. rewrite last_snoc. split_and!; [congruence|done|done].
  - intros _ Hi. rewrite last_snoc. congruence.
  - done.
  - rewrite length_app in *. done.
Qed.

(** A request begins. *)
Lemma base_arrive k ds ans p r l d :
  conn_base fuel (S room) true k ds ans → last l = Some r → parser_idle p = d →
  sc_listener k = true → last ds ≠ Some false → (sc_closing k = true → ds = []) →
  (ds = [] → ans = false) →
  conn_base fuel room true (parsed k p r l) (ds ++ [d]) ans.
Proof.
  intros [] Hl Hp Hlis Hlast Hcl Hans.
  split; unfold parsed in *; ksimpl; rewrite ?deliverable_parsed.
  - by apply front_done_all.
  - by destruct (sc_idle_timer k).
  - intros _. by left.
  - intros _. destruct cp_has_timer as [b ->]; [by left|done].
  - intros Hc. rewrite (Hcl Hc). split; [done|by destruct ds].
  - intros _. by destruct ds.
  - done.
  - intros _ Hi. rewrite last_snoc. split_and!; [congruence|done|done].
  - intros _ Hi. rewrite last_snoc. congruence.
  - done.
  - rewrite length_app. simpl. lia.
Qed.
End Base.

(** ** The specifications *)

Section Recv.
Context `{HttpProto} `{!HttpProtoLaws} `{Env} `{!EnvLaws} `{!Callbacks} `{!PassiveCallbacks}.
Context `{Rk : Risk} {T : fault → Prop}.
Local Abbreviation wp := (wpf T).
Context (fuel : nat) (c : ConnId).
Implicit Types (w : World) (k : ServerConnection) (E : exn → World → Prop)
  (q : ServerRequest) (res : ServerResponse) (tp : list tape_item) (sls : list slot).
Local Abbreviation owns room := (owns fuel room (Some c) Free).

Lemma is_busy_self : is_busy (Some c) c = true.
Proof. unfold is_busy. by rewrite bool_decide_true. Qed.

Definition fresh_request q : Prop :=
  sr_connection q = Some c ∧ sr_response q = None ∧ sr_finish_on_receive q = false.

Lemma wp_new_request room w k ids sls tp (Q : ReqId → World → Prop) E :
  owns room w c k ids sls tp →
  (∀ r q w', r ∉ arrived tp → r ∉ ids → fresh_request q →
     owns room w' c k (ids ++ [r]) (sls ++ [(q, None)]) tp → Q r w') →
  wp (new_request c) Q E w.
Proof.
  intros Ho HQ. apply wp_bind. eapply wp_get_conn; [done|].
  assert (wp (new_ServerRequest c) Q E w) as Hnew.
  { apply wp_bind. eapply wp_get_conn; [done|]. apply wp_bind, wp_gets, wp_bind, wp_modify, wp_ret.
    destruct Ho as [Ho _]. eapply HQ; [| | |split; [by apply own_alloc_req|done]]; [| |done].
    - rewrite <-(o_tape _ _ _ _ _ _ _ _ _ Ho). intros Hin%(g_arrived _ (o_glob _ _ _ _ _ _ _ _ _ Ho)).
      rewrite fresh_key_None in Hin. by destruct Hin.
    - intros Hin. destruct (slots_lookup _ _ _ _ _ (o_slots _ _ _ _ _ _ _ _ _ Ho) Hin) as (sl & Hsl & _).
      by rewrite fresh_key_None in Hsl. }
  destruct (sc_factory k); [|done]. unfold wpf. by rewrite factory_makes.
Qed.

Lemma wp_emplace_back room w k ids sls tp r Q E :
  owns room w c k ids sls tp → r ∈ ids →
  (∀ w', owns room w' c (k <| sc_requests := sc_requests k ++ [r] |>) ids sls (TArrive r :: tp) → Q tt w') →
  wp (emplace_back c r) Q E w.
Proof.
  intros Ho Hr HQ. apply wp_bind. eapply wp_mod_conn; [done|done|done|done|]. intros w1 Ho1.
  rewrite (requests_update k (λ l, l ++ [r]) _ eq_refl) in Ho1. apply wp_modify, HQ.
  destruct Ho1 as [Ho1 _]. split; [|done].
  assert (is_Some (w_reqs w1 !! r)) as Hex.
  { destruct (slots_lookup _ _ _ _ _ (o_slots _ _ _ _ _ _ _ _ _ Ho1) Hr) as (sl & Hsl & _). eauto. }
  eapply (own_log _ _ _ _ _ _ _ _ _ (OArrive c r)) in Ho1.
  - simpl in Ho1. by rewrite Nat.eqb_refl in Ho1.
  - intros c' Hne. simpl. by destruct (Nat.eqb_spec c c').
  - intros r'. simpl. rewrite Nat.eqb_refl. by intros [= ->].
  - done.
Qed.

(** A state in which the loop of [on_read] may take the next piece of input:
    the stream delivers and the connection still wants requests; or the connection
    was just shut down, and the rest of the buffer is still parsed. *)
Definition readable k : Prop :=
  deliverable k = true ∧ (sc_closing k = true → parser_idle (sc_parser k) = false) ∨
  sc_listener k = true ∧ sc_requests k = [] ∧ sc_closing k = true ∧ parser_idle (sc_parser k) = true.

(** The state after a piece was parsed: [r] is the request it belongs to. *)
Record received room w k l1 r xs q o tp (st : proto_state) : Prop := {
  rc_owns : owns room w c k (l1 ++ [r]) (xs ++ [(q, o)]) tp;
  rc_requests : sc_requests k = l1 ++ [r];
  rc_length : length l1 = length xs;
  rc_settled : settled fuel room true k (xs ++ [(q, o)]) tp;
  rc_done : sr_is_done q = state_ge_done st;
  rc_idle : parser_idle (sc_parser k) = state_ge_done st;
  rc_readable : deliverable k = true ∨ sc_listener k = true ∧ sc_closing k = true
}.

Lemma slots_snoc_inv sls d :
  last (map slot_done sls) = Some d → ∃ xs q o, sls = xs ++ [(q, o)] ∧ sr_is_done q = d.
Proof.
  destruct sls as [|[q o] xs _] using rev_ind; [done|]. rewrite map_app. cbn [map]. rewrite last_snoc.
  intros [= <-]. eauto.
Qed.

(** The parts of [settled] that are not about the receipt, when the last request
    is received further. *)
Lemma settled_receive room k xs q o tp p r l1 msg d :
  settled fuel room true k (xs ++ [(q, o)]) tp → sr_is_done q = false →
  sc_requests k = l1 ++ [r] → parser_idle p = d →
  settled fuel room true (parsed k p r (l1 ++ [r]))
    (xs ++ [(q <| sr_msg := msg |> <| sr_is_done := d |>, o)]) tp.
Proof.
  intros (Hb & Hf & Ht) Hd Hk Hp. split_and!.
  - rewrite !map_app in *. unfold slot_done at 2 in Hb. simpl in Hb. rewrite Hd in Hb.
    replace (front_written (xs ++ [(q <| sr_msg := msg |> <| sr_is_done := d |>, o)]))
      with (front_written (xs ++ [(q, o)])) by by destruct xs.
    eapply base_receive; [done|by rewrite last_snoc|done].
  - destruct xs as [|x xs]; [done|]. destruct Hf as [Hf0 Hf]. split; [done|].
    rewrite Forall_app in Hf |- *. destruct Hf as [? Hf]. split; [done|].
    by rewrite Forall_singleton in Hf |- *.
  - rewrite Hk in Ht. by destruct xs.
Qed.

Lemma settled_arrive room k sls tp p r q d :
  settled fuel (S room) true k sls tp → r ∉ arrived tp → fresh_request q → sr_is_done q = d →
  length sls = length (sc_requests k) →
  readable k → parser_idle (sc_parser k) = true → parser_idle p = d →
  settled fuel room true (parsed k p r (sc_requests k ++ [r])) (sls ++ [(q, None)]) (TArrive r :: tp).
Proof.
  intros (Hb & Hf & Ht) Hr (Hqc & Hqr & Hqf) Hd Hlen Hread Hidle Hp.
  assert (sc_closing k = true → sc_requests k = []) as Hcl.
  { intros Hc. destruct Hread as [[_ Hi]|(_ & ? & _)]; [|done]. rewrite Hi in Hidle; done. }
  assert (sc_requests k = [] → sls = []) as Hnil by (intros E; rewrite E in Hlen; by destruct sls).
  split_and!.
  - rewrite map_app. cbn [map]. unfold slot_done at 2. simpl. rewrite Hd.
    replace (front_written (sls ++ [(q, None)])) with (front_written sls) by by destruct sls.
    eapply base_arrive; [done|by rewrite last_snoc|done| | | |].
    + destruct Hread as [[Hdel _]|[? _]]; [|done]. unfold deliverable in Hdel. by destruct (sc_listener k).
    + destruct Hread as [[Hdel _]|(_ & Hn & _)]; [|by rewrite (Hnil Hn)].
      by apply (cp_received _ _ _ _ _ _ Hb).
    + intros Hc. by rewrite (Hnil (Hcl Hc)).
    + intros Hn. by destruct sls.
  - destruct sls as [|x sls]; [by split|]. destruct Hf as [Hf0 Hf]. split; [done|].
    apply Forall_app. split; [done|]. by apply Forall_singleton.
  - replace (front_written (sls ++ [(q, None)])) with (front_written sls) by by destruct sls.
    replace (front_open (sls ++ [(q, None)])) with (front_open sls).
    2: { destruct sls; [|done]. unfold front_open. simpl. by rewrite Hqr. }
    eapply tape_arrive; [done|done| |].
    + change (sc_closing (parsed k p r (sc_requests k ++ [r]))) with (sc_closing k).
      destruct (sc_closing k); [right; auto|by left].
    + intros Hn. by rewrite (Hnil Hn).
Qed.

(** The request object that the parser fills: a new one, or the one in receipt. *)
Lemma wp_parse_target room w k sls tp (new : bool) (Q : ReqId → World → Prop) E :
  owns (S room) w c (k <| sc_idle_timer ::= timer_stopped |>) (sc_requests k) sls tp →
  settled fuel (S room) true k sls tp → readable k → new = parser_idle (sc_parser k) →
  (∀ w' r l1 xs q o,
     owns (S room) w' c (k <| sc_idle_timer ::= timer_stopped |>) (l1 ++ [r])
       (xs ++ [(q, o)]) tp →
     length l1 = length xs →
     (if new then l1 = sc_requests k ∧ xs = sls ∧ o = None ∧ (r ∉ arrived tp) ∧ (r ∉ l1) ∧ fresh_request q
      else sc_requests k = l1 ++ [r] ∧ sls = xs ++ [(q, o)] ∧ sr_is_done q = false) →
     Q r w') →
  wp (if new then new_request c else deref (sc_current k)) Q E w.
Proof.
  intros Ho Hs Hread Hnew HQ. destruct new.
  - eapply wp_new_request; [done|]. intros r q w1 Hr Hin Hq Ho1.
    pose proof (owns_length _ _ _ _ _ _ _ _ _ _ Ho). by eapply HQ.
  - destruct Hread as [[Hdel _]|(_ & _ & _ & Hi)]; [|congruence].
    destruct (cp_receiving _ _ _ _ _ _ (proj1 Hs) Hdel (eq_sym Hnew)) as (Hlast & [r Hcur] & Heq).
    apply slots_snoc_inv in Hlast as (xs & q & o & -> & Hd).
    rewrite Hcur in Heq. symmetry in Heq. apply last_Some in Heq as [l1 Hl1]. rewrite Hl1 in *.
    pose proof (owns_length _ _ _ _ _ _ _ _ _ _ Ho) as Hlen. rewrite !length_app in Hlen. simpl in Hlen.
    eapply wp_deref; [done|]. eapply HQ; [done|lia|done].
Qed.

Lemma owns_room room room' w k ids sls tp :
  (room' ≤ room)%nat → owns room w c k ids sls tp → owns room' w c k ids sls tp.
Proof. intros Hr [Ho Ht]. split; [by eapply own_room|done]. Qed.

Lemma wp_receive {A} room w k sls tp buf
    (K : ReqId → proto_state → option ErrorCode → string → M World A) Q E :
  owns (S room) w c k (sc_requests k) sls tp → settled fuel (S room) true k sls tp → readable k →
  buf ≠ EmptyString →
  (∀ w' r k' l1 xs q o tp' st err rest,
     received room w' k' l1 r xs q o tp' st → (st = PsError ↔ err ≠ None) →
     (err = None → (String.length rest < String.length buf)%nat ∧ (st ≠ PsDone → rest = EmptyString)) →
     (∃ p new msg, parse_shift (sc_limits k) (sc_parser k) buf = (p, (new, msg, st, err, rest))) →
     wp (K r st err rest) Q E w') →
  wp (stop_idle_timer c ;;
      '(r, st, err, rest) ← parse_next c buf;
      enqueue_parsed c r ;;
      mod_req r (λ q, q <| sr_is_done := state_ge_done st |>) ;;
      K r st err rest) Q E w.
Proof.
  intros Ho Hs Hread Hbuf HK. apply wp_bind. eapply wp_stop_idle_timer; [done|]. intros w1 Ho1.
  apply wp_bind, wp_bind. eapply wp_get_conn; [done|].
  destruct (parse_shift _ _ _) as [p [[[[new msg] st] err] rest]] eqn:Hp.
  change (parse_shift (sc_limits k) (sc_parser k) buf = (p, (new, msg, st, err, rest))) in Hp.
  pose proof (parse_shift_new _ _ _ _ _ _ _ _ _ Hp) as Hnew.
  pose proof (parse_shift_idle _ _ _ _ _ _ _ _ _ Hp) as Hidle.
  pose proof (parse_shift_error _ _ _ _ _ _ _ _ _ Hp) as Herr.
  assert (err = None → (String.length rest < String.length buf)%nat ∧ (st ≠ PsDone → rest = EmptyString))
    as Hrest by (intros ->; by eapply parse_shift_shrinks).
  apply wp_bind. eapply (wp_parse_target room w1 k); [done..|]. clear Ho1.
  intros w2 r l1 xs q o Ho2 Hl Hcase. apply wp_bind.
  eapply (wp_mod_req _ _ _ _ _ _ _ l1 r [] xs); [done..|]. intros w3 Ho3. apply wp_bind.
  eapply wp_mod_conn; [done|done|done|done|]. intros w4 Ho4. apply wp_ret, wp_bind, wp_bind.
  eapply wp_get_conn; [done|]. set (k4 := k <| sc_idle_timer ::= _ |> <| sc_parser := p |> <| sc_current := Some r |>) in *.
  assert (∀ w5 k' tp', owns (S room) w5 c k' (l1 ++ [r]) (xs ++ [(q <| sr_msg := msg |>, o)]) tp' →
    k' = parsed k p r (l1 ++ [r]) →
    settled fuel room true k' (xs ++ [(q <| sr_msg := msg |> <| sr_is_done := state_ge_done st |>, o)]) tp' →
    wp (mod_req r (λ q, q <| sr_is_done := state_ge_done st |>) ;; K r st err rest) Q E w5) as Hend.
  { intros w5 k' tp' Ho5 Hk' Hs5. apply wp_bind.
    eapply (wp_mod_req _ _ _ _ _ _ _ l1 r [] xs); [done..|]. intros w6 Ho6. eapply HK; [|done|done|by do 3 eexists].
    subst k'. split; try done; [apply (owns_room (S room)); [lia|done]|by unfold parsed; ksimpl|].
    unfold parsed. ksimpl. destruct Hread as [[Hdel _]|(? & _ & ? & _)]; [by left|by right]. }
  destruct new.
  - destruct Hcase as (-> & -> & -> & Hr & Hin & Hq).
    rewrite bool_decide_false; [|intros Hlast; apply Hin; change (last (sc_requests k) = Some r) in Hlast; apply last_Some in Hlast as [l ->];
      apply elem_of_app; right; by left].
    eapply wp_emplace_back; [done|apply elem_of_app; right; by left|]. intros w5 Ho5.
    change (k4 <| sc_requests := sc_requests k4 ++ [r] |>) with (parsed k p r (sc_requests k ++ [r])) in Ho5.
    eapply Hend; [done|done|].
    pose proof (owns_length _ _ _ _ _ _ _ _ _ _ Ho) as Hlen.
    eapply (settled_arrive room); try done.
  - destruct Hcase as (Hk & -> & Hd). rewrite bool_decide_true; [|by unfold k4; ksimpl; rewrite Hk, last_snoc].
    assert (k4 = parsed k p r (l1 ++ [r])) as Ek.
    { unfold k4, parsed. rewrite <-Hk. by destruct k. }
    eapply wp_ret, Hend; [done|done|]. rewrite Ek. eapply settled_receive; [|done..].
    destruct Hs as (Hb & Hfo). split; [|done]. eapply base_room; [|done]. lia.
Qed.
End Recv.
