(* ===== verification/ServerRead.v ===== *)
(** * [on_read] preserves the invariant

    The user's code that [on_read] calls is described by [ActiveCallbacks]: it may
    do to the connections what the calls of [ServerUser] do, that is preserve the
    invariant and what [kept] lists. [ServerSafety] shows that user programs made
    of such calls are of this kind. *)
From S2P Require Import Prelude Errors Date Proto ServerState ServerOps ServerConn ServerMain ServerInv ServerOwn ServerSpecs ServerFinish ServerUser ServerRecv.
Local Open Scope Z_scope.

(** ** Changes that the invariant does not see *)

Section Same.
Context `{HttpProto}.
Context `{Rk : Risk}.
Context (fuel room : nat) (ex : option ConnId).
Implicit Types (w : World) (c : ConnId) (sls : list slot).

Definition slot_same (a b : slot) : Prop :=
  sr_is_done b.1 = sr_is_done a.1 ∧ sr_finish_on_receive b.1 = sr_finish_on_receive a.1 ∧
  sr_response b.1 = sr_response a.1 ∧ slot_answered b = slot_answered a ∧
  slot_completed b = slot_completed a.

Lemma slot_same_refl a : slot_same a a.
Proof. done. Qed.

Lemma settled_same busy k sls sls' tp :
  Forall2 slot_same sls sls' → settled fuel room busy k sls tp → settled fuel room busy k sls' tp.
Proof.
  intros Hs (Hb & Hf & Ht).
  assert (map slot_done sls' = map slot_done sls) as E1.
  { clear -Hs. induction Hs as [|a b l l' (Hd & _) _ IH]; [done|]. cbn [map]. rewrite IH. f_equal. exact Hd. }
  assert (front_written sls' = front_written sls) as E2 by (destruct Hs as [|a b l l' Hab _]; [done|apply Hab]).
  assert (front_open sls' = front_open sls) as E3.
  { destruct Hs as [|a b l l' (_ & _ & Hr & _ & Hc) _]; [done|]. unfold front_open. by rewrite Hr, Hc. }
  split; [by rewrite E1, E2|split; [|by rewrite E2, E3]].
  destruct Hs as [|a b l l' Hab Hs]; [done|]. destruct Hf as [Hf0 Hf]. split.
  - destruct Hab as (_ & Hfin & _ & _ & Hc). unfold slot_fin in *. congruence.
  - clear -Hs Hf. induction Hs as [|x y l l' Hxy _ IH]; [done|]. apply Forall_cons in Hf as [? ?].
    constructor; [|auto]. destruct Hxy as (_ & Hfin & _). unfold slot_fin in *. congruence.
Qed.

Lemma slots_same w w' c ids sls :
  (∀ r sl, slot_at w c r sl → ∃ sl', slot_at w' c r sl' ∧ slot_same sl sl') →
  Forall2 (slot_at w c) ids sls →
  ∃ sls', Forall2 (slot_at w' c) ids sls' ∧ Forall2 slot_same sls sls'.
Proof.
  intros Hm Hs. induction Hs as [|r sl ids sls Hr _ (sls' & Hs' & Hsame)]; [by exists []|].
  destruct (Hm r sl Hr) as (sl' & ? & ?). exists (sl' :: sls'). split; by constructor.
Qed.

Lemma Inv_same w w' :
  Inv fuel room ex w → glob_ok w' →
  w_held w' = w_held w → w_conns w' = w_conns w → w_server w' = w_server w → w_log w' = w_log w →
  (∀ r q', w_reqs w' !! r = Some q' → ∃ q, w_reqs w !! r = Some q ∧ sr_connection q' = sr_connection q) →
  (∀ c r sl, slot_at w c r sl → ∃ sl', slot_at w' c r sl' ∧ slot_same sl sl') →
  Inv fuel room ex w'.
Proof.
  intros [_ Hh Hl Hc] Hg Hhe Hcs Hsv Hlog Hr Hm. split; [done|congruence| |].
  - rewrite Hcs. intros r q' c (q & Hq & ->)%Hr Hqc. eauto.
  - rewrite Hcs. intros c k Hk. destruct (Hc c k Hk) as (sls & Hs & Hn & Hset & Hreg).
    destruct (slots_same w w' c _ _ (Hm c) Hs) as (sls' & Hs' & Hsame).
    exists sls'. rewrite Hlog. split_and!; [done|done|by eapply settled_same|].
    unfold registered. by rewrite Hsv.
Qed.

(** A response's message may change. *)
Lemma Inv_mod_res w s (f : ServerResponse → ServerResponse) :
  (∀ x, rs_request (f x) = rs_request x ∧ rs_completed (f x) = rs_completed x) →
  Inv fuel room ex w →
  Inv fuel room ex (w <| w_ress ::= alter f s |>) ∧ kept w (w <| w_ress ::= alter f s |>).
Proof.
  intros Hf Hi. split; [|by apply kept_same]. pose proof (i_glob _ _ _ _ Hi) as [].
  eapply Inv_same; [done| |done|done|done|done|wsimpl; eauto|].
  - split; wsimpl; try done.
    + intros r q s' Hq Hs. destruct (g_resp r q s' Hq Hs) as (res & Hres & Hr).
      rewrite lookup_alter. case_decide; [subst s'|by eauto]. rewrite Hres. eexists.
      split; [done|]. by rewrite (proj1 (Hf res)).
    + intros s' res r. rewrite lookup_alter. case_decide; [subst s'|by eauto].
      destruct (w_ress w !! s) as [x|] eqn:Hx; [|done]. intros [= <-]. rewrite (proj1 (Hf x)). eauto.
    + intros r. apply (ended_frame w); [done|done| |done]. intros q _ _. unfold completed_of.
      destruct (sr_response q) as [s'|]; [|done]. wsimpl. rewrite lookup_alter. case_decide; [subst s'|done].
      destruct (w_ress w !! s) as [x|]; [|done]. apply (Hf x).
  - intros c r [q o] (Hq & Hc & Hs). cbn in Hq, Hc, Hs.
    destruct (sr_response q) as [s'|] eqn:Hqs, o as [x|]; try done.
    + destruct Hs as [Hx Hr]. destruct (decide (s' = s)) as [->|Hne].
      * exists (q, Some (f x)). split; [|repeat split; apply (proj2 (Hf x))].
        unfold slot_at. wsimpl. rewrite Hqs, lookup_alter_eq, Hx. by rewrite (proj1 (Hf x)).
      * exists (q, Some x). split; [|done]. unfold slot_at. wsimpl.
        by rewrite Hqs, lookup_alter_ne.
    + exists (q, None). split; [|done]. unfold slot_at. wsimpl. by rewrite Hqs.
Qed.

(** The flags [_routed], [_partial] and [_server] of a request may change. *)
Lemma Inv_mod_req w r (f : ServerRequest → ServerRequest) :
  (∀ q, sr_connection (f q) = sr_connection q ∧ sr_response (f q) = sr_response q ∧
    sr_is_done (f q) = sr_is_done q ∧ sr_finish_on_receive (f q) = sr_finish_on_receive q ∧
    sr_msg (f q) = sr_msg q) →
  Inv fuel room ex w →
  Inv fuel room ex (w <| w_reqs ::= alter f r |>) ∧ kept w (w <| w_reqs ::= alter f r |>).
Proof.
  intros Hf Hi.
  assert (∀ r' q', alter f r (w_reqs w) !! r' = Some q' → ∃ q, w_reqs w !! r' = Some q ∧
    (q' = q ∨ q' = f q)) as Hinv.
  { intros r' q'. rewrite lookup_alter. case_decide; [subst r'|by eauto].
    destruct (w_reqs w !! r); [|done]. intros [= <-]. eauto. }
  split.
  - pose proof (i_glob _ _ _ _ Hi) as []. eapply Inv_same; [done| |done|done|done|done| |].
    + split; wsimpl; try done.
      * intros r' q' s (q & Hq & [->| ->])%Hinv; [eauto|]. destruct (Hf q) as (_ & -> & _). eauto.
      * intros s res r' Hs Hr. destruct (g_back s res r' Hs Hr) as (q & Hq & Hqs).
        rewrite lookup_alter. case_decide; [subst r'|by eauto]. rewrite Hq. eexists.
        split; [done|]. by destruct (Hf q) as (_ & -> & _).
      * intros c r' Hin. rewrite lookup_alter_is_Some. eauto.
      * intros r'. destruct (decide (r' = r)) as [->|Hne];
          [|apply (ended_frame w); [done|by wsimpl; rewrite lookup_alter_ne|done..]].
        specialize (g_ended r). unfold ended in *. wsimpl. rewrite lookup_alter_eq.
        destruct (w_reqs w !! r) as [q|]; [|done]. cbn. destruct (Hf q) as (-> & E2 & E3 & _ & E5).
        destruct (sr_connection q); [done|]. unfold completed_of in *. rewrite E2.
        by apply (farewell_same r q).
    + wsimpl. intros r' q' (q & Hq & [->| ->])%Hinv; [by eauto|]. exists q. by destruct (Hf q).
    + intros c r' [q o] (Hq & Hc & Hs). cbn in Hq, Hc, Hs. destruct (decide (r' = r)) as [->|Hne].
      * exists (f q, o). destruct (Hf q) as (E1 & E2 & E3 & E4 & _). split; [|done].
        unfold slot_at. wsimpl. by rewrite lookup_alter_eq, Hq, E1, E2.
      * exists (q, o). split; [|done]. by apply slot_at_mod_req.
  - split; wsimpl; [|eauto using conn_kept_refl|done]. intros r' q Hq. rewrite lookup_alter.
    case_decide; [subst r'|by eauto using req_kept_refl]. rewrite Hq. eexists. split; [done|].
    destruct (Hf q) as (E1 & E2 & E3 & E4 & E5). unfold req_kept. rewrite E1, E3, E4, E5. done.
Qed.
End Same.

(** ** The user's code in the middle of [on_read] *)

(** The events at which the user may answer: when a request is routed, received,
    or received in part. *)
Definition active_event (ev : Event) : bool :=
  match ev with
  | EvRoute _ | EvRequest _ | EvReceive _ | EvPartial _ None => true
  | _ => false
  end.

(** The error events of a request. *)
Definition error_event (ev : Event) (r : ReqId) : Prop :=
  ∃ err, ev = EvError r (Some err) ∨ ev = EvPartial r (Some err).

Class ActiveCallbacks `{HttpProto} `{Risk} `{!Callbacks} (T : fault → Prop) (fuel : nat) : Prop := {
  fire_active room ex ev w : active_event ev = true → Inv fuel room ex w →
    wpf T (fire ev) (λ _ w', Inv fuel room ex w' ∧ kept w w') (λ _ _, True) w;
  fire_error room ex ev r w q c : error_event ev r → Inv fuel room ex w →
    w_reqs w !! r = Some q → sr_connection q = Some c →
    wpf T (fire ev) (λ _ w', Inv fuel room ex w' ∧ kept w w' ∧
      ∃ q', w_reqs w' !! r = Some q' ∧ (sr_response q' = None → sr_connection q' = Some c))
      (λ _ _, True) w
}.

Section Read.
Context `{HttpProto} `{!HttpProtoLaws} `{Env} `{!EnvLaws} `{!Callbacks} `{!PassiveCallbacks}.
Context `{Rk : Risk} {T : fault → Prop}.
Local Abbreviation wp := (wpf T).
Context (fuel : nat) `{!ActiveCallbacks T fuel} (c : ConnId).
Implicit Types (w : World) (k : ServerConnection) (q : ServerRequest) (res : ServerResponse)
  (tp : list tape_item).
Local Abbreviation owns room := (owns fuel room (Some c) Free).
Local Abbreviation inv room := (Inv fuel room (Some c)).
Local Abbreviation anything := (λ _ _, True : Prop).

Lemma wp_emit_active room w0 w ev :
  active_event ev = true → inv room w → kept w0 w →
  wp (emit ev) (λ _ w', inv room w' ∧ kept w0 w') anything w.
Proof.
  intros Hev Hi Hk. apply wp_bind, wp_modify.
  destruct (Inv_log fuel room (Some c) w (OEvent ev) (λ _, eq_refl)) as [Hi1 Hk1]; [|done|].
  { intros r. apply epilogue_none. by destruct ev as [| | | | | | |? []| |]. }
  eapply wp_mono; [by apply fire_active| |done]. intros [] w2 [Hi2 Hk2].
  split; [done|]. eauto using kept_trans.
Qed.

(** *** Routing and delivery *)

Lemma wp_route room w r q :
  inv room w → w_reqs w !! r = Some q →
  wp (route c r) (λ _ w', inv room w' ∧ kept w w') anything w.
Proof.
  intros Hi Hq. apply wp_bind. eapply wp_get_req_at; [done|].
  apply wp_when; intros _; [|by split; [|apply kept_refl]]. apply wp_bind, wp_modify.
  destruct (Inv_mod_req fuel room (Some c) w r (λ q, q <| sr_routed := true |> <| sr_server := true |>))
    as [Hi1 Hk1]; [done|done|]. by apply wp_emit_active.
Qed.

Lemma wp_deliver room w0 w r q st :
  inv room w → kept w0 w → w_reqs w !! r = Some q →
  wp (deliver r st) (λ _ w', inv room w' ∧ kept w0 w') anything w.
Proof.
  intros Hi Hk Hq. apply wp_bind. eapply wp_get_req_at; [done|].
  destruct (sr_partial q); [by apply wp_emit_active|]. apply wp_when; intros _; [|done].
  apply wp_bind. eapply wp_mono; [by apply wp_emit_active| |done]. intros [] w1 [Hi1 Hk1].
  by apply wp_emit_active.
Qed.

(** *** Errors *)

(** The connection is not read any more. *)
Definition deaf w : Prop := ∃ k, w_conns w !! c = Some k ∧ deliverable k = false.

Lemma kept_deaf w w' k :
  kept w w' → w_conns w !! c = Some k → sc_ignored k = true → deaf w'.
Proof.
  intros Hk Hc Hi. destruct (k_conns _ _ Hk c k Hc) as (k2 & Hk2 & (_ & _ & _ & _ & _ & Hig & _)).
  exists k2. split; [done|]. unfold deliverable. rewrite Hig by done. by rewrite andb_false_r.
Qed.

(** Answering with the default error page. *)
Lemma wp_default_response room w0 w r q :
  inv room w → kept w0 w → w_reqs w !! r = Some q → sr_connection q = Some c →
  wp (s ← default_error_response 400; respond fuel c r s)
    (λ _ w', inv room w' ∧ kept w0 w') anything w.
Proof.
  intros Hi Hk Hq Hc. assert (tracked (Since w0) w) as Ht by done.
  destruct (Inv_live _ _ _ _ _ _ _ _ Hi Ht Hq Hc) as (k & l1 & l2 & xs & o & ys & tp & Ho & Hl & Hr & Hs).
  apply wp_bind, wp_bind. eapply wp_date_header_now; [done|]. intros d w1 Ho1.
  assert (w_reqs w1 !! r = Some q) as Hq1 by by destruct (own_slot _ _ _ _ _ _ _ _ _ _ _ _ _ _ _ Ho1 Hl).
  assert (finished fuel room (Some c) (Since w0) w1) as Hfin1.
  { eapply owns_settled; [rewrite Hr; exact Ho1|done]. }
  eapply wp_alloc_res; [done|done|]. intros s w2 [Hi2 Ht2] Hr2 Hs2.
  eapply (wp_mono _ (λ _, finished fuel room (Some c) (Since w0)) _ anything); [|done|done].
  eapply wp_respond; [done|done|by rewrite Hr2|done|done|done|done].
Qed.

Lemma wp_request_error room w k l1 r l2 xs q o ys tp err :
  owns room w c k (l1 ++ r :: l2) (xs ++ (q, o) :: ys) tp → length l1 = length xs →
  sc_requests k = l1 ++ r :: l2 →
  settled fuel room true (k <| sc_ignored := true |>) (xs ++ (q, o) :: ys) tp →
  wp (request_error fuel c r err) (λ _ w', inv room w' ∧ deaf w') anything w.
Proof.
  intros Ho Hl Hk Hs. apply wp_bind. eapply wp_read_ignore; [done|done|]. intros w1 Ho1.
  destruct (own_slot _ _ _ _ _ _ _ _ _ _ _ _ _ _ _ Ho1 Hl) as (Hq & Hc & _).
  assert (inv room w1) as Hi1.
  { destruct Ho1 as [Ho1 _]. eapply (own_Inv _ _ _ _ c (k <| sc_ignored := true |>));
      [ksimpl; rewrite Hk; exact Ho1|]. by rewrite is_busy_self. }
  apply wp_bind. eapply wp_get_req_at; [done|]. apply wp_bind. cbn [fst] in *.
  assert (∀ ev, error_event ev r → wp (emit ev) (λ _ w',
    inv room w' ∧ kept w1 w' ∧ ∃ q', w_reqs w' !! r = Some q' ∧
      (sr_response q' = None → sr_connection q' = Some c)) anything w1) as Hemit.
  { intros ev Hev. apply wp_bind, wp_modify.
    destruct (Inv_log fuel room (Some c) w1 (OEvent ev) (λ _, eq_refl)) as [Hi2 Hk2]; [|done|].
    { intros r'. pose proof (ended_live w1 r q c (g_ended _ (i_glob _ _ _ _ Hi1) r) Hq Hc) as Hlive.
      destruct Hev as [e [-> | ->]]; cbn; (destruct (Nat.eqb_spec r r') as [<-|]; [by rewrite Hlive|done]). }
    eapply wp_mono; [by eapply fire_error| |done]. intros [] w3 (Hi3 & Hk3 & Hq3).
    split_and!; [done|by eapply kept_trans|done]. }
  assert (w_conns w1 !! c = Some (k <| sc_ignored := true |>)) as Hk1 by apply Ho1.
  eapply (wp_mono _ (λ _ w', inv room w' ∧ kept w1 w' ∧ ∃ q', w_reqs w' !! r = Some q' ∧
      (sr_response q' = None → sr_connection q' = Some c)) _ anything).
  { destruct (sr_partial q); apply Hemit; eexists; eauto. }
  2: done. intros [] w2 (Hi2 & Hk2 & q2 & Hq2 & Hc2). apply wp_bind.
  eapply wp_get_req_at; [done|]. destruct (sr_response q2) as [s|] eqn:Hs2.
  - destruct (g_resp _ (i_glob _ _ _ _ Hi2) r q2 s Hq2 Hs2) as (res & Hres & _).
    apply wp_bind. eapply wp_get_res_at; [done|].
    apply wp_when; intros _; [|split; [done|by eapply kept_deaf]]. apply wp_modify.
    destruct (Inv_mod_res fuel room (Some c) w2 s (λ x, x <| rs_msg ::= λ m,
           m <| rm_headers ::= λ h, headers_set h "Connection" "close" |> |>)) as [Hi3 Hk3]; [done|done|].
    split; [done|]. eapply (kept_deaf w1); [by eapply kept_trans|done|done].
  - eapply wp_mono; [eapply wp_default_response; eauto| |done]. intros [] w3 [Hi3 Hk3].
    split; [done|by eapply kept_deaf].
Qed.

(** *** The end of a request's receipt *)

(** The connection takes no new request, or is in the middle of one. *)
Definition resting w : Prop := ∀ k, w_conns w !! c = Some k → sc_closing k = true →
  deliverable k = true → parser_idle (sc_parser k) = false.

Lemma deaf_resting w : deaf w → resting w.
Proof. intros (k' & Hk' & Hd) k Hk _ Hdel. simplify_eq. congruence. Qed.

(** The request that is finished is the only one of the deque. *)
Lemma wp_finish_single room w k r q res tp :
  answered fuel room (Some c) Free w c k r [] q res [] tp → sr_is_done q = true →
  parser_idle (sc_parser k) = true →
  (sc_closing k = false → deliverable k = true) → sc_listener k = true →
  wp (finish_request fuel c) (λ _ w', inv room w' ∧
    ∃ k', w_conns w' !! c = Some k' ∧ readable k') anything w.
Proof.
  intros [] Hd Hidle Hdel Hlis.
  pose proof (cp_len _ _ _ _ _ _ an_base) as Hlen. rewrite Hd in an_base.
  pose proof (cp_has_timer _ _ _ _ _ _ an_base (or_introl Hlis)) as Htim.
  pose proof (tape_leave _ _ _ _ _ _ an_tape) as Ht.
  assert (∃ next, finish_request fuel c = finish_request_with fuel next c) as [next ->].
  { unfold finish_request. clear -Hlen. destruct fuel eqn:E at 2; [simpl in Hlen; lia|]. by eexists. }
  clear Hlen. destruct (front_response _ _ _ _ _ _ _ _ _ _ _ _ _ an_owns) as [s Hs].
  apply wp_bind. eapply wp_front; [done..|]. apply wp_bind. eapply wp_front_req; [done|].
  apply wp_bind. unfold response_completed. rewrite Hs. apply wp_bind.
  eapply wp_front_res; [done..|]. rewrite an_completed. apply wp_ret, wp_bind, wp_assert; [done|].
  rewrite Hd. cbn [negb]. apply wp_bind.
  eapply (wp_cleanup_request _ _ _ _ _ _ _ [] r [] []); [done..|by constructor|]. cbn [app].
  intros w1 Ho1. set (k1 := k <| sc_requests := [] |>) in *.
  apply wp_bind. eapply wp_get_conn; [done|].
  destruct (sc_closing k1 || sc_stopping k1) eqn:Hcs.
  - assert (sc_closing k = true) as Hcl.
    { apply orb_true_iff in Hcs as [?|?]; [done|]. by apply (cp_stopping_ans _ _ _ _ _ _ an_base). }
    apply wp_bind, wp_assert; [done|].
    eapply wp_shutdown; [done|done|simpl; lia|done|done|]. intros w2 [Ho2 _].
    set (k2 := k1 <| sc_disconnected := true |> <| sc_requests := [] |>) in *. split.
    + eapply (own_Inv _ _ _ _ c k2 [] tp); [done|]. rewrite is_busy_self.
      split_and!; [|done|done]. apply base_shut; [done| |].
      * unfold deliverable, k2, k1; ksimpl. by rewrite andb_false_r.
      * apply cp_len in an_base. simpl in an_base. lia.
    + exists k2. split; [apply Ho2|]. by right.
  - apply orb_false_iff in Hcs as [Hcl Hst].
    assert (conn_base fuel room true k1 [] false) as Hb1.
    { rewrite is_busy_self in an_base. eapply base_tail; [done|by rewrite an_requests|by rewrite an_requests|done|done]. }
    eapply wp_check_if_idle_step; [done..|]. intros b w2 [Ho2 _]. split.
    + eapply (own_Inv _ _ _ _ c (if b then k1 <| sc_idle_timer := Some true |> else k1) []).
      * by destruct b.
      * rewrite is_busy_self. by apply settled_idle.
    + eexists. split; [apply Ho2|]. left. specialize (Hdel Hcl). 
      destruct b; (split; [exact Hdel|]); intros Hc; change (sc_closing k1 = true) in Hc; congruence.
Qed.

Lemma readable_resting room w k :
  inv room w → w_conns w !! c = Some k → readable k → resting w.
Proof.
  intros Hi Hk Hr k' Hk' Hcl Hdel. simplify_eq. destruct Hr as [[_ ?]|(_ & Hn & _ & _)]; [auto|].
  destruct (i_conn _ _ _ _ Hi c k Hk) as (sls & Hs & _ & (Hb & _) & _). rewrite Hn in Hs.
  apply Forall2_nil_inv_l in Hs as ->. destruct (cp_closing _ _ _ _ _ _ Hb Hcl) as [_ Hd].
  by rewrite Hd in Hdel.
Qed.

(** Ignoring the input of a connection. *)
Lemma wp_ignore room w k :
  inv room w → w_conns w !! c = Some k →
  wp (read_ignore c) (λ _ w', inv room w' ∧ deaf w') anything w.
Proof.
  intros Hi Hk. destruct (Inv_own _ _ _ _ _ _ Hi Hk) as (sls & Ho & (Hb & Hf & Ht)).
  eapply (wp_read_ignore fuel room (Some c) Free); [by split|done|]. intros w1 [Ho1 _]. split.
  - eapply (own_Inv _ _ _ _ c (k <| sc_ignored := true |>)); [exact Ho1|].
    split_and!; [by apply base_ignored|done|done].
  - exists (k <| sc_ignored := true |>). split; [apply Ho1|]. unfold deliverable. ksimpl. by rewrite andb_false_r.
Qed.

(** The last request of the deque is in front of nothing. *)
Lemma last_alone room w0 w1 k k1 l1 r xs q o tp st l2 sls :
  received fuel c room w0 k l1 r xs q o tp st → kept w0 w1 →
  w_conns w1 !! c = Some k1 → sc_requests k1 = r :: l2 →
  Forall2 (slot_at w1 c) (r :: l2) sls → settled fuel room true k1 sls (tape c (w_log w1)) → l2 = [].
Proof.
  intros [] Hk Hc1 Hr1 Hsl (Hb & _ & Ht). destruct rc_owns as [Ho0 _].
  destruct (k_conns _ _ Hk c k (o_conn _ _ _ _ _ _ _ _ _ Ho0)) as (k2 & Hk2 & (_ & _ & _ & _ & Hcl & _)).
  assert (k2 = k1) as -> by congruence. destruct (sc_closing k1) eqn:Hcl2.
  - destruct (cp_closing _ _ _ _ _ _ Hb Hcl2) as [Hlen _]. rewrite length_map in Hlen.
    rewrite <-(Forall2_length _ _ _ Hsl) in Hlen. destruct l2; [done|simpl in Hlen; lia].
  - assert (sc_closing k = false) as Hcl1 
      by (apply not_true_is_false; intros Hc; specialize (Hcl Hc); congruence).
    destruct rc_settled as (_ & _ & [_ (g0 & r0 & Ha0 & _ & Hr0) _ _]).
    destruct Ht as [Hn (g1 & r1' & Ha1 & _ & Hr1') _ _]. rewrite Hr0 in Ha0 by done.
    rewrite Hr1' in Ha1 by done. rewrite rc_requests in Ha0. rewrite Hr1 in Ha1.
    pose proof (o_tape _ _ _ _ _ _ _ _ _ Ho0) as Htp. rewrite <-Htp, <-(k_arrived _ _ Hk c), Ha1 in Ha0.
    rewrite Ha1 in Hn. rewrite !app_nil_r in *.
    destruct l2 as [|x l2 _] using rev_ind; [done|]. exfalso.
    rewrite app_comm_cons, !app_assoc in Ha0. apply app_inj_tail in Ha0 as [_ ->].
    apply NoDup_app in Hn as (_ & _ & Hn). apply NoDup_cons in Hn as [Hn _]. destruct Hn.
    apply elem_of_app. right. by left.
Qed.

Lemma wp_after_done room w0 w1 k l1 r xs q o tp :
  received fuel c room w0 k l1 r xs q o tp PsDone → inv room w1 → kept w0 w1 →
  wp (after_done fuel c r) (λ leave w', inv room w' ∧ resting w' ∧
    if (leave : bool) then deaf w' else ∃ k', w_conns w' !! c = Some k' ∧ readable k') anything w1.
Proof.
  intros Hrc Hi Hk. pose proof Hrc as [].
  destruct (own_slot _ _ _ _ _ _ _ _ _ _ _ _ _ _ _ rc_owns rc_length) as (Hq & Hc & _).
  cbn [fst] in Hq, Hc. destruct (k_reqs _ _ Hk r q Hq) as (q' & Hq' & (Hd' & Hm' & Hf' & Hfc' & _)).
  destruct (k_conns _ _ Hk c k (o_conn _ _ _ _ _ _ _ _ _ (proj1 rc_owns)))
    as (k1 & Hk1 & (Hp1 & _ & _ & Hdel1 & Hcl1 & _ & Hlis1)).
  apply wp_bind. eapply wp_get_req_at; [done|].
  assert (sc_closing k1 = false → deliverable k1 = true) as Hdel.
  { intros Hcl. destruct rc_readable as [Hd|[_ Hc1]]; [|specialize (Hcl1 Hc1); congruence].
    destruct (Hdel1 Hd); congruence. }
  destruct (sr_finish_on_receive q') eqn:Hfin.
  - assert (sr_connection q' = Some c) as Hc'.
    { destruct (Hfc' (eq_sym (Hf' rc_done))) as [_ ->]. done. }
    destruct (Inv_live _ _ _ _ _ _ _ _ Hi (I : tracked Free w1) Hq' Hc')
      as (k2 & l1' & l2 & xs' & o' & ys & tp' & Ho & Hl & Hr & Hs).
    pose proof (o_conn _ _ _ _ _ _ _ _ _ (proj1 Ho)) as Hk2.
    assert (k2 = k1) as -> by congruence.
    destruct xs' as [|x xs'].
    2: { destruct Hs as (_ & [_ Hf] & _). apply Forall_app in Hf as [_ Hf].
         apply Forall_cons in Hf as [Hf _]. unfold slot_fin in Hf. simpl in Hf. congruence. }
    destruct l1'; [|done]. cbn [app] in *. rewrite is_busy_self in Hs.
    pose proof (o_tape _ _ _ _ _ _ _ _ _ (proj1 Ho)) as Htp. rewrite <-Htp in Hs.
    assert (l2 = []) as ->.
    { by eapply (last_alone room w0 w1); [| | | |apply (o_slots _ _ _ _ _ _ _ _ _ (proj1 Ho))|]. }
    pose proof (owns_length _ _ _ _ _ _ _ _ _ _ Ho) as Hlen. destruct ys; [|done].
    destruct Hs as (Hb & [Hf0 _] & Ht). unfold slot_fin in Hf0. simpl in Hf0. rewrite Hfin in Hf0.
    destruct o' as [res|]; [|done]. unfold slot_completed in Hf0. simpl in Hf0.
    apply wp_bind. eapply wp_mono; [eapply (wp_finish_single room w1 k1 r q' res tp')| |done].
    + split; [done|done| |done|done|done|].
      * rewrite is_busy_self. exact Hb.
      * rewrite Hr, Htp in Ht. eapply tape_closed; [exact Ht|by left].
    + by rewrite Hd'.
    + by rewrite Hp1.
    + done.
    + rewrite Hlis1. destruct rc_readable as [Hd|[? _]]; [|done]. unfold deliverable in Hd. by destruct (sc_listener k).
    + intros [] w2 (Hi2 & k3 & Hk3 & Hr3). apply wp_ret.
      split_and!; [done|by eapply readable_resting|eauto].
  - apply wp_bind, wp_bind, wp_gets. eapply wp_deref; [done|].
    destruct (sc_closing k1 || _) eqn:Hcl.
    + apply wp_bind. eapply wp_mono; [by eapply wp_ignore| |done]. intros [] w2 [Hi2 Hd2].
      split_and!; [done|by apply deaf_resting|done].
    + apply orb_false_iff in Hcl as [Hcl _].
      assert (readable k1) as Hread by (left; split; [auto|congruence]).
      apply wp_ret. split_and!; [done|by eapply readable_resting|eauto].
Qed.

(** *** The loop *)

(** A received request, as a state of the invariant. *)
Lemma received_inv room w k l1 r xs q o tp st :
  received fuel c room w k l1 r xs q o tp st → inv room w.
Proof.
  intros []. destruct rc_owns as [Ho _].
  eapply (own_Inv _ _ _ _ c k); [rewrite rc_requests; exact Ho|]. by rewrite is_busy_self.
Qed.

Lemma received_error room w k l1 r xs q o tp st err :
  received fuel c room w k l1 r xs q o tp st →
  wp (request_error fuel c r err) (λ _ w', inv room w' ∧ deaf w') anything w.
Proof.
  intros []. eapply (wp_request_error room w k l1 r []); [done..|].
  destruct rc_settled as (Hb & Hf & Ht). split_and!; [by apply base_ignored|done|done].
Qed.

(** The connection takes no more input, or is in the middle of a message. *)
Definition halted w : Prop :=
  deaf w ∨ ∃ k, w_conns w !! c = Some k ∧ parser_idle (sc_parser k) = false.

(** What the parser of [k] makes of a buffer. *)
Definition parsed_state k (buf : string) : proto_state :=
  (parse_shift (sc_limits k) (sc_parser k) buf).2.1.1.2.

(** What an iteration leaves: the loop ends, or goes on with less input, and it only
    goes on at the end of a message. *)
Definition iterated room k (buf : string) (next : option string) w : Prop :=
  inv room w ∧ resting w ∧
  match next with
  | None => halted w
  | Some rest => (String.length rest < String.length buf)%nat ∧
      (rest ≠ EmptyString → ∃ k, w_conns w !! c = Some k ∧ readable k) ∧
      (parsed_state k buf ≠ PsDone → rest = EmptyString ∧ halted w)
  end.

Lemma wp_on_read_iter room w k buf :
  inv (S room) w → w_conns w !! c = Some k → readable k → buf ≠ EmptyString →
  wp (on_read_iter fuel c buf) (iterated room k buf) anything w.
Proof.
  intros Hi Hk Hread Hbuf. destruct (Inv_own _ _ _ _ _ _ Hi Hk) as (sls & Ho & Hs).
  rewrite is_busy_self in Hs. eapply wp_receive; [by split|done..|].
  assert (∀ st, (∃ p new msg err rest, parse_shift (sc_limits k) (sc_parser k) buf = (p, (new, msg, st, err, rest))) →
    parsed_state k buf = st) as Hstate by (intros st (p & new & msg & err & rest & E); unfold parsed_state; by rewrite E).
  unfold iterated. revert Hstate. generalize (parsed_state k buf) as st0.
  intros st0 Hstate. clear Hi Hk Ho Hs Hread.
  intros w1 r k1 l1 xs q o tp st err rest Hrc Herr Hrest (p & new & msg & Hparse).
  rewrite (Hstate st) by eauto 6. clear Hstate Hparse k w sls. rename k1 into k, w1 into w.
  pose proof (received_inv _ _ _ _ _ _ _ _ _ _ Hrc) as Hi. pose proof Hrc as [].
  destruct (own_slot _ _ _ _ _ _ _ _ _ _ _ _ _ _ _ rc_owns rc_length) as (Hq & _). cbn [fst] in Hq.
  assert (w_conns w !! c = Some k) as Hk by apply rc_owns.
  destruct err as [e|].
  { apply wp_bind. eapply wp_mono; [by eapply received_error| |done]. intros [] w1 [Hi1 Hd1].
    apply wp_ret. split_and!; [done|by apply deaf_resting|by left]. }
  destruct (Hrest eq_refl) as [Hshort Hempty].
  assert (st ≠ PsDone → parser_idle (sc_parser k) = false) as Hbusy.
  { intros Hst. rewrite rc_idle. destruct st; try done. by destruct (proj1 Herr). }
  destruct (state_le_headers st) eqn:Hle.
  { assert (st ≠ PsDone) as Hnd by by intros ->. apply wp_ret. split_and!; [done| |right; eauto].
    intros k' Hk' _ _. simplify_eq. auto. }
  apply wp_bind, wp_bind, wp_gets. eapply wp_deref; [done|]. apply wp_bind.
  eapply wp_get_req_at; [done|]. destruct (_ && _).
  { apply wp_bind. eapply wp_mono; [by eapply received_error| |done]. intros [] w1 [Hi1 Hd1].
    destruct Hd1 as (k1 & Hk1 & _). apply wp_bind.
    eapply wp_mono; [by eapply wp_ignore| |done]. intros [] w2 [Hi2 Hd2]. apply wp_ret.
    split_and!; [done|by apply deaf_resting|by left]. }
  apply wp_bind. eapply wp_mono; [by eapply wp_route| |done]. intros [] w1 [Hi1 Hk1].
  destruct (k_reqs _ _ Hk1 r q Hq) as (q1 & Hq1 & _). apply wp_bind.
  eapply wp_mono; [by eapply wp_deliver| |done]. intros [] w2 [Hi2 Hk2].
  destruct (state_is_done st) eqn:Hst.
  - destruct st; try done. apply wp_bind. eapply wp_mono; [by eapply wp_after_done| |done].
    intros leave w3 (Hi3 & Hrest3 & Hread3). apply wp_ret. destruct leave.
    + split_and!; [done..|by left].
    + split_and!; [done|done|done|auto|by intros []].
  - apply wp_ret. assert (st ≠ PsDone) as Hnd by by intros ->. specialize (Hempty Hnd). subst rest.
    destruct (k_conns _ _ Hk2 c k Hk) as (k2 & Hk2' & (Hp & _)). rewrite <-Hp in Hbusy.
    split_and!; [done| |done|done|intros _; split; [done|right; eauto]].
    intros k2' ? _ _. simplify_eq. auto.
Qed.

(** The whole loop: one request less of room for every character at most, and the
    bound on the number of iterations suffices. *)
Lemma wp_on_read_loop n : ∀ room w buf,
  (String.length buf ≤ n)%nat → inv (String.length buf + room) w → resting w →
  (buf ≠ EmptyString → ∃ k, w_conns w !! c = Some k ∧ readable k) →
  wp (on_read_loop fuel n c buf) (λ _ w', inv room w' ∧ resting w') anything w.
Proof.
  induction n as [|n IH]; intros room w buf Hn Hi Hrest Hread.
  - destruct buf; [|simpl in Hn; lia]. by apply wp_ret.
  - destruct (decide (buf = EmptyString)) as [->|Hne]; [by apply wp_ret|].
    destruct (Hread Hne) as (k & Hk & Hr).
    assert (∃ m, String.length buf = S m) as [m Hm] by (destruct buf; [done|by eexists]).
    replace (on_read_loop fuel (S n) c buf) with
      (next ← on_read_iter fuel c buf;
       match next with None => mret tt | Some rest => on_read_loop fuel n c rest end)
      by by destruct buf.
    rewrite Hm in Hn, Hi. change (S m + room)%nat with (S (m + room)) in Hi.
    apply wp_bind. eapply wp_mono; [by eapply wp_on_read_iter| |done].
    intros [rest|] w1 (Hi1 & Hrest1 & Hmore).
    + destruct Hmore as (Hlt & Hread1 & _). apply IH; [lia| |done|done]. eapply Inv_room; [|done]. lia.
    + apply wp_ret. split; [|done]. eapply Inv_room; [|done]. lia.
Qed.

(** *** Read errors *)

(** What the invariant says of the parser does not matter once the input is ignored. *)
Lemma settled_unparsed room k p r l sls tp :
  settled fuel room true (parsed k p r l) sls tp →
  settled fuel room true (k <| sc_idle_timer ::= timer_stopped |> <| sc_requests := l |>
                            <| sc_ignored := true |>) sls tp.
Proof.
  intros (Hb & Hf & Ht). split_and!; [|done|done]. unfold parsed in Hb. destruct Hb.
  split; unfold deliverable in *; ksimpl; rewrite ?andb_false_r; try done.
  intros Hc. by destruct (cp_closing Hc).
Qed.

(** The end of the error branch: the last request is over. *)
Lemma wp_error_tail room w k l1 r xs q o tp err :
  owns room w c k (l1 ++ [r]) (xs ++ [(q, o)]) tp → length l1 = length xs →
  sc_requests k = l1 ++ [r] →
  settled fuel room true (k <| sc_ignored := true |>) (xs ++ [(q <| sr_is_done := true |>, o)]) tp →
  wp (r ← back c;
      mod_req r (λ q, q <| sr_is_done := true |>) ;;
      r ← back c;
      request_error fuel c r err) (λ _ w', inv room w' ∧ resting w') anything w.
Proof.
  intros Ho Hl Hk Hs. assert (∀ w' sls (Q : ReqId → World → Prop) E,
    owns room w' c k (l1 ++ [r]) sls tp → Q r w' → wp (back c) Q E w') as Hback.
  { intros w' sls Q E Ho' HQ. apply wp_bind. eapply wp_get_conn; [done|]. by rewrite Hk, last_snoc. }
  apply wp_bind. eapply Hback; [done|]. apply wp_bind.
  eapply (wp_mod_req _ _ _ _ _ _ _ l1 r [] xs); [done..|]. intros w1 Ho1.
  apply wp_bind. eapply Hback; [done|].
  eapply wp_mono; [by eapply (wp_request_error room w1 k l1 r [])| |done].
  intros [] w2 [? ?]. split; [done|]. by apply deaf_resting.
Qed.

Lemma wp_on_read_error room w k err :
  inv (S room) w → w_conns w !! c = Some k → deliverable k = true →
  (sc_closing k = true → parser_idle (sc_parser k) = false) →
  wp (on_read_error fuel c err) (λ _ w', inv room w' ∧ resting w') anything w.
Proof.
  intros Hi Hk Hdel Hcl. destruct (Inv_own _ _ _ _ _ _ Hi Hk) as (sls & Ho & Hs).
  rewrite is_busy_self in Hs. apply wp_bind.
  eapply (wp_stop_idle_timer fuel (S room) (Some c) Free); [by split|].
  intros w1 Ho1. set (k1 := k <| sc_idle_timer ::= timer_stopped |>) in *.
  apply wp_bind, wp_bind. eapply wp_get_conn; [done|]. change (sc_requests k1) with (sc_requests k).
  assert (readable k) as Hread by by left.
  pose proof (owns_length _ _ _ _ _ _ _ _ _ _ Ho1) as Hlen.
  destruct (parser_idle (sc_parser k)) eqn:Hidle.
  - assert (∀ (Q : bool → World → Prop) E, Q true w1 →
      wp (match last (sc_requests k) with
          | None => mret true
          | Some r => req ← get_req r; mret (sr_is_done req)
          end) Q E w1) as Hneed.
    { intros Q E HQ. destruct (last (sc_requests k)) as [r|] eqn:Hlast; [|done].
      apply last_Some in Hlast as [l1 Hl1]. rewrite Hl1 in *.
      destruct sls as [|[q o] xs _] using rev_ind; [rewrite length_app in Hlen; simpl in Hlen; lia|].
      rewrite !length_app in Hlen. simpl in Hlen. apply wp_bind.
      eapply (wp_get_req _ _ _ _ _ _ _ l1 r [] xs); [done|lia|].
      pose proof (cp_received _ _ _ _ _ _ (proj1 Hs) Hdel Hidle) as Hr. rewrite map_app in Hr.
      cbn [map] in Hr. rewrite last_snoc in Hr. unfold slot_done in Hr. cbn [fst] in Hr.
      destruct (sr_is_done q); [done|by destruct Hr]. }
    apply Hneed. apply wp_bind, wp_bind. eapply wp_new_request; [done|].
    intros r q w2 Hr Hin Hq Ho2. eapply wp_emplace_back; [done|apply elem_of_app; right; by left|].
    intros w3 Ho3. change (sc_requests k1) with (sc_requests k) in Ho3.
    eapply (wp_error_tail room); [apply (owns_room _ _ (S room)); [lia|done]|done|done|].
    eapply (settled_unparsed _ _ (sc_parser k) r), (settled_arrive _ _ room); try done.
  - destruct (cp_receiving _ _ _ _ _ _ (proj1 Hs) Hdel Hidle) as (Hlast & [r Hcur] & Heq).
    apply slots_snoc_inv in Hlast as (xs & q & o & -> & Hd). rewrite Hcur in Heq. rewrite <-Heq.
    symmetry in Heq. apply last_Some in Heq as [l1 Hl1]. rewrite Hl1 in *.
    rewrite !length_app in Hlen. simpl in Hlen. apply wp_bind, wp_bind.
    eapply (wp_get_req _ _ _ _ _ _ _ l1 r [] xs); [done|lia|]. rewrite Hd.
    apply wp_ret, wp_bind, wp_ret.
    eapply (wp_error_tail room); [apply (owns_room _ _ (S room)); [lia|done]|lia|done|].
    replace (k1 <| sc_ignored := true |>) with (k1 <| sc_requests := l1 ++ [r] |> <| sc_ignored := true |>)
      by (unfold k1; rewrite <-Hl1; by destruct k).
    eapply (settled_unparsed _ _ parser_init r).
    replace (q <| sr_is_done := true |>) with (q <| sr_msg := sr_msg q |> <| sr_is_done := true |>)
      by by destruct q.
    eapply settled_receive; [|done|done|by apply parser_init_idle].
    destruct Hs as (Hb & Hfo). split; [|done]. eapply base_room; [|done]. lia.
Qed.
End Read.
