(* ===== verification/ServerProgram.v ===== *)
(** * User programs that keep the invariant

    A program is polite when its handlers answer requests and send chunks, and do
    no more: they do not close, upgrade or reconfigure from inside a callback, and
    do nothing while a request is being removed. The callbacks of a polite program
    satisfy the interfaces [PassiveCallbacks] and [ActiveCallbacks] against which
    the server is verified. *)
From S2P Require Import Prelude Errors Date Proto ServerState ServerOps ServerConn ServerMain ServerStep ServerInv ServerOwn ServerSpecs ServerFinish ServerUser ServerRecv ServerRead.
Local Open Scope Z_scope.

Section Polite.
Context `{HttpProto} `{Env}.

(** The calls a handler may make. *)
Definition calm (a : Action) : bool :=
  match a with
  | ARespondNew _ _ | ARedirect _ _ | ASendContinue _ | ASendChunk _ _ | ASendFinalChunk _ _
  | AEnablePartial _ | AThrow _ => true
  | _ => false
  end.

(** What a handler does when a request fails: nothing, or it answers it. *)
Definition answers (r : ReqId) (l : list Action) : Prop :=
  l = [] ∨ ∃ m, l = [ARespondNew r m].

Record polite (P : Program) : Prop := {
  p_passive : ∀ ev w, passive_event ev = true → P ev w = [];
  p_active : ∀ ev w, active_event ev = true → Forall (λ a, calm a = true) (P ev w);
  p_error : ∀ r err w, answers r (P (EvError r err) w);
  p_partial : ∀ r err w, answers r (P (EvPartial r (Some err)) w)
}.
End Polite.

(** ** The calls of a handler preserve the invariant *)

Section Calm.
Context `{HttpProto} `{!HttpProtoLaws} `{Env} `{!EnvLaws} `{CB : !Callbacks} `{!PassiveCallbacks}.
Context `{Rk : Risk} {T : fault → Prop}.
Local Abbreviation wp := (wpf T).
Context (fuel room : nat) (ex : option ConnId) (rel : base).
Implicit Types (w : World).
Local Abbreviation finished := (finished fuel room ex rel).

Lemma wp_on_req w r (m : M World unit) E :
  finished w → (∀ q, w_reqs w !! r = Some q → wp m (λ _, finished) E w) →
  wp (on_req r m) (λ _, finished) E w.
Proof.
  intros Hf Hm. apply wp_bind, wp_gets. destruct (w_reqs w !! r) eqn:Hq; [by eapply Hm|done].
Qed.

Lemma wp_on_res w s (m : M World unit) E :
  finished w → (∀ x, w_ress w !! s = Some x → wp m (λ _, finished) E w) →
  wp (on_res s m) (λ _, finished) E w.
Proof.
  intros Hf Hm. apply wp_bind, wp_gets. destruct (w_ress w !! s) eqn:Hs; [by eapply Hm|done].
Qed.

Lemma wp_respond_new `{!Tolerant T} w r q m E :
  finished w → w_reqs w !! r = Some q → (∀ e w', finished w' → E e w') →
  wp (respond_new fuel r m) (λ _, finished) E w.
Proof.
  intros Hf Hq HE. apply wp_bind. eapply wp_alloc_res; [done|done|].
  intros s w1 Hf1 Hr Hs. eapply wp_req_respond; [done|done|by rewrite Hr|done|done|done].
Qed.

Lemma wp_enable_partial w r E :
  finished w → wp (enable_partial r) (λ _, finished) E w.
Proof.
  intros [Hi Ht]. apply wp_modify.
  destruct (Inv_mod_req fuel room ex w r (λ q, q <| sr_partial := true |>)) as [Hi1 Hk]; [done|done|].
  split; [done|]. by eapply tracked_step.
Qed.

Lemma wp_calm `{!Tolerant T} w a :
  finished w → calm a = true → wp (exec_action fuel a) (λ _, finished) (λ _, finished) w.
Proof.
  intros Hf Ha. destruct a; try done; cbn [exec_action].
  - eapply wp_on_req; [done|]. intros q Hq. by eapply wp_respond_new.
  - eapply wp_on_req; [done|]. intros q Hq. by eapply wp_req_redirect.
  - eapply wp_on_req; [done|]. intros q Hq. by eapply wp_req_send_continue.
  - eapply wp_on_res; [done|]. intros x Hx. by eapply wp_res_send_chunk.
  - eapply wp_on_res; [done|]. intros x Hx. by eapply wp_res_send_final_chunk.
  - eapply wp_on_req; [done|]. intros q Hq. by apply wp_enable_partial.
Qed.

Lemma wp_calm_list `{!Tolerant T} l w :
  finished w → Forall (λ a, calm a = true) l →
  wp (for_each (exec_action fuel) l) (λ _, finished) (λ _, finished) w.
Proof.
  intros Hf Hl. apply wp_for_each; [done|]. intros a w' Ha Hw. apply wp_calm; [done|].
  by eapply Forall_forall in Hl.
Qed.
End Calm.

Section Program.
Context `{HttpProto} `{!HttpProtoLaws} `{Env} `{!EnvLaws}.
Context (P : Program) (fuel : nat).
Hypothesis HP : polite P.

(** A handler of a request that has left its connection changes nothing. *)
Lemma answers_detached `{CB : !Callbacks} r q l w :
  answers r l → w_reqs w !! r = Some q → sr_connection q = None →
  ∃ w', for_each (exec_action fuel) l w = Ok tt w' ∧ quiet_step w w'.
Proof.
  intros [->|[m ->]] Hq Hc; [by exists w; split; [|apply quiet_step_refl]|].
  eexists. split; [|apply (quiet_alloc_res w {| rs_request := None; rs_completed := false; rs_msg := m |} eq_refl)].
  cbn [for_each exec_action]. unfold on_req, respond_new, req_respond, alloc_res, get_req, gets, modify,
    mbind, M_bind, mret, M_ret, deref. rewrite Hq. wsimpl. rewrite Hq. unfold mret, M_ret. by rewrite Hc.
Qed.

#[export] Instance polite_passive n : @PassiveCallbacks _ (program_callbacks P fuel (S n)).
Proof.
  split.
  - intros ev w Hev. exists w. split; [|apply quiet_step_refl]. cbn [fire program_callbacks program_fire].
    by rewrite (p_passive _ HP).
  - intros r err w q Hq Hc. split.
    + eapply (answers_detached (CB := program_callbacks P fuel n)); [apply (p_error _ HP)|done|done].
    + destruct err as [err|]; [|done]. intros _.
      eapply (answers_detached (CB := program_callbacks P fuel n)); [apply (p_partial _ HP)|done|done].
  - done.
Qed.

#[export] Instance polite_active `{Rk : Risk} `{!Tolerant T} n :
  @ActiveCallbacks _ Rk (program_callbacks P fuel (S (S n))) T fuel.
Proof.
  split.
  - intros room ex ev w Hev Hi. cbn [fire program_callbacks program_fire].
    eapply (wp_mono _ (λ _, finished fuel room ex (Since w)) _ (λ _, finished fuel room ex (Since w)));
      [|by intros _ w' [? ?]|done].
    apply (wp_calm_list (CB := program_callbacks P fuel (S n))); [done| |by apply (p_active _ HP)].
    split; [done|apply kept_refl].
  - intros room ex ev r w q c Hev Hi Hq Hc. cbn [fire program_callbacks program_fire].
    assert (answers r (P ev w)) as Ha.
    { destruct Hev as [err [-> | ->]]; [apply (p_error _ HP)|apply (p_partial _ HP)]. }
    match goal with |- wpf _ _ ?Q ?E _ => change (wpf T (for_each
      (exec_action (CB := program_callbacks P fuel (S n)) fuel) (P ev w)) Q E w) end.
    destruct Ha as [->|[m ->]]; [by split_and!; [|apply kept_refl|eauto]|].
    apply wp_for_each_single. cbn [exec_action]. apply wp_bind, wp_gets. rewrite Hq. apply wp_bind.
    eapply (wp_alloc_res fuel room ex (Since w)); [by split; [|apply kept_refl]|done|].
    intros s w1 [Hi1 Hk1] Hr1 Hs1. apply wp_bind. eapply wp_get_req_at; [by rewrite Hr1|]. rewrite Hc.
    apply wp_bind. eapply (wp_alive fuel room ex (Since w)); [by split|by rewrite Hr1|done|].
    eapply wp_mono; [eapply wp_respond_answers;
      [done|by rewrite Hr1|done|done|done]| |done].
    intros _ w2 (Hi2 & Hk2 & q2 & Hq2 & Hr2). split_and!; [done|by eapply kept_trans|].
    exists q2. split; [done|]. by intros ?%Hr2.
Qed.
End Program.
