(* ===== verification/ServerEvents.v ===== *)
(** * The other events and the calls on the server preserve the invariant

    Stream events but for reads, the idle timer, new connections, closing from the
    outside, and the life cycle of the server. *)
From S2P Require Import Prelude Errors Date Proto ServerState ServerOps ServerConn ServerMain ServerStep ServerInv ServerOwn ServerSpecs ServerFinish ServerUser ServerRecv ServerRead.
Local Open Scope Z_scope.

Lemma tape_close cl tp ids w op : tape_ok cl tp ids w op → tape_ok cl tp [] false None.
Proof.
  intros [Hn (gone & rest & Ha & Hs & Hr) Hf _]. split; [done| |done|done].
  exists (gone ++ ids), rest. split_and!; [by rewrite Ha, <-app_assoc| |done].
  rewrite app_nil_r. etrans; [exact Hs|]. apply sublist_app; [done|].
  destruct w; [|apply sublist_nil_l]. apply sublist_take.
Qed.

Section Events.
Context `{HttpProto} `{!HttpProtoLaws} `{Env} `{!EnvLaws} `{CB : !Callbacks} `{!PassiveCallbacks}.
Context `{Rk : Risk} {T : fault → Prop}.
Local Abbreviation wp := (wpf T).
Context (fuel room : nat).
Implicit Types (w : World) (c : ConnId) (k : ServerConnection) (E : exn → World → Prop).
Local Abbreviation inv := (Inv fuel room None).

(** The connection's part of the invariant. *)
Lemma inv_owns rel w c k :
  inv w → tracked rel w → w_conns w !! c = Some k →
  ∃ sls tp, owns fuel room None rel w c k (sc_requests k) sls tp ∧
    settled fuel room false k sls tp ∧ (length (sc_requests k) ≤ fuel)%nat ∧ (room ≤ fuel)%nat.
Proof.
  intros Hi Ht Hk. destruct (Inv_own _ _ _ _ _ _ Hi Hk) as (sls & Ho & Hs).
  exists sls, (tape c (w_log w)). split; [by split|]. split; [done|].
  pose proof (cp_len _ _ _ _ _ _ (proj1 Hs)) as Hl. rewrite length_map in Hl.
  rewrite (Forall2_length _ _ _ (o_slots _ _ _ _ _ _ _ _ _ Ho)). lia.
Qed.

Lemma owns_inv rel w c k sls tp :
  owns fuel room None rel w c k (sc_requests k) sls tp → settled fuel room false k sls tp →
  inv w ∧ tracked rel w.
Proof. intros [Ho Ht] Hs. split; [|done]. by eapply own_Inv. Qed.

(** *** Closing *)

Lemma wp_close_conn rel w c k err E :
  inv w → tracked rel w → ¬ strict rel → w_conns w !! c = Some k →
  (sc_requests k ≠ [] → err ≠ None) →
  wp (close fuel c err) (λ _ w', inv w' ∧ tracked rel w' ∧
    sv_connections (w_server w') !! sc_id k = None) E w.
Proof.
  intros Hi Ht Hrel Hk He. destruct (inv_owns _ _ _ _ Hi Ht Hk) as (sls & tp & Ho & (Hb & _ & Htp) & Hl & Hr).
  eapply wp_close; [done..|]. intros w1 Ho1 Hgone.
  destruct (owns_inv _ _ _ (k <| sc_idle_timer ::= timer_stopped |> <| sc_listener := false |>
    <| sc_requests := [] |>) _ _ Ho1) as [Hi1 Ht1].
  - split_and!; [|done|by eapply tape_close]. by apply base_shut.
  - done.
Qed.

Lemma wp_close_free w c k err E :
  inv w → w_conns w !! c = Some k → (sc_requests k ≠ [] → err ≠ None) →
  wp (close fuel c err) (λ _, inv) E w.
Proof.
  intros Hi Hk He. eapply wp_mono; [eapply (wp_close_conn Free); [done|done|intros []|done|done]| |done].
  by intros _ w' [? _].
Qed.

Lemma wp_shutdown_conn w c k err E :
  inv w → w_conns w !! c = Some k → (sc_requests k ≠ [] → err ≠ None) →
  wp (shutdown fuel c err) (λ _, inv) E w.
Proof.
  intros Hi Hk He. destruct (inv_owns Free _ _ _ Hi I Hk) as (sls & tp & Ho & (Hb & _ & Htp) & Hl & Hr).
  eapply wp_shutdown; [done..|]. intros w1 Ho1.
  apply (owns_inv Free _ c (k <| sc_disconnected := true |> <| sc_requests := [] |>) [] tp Ho1).
  split_and!; [|done|by eapply tape_close]. apply base_shut; [intros Hlis; apply Hb; by left| |done].
  unfold deliverable. ksimpl. by rewrite andb_false_r.
Qed.

Lemma wp_conn_graceful_stop w c k E :
  inv w → w_conns w !! c = Some k →
  (∀ r l q, sc_requests k = r :: l → w_reqs w !! r = Some q → sr_response q ≠ None → sc_closing k = true) →
  wp (conn_graceful_stop fuel c) (λ _, inv) E w.
Proof.
  intros Hi Hk Hg. destruct (inv_owns Free _ _ _ Hi I Hk) as (sls & tp & Ho & (Hb & Hf & Htp) & Hl & Hr).
  apply wp_bind. eapply wp_get_conn; [done|].
  destruct (sc_requests k) as [|r l] eqn:Hrq; [by eapply wp_shutdown_conn|].
  eapply wp_mod_conn; [done|done|done|done|]. intros w1 Ho1.
  eapply (owns_inv Free _ c (k <| sc_stopping := true |>)); [by ksimpl; rewrite Hrq|].
  split_and!; [|done|by ksimpl; rewrite Hrq]. pose proof (owns_length _ _ _ _ _ _ _ _ _ _ Ho) as Hlen.
  destruct sls as [|[q o] sls]; [done|]. destruct Hb. split; try done. intros _ Hans.
  destruct (front_slot _ _ _ _ _ _ _ _ _ _ _ _ _ Ho) as (Hq & _ & Hs). eapply Hg; [done|done|].
  cbn in Hans. destruct o; [|done]. simpl in *. by destruct (sr_response q).
Qed.

(** *** Events of the stream *)

Lemma wp_on_connection w c k err :
  inv w → w_conns w !! c = Some k → wp (on_connection fuel c err) (λ _, inv) (λ _ _, True) w.
Proof.
  intros Hi Hk. destruct err as [err|]; [|done].
  by eapply wp_close_free.
Qed.

Lemma wp_on_write w c k err :
  inv w → w_conns w !! c = Some k → sc_listener k = true →
  wp (on_write fuel c err) (λ _, inv) (λ _ _, True) w.
Proof.
  intros Hi Hk Hlis. destruct err as [err|].
  { by eapply wp_close_free. }
  destruct (inv_owns Free _ _ _ Hi I Hk) as (sls & tp & Ho & (Hb & Hf & Htp) & Hl & Hr).
  destruct (sc_requests k) as [|r l] eqn:Hrq.
  - pose proof (owns_length _ _ _ _ _ _ _ _ _ _ Ho) as Hlen. destruct sls; [|done].
    eapply (wp_mono _ (λ _, finished fuel room None Free) _ (λ _ _, True)); [|by intros _ w' [? _]|done].
    eapply wp_check_if_idle; [done|done|by apply (cp_has_timer _ _ _ _ _ _ Hb); left|done|].
    exact Htp.
  - apply wp_bind. eapply wp_get_conn; [done|]. by rewrite Hrq.
Qed.

(** The stream tells that the shutdown is over. What is still queued then stays in
    the deque of a connection that is no more. *)
Lemma base_gone k ds ans :
  conn_base fuel room false k ds ans → (ds ≠ [] → sc_disconnected k = true ∧ risk) →
  conn_base fuel room false (k <| sc_idle_timer ::= timer_stopped |> <| sc_listener := false |>) ds ans.
Proof.
  intros [] Hds. split; unfold deliverable in *; ksimpl; try done.
  - by destruct (sc_idle_timer k).
  - intros Hne. by right; apply Hds.
  - intros [?|Hne]; [done|]. destruct cp_has_timer as [b ->]; [by right|done].
  - intros Hc. destruct (cp_closing Hc) as [? _]. done.
Qed.

Lemma wp_on_shutdown w c k :
  inv w → w_conns w !! c = Some k → (sc_requests k ≠ [] → sc_disconnected k = true ∧ risk) →
  wp (on_shutdown c) (λ _, inv) (λ _ _, True) w.
Proof.
  intros Hi Hk Hrq. destruct (inv_owns Free _ _ _ Hi I Hk) as (sls & tp & Ho & (Hb & Hf & Htp) & Hl & Hr).
  pose proof (owns_length _ _ _ _ _ _ _ _ _ _ Ho) as Hlen.
  apply wp_bind. eapply wp_stop_idle_timer; [done|]. intros w1 Ho1. apply wp_bind.
  eapply wp_unlisten; [done|tauto|]. intros w2 Ho2. eapply wp_remove; [done|done|]. intros w3 Ho3 _.
  eapply (owns_inv Free _ c (k <| sc_idle_timer ::= timer_stopped |> <| sc_listener := false |>) sls); [done|].
  split_and!; [|done|done]. apply base_gone; [done|]. intros Hne. apply Hrq. intros E.
  rewrite E in Hlen. by destruct sls.
Qed.

Lemma wp_on_eof w c k :
  inv w → w_conns w !! c = Some k → wp (on_eof fuel c) (λ _, inv) (λ _ _, True) w.
Proof. intros Hi Hk. by eapply wp_shutdown_conn. Qed.

Lemma wp_on_idle_timer w c k :
  inv w → w_conns w !! c = Some k → sc_idle_timer k = Some true →
  wp (on_idle_timer fuel c) (λ _, inv) (λ _ _, True) w.
Proof.
  intros Hi Hk Hti. destruct (inv_owns Free _ _ _ Hi I Hk) as (sls & tp & Ho & (Hb & Hf & Htp) & Hl & Hr).
  assert (sls = []) as ->.
  { pose proof (cp_timer _ _ _ _ _ _ Hb Hti) as Hn. by destruct sls. }
  pose proof (owns_length _ _ _ _ _ _ _ _ _ _ Ho) as Hlen. destruct (sc_requests k) as [|] eqn:Hrq; [|done].
  apply wp_bind. eapply wp_mod_conn; [done|done|done|done|]. intros w1 Ho1.
  apply wp_bind. eapply wp_get_conn; [done|]. ksimpl. rewrite Hrq. apply wp_bind, wp_assert; [done|].
  assert (inv w1) as Hi1.
  { eapply (owns_inv Free _ c (k <| sc_idle_timer := Some false |>) []); [by ksimpl; rewrite Hrq|].
    split_and!; [|done|by ksimpl; rewrite Hrq in *]. destruct Hb. split; ksimpl; try done. }
  eapply (wp_close_free _ _ (k <| sc_idle_timer := Some false |>)); [done|apply Ho1|].
  ksimpl. by rewrite Hrq.
Qed.
End Events.
