(* ===== verification/ServerLife.v ===== *)
(** * The life cycle of the server preserves the invariant

    New connections, configuration, [run], [stop] and [graceful_stop]. *)
From S2P Require Import Prelude Errors Date Proto ServerState ServerOps ServerConn ServerMain ServerStep ServerInv ServerOwn ServerSpecs ServerFinish ServerUser ServerRecv ServerRead ServerEvents.
From stdpp Require Import sorting.
Local Open Scope Z_scope.

Section Life.
Context `{HttpProto} `{!HttpProtoLaws} `{Env} `{!EnvLaws} `{CB : !Callbacks} `{!PassiveCallbacks}.
Context `{Rk : Risk} {T : fault → Prop}.
Local Abbreviation wp := (wpf T).
Context (fuel room : nat).
Implicit Types (w : World) (c : ConnId) (k : ServerConnection) (E : exn → World → Prop).
Local Abbreviation inv := (Inv fuel room None).

(** *** New connections *)

Record new_conn w w' c k (id : Z) : Prop := {
  nc_held : w_held w' = w_held w;
  nc_conns : w_conns w' = <[c := k]> (w_conns w);
  nc_reqs : w_reqs w' = w_reqs w;
  nc_ress : w_ress w' = w_ress w;
  nc_server : sv_connections (w_server w') = <[id := c]> (sv_connections (w_server w));
  nc_conf : sv_conf (w_server w') = sv_conf (w_server w);
  nc_lastid : w_lastid w' = id;
  nc_tapes : ∀ c', tape c' (w_log w') = tape c' (w_log w);
  nc_ends : ∀ r, epilogue r (w_log w') = epilogue r (w_log w)
}.

Record young k (id : Z) : Prop := {
  y_id : sc_id k = id;
  y_requests : sc_requests k = [];
  y_closing : sc_closing k = false;
  y_stopping : sc_stopping k = false;
  y_timer : is_Some (sc_idle_timer k);
  y_parser : parser_idle (sc_parser k) = true
}.

Lemma Inv_new_conn w w' c k id :
  inv w → w_conns w !! c = None → w_lastid w < id → (room ≤ fuel)%nat →
  new_conn w w' c k id → young k id → inv w'.
Proof.
  intros [Hg Hh Hl Hc] Hnone Hid Hroom [] []. pose proof Hg as [].
  assert (∀ c' k', w_conns w !! c' = Some k' → c' ≠ c) as Hne by (intros c' k' Hk' ->; congruence).
  assert (∀ id' c', sv_connections (w_server w) !! id' = Some c' → id' ≠ id) as Hneid.
  { intros id' c' Hc'. destruct (g_srv id' c' Hc') as (k' & Hk' & <-). specialize (g_lastid c' k' Hk'). lia. }
  split.
  - split; rewrite ?nc_reqs0, ?nc_ress0, ?nc_conns0, ?nc_server0, ?nc_conf0, ?nc_lastid0; try done.
    + intros c1 c2 k1 k2 [[<- <-]|[Hn1 Hc1]]%lookup_insert_Some [[<- <-]|[Hn2 Hc2]]%lookup_insert_Some Heq;
        [done| | |by eapply g_ids].
      * specialize (g_lastid _ _ Hc2). lia.
      * specialize (g_lastid _ _ Hc1). lia.
    + intros id' c' [[<- <-]|[Hn1 Hc']]%lookup_insert_Some; [exists k; by rewrite lookup_insert_eq|].
      destruct (g_srv id' c' Hc') as (k' & Hk' & ?). exists k'. split; [|done].
      rewrite lookup_insert_ne; [done|]. by apply not_eq_sym, (Hne c' k').
    + intros c' k' [[<- <-]|[Hn1 Hc']]%lookup_insert_Some; [lia|]. specialize (g_lastid c' k' Hc'). lia.
    + lia.
    + intros c' r. rewrite nc_tapes0. eauto.
    + intros c' [Hc' _]%lookup_insert_None. rewrite nc_tapes0. eauto.
    + intros r. apply (ended_frame w); [done|by rewrite nc_reqs0| |done]. intros q _ _.
      unfold completed_of. by rewrite nc_ress0.
  - congruence.
  - rewrite nc_reqs0, nc_conns0. intros r q c' Hq Hqc. destruct (Hl r q c' Hq Hqc) as (k' & Hk' & Hin).
    exists k'. split; [|done]. rewrite lookup_insert_ne; [done|]. by apply not_eq_sym, (Hne c' k').
  - rewrite nc_conns0. intros c' k' [[<- <-]|[Hn1 Hk']]%lookup_insert_Some.
    + exists []. rewrite y_requests0, nc_tapes0, (g_tapes c Hnone). split_and!; [done|constructor| |].
      * split_and!; [|done|]; rewrite ?y_requests0.
        -- split; simpl; try done; congruence.
        -- split; simpl; try done; [constructor|]. exists [], []. by split_and!.
      * intros _. unfold registered. by rewrite nc_server0, y_id0, lookup_insert_eq.
    + eapply conn_ok_frame; [by apply Hc|..].
      * intros r sl _ (? & ? & ?). unfold slot_at. by rewrite nc_reqs0, nc_ress0.
      * by rewrite nc_tapes0.
      * unfold registered. rewrite nc_server0. intros Hreg. rewrite lookup_insert_ne; [done|].
        intros Heq. by apply (Hneid _ _ Hreg).
Qed.

Lemma Inv_emit w ev E :
  inv w → passive_event ev = true → ends_none (OEvent ev) = true → wp (emit ev) (λ _, inv) E w.
Proof.
  intros Hi Hev He. apply wp_bind, wp_modify.
  destruct (Inv_log fuel room None w (OEvent ev) (λ _, eq_refl) (λ r, epilogue_none r _ _ He) Hi) as [Hi1 _].
  unfold wpf. destruct (fire_passive ev (w <| w_log ::= cons (OEvent ev) |>) Hev) as (w2 & -> & Hq).
  by eapply Inv_quiet.
Qed.

Lemma wp_on_establish w secure err E :
  inv w → w_lastid w + 1 < 2 ^ 64 → (room ≤ fuel)%nat →
  wp (on_establish secure err) (λ _, inv) E w.
Proof.
  intros Hi Hid Hroom. destruct err; [done|]. pose proof (i_glob _ _ _ _ Hi) as [].
  assert (u64 (w_lastid w + 1) = w_lastid w + 1) as Eid by (apply wrap_small; lia).
  apply wp_bind, wp_get_server, wp_bind, wp_modify, wp_bind, wp_gets, wp_bind.
  apply wp_bind, wp_gets, wp_bind. unfold alloc_conn. apply wp_bind, wp_gets, wp_bind, wp_modify, wp_ret.
  wsimpl. rewrite (proj2 (Z.eqb_neq _ 0)) by done. cbn [negb].
  apply wp_bind, wp_bind, wp_bind, wp_gets. eapply wp_deref; [wsimpl; by rewrite lookup_insert_eq|].
  apply wp_bind, wp_modify, wp_modify, wp_ret, wp_bind, wp_modify.
  eapply Inv_emit; [|done..]. eapply (Inv_new_conn w _ (fresh_key (w_conns w))); [done|apply fresh_key_None| |done| |].
  - instantiate (1 := w_lastid w + 1). lia.
  - split; wsimpl; try done.
    + by rewrite alter_insert_eq.
    + by rewrite Eid.
  - split; ksimpl; try done. apply parser_init_idle.
Qed.

(** *** Configuration and listening *)

Lemma Inv_mod_server w (f : Server → Server) :
  inv w → sv_connections (f (w_server w)) = sv_connections (w_server w) →
  cf_idle_timeout (sv_conf (f (w_server w))) ≠ 0 → inv (w <| w_server ::= f |>).
Proof.
  intros [[] Hh Hl Hc] Hf Ht. split; wsimpl; [|done|done|].
  - split; wsimpl; rewrite ?Hf; done.
  - intros c k Hk. eapply conn_ok_frame; [by apply Hc|done|by wsimpl|].
    unfold registered. wsimpl. by rewrite Hf.
Qed.

(** A server operation that leaves the connections alone, whether it returns or
    throws. *)
Definition stays {A} (m : M World A) : Prop := ∀ w, inv w → wp m (λ _, inv) (λ _, inv) w.

Lemma stays_ret {A} (a : A) : stays (mret a).
Proof. by intros w Hi. Qed.

Lemma stays_throw {A} e : stays (A := A) (throw e).
Proof. by intros w Hi. Qed.

Lemma stays_bind {A B} (m : M World A) (f : A → M World B) :
  stays m → (∀ a, stays (f a)) → stays (m ≫= f).
Proof. intros Hm Hf w Hi. apply wp_bind. eapply wp_mono; [by apply Hm| |done]. intros. by apply Hf. Qed.

Lemma stays_gets {A} (f : World → A) : stays (gets f).
Proof. by intros w Hi. Qed.

Lemma stays_log o : plain o → stays (log o).
Proof. intros [Ho He] w Hi. apply wp_modify. apply Inv_log; [done|intros r; by apply epilogue_none|done]. Qed.

Lemma stays_when b m : stays m → stays (when b m).
Proof. intros Hm. destruct b; [done|apply stays_ret]. Qed.

Lemma stays_for_each {A} (f : A → M World unit) l : (∀ a, stays (f a)) → stays (for_each f l).
Proof.
  intros Hf. induction l as [|a l IH]; [apply stays_ret|]. by apply stays_bind.
Qed.

Lemma stays_mod_server f :
  (∀ s, sv_connections (f s) = sv_connections s) →
  (∀ s, cf_idle_timeout (sv_conf s) ≠ 0 → cf_idle_timeout (sv_conf (f s)) ≠ 0) →
  stays (mod_server f).
Proof.
  intros Hc Ht w Hi. apply wp_modify. apply Inv_mod_server; [done|done|].
  apply Ht. apply (i_glob _ _ _ _ Hi).
Qed.

Lemma stays_emit ev : passive_event ev = true → ends_none (OEvent ev) = true → stays (emit ev).
Proof. intros Hev He w Hi. by apply Inv_emit. Qed.

#[local] Hint Resolve stays_ret stays_throw stays_gets stays_when : core.

Lemma stays_stop_listening : stays stop_listening.
Proof.
  apply stays_bind; [apply stays_gets|]. intros srv. apply stays_bind; [|intros; by apply stays_mod_server].
  apply stays_for_each. intros l. destruct (ls_is_pipe l); [|auto].
  destruct (pipe_sockname _); [by apply stays_log|auto].
Qed.

Lemma stays_make_listener loc : stays (make_listener loc).
Proof.
  apply stays_bind.
  - destruct (lc_sock loc) as [fd|]; [by destruct (getsockname fd) as [[|]|]; auto|].
    destruct (String.eqb _ _); [auto|]. apply stays_bind; [by apply stays_log|auto].
  - intros l. apply stays_bind; [auto|]. intros [e|]; [auto|].
    apply stays_bind; [by apply stays_log|auto].
Qed.

Lemma stays_listen_all visited todo : stays (listen_all visited todo).
Proof.
  revert visited. induction todo as [|loc todo IH]; intros visited; [apply stays_ret|].
  apply stays_bind; [apply stays_make_listener|]. intros l.
  apply stays_bind; [by apply stays_mod_server|]. intros _. apply IH.
Qed.

Lemma stays_start_listening : stays start_listening.
Proof.
  apply stays_bind; [apply stays_gets|]. intros srv. destruct (sv_listeners srv); [|auto].
  apply stays_listen_all.
Qed.

Lemma stays_configure conf : cf_idle_timeout conf ≠ 0 → stays (configure conf).
Proof.
  intros Hconf. unfold configure. destruct (cf_locations conf) as [|loc l] eqn:Hl; [auto|].
  destruct (existsb _ _); [auto|]. apply stays_bind; [apply stays_gets|]. intros srv.
  apply stays_bind; [apply stays_when, stays_stop_listening|]. intros _.
  apply stays_bind; [by apply stays_mod_server|]. intros _.
  apply stays_bind; [apply stays_gets|]. intros srv'. apply stays_when, stays_start_listening.
Qed.

Lemma stays_run : stays run.
Proof.
  apply stays_bind; [apply stays_gets|]. intros srv. destruct (negb _); [auto|].
  apply stays_bind; [by apply stays_mod_server|]. intros _.
  apply stays_bind; [apply stays_start_listening|]. intros _. by apply stays_emit.
Qed.

(** *** Stopping *)

Lemma connection_rows_elem (m : gmap Z ConnId) id c :
  (id, c) ∈ connection_rows m ↔ m !! id = Some c.
Proof. unfold connection_rows. by rewrite merge_sort_Permutation, elem_of_map_to_list. Qed.

Lemma connection_rows_nil (m : gmap Z ConnId) : connection_rows m = [] → m = ∅.
Proof.
  intros Hr. apply map_to_list_empty_iff, Permutation_nil_r. rewrite <-Hr.
  symmetry. apply merge_sort_Permutation.
Qed.

(** Every connection is closed; the loop ends because each [close] takes its
    connection off the map. *)
Lemma wp_close_all s0 err n E : ∀ w,
  inv w → srv_le s0 (w_server w) → (size (sv_connections (w_server w)) ≤ n)%nat →
  wp (close_all fuel n err) (λ _ w', inv w' ∧ srv_le s0 (w_server w') ∧
    sv_connections (w_server w') = ∅) E w.
Proof.
  induction n as [|n IH]; intros w Hi Hs Hn; (apply wp_bind, wp_get_server);
    destruct (connection_rows _) as [|[id c] rows] eqn:Hr; try by
      (apply wp_ret; split_and!; [done..|by apply connection_rows_nil]).
  - assert ((id, c) ∈ connection_rows (sv_connections (w_server w))) as Hin%connection_rows_elem
      by (rewrite Hr; by left).
    assert (sv_connections (w_server w) = ∅) as He by (apply map_size_empty_inv; lia).
    by rewrite He, lookup_empty in Hin.
  - assert ((id, c) ∈ connection_rows (sv_connections (w_server w))) as Hin%connection_rows_elem
      by (rewrite Hr; by left).
    destruct (g_srv _ (i_glob _ _ _ _ Hi) id c Hin) as (k & Hk & <-).
    apply wp_bind. eapply wp_mono; [eapply (wp_close_conn fuel room (After (w_server w)));
      [done|apply srv_le_refl|by intros []|done|done]| |done].
    intros _ w1 (Hi1 & Hle & Hgone). apply IH; [done|by eapply srv_le_trans|].
    destruct Hle as [Hsub _].
    assert (sv_connections (w_server w1) ⊆ delete (sc_id k) (sv_connections (w_server w))) as Hsub'.
    { apply map_subseteq_spec. intros id' c' Hc'. rewrite lookup_delete_ne; [by eapply lookup_weaken|].
      intros <-. congruence. }
    apply map_subseteq_size in Hsub'. rewrite map_size_delete_Some in Hsub' by done. lia.
Qed.

(** [stop_listening] only forgets the listeners. *)
Lemma wp_stop_listening w E :
  inv w → wp stop_listening (λ _ w', inv w' ∧ w_conns w' = w_conns w ∧ w_reqs w' = w_reqs w ∧
    w_server w' = (w_server w) <| sv_listeners := [] |>) E w.
Proof.
  intros Hi. apply wp_bind, wp_get_server, wp_bind.
  eapply wp_mono; [eapply (wp_for_each _ _ (λ w', inv w' ∧ w_conns w' = w_conns w ∧
    w_reqs w' = w_reqs w ∧ w_server w' = w_server w))| |done].
  - done.
  - intros l w' _ (Hi' & Hc & Hr & Hs). destruct (ls_is_pipe l); [|done].
    destruct (pipe_sockname _); [|done]. apply wp_modify. by split; [apply Inv_log|].
  - intros _ w' (Hi' & Hc & Hr & Hs). apply wp_modify. split_and!; [|done|done|wsimpl; by rewrite Hs].
    apply Inv_mod_server; [done|done|]. apply (i_glob _ _ _ _ Hi').
Qed.

(** [stop]: no connection is left, and the server may run again. *)
Lemma wp_stop w E :
  inv w → sv_state (w_server w) ≠ initial →
  wp (stop fuel) (λ _ w', inv w' ∧ sv_connections (w_server w') = ∅ ∧
    sv_listeners (w_server w') = [] ∧ sv_state (w_server w') = initial) E w.
Proof.
  intros Hi Hst. apply wp_bind, wp_get_server.
  assert (negb (is_running (sv_state (w_server w))) && negb (is_stopping (sv_state (w_server w))) = false) as ->
    by by destruct (sv_state (w_server w)).
  apply wp_bind. eapply wp_mono; [by apply wp_stop_listening| |done]. intros [] w1 (Hi1 & _ & _ & Hs1).
  apply wp_bind, wp_bind, wp_get_server. eapply wp_mono;
    [apply (wp_close_all (w_server w1)); [done|apply srv_le_refl|done]| |done].
  intros [] w2 (Hi2 & (_ & _ & Hl & _) & Hc2). apply wp_bind, wp_modify.
  assert (inv (w2 <| w_server ::= λ s, s <| sv_state := initial |> |>)) as Hi3.
  { apply Inv_mod_server; [done|done|]. apply (i_glob _ _ _ _ Hi2). }
  revert Hi3. set (w3 := w2 <| w_server ::= _ |>). intros Hi3. apply wp_bind, wp_modify.
  destruct (Inv_log fuel room None w3 (OEvent EvStop) (λ _, eq_refl) (λ _, eq_refl) Hi3) as [Hi4 _].
  unfold wpf. destruct (fire_passive EvStop (w3 <| w_log ::= cons (OEvent EvStop) |>) eq_refl) as (w5 & -> & Hq).
  split; [by eapply Inv_quiet|]. rewrite (qs_server _ _ Hq). unfold w3. wsimpl.
  split_and!; [done| |done]. change (sv_listeners (w_server w2) = []). by rewrite Hl, Hs1.
Qed.

(** [graceful_stop]: nothing is closed but the idle connections; the others will
    be closed after the response they owe. *)
Definition graceful_ok w c : Prop :=
  ∀ k r l q, w_conns w !! c = Some k → sc_requests k = r :: l → w_reqs w !! r = Some q →
    sr_response q ≠ None → sc_closing k = true.

(** Shutting down an idle connection does nothing else. *)
Lemma conn_graceful_stop_run w c k :
  w_conns w !! c = Some k →
  ∃ w', conn_graceful_stop fuel c w = Ok tt w' ∧ w_reqs w' = w_reqs w ∧ w_server w' = w_server w ∧
    ∃ f : ServerConnection → ServerConnection, w_conns w' = alter f c (w_conns w) ∧
      sc_requests (f k) = sc_requests k ∧ sc_closing (f k) = sc_closing k.
Proof.
  intros Hk. destruct (sc_requests k) as [|r l] eqn:Hr.
  - exists (w <| w_log ::= cons (OShutdown c) |> <| w_log ::= cons (ODisconnect c) |>
              <| w_conns ::= alter (λ k, k <| sc_disconnected := true |>) c |>).
    split; [|split_and!; [done|done|]; eexists; split_and!; [done|by ksimpl; rewrite Hr|done]].
    unfold conn_graceful_stop, shutdown, do_close, get_conn, gets, mbind, M_bind. rewrite Hk.
    cbn [deref]. unfold mret, M_ret. rewrite Hr. cbn. unfold log, modify, mod_conn.
    assert (∀ n w0, w_conns w0 !! c = Some (k <| sc_disconnected := true |>) →
      drop_requests n c (Some (HttpErr server_stopping)) w0 = Ok tt w0) as Hdrop.
    { intros n w0 Hw0. destruct n; cbn [drop_requests]; unfold get_conn, gets, mbind, M_bind; rewrite Hw0;
        cbn [deref]; unfold mret, M_ret; ksimpl; by rewrite Hr. }
    rewrite Hdrop; [done|]. wsimpl. by rewrite lookup_alter_eq, Hk.
  - exists (w <| w_conns ::= alter (λ k, k <| sc_stopping := true |>) c |>).
    split; [|split_and!; [done|done|]; eexists; split_and!; [done|by ksimpl; rewrite Hr|done]].
    unfold conn_graceful_stop, get_conn, gets, mbind, M_bind. rewrite Hk.
    cbn [deref]. unfold mret, M_ret. by rewrite Hr.
Qed.

Lemma wp_graceful_all s0 l w E :
  inv w → w_server w = s0 → Forall (λ c, is_Some (w_conns w !! c) ∧ graceful_ok w c) l →
  wp (for_each (conn_graceful_stop fuel) l) (λ _ w', inv w' ∧ w_server w' = s0) E w.
Proof.
  revert w. induction l as [|c l IH]; intros w Hi Hs Hl; [done|].
  apply Forall_cons in Hl as [[[k Hk] Hg] Hl]. apply wp_bind.
  destruct (conn_graceful_stop_run w c k Hk) as (w1 & Hrun & Hr1 & Hs1 & f & Hc1 & Hf1 & Hf2).
  assert (wp (conn_graceful_stop fuel c) (λ _, inv) E w) as Hwp.
  { eapply wp_conn_graceful_stop; [done|done|]. intros. by eapply Hg. }
  unfold wpf in Hwp |- *. rewrite Hrun in Hwp |- *. apply IH; [done|by rewrite Hs1|].
  eapply Forall_impl; [exact Hl|]. intros c' [Hex Hg']. rewrite Hc1. split.
  - by rewrite lookup_alter_is_Some.
  - intros k' r l' q. rewrite Hc1, Hr1, lookup_alter. case_decide; [subst c'|by eapply Hg'].
    rewrite Hk. intros [= <-]. rewrite Hf1, Hf2. by eapply Hg'.
Qed.

Lemma wp_graceful_stop w E :
  inv w → (∀ c, graceful_ok w c) →
  wp (graceful_stop fuel) (λ _, inv) E w.
Proof.
  intros Hi Hg. apply wp_bind, wp_get_server. destruct (negb _); [done|]. apply wp_bind, wp_modify.
  set (w1 := w <| w_server ::= λ s, s <| sv_state := stopping |> |>).
  assert (inv w1) as Hi1 by (apply Inv_mod_server; [done|done|apply (i_glob _ _ _ _ Hi)]).
  apply wp_bind. eapply wp_mono; [by apply (wp_stop_listening w1 E)| |done]. intros [] w2 (Hi2 & Hc2 & Hr2 & Hs2).
  apply wp_bind, wp_get_server, wp_bind. eapply wp_mono; [eapply (wp_graceful_all (w_server w2))| |done].
  - done.
  - done.
  - apply Forall_forall. intros c [[id c'] [-> Hin]]%list_elem_of_fmap.
    apply connection_rows_elem in Hin. simpl.
    destruct (g_srv _ (i_glob _ _ _ _ Hi2) id c' Hin) as (k & Hk & _). split; [by exists k|].
    intros k' r l q. rewrite Hc2, Hr2. by apply Hg.
  - intros [] w3 [Hi3 Hs3]. apply wp_bind, wp_get_server, wp_bind, wp_assert; [by rewrite Hs3, Hs2|].
    destruct (Nat.eqb _ _); [|done]. apply wp_bind, wp_modify. apply Inv_emit; [|done..].
    apply Inv_mod_server; [done|done|apply (i_glob _ _ _ _ Hi3)].
Qed.
End Life.
