(* ===== verification/ServerSafety.v ===== *)
(** * Safety of the server

    Runs of the server under a polite user program and a stream that keeps to its
    protocol, and what the invariant says about them: no run comes to a null
    dereference, an empty deque, a failed assertion or the model's bounds, and
    what is written to a connection is a well-framed sequence of responses in the
    order in which the requests arrived. *)
From S2P Require Import Prelude Errors Date Proto ServerState ServerOps ServerConn ServerMain ServerStep ServerInv ServerOwn ServerSpecs ServerFinish ServerUser ServerRecv ServerRead ServerProgram ServerEvents ServerLife.
Local Open Scope Z_scope.

(** ** What the environment and the user may do in a state *)

Section Enabled.
Context `{HttpProto}.

(** Top-level calls of the user: the calls of handlers, and closing, stopping and
    configuring. [ARespond] takes a response object that no request has; closing
    from the outside names an error when requests are dropped; a configuration has
    an idle timeout; stopping gracefully is for connections whose front request is
    not yet answered, or that are to be closed anyway. *)
Definition user_ok (w : World) (a : Action) : Prop :=
  match a with
  | ARespond r s => ∀ x, w_ress w !! s = Some x → rs_request x = None
  | AClose c err | AShutdown c err => ∀ k, w_conns w !! c = Some k → sc_requests k ≠ [] → err ≠ None
  | AConnGracefulStop c => graceful_ok w c
  | AGracefulStop => ∀ c, graceful_ok w c
  | AConfigure conf => cf_idle_timeout conf ≠ 0
  | _ => True
  end.

(** Events of the streams and timers: a stream reports to its listener, does not
    deliver what is ignored or comes after [disconnect], reports the end of a
    shutdown that was asked for; a timer fires when it is active. *)
Definition enabled (w : World) (i : Input) : Prop :=
  match i with
  | InEstablish _ _ => w_lastid w + 1 < 2 ^ 64
  | InConnection c _ | InWrite c _ | InEof c => ∃ k, w_conns w !! c = Some k ∧ sc_listener k = true
  | InRead c _ _ => ∃ k, w_conns w !! c = Some k ∧ deliverable k = true
  | InShutdown c => ∃ k, w_conns w !! c = Some k ∧ sc_listener k = true ∧ sc_disconnected k = true
  | InIdleTimer c => ∃ k, w_conns w !! c = Some k ∧ sc_idle_timer k = Some true
  | InTick _ _ => True
  | InUser a => user_ok w a
  end.

(** How many requests an input can put into a deque: the model's fuel bounds the
    total of a run. *)
Definition cost (i : Input) : nat :=
  match i with
  | InRead _ buf None => String.length buf
  | InRead _ _ (Some _) => 1
  | _ => 0
  end.
End Enabled.

Section UserCalls.
Context `{HttpProto} `{!HttpProtoLaws} `{Env} `{!EnvLaws} `{CB : !Callbacks} `{!PassiveCallbacks}.
Context `{Rk : Risk} {T : fault → Prop}.
Local Abbreviation wp := (wpf T).
Context (fuel room : nat).
Implicit Types (w : World) (c : ConnId) (k : ServerConnection) (E : exn → World → Prop).
Local Abbreviation inv := (Inv fuel room None).

Lemma wp_on_conn w c (m : M World unit) E :
  inv w → (∀ k, w_conns w !! c = Some k → wp m (λ _, inv) E w) → wp (on_conn c m) (λ _, inv) E w.
Proof.
  intros Hf Hm. apply wp_bind, wp_gets. destruct (w_conns w !! c) eqn:Hk; [by eapply Hm|done].
Qed.

Lemma inv_live w r q c :
  inv w → w_reqs w !! r = Some q → sr_connection q = Some c →
  ∃ k, w_conns w !! c = Some k ∧ r ∈ sc_requests k.
Proof. intros Hi. apply (i_live _ _ _ _ Hi). Qed.

Lemma wp_req_drop `{!Tolerant T} w r q E :
  inv w → w_reqs w !! r = Some q → wp (req_drop fuel r) (λ _, inv) E w.
Proof.
  intros Hi Hq. apply wp_bind. eapply wp_get_req_at; [done|].
  destruct (sr_connection q) as [c|] eqn:Hc; [|done].
  destruct (inv_live w r q c Hi Hq Hc) as (k & Hk & _).
  destruct (inv_owns fuel room Free w c k Hi I Hk) as (sls & tp & Ho & _).
  apply wp_bind. eapply wp_response_completed; [done..|]. intros [|]; [done|].
  apply wp_bind. eapply (wp_alive fuel room None Free); [by split|done..|]. by eapply wp_close_free.
Qed.

(** [upgrade]: the connection object leaves the server, and its stream the
    connection. *)
Lemma wp_req_upgrade `{!Tolerant T} w r q :
  inv w → w_reqs w !! r = Some q → wp (req_upgrade r ;; mret tt) (λ _, inv) (λ _, inv) w.
Proof.
  intros Hi Hq. apply wp_bind, wp_bind. eapply wp_get_req_at; [done|].
  destruct (sr_connection q) as [c|] eqn:Hc; [|done].
  destruct (iequals _ _) eqn:Hup; cbn [negb]; [|done].
  destruct (inv_live w r q c Hi Hq Hc) as (k & Hk & _).
  destruct (inv_owns fuel room Free w c k Hi I Hk) as (sls & tp & Ho & (Hb & Hf & Ht) & _ & Hroom).
  apply wp_bind. eapply (wp_alive fuel room None Free); [by split|done..|]. apply wp_bind, wp_bind.
  eapply wp_get_conn; [done|]. destruct (decide (sc_requests k = [r])) as [Hr|Hr];
    [rewrite bool_decide_true by done|by rewrite bool_decide_false].
  rewrite Hr in *. pose proof (owns_length _ _ _ _ _ _ _ _ _ _ Ho) as Hlen.
  destruct sls as [|[q' o] [|]]; try done.
  assert (wants_upgrade q' = true) as Hwant.
  { destruct (front_slot _ _ _ _ _ _ _ _ _ _ _ _ _ Ho) as (Hq' & _). cbn in Hq'. by simplify_eq. }
  apply wp_bind. eapply wp_unlisten; [done|intros []|]. intros w1 Ho1.
  apply wp_bind. eapply wp_stop_idle_timer; [done|]. intros w2 Ho2.
  apply wp_bind. eapply wp_mod_conn; [done|done|done|intros []|]. intros w3 Ho3.
  apply wp_bind. eapply (wp_cleanup_request _ _ _ _ _ _ _ [] r [] []); [done|done|done|intros []|by apply fw_upgraded|].
  intros w4 Ho4. cbn [app] in Ho4. eapply wp_remove; [done|done|]. intros w5 Ho5 _. apply wp_ret, wp_ret.
  match type of Ho5 with owns _ _ _ _ _ _ ?k' _ _ _ => eapply (owns_inv fuel room Free _ c k' []); [done|] end.
  split_and!; [by apply base_shut|done|]. by eapply tape_close.
Qed.

Lemma wp_user `{!Tolerant T} w a :
  inv w → user_ok w a → wp (exec_action fuel a) (λ _, inv) (λ _, inv) w.
Proof.
  intros Hi Ha. destruct (calm a) eqn:Hcalm.
  { eapply (wp_mono _ (λ _, finished fuel room None Free) _ (λ _, finished fuel room None Free)).
    - by apply wp_calm.
    - by intros _ w' [? _].
    - by intros _ w' [? _]. }
  destruct a; try done; cbn [exec_action].
  - apply wp_bind, wp_gets. destruct (w_reqs w !! r) as [q|] eqn:Hq; [|done].
    apply wp_bind, wp_gets. destruct (w_ress w !! s) as [x|] eqn:Hs; [|done].
    eapply (wp_mono _ (λ _, finished fuel room None Free) _ (λ _, finished fuel room None Free)).
    + eapply wp_req_respond; [done|done|done|done|by apply Ha|done].
    + by intros _ w' [? _].
    + by intros _ w' [? _].
  - apply wp_bind, wp_gets. destruct (w_reqs w !! r) as [q|] eqn:Hq; [|done]. by eapply wp_req_drop.
  - apply wp_bind, wp_gets. destruct (w_reqs w !! r) as [q|] eqn:Hq; [|done]. by eapply wp_req_upgrade.
  - apply wp_on_conn; [done|]. intros k Hk. eapply wp_close_free; [done..|by apply Ha].
  - apply wp_on_conn; [done|]. intros k Hk. eapply wp_shutdown_conn; [done..|by apply Ha].
  - apply wp_on_conn; [done|]. intros k Hk. eapply wp_conn_graceful_stop; [done..|].
    intros r l q. by apply Ha.
  - by apply stays_run.
  - destruct (sv_state (w_server w)) eqn:Hst.
    { apply wp_bind, wp_get_server. by rewrite Hst. }
    all: eapply (wp_mono _ _ _ (λ _, inv)); [apply wp_stop; [done|by rewrite Hst]|by intros _ w' [? _]|done].
  - by apply wp_graceful_stop.
  - by apply stays_configure.
Qed.
End UserCalls.

(** ** Runs *)

Section Runs.
Context `{HttpProto} `{Env}.

(** The states that a server reaches: [n] is what the inputs so far have cost of
    the fuel. An exception ends the run, unless it reached the user who made the
    call. [depth] bounds the nesting of callbacks; two levels are enough. *)
Inductive reach (P : Program) (fuel depth : nat) : nat → World → Prop :=
  | reach_init conf factory :
      cf_idle_timeout conf ≠ 0 → reach P fuel depth 0 (init_world conf factory)
  | reach_step n w i w' :
      reach P fuel depth n w → enabled w i → (n + cost i ≤ fuel)%nat →
      @exec_input _ _ (program_callbacks P fuel (S (S depth))) fuel i w = Ok tt w' →
      reach P fuel depth (n + cost i) w'
  | reach_throw n w a e w' :
      reach P fuel depth n w → enabled w (InUser a) →
      @exec_input _ _ (program_callbacks P fuel (S (S depth))) fuel (InUser a) w = Throw e w' →
      reach P fuel depth n w'.
End Runs.

(** A request that outlived its connection: it is in the deque of a connection that
    was shut down and whose stream has reported the end of that, so that the server
    does not hold it any more. It got there because [on_read] goes on with its buffer
    after [finish_request] has shut the connection down. *)
Definition stranded `{HttpProto} (w : World) (r : ReqId) : Prop :=
  ∃ q c k, w_reqs w !! r = Some q ∧ sr_connection q = Some c ∧ w_conns w !! c = Some k ∧
    r ∈ sc_requests k ∧ sc_listener k = false ∧ sc_disconnected k = true.

Section Safety.
Context `{HttpProto} `{!HttpProtoLaws} `{Env} `{!EnvLaws}.
Context (P : Program) (fuel depth : nat).
Local Abbreviation CBS := (program_callbacks P fuel (S (S depth))).
Local Abbreviation exec := (@exec_input _ _ CBS fuel).

Lemma Inv_init `{Rk : Risk} conf factory :
  cf_idle_timeout conf ≠ 0 → Inv fuel fuel None (init_world conf factory).
Proof.
  intros Ht. split.
  - split; cbn [init_world w_reqs w_ress w_conns w_server w_lastid w_log sv_connections sv_conf]; try done.
    all: intros *; rewrite ?lookup_empty; try done. by intros []%elem_of_nil.
  - done.
  - intros r q c Hq. cbn in Hq. by rewrite lookup_empty in Hq.
  - intros c k Hk. cbn in Hk. by rewrite lookup_empty in Hk.
Qed.

(** The risk may be stated more narrowly. *)
Lemma base_risk (R1 R2 : Prop) fu room busy k ds ans :
  conn_base (Rk := R1) fu room busy k ds ans →
  (R1 → ds ≠ [] → sc_listener k = false → sc_disconnected k = true → R2) →
  conn_base (Rk := R2) fu room busy k ds ans.
Proof.
  intros [] Hr. split; try done. intros Hds. destruct (cp_live Hds) as [?|[Hd Hrisk]]; [by left|].
  destruct (sc_listener k) eqn:Hl; [by left|right]. split; [done|]. by apply Hr.
Qed.

Lemma Inv_stranded room w :
  Inv (Rk := True) fuel room None w → Inv (Rk := ∃ r, stranded w r) fuel room None w.
Proof.
  intros [Hg Hh Hl Hc]. split; [done..|]. intros c k Hk. destruct (Hc c k Hk) as (sls & Hs & Hn & (Hb & Ht) & Hreg).
  exists sls. split_and!; [done..| |done]. split; [|done]. eapply base_risk; [done|]. intros _ Hds Hlis Hdis.
  destruct (sc_requests k) as [|r l] eqn:Er; [apply Forall2_nil_inv_l in Hs; by subst|].
  apply Forall2_cons_inv_l in Hs as ([q o] & sls' & (Hq & Hqc & _) & _ & ->).
  exists r, q, c, k. rewrite Er. split_and!; [done..|by left|done|done].
Qed.

Section Inputs.
Context `{CB : !Callbacks} `{!PassiveCallbacks} `{Rk : Risk} {T : fault → Prop}.
Local Abbreviation wp := (wpf T).

Lemma wp_alive_listener room w c k (Q : unit → World → Prop) E :
  Inv fuel room None w → w_conns w !! c = Some k → sc_listener k = true → Q tt w → wp (alive c) Q E w.
Proof.
  intros Hi Hk Hl HQ. destruct (i_conn _ _ _ _ Hi c k Hk) as (sls & _ & _ & _ & Hreg).
  apply wp_bind, wp_bind, wp_gets. eapply wp_deref; [done|]. apply wp_bind, wp_gets.
  unfold lives. rewrite bool_decide_true; [done|]. by apply Hreg.
Qed.

Lemma wp_holding c m (Q : unit → World → Prop) E w :
  wp m (λ a w', Q a (w' <| w_held := None |>)) (λ e w', E e (w' <| w_held := None |>)) (w <| w_held := Some c |>) →
  wp (holding c m) Q E w.
Proof. unfold wpf, holding. by destruct (m _). Qed.

Lemma deliverable_listener k : deliverable k = true → sc_listener k = true.
Proof. unfold deliverable. by destruct (sc_listener k). Qed.

Lemma wp_read_input `{!ActiveCallbacks T fuel} room w c k buf err :
  Inv fuel (room + cost (InRead c buf err)) None w → w_conns w !! c = Some k → deliverable k = true →
  wp (holding c (on_read fuel c buf err)) (λ _, Inv fuel room None) (λ _ _, True) w.
Proof.
  intros Hi Hk Hdel. apply wp_holding.
  assert (sc_closing k = true → parser_idle (sc_parser k) = false) as Hcl.
  { intros Hc. destruct (i_conn _ _ _ _ Hi c k Hk) as (sls & _ & _ & (Hb & _) & _).
    by apply (cp_not_more _ _ _ _ _ _ Hb). }
  apply (Inv_busy _ _ c) in Hi. destruct err as [err|]; simpl in Hi; rewrite Nat.add_comm in Hi.
  - eapply wp_mono; [by eapply (wp_on_read_error fuel c room)| |done].
    intros _ w' [Hi' Hr]. by eapply Inv_unbusy.
  - eapply wp_mono; [eapply (wp_on_read_loop fuel c (String.length buf) room); [done|done| |]| |done].
    + intros k' Hk' Hc _. change (w_conns w !! c = Some k') in Hk'. simplify_eq. auto.
    + intros _. exists k. split; [done|]. by left.
    + intros _ w' [Hi' Hr]. by eapply Inv_unbusy.
Qed.

(** The end of a shutdown may strand requests. *)
Lemma wp_shutdown_input room w c :
  Inv fuel room None w → enabled w (InShutdown c) → risk →
  wp (exec_input fuel (InShutdown c)) (λ _, Inv fuel room None) (λ _ _, True) w.
Proof.
  intros Hi (k & Hk & Hl & Hd) Hr. cbn [exec_input]. apply wp_bind. eapply wp_alive_listener; [done..|].
  by eapply wp_on_shutdown.
Qed.

Definition is_shutdown (i : Input) : bool := match i with InShutdown _ => true | _ => false end.

Lemma wp_input `{!ActiveCallbacks T fuel} `{!Tolerant T} room w i :
  Inv fuel (room + cost i) None w → (room + cost i ≤ fuel)%nat → enabled w i → (is_shutdown i = true → risk) →
  wp (exec_input fuel i) (λ _, Inv fuel room None)
    (λ _ w', match i with InUser _ => Inv fuel room None w' | _ => True end) w.
Proof.
  intros Hi Hroom Hen Hrisk.
  destruct i as [secure err|c err|c buf err|c err|c|c|c|now time|a]; cbn [cost] in *;
    try (rewrite Nat.add_0_r in * ).
  - by apply wp_on_establish.
  - destruct Hen as (k & Hk & Hl). apply wp_bind. eapply wp_alive_listener; [done..|]. by eapply wp_on_connection.
  - destruct Hen as (k & Hk & Hd). apply wp_bind.
    eapply wp_alive_listener; [done|done|by apply deliverable_listener|]. by eapply wp_read_input.
  - destruct Hen as (k & Hk & Hl). apply wp_bind. eapply wp_alive_listener; [done..|]. by eapply wp_on_write.
  - apply wp_shutdown_input; [done..|]. by apply Hrisk.
  - destruct Hen as (k & Hk & Hl). apply wp_bind. eapply wp_alive_listener; [done..|]. by eapply wp_on_eof.
  - destruct Hen as (k & Hk & Ht). by eapply wp_on_idle_timer.
  - apply wp_modify. destruct Hi as [[] Hh Hl Hc]. by split; [split|..].
  - by apply wp_user.
Qed.
End Inputs.

(** When every risk is taken, the invariant holds of every reachable state. *)
Lemma reach_Inv n w :
  polite P → reach P fuel depth n w → (n ≤ fuel)%nat ∧ Inv (Rk := True) fuel (fuel - n) None w.
Proof.
  intros HP Hr. set (R := True : Risk). set (T := (λ _, True) : fault → Prop).
  assert (Tolerant T) as HT by done.
  pose proof (polite_passive P fuel HP (S depth)) as HPass. pose proof (polite_active P fuel HP depth) as HAct.
  induction Hr as [conf factory Ht|n w i w' Hr [Hn IH] Hen Hle Hex|n w a e w' Hr [Hn IH] Hen Hex].
  - split; [lia|]. rewrite Nat.sub_0_r. by apply Inv_init.
  - split; [done|]. replace (fuel - n)%nat with (fuel - (n + cost i) + cost i)%nat in IH by lia.
    pose proof (wp_input (CB := CBS) (T := T) (fuel - (n + cost i)) w i IH ltac:(lia) Hen (λ _, I)) as Hwp.
    unfold wpf in Hwp. by rewrite Hex in Hwp.
  - split; [done|]. replace (fuel - n)%nat with (fuel - n + cost (InUser a))%nat in IH by (simpl; lia).
    pose proof (wp_input (CB := CBS) (T := T) (fuel - n) w (InUser a) IH ltac:(simpl; lia) Hen (λ _, I)) as Hwp.
    unfold wpf in Hwp. by rewrite Hex in Hwp.
Qed.


(** The wire of a reachable state. *)
Lemma reach_tape n w c :
  polite P → reach P fuel depth n w → ∃ cl ids wr op, tape_ok cl (tape c (w_log w)) ids wr op.
Proof.
  intros HP Hr. destruct (reach_Inv n w HP Hr) as [_ Hi].
  destruct (w_conns w !! c) as [k|] eqn:Hk.
  - destruct (i_conn _ _ _ _ Hi c k Hk) as (sls & _ & _ & (_ & _ & Ht) & _). eauto.
  - rewrite (g_tapes _ (i_glob _ _ _ _ Hi) c Hk). exists false, [], false, None.
    split; simpl; try done; [constructor|]. exists [], []. by split_and!.
Qed.

(** C8: on every connection the response heads are written in the order in which
    the requests arrived, at most one for each request. *)
Theorem responses_in_order n w c :
  polite P → reach P fuel depth n w →
  sublist (heads (tape c (w_log w))) (arrived (tape c (w_log w))) ∧ NoDup (arrived (tape c (w_log w))).
Proof.
  intros HP Hr. destruct (reach_tape n w c HP Hr) as (cl & ids & wr & op & [Hn (gone & rest & Ha & Hs & _) _ _]).
  split; [|done]. rewrite Ha. etrans; [exact Hs|]. apply sublist_app; [done|].
  destruct wr; [|apply sublist_nil_l]. etrans; [apply sublist_take|]. by apply sublist_inserts_r.
Qed.

(** C29: chunks and the final chunk are written while their own response is the
    open one, and an interim 100 is written before the response of its request. *)
Theorem wire_framed n w c :
  polite P → reach P fuel depth n w → framed (tape c (w_log w)).
Proof. intros HP Hr. by destruct (reach_tape n w c HP Hr) as (cl & ids & wr & op & [_ _ Hf _]). Qed.

(** C30: every request ends exactly once: while it belongs to a connection it has not
    ended; when it has left, its finish event was fired once, and after it the
    drop event if it was received but not answered in full, or an error if its
    receipt was cut off, unless it was answered or its stream was handed over. *)
Theorem ends_once n w r q :
  polite P → reach P fuel depth n w → w_reqs w !! r = Some q →
  match sr_connection q with
  | Some _ => epilogue r (w_log w) = []
  | None => farewell r q (completed_of w q) (epilogue r (w_log w))
  end.
Proof.
  intros HP Hr Hq. destruct (reach_Inv n w HP Hr) as [_ Hi].
  pose proof (g_ended _ (i_glob _ _ _ _ Hi) r) as He. unfold ended in He. by rewrite Hq in He.
Qed.

(** C31: a request that points to a connection is in that connection's deque, and
    the connection is alive: it listens to its stream and the server holds it. The
    one exception is a request that outlived its connection, which had been shut
    down before. *)
Theorem no_dangling_connection n w r q c :
  polite P → reach P fuel depth n w → w_reqs w !! r = Some q → sr_connection q = Some c →
  ∃ k, w_conns w !! c = Some k ∧ r ∈ sc_requests k ∧
    (sc_listener k = true ∧ sv_connections (w_server w) !! sc_id k = Some c ∨ stranded w r).
Proof.
  intros HP Hr Hq Hc. destruct (reach_Inv n w HP Hr) as [_ Hi].
  destruct (i_live _ _ _ _ Hi r q c Hq Hc) as (k & Hk & Hin).
  destruct (i_conn _ _ _ _ Hi c k Hk) as (sls & Hs & _ & (Hb & _) & Hreg).
  exists k. split_and!; [done..|]. destruct (sc_listener k) eqn:Hl; [left; by split; [|apply Hreg]|right].
  assert (map slot_done sls ≠ []) as Hne by (destruct Hs; [by apply elem_of_nil in Hin|done]).
  destruct (cp_live _ _ _ _ _ _ Hb Hne) as [?|[Hd _]]; [congruence|by exists q, c, k].
Qed.

(** C32: the idle timer of a connection runs only while no request is in its deque:
    the [assert] of its listener holds. *)
Theorem idle_timer_idle n w c k :
  polite P → reach P fuel depth n w → w_conns w !! c = Some k → sc_idle_timer k = Some true →
  sc_requests k = [].
Proof.
  intros HP Hr Hk Ht. destruct (reach_Inv n w HP Hr) as [_ Hi].
  destruct (i_conn _ _ _ _ Hi c k Hk) as (sls & Hs & _ & (Hb & _) & _).
  pose proof (cp_timer _ _ _ _ _ _ Hb Ht) as Hn. destruct sls; [|done].
  by apply Forall2_nil_inv_r in Hs.
Qed.

Lemma front_done_app l1 d l2 : front_done (l1 ++ d :: l2) → l2 ≠ [] → d = true.
Proof.
  induction l1 as [|d1 l1 IH]; cbn [app front_done].
  - destruct l2; [done|]. by intros [-> _].
  - destruct (l1 ++ d :: l2) eqn:E; [by destruct l1|]. intros [_ Hf]. by apply IH.
Qed.

(** C19: the deque of a connection and the pointers of its requests say the same: it
    holds every request that points to the connection, once, and no other; all but
    the last were received in full; and a request is marked to finish when it is
    received exactly when it is the first one and its response is complete. *)
Theorem deque_agrees n w c k :
  polite P → reach P fuel depth n w → w_conns w !! c = Some k →
  NoDup (sc_requests k) ∧
  (∀ r, r ∈ sc_requests k ↔ ∃ q, w_reqs w !! r = Some q ∧ sr_connection q = Some c) ∧
  (∀ l1 r l2 q, sc_requests k = l1 ++ r :: l2 → w_reqs w !! r = Some q →
     (l2 ≠ [] → sr_is_done q = true) ∧
     sr_finish_on_receive q = bool_decide (l1 = []) && completed_of w q).
Proof.
  intros HP Hr Hk. destruct (reach_Inv n w HP Hr) as [_ Hi].
  destruct (i_conn _ _ _ _ Hi c k Hk) as (sls & Hs & Hn & (Hb & Hf & _) & _). split_and!; [done| |].
  - intros r. split.
    + intros Hin. apply list_elem_of_lookup in Hin as [j Hj]. destruct (Forall2_lookup_l _ _ _ _ _ Hs Hj) as (sl & _ & Hq & Hc & _).
      by exists sl.1.
    + intros (q & Hq & Hc). destruct (i_live _ _ _ _ Hi r q c Hq Hc) as (k' & Hk' & Hin). by simplify_eq.
  - intros l1 r l2 q Hl Hq. rewrite Hl in Hs.
    apply Forall2_app_inv_l in Hs as (s1 & s' & HA & Hs' & ->).
    apply Forall2_cons_inv_l in Hs' as ([q0 o] & s2 & Hsl & HB & ->).
    pose proof (completed_slot _ _ _ _ _ Hsl) as Hcomp. destruct Hsl as (Hq' & _ & _). simplify_eq. split.
    + intros Hne. pose proof (cp_done _ _ _ _ _ _ Hb) as Hd. rewrite map_app in Hd. cbn [map] in Hd.
      apply (front_done_app _ _ _ Hd). destruct s2; [|done]. by apply Forall2_nil_inv_r in HB.
    + destruct HA as [|r1 sl1 l1 s1 _ _]; cbn [app front_ok] in Hf.
      * rewrite bool_decide_true by done. destruct Hf as [Hf _]. cbn [fst]. by rewrite Hcomp, <-Hf.
      * rewrite bool_decide_false by done. destruct Hf as [_ Hf]. apply Forall_app in Hf as [_ Hf].
        by apply Forall_cons in Hf as [Hf _].
Qed.
End Safety.
