(* ===== verification/ServerSplit.v ===== *)
(** * Pipelined requests may come in one piece or in several

    A stream delivers its bytes in buffers of any size. When a buffer ends where a
    message ends, what follows it may as well have been part of it: reading both at
    once comes to the same state as reading one after the other, and reports the
    same to the user. *)
From S2P Require Import Prelude Errors Date Proto ServerState ServerOps ServerConn ServerMain ServerStep ServerInv ServerOwn ServerSpecs ServerFinish ServerUser ServerRecv ServerRead ServerProgram ServerSafety.
Local Open Scope Z_scope.

Lemma append_length s s' : String.length (s +:+ s') = (String.length s + String.length s')%nat.
Proof. induction s as [|a s IH]; [done|]. change (S (String.length (s +:+ s')) = S (String.length s + String.length s')). by rewrite IH. Qed.

Section Iteration.
Context `{HttpProto} `{!HttpProtoLaws} `{Env} `{CB : !Callbacks}.
Context (fuel : nat) (c : ConnId).
Implicit Types (w : World) (k : ServerConnection).
Local Abbreviation iter := (on_read_iter fuel c).
Local Abbreviation loop := (on_read_loop fuel).

Lemma on_read_loop_nil n : loop n c EmptyString = mret tt.
Proof. by destruct n. Qed.

Lemma on_read_loop_cons n buf :
  buf ≠ EmptyString →
  loop (S n) c buf = (next ← iter buf; match next with None => mret tt | Some rest => loop n c rest end).
Proof. by destruct buf. Qed.

(** The request object that a piece of input goes to. *)
Definition fill (k : ServerConnection) (p : PState) (new : bool) (msg : ReqMsg) : M World ReqId :=
  r ← (if new then new_request c else deref (sc_current k));
  mod_req r (λ q, q <| sr_msg := msg |>) ;;
  mod_conn c (λ k, k <| sc_parser := p |> <| sc_current := Some r |>) ;;
  mret r.

Lemma parse_next_eq w k buf p new msg st err rest :
  w_conns w !! c = Some k →
  parse_shift (sc_limits k) (sc_parser k) buf = (p, (new, msg, st, err, rest)) →
  parse_next c buf w = (fill k p new msg ≫= λ r, mret (r, st, err, rest)) w.
Proof.
  intros Hk E. unfold parse_next. rewrite (bind_ok (a := k) (s' := w)).
  2: { unfold get_conn, mbind, M_bind, gets. by rewrite Hk. }
  rewrite E. unfold fill, mbind, M_bind.
  by destruct new; [destruct (new_request c w)|destruct (sc_current k)].
Qed.

(** The connection's parser and limits are not touched before the parser runs. *)
Lemma stop_idle_timer_conn w k :
  w_conns w !! c = Some k → ∃ w' k', stop_idle_timer c w = Ok tt w' ∧ w_conns w' !! c = Some k' ∧
    sc_parser k' = sc_parser k ∧ sc_limits k' = sc_limits k.
Proof.
  intros Hk. unfold stop_idle_timer. rewrite (bind_ok (a := k) (s' := w)).
  2: { unfold get_conn, mbind, M_bind, gets. by rewrite Hk. }
  destruct (sc_idle_timer k) as [b|]; [|by exists w, k].
  do 2 eexists. split_and!; [done|cbn; by rewrite lookup_alter_eq, Hk|done..].
Qed.

(** What follows the parser does the same whatever is left in the buffer. *)
Definition rest_of (rest : string) (o : outcome World (option string)) : outcome World (option string) :=
  match o with Ok (Some _) w => Ok (Some rest) w | x => x end.

Lemma iter_rest w k buf1 buf2 p new msg st err rest1 rest2 :
  w_conns w !! c = Some k →
  parse_shift (sc_limits k) (sc_parser k) buf1 = (p, (new, msg, st, err, rest1)) →
  parse_shift (sc_limits k) (sc_parser k) buf2 = (p, (new, msg, st, err, rest2)) →
  iter buf2 w = rest_of rest2 (iter buf1 w) ∧
  (∀ rest w', iter buf1 w = Ok (Some rest) w' → rest = rest1 ∧ err = None).
Proof.
  intros Hk E1 E2. destruct (stop_idle_timer_conn w k Hk) as (w0 & k0 & Es & Hk0 & Ep & El).
  rewrite <-Ep, <-El in E1, E2. unfold on_read_iter. rewrite !(bind_ok Es).
  pose proof (parse_next_eq w0 k0 buf1 p new msg st err rest1 Hk0 E1) as P1.
  pose proof (parse_next_eq w0 k0 buf2 p new msg st err rest2 Hk0 E2) as P2.
  clear E1 E2. unfold mbind, M_bind in *. rewrite P1, P2.
  destruct (fill k0 p new msg w0) as [r w1| |]; [|done..]. cbn.
  destruct (enqueue_parsed c r w1) as [[] w2| |]; [|done..].
  cbn. set (w3 := w2 <| w_reqs ::= _ |>). clearbody w3.
  destruct err as [e|].
  { by destruct (request_error fuel c r e w3) as [[]| |]. }
  destruct (state_le_headers st); [done|].
  destruct (get_conn c w3) as [k3 w4| |]; [|done..].
  destruct (get_req r w4) as [q w5| |]; [|done..].
  destruct (_ && _).
  { by destruct (request_error fuel c r (HttpErr upgrade_in_pipeline) w5) as [[]| |]. }
  destruct (route c r w5) as [[] w6| |]; [|done..].
  destruct (deliver r st w6) as [[] w7| |]; [|done..].
  destruct (state_is_done st); [|cbn; split; [done|by intros ? ? [= <- _]]].
  destruct (after_done fuel c r w7) as [[] w8| |]; [done| |done..].
  cbn. split; [done|]. by intros ? ? [= <- _].
Qed.

(** The loop's bound is not observable once it reaches the length of the buffer. *)
Lemma on_read_loop_bound : ∀ n n' buf w,
  (String.length buf ≤ n)%nat → (String.length buf ≤ n')%nat → loop n c buf w = loop n' c buf w.
Proof.
  induction n as [|n IH]; intros n' buf w Hn Hn'.
  { destruct buf; [by rewrite !on_read_loop_nil|simpl in Hn; lia]. }
  destruct (decide (buf = EmptyString)) as [->|Hne]; [by rewrite !on_read_loop_nil|].
  destruct n' as [|n']; [destruct buf; [done|simpl in Hn'; lia]|].
  rewrite !on_read_loop_cons by done. unfold mbind, M_bind.
  destruct (iter buf w) as [[rest|] w1| |] eqn:E; [|done..].
  assert (String.length rest < String.length buf)%nat as Hlt.
  { destruct (w_conns w !! c) as [k|] eqn:Hk.
    - destruct (parse_shift (sc_limits k) (sc_parser k) buf) as [p [[[[new msg] st] err] rest0]] eqn:Hp.
      destruct (iter_rest w k buf buf p new msg st err rest0 rest0 Hk Hp Hp) as [_ Hr].
      destruct (Hr rest w1 E) as [-> ->]. by destruct (parse_shift_shrinks _ _ _ _ _ _ _ _ Hne Hp).
    - unfold on_read_iter, stop_idle_timer, get_conn, mbind, M_bind, gets in E. by rewrite Hk in E. }
  apply IH; lia.
Qed.
End Iteration.

(** ** Reading what is cut at the end of a message *)

Section Split.
Context `{HttpProto} `{!HttpProtoLaws} `{!OneMessageParser} `{Env} `{!EnvLaws} `{CB : !Callbacks}
  `{!PassiveCallbacks} `{Rk : Risk} {T : fault → Prop} (fuel : nat) `{!ActiveCallbacks T fuel} (c : ConnId).
Implicit Types (w : World) (k : ServerConnection).
Local Abbreviation inv room := (Inv fuel room (Some c)).

(** The connection takes input, and is between two messages. *)
Definition at_boundary w : Prop :=
  ∃ k, w_conns w !! c = Some k ∧ deliverable k = true ∧ parser_idle (sc_parser k) = true.

Lemma boundary_not_halted w : at_boundary w → ¬ halted c w.
Proof. intros (k & Hk & Hd & Hi) [(k' & Hk' & ?)|(k' & Hk' & ?)]; simplify_eq; congruence. Qed.

Lemma read_split room more w1 : at_boundary w1 → ∀ n w buf,
  (String.length buf ≤ n)%nat → inv (String.length buf + room) w →
  (buf ≠ EmptyString → ∃ k, w_conns w !! c = Some k ∧ readable k) →
  on_read_loop fuel n c buf w = Ok tt w1 →
  on_read fuel c (buf +:+ more) None w = on_read fuel c more None w1.
Proof.
  intros Hb. induction n as [|n IH]; intros w buf Hn Hi Hread Hex.
  { destruct buf; [|simpl in Hn; lia]. by injection Hex as ->. }
  destruct (decide (buf = EmptyString)) as [->|Hne].
  { rewrite on_read_loop_nil in Hex. by injection Hex as ->. }
  destruct (Hread Hne) as (k & Hk & Hr). rewrite on_read_loop_cons in Hex by done.
  assert (∃ m, String.length buf = S m) as [m Hm] by (destruct buf; [done|by eexists]).
  rewrite Hm in Hi. change (S m + room)%nat with (S (m + room)) in Hi.
  pose proof (wp_on_read_iter fuel c _ w k buf Hi Hk Hr Hne) as Hwp. unfold wpf in Hwp.
  unfold mbind, M_bind in Hex. destruct (on_read_iter fuel c buf w) as [next w2| |] eqn:E; [|done..].
  destruct Hwp as (Hi2 & _ & Hmore).
  destruct next as [rest|]; [|injection Hex as ->; by destruct (boundary_not_halted w1 Hb)].
  destruct Hmore as (Hlt & Hread2 & Hend).
  destruct (parse_shift (sc_limits k) (sc_parser k) buf) as [p [[[[new msg] st] err] rest0]] eqn:Hp.
  unfold parsed_state in Hend. rewrite Hp in Hend. cbn in Hend.
  destruct (decide (st = PsDone)) as [->|Hst].
  2: { destruct (Hend Hst) as [-> Hh]. rewrite on_read_loop_nil in Hex. injection Hex as ->.
       by destruct (boundary_not_halted w1 Hb). }
  destruct (parse_shift_more _ _ _ more _ _ _ PsDone _ _ Hne eq_refl Hp) as (rest' & Hp' & Hrest').
  destruct (iter_rest fuel c w k buf (buf +:+ more) _ _ _ _ _ _ _ Hk Hp Hp') as [Eit Hr2].
  destruct (Hr2 rest w2 E) as [-> ->]. rewrite E in Eit. cbn in Eit. rewrite (Hrest' eq_refl) in Eit.
  rewrite <-(IH w2 rest0); [|lia|eapply Inv_room; [|exact Hi2]; lia|done|done].
  unfold on_read. assert (buf +:+ more ≠ EmptyString) as Hne2 by by destruct buf.
  assert (String.length (buf +:+ more) = S (m + String.length more)) as Hlen by (rewrite append_length; lia).
  rewrite Hlen, on_read_loop_cons by done. unfold mbind, M_bind. rewrite Eit.
  apply on_read_loop_bound; rewrite append_length; lia.
Qed.
End Split.

Section Pipelining.
Context `{HttpProto} `{!HttpProtoLaws} `{!OneMessageParser} `{Env} `{!EnvLaws}.
Context (P : Program) (fuel depth : nat).
Local Abbreviation exec := (@exec_input _ _ (program_callbacks P fuel (S (S depth))) fuel).

(** Input is read by a connection that is held meanwhile. *)
Lemma exec_read room w c k buf :
  Inv (Rk := True) fuel room None w → w_conns w !! c = Some k → deliverable k = true →
  exec (InRead c buf None) w = @holding _ c (@on_read _ _ (program_callbacks P fuel (S (S depth))) fuel c buf None) w.
Proof.
  intros Hi Hk Hd. destruct (i_conn _ _ _ _ Hi c k Hk) as (sls & _ & _ & _ & Hreg).
  assert (alive c w = Ok tt w) as Ea.
  { rewrite (alive_at w c k Hk). unfold lives. by rewrite bool_decide_true by (by apply Hreg, deliverable_listener). }
  cbn [exec_input]. by rewrite (bind_ok Ea).
Qed.

Lemma holding_ok c (m : M World unit) w w' :
  holding c m w = Ok tt w' → ∃ w1, m (w <| w_held := Some c |>) = Ok tt w1 ∧ w' = w1 <| w_held := None |>.
Proof. unfold holding. destruct (m _) as [[] w1| |]; [|done..]. intros [= <-]. by exists w1. Qed.

(** C14: in every reachable state it makes no difference whether input comes in one
    buffer or in two, when the first one ends between two messages and leaves the
    connection open for more: the same state is reached, with the same reports to
    the user, answers and log, or the same exception is thrown. *)
Theorem pipelining_transparent n w c buf more w1 :
  polite P → reach P fuel depth n w → enabled w (InRead c buf None) →
  (n + String.length buf ≤ fuel)%nat →
  exec (InRead c buf None) w = Ok tt w1 → at_boundary c w1 →
  exec (InRead c (buf +:+ more) None) w = exec (InRead c more None) w1.
Proof.
  intros HP Hr Hen Hle Hex Hb. destruct (reach_Inv P fuel depth n w HP Hr) as [Hn Hi].
  destruct (reach_Inv P fuel depth _ w1 HP (reach_step _ _ _ _ _ (InRead c buf None) w1 Hr Hen Hle Hex)) as [_ Hi1].
  pose proof (polite_passive P fuel HP (S depth)) as HPass.
  set (R := True : Risk). set (T := (λ _, True) : fault → Prop). assert (@Tolerant R T) as HT by done.
  pose proof (polite_active P fuel HP depth (Tolerant0 := HT)) as HAct. destruct Hen as (k & Hk & Hd).
  rewrite (exec_read _ w c k _ Hi Hk Hd) in Hex. rewrite (exec_read _ w c k _ Hi Hk Hd). pose proof Hb as (k1 & Hk1 & Hd1 & _).
  rewrite (exec_read _ w1 c k1 _ Hi1 Hk1 Hd1). apply holding_ok in Hex as (w2 & Hex & ->).
  assert (sc_closing k = true → parser_idle (sc_parser k) = false) as Hcl.
  { intros Hc. destruct (i_conn _ _ _ _ Hi c k Hk) as (sls & _ & _ & (Hs & _) & _).
    by apply (cp_not_more _ _ _ _ _ _ Hs). }
  apply (Inv_busy _ _ c) in Hi.
  replace (fuel - n)%nat with (String.length buf + (fuel - n - String.length buf))%nat in Hi by lia.
  assert (w_held w2 = Some c) as Eh.
  { pose proof (wp_on_read_loop (ActiveCallbacks0 := HAct) fuel c (String.length buf) _ _ buf (le_n _) Hi) as Hwp. unfold wpf in Hwp.
    unfold on_read in Hex. rewrite Hex in Hwp. apply Hwp; [|intros _; exists k; split; [done|by left]].
    intros k' Hk' Hc _. change (w_conns w !! c = Some k') in Hk'. simplify_eq. auto. }
  unfold holding. rewrite (read_split (ActiveCallbacks0 := HAct) fuel c _ more w2 Hb _ _ buf (le_n _) Hi); [|intros _; exists k; split; [done|by left]|exact Hex].
  assert (w2 <| w_held := None |> <| w_held := Some c |> = w2) as -> by (destruct w2; cbn in Eh; by subst). done.
Qed.
End Pipelining.
