(* ===== verification/ServerTyping.v ===== *)
(** * The objects of the server are well typed

    For every user program, polite or not: pointers lead to objects that exist, the
    machine integers keep their width, callbacks are handed objects that exist; and
    what an object has gone through is never undone. *)
From stdpp Require Import sorting.
From S2P Require Import Prelude Errors Date Proto ServerState ServerOps ServerConn ServerMain ServerStep Typing ServerOwn ServerFinish.
Local Open Scope Z_scope.

Definition is_u64 (n : Z) : Prop := 0 ≤ n < 2 ^ 64.

Lemma u64_is n : is_u64 (u64 n).
Proof. apply Z.mod_pos_bound. lia. Qed.

Lemma elem_of_tail' {A} (a : A) l : a ∈ tail l → a ∈ l.
Proof. destruct l; [done|]. by right. Qed.

Section Typed.
Context `{HttpProto}.
Implicit Types (w : World) (k : ServerConnection) (q : ServerRequest) (x : ServerResponse).

Definition has_conn w (c : ConnId) : Prop := is_Some (w_conns w !! c).
Definition has_req w (r : ReqId) : Prop := is_Some (w_reqs w !! r).
Definition has_res w (s : ResId) : Prop := is_Some (w_ress w !! s).

Record conn_typed w k : Prop := {
  ct_requests : ∀ r, r ∈ sc_requests k → has_req w r;
  ct_current : ∀ r, sc_current k = Some r → has_req w r;
  ct_processed : is_u64 (sc_requests_processed k);
  ct_id : is_u64 (sc_id k)
}.

Record req_typed w q : Prop := {
  qt_connection : ∀ c, sr_connection q = Some c → has_conn w c;
  qt_response : ∀ s, sr_response q = Some s → has_res w s
}.

Definition res_typed w x : Prop := ∀ r, rs_request x = Some r → has_req w r.

Definition event_typed w (ev : Event) : Prop :=
  match ev with
  | EvRoute r | EvRequest r | EvError r _ | EvReceive r | EvPartial r _ | EvDrop r _ | EvFinish r => has_req w r
  | EvConnect c => has_conn w c
  | EvRun | EvStop => True
  end.
Definition wire_typed w (d : Wire) : Prop :=
  match d with
  | WHead r s _ => has_req w r ∧ has_res w s
  | WChunk s _ | WFinal s _ => has_res w s
  | WContinue r _ => has_req w r
  end.
Definition obs_typed w (o : Obs) : Prop :=
  match o with
  | OWrite c d => has_conn w c ∧ wire_typed w d
  | OReadIgnore c | OShutdown c | ODisconnect c | OReset c | OTimerOnce c _ | OTimerStop c => has_conn w c
  | OEvent ev => event_typed w ev
  | OArrive c r => has_conn w c ∧ has_req w r
  | OListen _ | OUnlink _ => True
  end.

(** The server holds its connections under their own numbers. *)
Definition server_typed w : Prop :=
  ∀ id c, sv_connections (w_server w) !! id = Some c → ∃ k, w_conns w !! c = Some k ∧ sc_id k = id.

Record well_typed w : Prop := {
  ty_conn : ∀ c k, w_conns w !! c = Some k → conn_typed w k;
  ty_req : ∀ r q, w_reqs w !! r = Some q → req_typed w q;
  ty_res : ∀ s x, w_ress w !! s = Some x → res_typed w x;
  ty_server : server_typed w;
  ty_lastid : is_u64 (w_lastid w);
  ty_log : ∀ o, o ∈ w_log w → obs_typed w o
}.

(** ** What is never undone *)

(** A connection that ends does not come back to life. *)
Record conn_grown k k' : Prop := {
  cg_id : sc_id k' = sc_id k;
  cg_secure : sc_secure k' = sc_secure k;
  cg_limits : sc_limits k' = sc_limits k;
  cg_closing : sc_closing k → sc_closing k';
  cg_stopping : sc_stopping k → sc_stopping k';
  cg_ignored : sc_ignored k → sc_ignored k';
  cg_disconnected : sc_disconnected k → sc_disconnected k';
  cg_listener : sc_listener k' → sc_listener k
}.

(** A request leaves its connection for good, and keeps the response it was given. *)
Record req_grown q q' : Prop := {
  qg_connection : ∀ c, sr_connection q' = Some c → sr_connection q = Some c;
  qg_response : ∀ s, sr_response q = Some s → sr_response q' = Some s;
  qg_routed : sr_routed q → sr_routed q';
  qg_partial : sr_partial q → sr_partial q'
}.

Definition res_grown x x' : Prop := rs_completed x → rs_completed x'.

Record grown w w' : Prop := {
  gr_conn : ∀ c k, w_conns w !! c = Some k → ∃ k', w_conns w' !! c = Some k' ∧ conn_grown k k';
  gr_req : ∀ r q, w_reqs w !! r = Some q → ∃ q', w_reqs w' !! r = Some q' ∧ req_grown q q';
  gr_res : ∀ s x, w_ress w !! s = Some x → ∃ x', w_ress w' !! s = Some x' ∧ res_grown x x';
  gr_log : ∃ l, w_log w' = l ++ w_log w
}.

#[export] Instance conn_grown_preorder : PreOrder conn_grown.
Proof. split; [by split|]. intros k1 k2 k3 [] []. split; [congruence..|auto|auto|auto|auto|auto]. Qed.
#[export] Instance req_grown_preorder : PreOrder req_grown.
Proof. split; [by split|]. intros q1 q2 q3 [] []. split; auto. Qed.
#[export] Instance grown_preorder : PreOrder grown.
Proof.
  split.
  - intros w. split; [| | |by exists []]; intros c k Hk; exists k; split; done || reflexivity || by intros ?.
  - intros w1 w2 w3 [C1 Q1 S1 [l1 L1]] [C2 Q2 S2 [l2 L2]]. split.
    + intros c k (k' & Hk' & G1)%C1. apply C2 in Hk' as (k'' & Hk'' & G2). exists k''. split; [done|by etrans].
    + intros c k (k' & Hk' & G1)%Q1. apply Q2 in Hk' as (k'' & Hk'' & G2). exists k''. split; [done|by etrans].
    + intros c k (k' & Hk' & G1)%S1. apply S2 in Hk' as (k'' & Hk'' & G2). exists k''. split; [done|]. intros ?; auto.
    + exists (l2 ++ l1). by rewrite L2, L1, app_assoc.
Qed.

#[export] Instance server_typing : StoreTyping World := { typed := well_typed; extends := grown }.

(** What exists goes on to exist. *)
Lemma has_conn_grown w w' c : extends w w' → has_conn w c → has_conn w' c.
Proof. intros [] [k Hk]. destruct (gr_conn0 _ _ Hk) as (k' & ? & _). by exists k'. Qed.
Lemma has_req_grown w w' c : extends w w' → has_req w c → has_req w' c.
Proof. intros [] [k Hk]. destruct (gr_req0 _ _ Hk) as (k' & ? & _). by exists k'. Qed.
Lemma has_res_grown w w' c : extends w w' → has_res w c → has_res w' c.
Proof. intros [] [k Hk]. destruct (gr_res0 _ _ Hk) as (k' & ? & _). by exists k'. Qed.

#[local] Hint Resolve has_conn_grown has_req_grown has_res_grown : core.

Lemma conn_typed_grown w w' k : extends w w' → conn_typed w k → conn_typed w' k.
Proof. intros He []. split; eauto. Qed.
Lemma req_typed_grown w w' q : extends w w' → req_typed w q → req_typed w' q.
Proof. intros He []. split; eauto. Qed.
Lemma res_typed_grown w w' x : extends w w' → res_typed w x → res_typed w' x.
Proof. intros He Hx r Hr. eauto. Qed.
Lemma event_typed_grown w w' ev : extends w w' → event_typed w ev → event_typed w' ev.
Proof. intros He. destruct ev; cbn; eauto. Qed.
Lemma obs_typed_grown w w' o : extends w w' → obs_typed w o → obs_typed w' o.
Proof.
  intros He. destruct o as [c d| | | | | | |ev| | |]; cbn; eauto; [|by apply event_typed_grown|naive_solver].
  intros [? Hd]. split; [by eauto|]. destruct d; cbn in *; naive_solver.
Qed.
Lemma server_typed_grown w w' :
  extends w w' → sv_connections (w_server w') = sv_connections (w_server w) → server_typed w → server_typed w'.
Proof.
  intros [] Es Hs id c. rewrite Es. intros (k & Hk & Hid)%Hs. destruct (gr_conn0 _ _ Hk) as (k' & Hk' & []).
  exists k'. split; [done|congruence].
Qed.
End Typed.

#[export] Hint Resolve has_conn_grown has_req_grown has_res_grown conn_typed_grown req_typed_grown
  res_typed_grown event_typed_grown obs_typed_grown
  ct_requests ct_current ct_processed ct_id qt_connection qt_response u64_is elem_of_tail' : grown.

(** ** The stores *)

Section Stores.
Context `{HttpProto}.
Implicit Types (w : World) (k : ServerConnection) (q : ServerRequest) (x : ServerResponse).

(** A state that has grown is typed when what changed is. *)
Lemma typed_update w w' :
  typed w → extends w w' →
  (∀ c k, w_conns w' !! c = Some k → w_conns w !! c = Some k ∨ conn_typed w' k) →
  (∀ r q, w_reqs w' !! r = Some q → w_reqs w !! r = Some q ∨ req_typed w' q) →
  (∀ s x, w_ress w' !! s = Some x → w_ress w !! s = Some x ∨ res_typed w' x) →
  server_typed w' → is_u64 (w_lastid w') →
  (∀ o, o ∈ w_log w' → o ∈ w_log w ∨ obs_typed w' o) → typed w'.
Proof.
  intros [] He Hc Hr Hs Hsrv Hid Hl. split; [| | |done..|].
  - intros c k [Hk|Hk]%Hc; [eauto with grown|done].
  - intros c k [Hk|Hk]%Hr; [eauto with grown|done].
  - intros c k [Hk|Hk]%Hs; [eauto with grown|done].
  - intros o [Ho|Ho]%Hl; [eauto with grown|done].
Qed.

Lemma grown_same w w' :
  w_conns w' = w_conns w → w_reqs w' = w_reqs w → w_ress w' = w_ress w →
  (∃ l, w_log w' = l ++ w_log w) → extends w w'.
Proof.
  intros Ec Er Es El. split; [rewrite Ec|rewrite Er|rewrite Es|done];
    intros c k Hk; exists k; split; done || reflexivity || by intros ?.
Qed.

(** *** Reading *)

Lemma keeps_get_conn {B} c (f : ServerConnection → M World B) Q w :
  typed w → (∀ k, w_conns w !! c = Some k → has_conn w c → conn_typed w k → keeps (f k) Q w) →
  keeps (get_conn c ≫= f) Q w.
Proof.
  intros [] Hf. apply keeps_assoc, keeps_gets, keeps_deref. intros k Hk. apply Hf; [done|by exists k|by eapply ty_conn0].
Qed.

Lemma keeps_get_req {B} r (f : ServerRequest → M World B) Q w :
  typed w → (∀ q, w_reqs w !! r = Some q → has_req w r → req_typed w q → keeps (f q) Q w) →
  keeps (get_req r ≫= f) Q w.
Proof.
  intros [] Hf. apply keeps_assoc, keeps_gets, keeps_deref. intros k Hk. apply Hf; [done|by exists k|by eapply ty_req0].
Qed.

Lemma keeps_get_res {B} s (f : ServerResponse → M World B) Q w :
  typed w → (∀ x, w_ress w !! s = Some x → has_res w s → res_typed w x → keeps (f x) Q w) →
  keeps (get_res s ≫= f) Q w.
Proof.
  intros [] Hf. apply keeps_assoc, keeps_gets, keeps_deref. intros k Hk. apply Hf; [done|by exists k|by eapply ty_res0].
Qed.

Lemma keeps_get_server {B} (f : Server → M World B) Q w :
  keeps (f (w_server w)) Q w → keeps (get_server ≫= f) Q w.
Proof. done. Qed.

(** *** Writing *)

Lemma extends_conn w c f :
  (∀ k, w_conns w !! c = Some k → conn_grown k (f k)) → extends w (w <| w_conns ::= alter f c |>).
Proof.
  intros Hf. split; [|intros r q Hq; by exists q|intros s x Hx; exists x; by split; [|intros ?]|by exists []].
  intros c' k Hk. cbn. destruct (decide (c' = c)) as [->|].
  - rewrite lookup_alter_eq, Hk. exists (f k). by split; [|apply Hf].
  - rewrite lookup_alter_ne by done. by exists k.
Qed.

Lemma keeps_mod_conn c f w :
  typed w → (∀ k, w_conns w !! c = Some k → conn_typed w k → conn_grown k (f k) ∧ (∀ w', extends w w' → conn_typed w' (f k))) →
  keeps (mod_conn c f) anything w.
Proof.
  intros Ht Hf. assert (extends w (w <| w_conns ::= alter f c |>)) as He.
  { apply extends_conn. intros k Hk. apply Hf; [done|]. by eapply ty_conn. }
  apply keeps_modify; [|done]. apply (typed_update w); [done|done| |by left|by left| |by apply Ht|by left].
  - cbn. intros c' k. destruct (decide (c' = c)) as [->|]; [|rewrite lookup_alter_ne by done; by left].
    rewrite lookup_alter_eq, fmap_Some. intros (k0 & Hk0 & ->). right. eapply Hf; [done|by eapply ty_conn|done].
  - eapply server_typed_grown; [done|done|by apply Ht].
Qed.

Lemma extends_req w r f :
  (∀ q, w_reqs w !! r = Some q → req_grown q (f q)) → extends w (w <| w_reqs ::= alter f r |>).
Proof.
  intros Hf. split; [intros c k Hk; by exists k| |intros s x Hx; exists x; by split; [|intros ?]|by exists []].
  intros r' q Hq. cbn. destruct (decide (r' = r)) as [->|].
  - rewrite lookup_alter_eq, Hq. exists (f q). by split; [|apply Hf].
  - rewrite lookup_alter_ne by done. by exists q.
Qed.

Lemma keeps_mod_req r f w :
  typed w → (∀ q, w_reqs w !! r = Some q → req_typed w q → req_grown q (f q) ∧ (∀ w', extends w w' → req_typed w' (f q))) →
  keeps (mod_req r f) anything w.
Proof.
  intros Ht Hf. assert (extends w (w <| w_reqs ::= alter f r |>)) as He.
  { apply extends_req. intros q Hq. apply Hf; [done|]. by eapply ty_req. }
  apply keeps_modify; [|done]. apply (typed_update w); [done|done|by left| |by left| |by apply Ht|by left].
  - cbn. intros r' q. destruct (decide (r' = r)) as [->|]; [|rewrite lookup_alter_ne by done; by left].
    rewrite lookup_alter_eq, fmap_Some. intros (q0 & Hq0 & ->). right. eapply Hf; [done|by eapply ty_req|done].
  - eapply server_typed_grown; [done|done|by apply Ht].
Qed.

Lemma extends_res w s f :
  (∀ x, w_ress w !! s = Some x → res_grown x (f x)) → extends w (w <| w_ress ::= alter f s |>).
Proof.
  intros Hf. split; [intros c k Hk; by exists k|intros r q Hq; by exists q| |by exists []].
  intros s' x Hx. cbn. destruct (decide (s' = s)) as [->|].
  - rewrite lookup_alter_eq, Hx. exists (f x). by split; [|apply Hf].
  - rewrite lookup_alter_ne by done. exists x. by split; [|intros ?].
Qed.

Lemma keeps_mod_res s f w :
  typed w → (∀ x, res_grown x (f x) ∧ (∀ r, rs_request (f x) = Some r → rs_request x = Some r ∨ has_req w r)) →
  keeps (mod_res s f) anything w.
Proof.
  intros Ht Hf. assert (extends w (w <| w_ress ::= alter f s |>)) as He.
  { apply extends_res. intros x _. apply Hf. }
  apply keeps_modify; [|done]. apply (typed_update w); [done|done|by left|by left| | |by apply Ht|by left].
  - cbn. intros s' x. destruct (decide (s' = s)) as [->|]; [|rewrite lookup_alter_ne by done; by left].
    rewrite lookup_alter_eq, fmap_Some. intros (x0 & Hx0 & ->). right. intros r Hr.
    apply (has_req_grown w); [done|]. apply Hf in Hr as [Hr|Hr]; [|done]. by eapply (ty_res w).
  - eapply server_typed_grown; [done|done|by apply Ht].
Qed.

Lemma keeps_mod_server f w :
  typed w →
  (∀ id c, sv_connections (f (w_server w)) !! id = Some c →
     sv_connections (w_server w) !! id = Some c ∨ ∃ k, w_conns w !! c = Some k ∧ sc_id k = id) →
  keeps (mod_server f) anything w.
Proof.
  intros Ht Hf. assert (extends w (w <| w_server ::= f |>)) as He by (apply grown_same; [done..|by exists []]).
  apply keeps_modify; [|done].
  apply (typed_update w); [done|done|by left|by left|by left| |by apply Ht|by left].
  intros id c [Hc|Hc]%Hf; [|done]. by apply (ty_server w).
Qed.

Lemma keeps_log o w : typed w → (∀ w', extends w w' → obs_typed w' o) → keeps (log o) anything w.
Proof.
  intros Ht Ho. assert (extends w (w <| w_log ::= cons o |>)) as He by (apply grown_same; [done..|by exists [o]]).
  apply keeps_modify; [|done]. apply (typed_update w); [done|done|by left|by left|by left| |by apply Ht|].
  - eapply server_typed_grown; [done|done|by apply Ht].
  - cbn. intros o' [->|Ho']%elem_of_cons; [right; by apply Ho|by left].
Qed.

(** *** New objects *)

Lemma insert_grown {A} (R : A → A → Prop) `{!Reflexive R} (m : gmap nat A) (a y : A) i :
  m !! i = Some y → ∃ y', <[fresh_key m := a]> m !! i = Some y' ∧ R y y'.
Proof.
  intros Hi. exists y. split; [|reflexivity]. rewrite lookup_insert_ne; [done|].
  intros <-. by rewrite fresh_key_None in Hi.
Qed.

Lemma insert_cases {A} (m : gmap nat A) (a y : A) i j :
  <[i := a]> m !! j = Some y → m !! j = Some y ∨ j = i ∧ y = a.
Proof. intros [[-> ->]|[_ ?]]%lookup_insert_Some; [by right|by left]. Qed.

#[local] Instance res_grown_refl : Reflexive res_grown.
Proof. by intros x ?. Qed.

Lemma keeps_alloc_req q w : typed w → req_typed w q → keeps (alloc_req q) (λ r w', has_req w' r) w.
Proof.
  intros Ht Hq. set (r := fresh_key (w_reqs w)).
  assert (extends w (w <| w_reqs ::= <[r := q]> |>)) as He.
  { split; [intros c k Hk; by exists k|intros r' q'; by apply insert_grown, _|intros s x Hx; by exists x|by exists []]. }
  apply keeps_gets. apply (keeps_bind (λ _ w', has_req w' r)).
  - unfold keeps. cbn. split_and!; [|done|eexists; apply lookup_insert_eq].
    apply (typed_update w); [done|done|by left| |by left| |by apply Ht|by left].
    + intros r' q' [Hq'|[_ ->]]%insert_cases; [by left|right]. by eapply req_typed_grown.
    + eapply server_typed_grown; [done|done|by apply Ht].
  - intros [] w' Ht' _ Hr. by apply keeps_ret.
Qed.

Lemma keeps_alloc_res x w : typed w → res_typed w x → keeps (alloc_res x) (λ s w', has_res w' s) w.
Proof.
  intros Ht Hx. set (s := fresh_key (w_ress w)).
  assert (extends w (w <| w_ress ::= <[s := x]> |>)) as He.
  { split; [intros c k Hk; by exists k|intros r q Hq; by exists q|intros s' x'; by apply insert_grown, _|by exists []]. }
  apply keeps_gets. apply (keeps_bind (λ _ w', has_res w' s)).
  - unfold keeps. cbn. split_and!; [|done|eexists; apply lookup_insert_eq].
    apply (typed_update w); [done|done|by left|by left| | |by apply Ht|by left].
    + intros s' x' [Hx'|[_ ->]]%insert_cases; [by left|right]. by eapply res_typed_grown.
    + eapply server_typed_grown; [done|done|by apply Ht].
  - intros [] w' Ht' _ Hr. by apply keeps_ret.
Qed.

Lemma keeps_alloc_conn k w :
  typed w → conn_typed w k →
  keeps (alloc_conn k) (λ c w', ∃ k', w_conns w' !! c = Some k' ∧ conn_typed w' k' ∧ sc_id k' = sc_id k) w.
Proof.
  intros Ht Hk. set (c := fresh_key (w_conns w)).
  assert (extends w (w <| w_conns ::= <[c := k]> |>)) as He.
  { split; [intros c' k'; by apply insert_grown, _|intros r q Hq; by exists q|intros s x Hx; by exists x|by exists []]. }
  assert (typed (w <| w_conns ::= <[c := k]> |>)) as Ht'.
  { apply (typed_update w); [done|done| |by left|by left| |by apply Ht|by left].
    + intros c' k' [Hk'|[_ ->]]%insert_cases; [by left|right]. by eapply conn_typed_grown.
    + eapply server_typed_grown; [done|done|by apply Ht]. }
  unfold keeps. cbn. split_and!; [done|done|]. exists k.
  split_and!; [apply lookup_insert_eq| |done]. by eapply conn_typed_grown.
Qed.
End Stores.

(** ** Walking through code *)

(** What is known of the pointers at hand. *)
Ltac known :=
  first
  [ eassumption
  | match goal with
    | Hq : req_typed ?w ?q, E : sr_connection ?q = Some ?c |- has_conn ?w ?c => exact (qt_connection _ _ Hq _ E)
    | Hq : req_typed ?w ?q, E : sr_response ?q = Some ?s |- has_res ?w ?s => exact (qt_response _ _ Hq _ E)
    | Hx : res_typed ?w ?x, E : rs_request ?x = Some ?r |- has_req ?w ?r => exact (Hx _ E)
    | Hk : conn_typed ?w ?k, E : sc_current ?k = Some ?r |- has_req ?w ?r => exact (ct_current _ _ Hk _ E)
    | Hk : conn_typed ?w ?k, E : sc_requests ?k = ?r :: _ |- has_req ?w ?r =>
        apply (ct_requests _ _ Hk); rewrite E; left
    | Hk : conn_typed ?w ?k, E : last (sc_requests ?k) = Some ?r |- has_req ?w ?r =>
        apply (ct_requests _ _ Hk); by apply last_Some_elem_of
    end
  | eapply has_conn_grown; [eassumption|known]
  | eapply has_req_grown; [eassumption|known]
  | eapply has_res_grown; [eassumption|known] ].

(** What was known before a step is known after it. *)
Ltac lift_to He :=
  match type of He with
  | extends ?w ?w' =>
      repeat match goal with
      | Hx : has_conn w _ |- _ => apply (has_conn_grown _ _ _ He) in Hx
      | Hx : has_req w _ |- _ => apply (has_req_grown _ _ _ He) in Hx
      | Hx : has_res w _ |- _ => apply (has_res_grown _ _ _ He) in Hx
      | Hx : conn_typed w _ |- _ => apply (conn_typed_grown _ _ _ He) in Hx
      | Hx : req_typed w _ |- _ => apply (req_typed_grown _ _ _ He) in Hx
      | Hx : res_typed w _ |- _ => apply (res_typed_grown _ _ _ He) in Hx
      end
  end.

(** A record that was updated is typed, and has grown out of what it was. *)
Ltac field := cbn; first
  [ done
  | by eauto with grown
  | intros; simplify_eq; by eauto with grown
  | let r := fresh in intros r; rewrite ?elem_of_app, ?list_elem_of_singleton, ?elem_of_cons; naive_solver (eauto with grown) ].
Ltac update :=
  intros; split;
  [ first [split | idtac]; field
  | first [ (let w' := fresh "w" in let He := fresh "He" in intros w' He; lift_to He; split; field)
          | field ] ].

#[export] Hint Extern 1 (typed _) => eassumption : keeps.
#[export] Hint Extern 1 (has_conn _ _) => known : keeps.
#[export] Hint Extern 1 (has_req _ _) => known : keeps.
#[export] Hint Extern 1 (has_res _ _) => known : keeps.

(** One primitive step or one call. *)
Ltac call :=
  idtac; lazymatch goal with
  | |- keeps (mod_conn _ _) _ _ => apply keeps_mod_conn; [known|try solve [update]]
  | |- keeps (mod_req _ _) _ _ => apply keeps_mod_req; [known|try solve [update]]
  | |- keeps (mod_res _ _) _ _ => apply keeps_mod_res; [known|try solve [update]]
  | |- keeps (mod_server _) _ _ =>
      apply keeps_mod_server; [known|cbn; first [by left | by intros ? ? [_ ?]%lookup_delete_Some; left]]
  | |- keeps (log _) _ _ => apply keeps_log; [known|intros ? ?; cbn; repeat split; known]
  | |- _ => first [solve [eauto 3 with keeps] | eapply keeps_anything; solve [eauto 3 with keeps]]
  end.

Ltac next := keeps_next lift_to.
Ltac walk_step :=
  lazymatch goal with
  | |- keeps (get_conn _ ≫= _) _ _ => apply keeps_get_conn; [known|intros ? ? ? ?]
  | |- keeps (get_req _ ≫= _) _ _ => apply keeps_get_req; [known|intros ? ? ? ?]
  | |- keeps (get_res _ ≫= _) _ _ => apply keeps_get_res; [known|intros ? ? ? ?]
  | |- keeps (get_server ≫= _) _ _ => apply keeps_get_server
  | |- _ => keeps_step known lift_to call
  end; cbv beta.
Ltac walk := repeat walk_step.
