(* ===== verification/ServerTyped.v ===== *)
(** * Every operation keeps the objects of the server well typed

    One lemma per operation of the server, for any code of the user that keeps the
    stores typed itself ([TypedCallbacks]); programs do, so that it holds of all
    their runs. *)
From stdpp Require Import sorting.
From S2P Require Import Prelude Errors Date Proto ServerState ServerOps ServerConn ServerMain ServerStep Typing ServerOwn ServerFinish ServerTyping.
Local Open Scope Z_scope.

(** ** The operations *)

(** What the user's code promises: to keep the stores typed. *)
Class TypedCallbacks `{HttpProto} `{!Callbacks} : Prop := {
  fire_typed : ∀ ev w, typed w → event_typed w ev → keeps (fire ev) anything w;
  factory_typed : ∀ c w, typed w → has_conn w c → keeps (factory_new_request c) (λ r w', has_req w' r) w
}.

Section Operations.
Context `{HttpProto} `{Env} `{CB : !Callbacks} `{!TypedCallbacks}.
Context (fuel : nat).
Implicit Types (w : World).

Lemma emit_typed ev w : typed w → (∀ w', extends w w' → event_typed w' ev) → keeps (emit ev) anything w.
Proof.
  intros Ht Hev. unfold emit. apply (keeps_bind anything); [by apply keeps_log|].
  intros [] w' Ht' He _. apply fire_typed; [done|by apply Hev].
Qed.
Hint Extern 1 (keeps (emit _) _ _) => apply emit_typed; [known|intros ? ?; cbn; first [exact I|known]] : keeps.

Lemma stop_if_done_typed w : typed w → keeps stop_if_done anything w.
Proof. intros Ht. unfold stop_if_done. walk. Qed.
Hint Resolve stop_if_done_typed : keeps.

Lemma remove_typed c w : typed w → keeps (remove c) anything w.
Proof. intros Ht. unfold remove. walk. 

Qed.
Hint Resolve remove_typed : keeps.

Lemma date_header_now_typed w : typed w → keeps date_header_now anything w.
Proof. intros Ht. unfold date_header_now. walk. Qed.
Hint Resolve date_header_now_typed : keeps.

Lemma stop_idle_timer_typed c w : typed w → has_conn w c → keeps (stop_idle_timer c) anything w.
Proof. intros Ht Hc. unfold stop_idle_timer. walk. Qed.
Lemma start_idle_timer_typed c w : typed w → has_conn w c → keeps (start_idle_timer c) anything w.
Proof. intros Ht Hc. unfold start_idle_timer. walk. Qed.
Lemma read_ignore_typed c w : typed w → has_conn w c → keeps (read_ignore c) anything w.
Proof. intros Ht Hc. unfold read_ignore. walk. Qed.
Lemma unlisten_typed c w : typed w → has_conn w c → keeps (unlisten c) anything w.
Proof. intros Ht Hc. unfold unlisten. walk. Qed.
Hint Resolve stop_idle_timer_typed start_idle_timer_typed read_ignore_typed unlisten_typed : keeps.

Lemma front_typed c w : typed w → has_conn w c → keeps (front c) (λ r w', has_req w' r) w.
Proof. intros Ht Hc. unfold front. walk. Qed.
Hint Resolve front_typed : keeps.

Lemma check_if_idle_typed c w : typed w → has_conn w c → keeps (check_if_idle c) anything w.
Proof. intros Ht Hc. unfold check_if_idle. walk. Qed.
Hint Resolve check_if_idle_typed : keeps.

Lemma cleanup_request_typed c w : typed w → has_conn w c → keeps (cleanup_request c) anything w.
Proof. intros Ht Hc. unfold cleanup_request. walk.
Qed.
Hint Resolve cleanup_request_typed : keeps.

Lemma response_completed_typed q w : typed w → keeps (response_completed q) anything w.
Proof. intros Ht. unfold response_completed. walk. Qed.
Hint Resolve response_completed_typed : keeps.

Lemma notify_dropped_typed r err w : typed w → keeps (notify_dropped r err) anything w.
Proof. intros Ht. unfold notify_dropped. walk. Qed.
Hint Resolve notify_dropped_typed : keeps.

Lemma drop_requests_typed n c err : ∀ w, typed w → has_conn w c → keeps (drop_requests n c err) anything w.
Proof. induction n as [|n IH]; intros w Ht Hc; cbn [drop_requests]; walk. Qed.
Hint Resolve drop_requests_typed : keeps.

Lemma do_close_typed c err soft w : typed w → has_conn w c → keeps (do_close fuel c err soft) anything w.
Proof. intros Ht Hc. unfold do_close. walk. Qed.
Lemma close_typed c err w : typed w → has_conn w c → keeps (close fuel c err) anything w.
Proof. apply do_close_typed. Qed.
Lemma shutdown_typed c err w : typed w → has_conn w c → keeps (shutdown fuel c err) anything w.
Proof. apply do_close_typed. Qed.
Hint Resolve close_typed shutdown_typed : keeps.

Lemma conn_graceful_stop_typed c w : typed w → has_conn w c → keeps (conn_graceful_stop fuel c) anything w.
Proof. intros Ht Hc. unfold conn_graceful_stop. walk. Qed.
Hint Resolve conn_graceful_stop_typed : keeps.

(** *** Responses *)

Lemma write_chunk_typed c s chunk w :
  typed w → has_conn w c → has_res w s → keeps (write_chunk c s chunk) anything w.
Proof. intros Ht Hc Hs. unfold write_chunk, stream_write. walk. Qed.
Lemma prepare_head_typed s w : typed w → keeps (prepare_head s) anything w.
Proof. intros Ht. unfold prepare_head. walk. Qed.
Lemma take_chunks_typed s w : typed w → keeps (take_chunks s) anything w.
Proof. intros Ht. unfold take_chunks. walk. Qed.
Lemma write_head_typed c r s w : typed w → has_conn w c → keeps (write_head c r s) anything w.
Proof. intros Ht Hc. unfold write_head, stream_write. walk. Qed.
Hint Resolve write_chunk_typed prepare_head_typed take_chunks_typed write_head_typed : keeps.

Lemma close_after_response_typed c r w :
  typed w → has_conn w c → keeps (close_after_response fuel c r) anything w.
Proof. intros Ht Hc. unfold close_after_response. walk. Qed.
Hint Resolve close_after_response_typed : keeps.

Lemma write_next_with_typed c finish w :
  typed w → has_conn w c → (∀ w', typed w' → has_conn w' c → keeps finish anything w') →
  keeps (write_next_response_with fuel finish c) anything w.
Proof. intros Ht Hc Hfin. unfold write_next_response_with. walk. Qed.

Lemma finish_with_typed c next w :
  typed w → has_conn w c → (∀ w', typed w' → has_conn w' c → keeps next anything w') →
  keeps (finish_request_with fuel next c) anything w.
Proof. intros Ht Hc Hnext. unfold finish_request_with. walk. Qed.

Lemma finish_request_n_typed n c : ∀ w, typed w → has_conn w c → keeps (finish_request_n fuel n c) anything w.
Proof.
  induction n as [|n IH]; intros w Ht Hc; [done|]. cbn [finish_request_n].
  apply finish_with_typed; [done..|]. intros w1 Ht1 Hc1. by apply write_next_with_typed.
Qed.
Lemma finish_request_typed c w : typed w → has_conn w c → keeps (finish_request fuel c) anything w.
Proof. apply finish_request_n_typed. Qed.
Lemma write_next_typed c w : typed w → has_conn w c → keeps (write_next_response fuel c) anything w.
Proof. intros Ht Hc. apply write_next_with_typed; [done..|]. apply finish_request_typed. Qed.
Hint Resolve finish_request_typed write_next_typed : keeps.

Lemma respond_typed c r s w :
  typed w → has_conn w c → has_res w s → keeps (respond fuel c r s) anything w.
Proof. intros Ht Hc Hs. unfold respond. walk.
Qed.
Hint Resolve respond_typed : keeps.

Lemma assert_requests_typed c w : typed w → keeps (assert_requests c) anything w.
Proof. intros Ht. unfold assert_requests. walk. Qed.
Hint Resolve assert_requests_typed : keeps.

Lemma conn_send_continue_typed c r w : typed w → has_conn w c → keeps (conn_send_continue c r) anything w.
Proof. intros Ht Hc. unfold conn_send_continue, stream_write. walk. Qed.
Lemma conn_send_chunk_typed c s chunk w :
  typed w → has_conn w c → has_res w s → keeps (conn_send_chunk c s chunk) anything w.
Proof. intros Ht Hc Hs. unfold conn_send_chunk. walk. Qed.
Lemma conn_send_final_chunk_typed c s chunk w :
  typed w → has_conn w c → has_res w s → keeps (conn_send_final_chunk fuel c s chunk) anything w.
Proof. intros Ht Hc Hs. unfold conn_send_final_chunk, stream_write. walk. Qed.
Lemma conn_upgrade_typed c r w : typed w → has_conn w c → keeps (conn_upgrade c r) anything w.
Proof. intros Ht Hc. unfold conn_upgrade. walk. Qed.
Hint Resolve conn_send_continue_typed conn_send_chunk_typed conn_send_final_chunk_typed conn_upgrade_typed : keeps.

(** *** Receiving *)

Lemma default_error_response_typed code w :
  typed w → keeps (default_error_response code) (λ s w', has_res w' s) w.
Proof.
  intros Ht. unfold default_error_response. walk.
  apply keeps_alloc_res; [done|]. intros r Hr. discriminate Hr.
Qed.
Hint Resolve default_error_response_typed : keeps.

Lemma request_error_typed c r err w :
  typed w → has_conn w c → has_req w r → keeps (request_error fuel c r err) anything w.
Proof. intros Ht Hc Hr. unfold request_error. walk. Qed.
Hint Resolve request_error_typed : keeps.

Lemma on_connection_typed c err w : typed w → has_conn w c → keeps (on_connection fuel c err) anything w.
Proof. intros Ht Hc. unfold on_connection. walk. Qed.

Lemma new_request_typed c w : typed w → has_conn w c → keeps (new_request c) (λ r w', has_req w' r) w.
Proof.
  intros Ht Hc. unfold new_request, new_ServerRequest. walk; [by apply factory_typed|].
  apply keeps_alloc_req; [done|]. split; [|done]. cbn. intros c' [= <-]. done.
Qed.
Hint Resolve new_request_typed : keeps.

Lemma back_typed c w : typed w → has_conn w c → keeps (back c) (λ r w', has_req w' r) w.
Proof. intros Ht Hc. unfold back. walk. Qed.
Lemma back_is_done_typed c w : typed w → keeps (back_is_done c) anything w.
Proof. intros Ht. unfold back_is_done. walk. Qed.
Lemma emplace_back_typed c r w : typed w → has_conn w c → has_req w r → keeps (emplace_back c r) anything w.
Proof. intros Ht Hc Hr. unfold emplace_back. walk. Qed.
Hint Resolve back_typed back_is_done_typed emplace_back_typed : keeps.

Lemma on_read_error_typed c err w : typed w → has_conn w c → keeps (on_read_error fuel c err) anything w.
Proof. intros Ht Hc. unfold on_read_error. walk. Qed.
Hint Resolve on_connection_typed on_read_error_typed : keeps.

Lemma parse_next_typed c buf w :
  typed w → has_conn w c → keeps (parse_next c buf) (λ o w', has_req w' o.1.1.1) w.
Proof.
  intros Ht Hc. unfold parse_next. walk_step.
  destruct (parse_shift _ _ _) as [p [[[[new msg] st] err] rest]].
  apply (keeps_bind (λ r w', has_req w' r)); [|next; walk].
  destruct new; [by apply new_request_typed|]. apply keeps_deref_tail; [done|]. intros r Hr. known.
Qed.
Hint Resolve parse_next_typed : keeps.

Lemma enqueue_parsed_typed c r w : typed w → has_conn w c → has_req w r → keeps (enqueue_parsed c r) anything w.
Proof. intros Ht Hc Hr. unfold enqueue_parsed. walk. Qed.
Lemma route_typed c r w : typed w → has_req w r → keeps (route c r) anything w.
Proof. intros Ht Hr. unfold route. walk. Qed.
Lemma deliver_typed r st w : typed w → has_req w r → keeps (deliver r st) anything w.
Proof. intros Ht Hr. unfold deliver. walk. Qed.
Lemma after_done_typed c r w : typed w → has_conn w c → keeps (after_done fuel c r) anything w.
Proof. intros Ht Hc. unfold after_done. walk. Qed.
Hint Resolve enqueue_parsed_typed route_typed deliver_typed after_done_typed : keeps.

Lemma on_read_iter_typed c buf w : typed w → has_conn w c → keeps (on_read_iter fuel c buf) anything w.
Proof.
  intros Ht Hc. unfold on_read_iter. walk_step. eapply keeps_bind; [by apply parse_next_typed|].
  intros [[[r st] err] rest] w1 Ht1 He1 Hr. lift_to He1. clear He1. cbn in Hr. walk.
Qed.
Hint Resolve on_read_iter_typed : keeps.

Lemma on_read_loop_typed n c : ∀ buf w, typed w → has_conn w c → keeps (on_read_loop fuel n c buf) anything w.
Proof. induction n as [|n IH]; intros buf w Ht Hc; destruct buf; cbn [on_read_loop]; walk. Qed.
Hint Resolve on_read_loop_typed : keeps.

Lemma on_read_typed c buf err w : typed w → has_conn w c → keeps (on_read fuel c buf err) anything w.
Proof. intros Ht Hc. unfold on_read. walk. Qed.
Lemma on_write_typed c err w : typed w → has_conn w c → keeps (on_write fuel c err) anything w.
Proof. intros Ht Hc. unfold on_write. walk. Qed.
Lemma on_shutdown_typed c w : typed w → has_conn w c → keeps (on_shutdown c) anything w.
Proof. intros Ht Hc. unfold on_shutdown. walk. Qed.
Lemma on_eof_typed c w : typed w → has_conn w c → keeps (on_eof fuel c) anything w.
Proof. intros Ht Hc. unfold on_eof. walk. Qed.
Lemma on_idle_timer_typed c w : typed w → has_conn w c → keeps (on_idle_timer fuel c) anything w.
Proof. intros Ht Hc. unfold on_idle_timer. walk. Qed.

(** *** The methods of requests and responses *)

Lemma alive_typed c w : typed w → keeps (alive c) anything w.
Proof. intros Ht. unfold alive. walk. Qed.
Hint Resolve alive_typed : keeps.

Lemma req_respond_typed r s w : typed w → has_res w s → keeps (req_respond fuel r s) anything w.
Proof. intros Ht Hs. unfold req_respond. walk. Qed.
Hint Resolve req_respond_typed : keeps.
Lemma req_send_continue_typed r w : typed w → keeps (req_send_continue r) anything w.
Proof. intros Ht. unfold req_send_continue. walk. Qed.
Lemma req_redirect_typed r uri w : typed w → keeps (req_redirect fuel r uri) anything w.
Proof.
  intros Ht. unfold req_redirect. apply (keeps_bind (λ s w', has_res w' s)); [|next; walk].
  apply keeps_alloc_res; [done|]. intros r' Hr. discriminate Hr.
Qed.
Lemma req_drop_typed r w : typed w → keeps (req_drop fuel r) anything w.
Proof. intros Ht. unfold req_drop. walk. Qed.
Lemma req_upgrade_typed r w : typed w → keeps (req_upgrade r) anything w.
Proof. intros Ht. unfold req_upgrade. walk. Qed.
Lemma enable_partial_typed r w : typed w → keeps (enable_partial r) anything w.
Proof. intros Ht. unfold enable_partial. walk. Qed.
Lemma response_connection_typed x w :
  typed w → res_typed w x → keeps (response_connection x) (λ oc w', ∀ c, oc = Some c → has_conn w' c) w.
Proof. intros Ht Hx. unfold response_connection. walk; intros c Hc; first [discriminate Hc|known]. Qed.
Lemma res_send_chunk_typed s chunk w : typed w → has_res w s → keeps (res_send_chunk s chunk) anything w.
Proof.
  intros Ht Hs. unfold res_send_chunk. walk_step. destruct (rs_completed _); [by apply keeps_throw|].
  eapply keeps_bind; [by apply response_connection_typed|]. intros [c|] w1 Ht1 He1 Hc; lift_to He1.
  - specialize (Hc c eq_refl). walk.
  - walk.
Qed.
Lemma res_send_final_chunk_typed s chunk w : typed w → has_res w s → keeps (res_send_final_chunk fuel s chunk) anything w.
Proof.
  intros Ht Hs. unfold res_send_final_chunk. walk_step. destruct (rs_completed _); [by apply keeps_throw|].
  eapply keeps_bind; [by apply response_connection_typed|]. intros [c|] w1 Ht1 He1 Hc; lift_to He1.
  - specialize (Hc c eq_refl). walk.
  - walk.
Qed.
Hint Resolve req_send_continue_typed req_redirect_typed req_drop_typed req_upgrade_typed enable_partial_typed
  res_send_chunk_typed res_send_final_chunk_typed : keeps.

(** *** The server *)

Lemma stop_listening_typed w : typed w → keeps stop_listening anything w.
Proof. intros Ht. unfold stop_listening. walk. Qed.
Hint Resolve stop_listening_typed : keeps.
Lemma make_listener_typed loc w : typed w → keeps (make_listener loc) anything w.
Proof. intros Ht. unfold make_listener. walk. Qed.
Hint Resolve make_listener_typed : keeps.
Lemma listen_all_typed todo : ∀ visited w, typed w → keeps (listen_all visited todo) anything w.
Proof. induction todo as [|loc todo IH]; intros visited w Ht; cbn [listen_all]; walk. Qed.
Hint Resolve listen_all_typed : keeps.
Lemma start_listening_typed w : typed w → keeps start_listening anything w.
Proof. intros Ht. unfold start_listening. walk. Qed.
Hint Resolve start_listening_typed : keeps.
Lemma configure_typed conf w : typed w → keeps (configure conf) anything w.
Proof. intros Ht. unfold configure. walk. Qed.
Lemma run_typed w : typed w → keeps run anything w.
Proof. intros Ht. unfold run. walk. Qed.
Hint Resolve configure_typed run_typed : keeps.

Lemma row_has_conn w id c : typed w → (id, c) ∈ connection_rows (sv_connections (w_server w)) → has_conn w c.
Proof.
  intros Ht. unfold connection_rows. rewrite merge_sort_Permutation. intros Hc%elem_of_map_to_list.
  destruct (ty_server w Ht id c Hc) as (k & Hk & _). by exists k.
Qed.

Lemma close_all_typed err n : ∀ w, typed w → keeps (close_all fuel n err) anything w.
Proof.
  induction n as [|n IH]; intros w Ht; cbn [close_all]; walk_step.
  all: destruct (connection_rows _) as [|[id c] l] eqn:Hrows; [by apply keeps_ret|].
  all: assert (has_conn w c) by (apply (row_has_conn w id); [done|rewrite Hrows; left]).
  all: walk.
Qed.
Hint Resolve close_all_typed : keeps.
Lemma close_connections_typed err w : typed w → keeps (close_connections fuel err) anything w.
Proof. intros Ht. unfold close_connections. walk. Qed.
Hint Resolve close_connections_typed : keeps.
Lemma stop_typed w : typed w → keeps (stop fuel) anything w.
Proof. intros Ht. unfold stop. walk. Qed.
Lemma graceful_stop_typed w : typed w → keeps (graceful_stop fuel) anything w.
Proof.
  intros Ht. unfold graceful_stop. walk_step. destruct (negb _); [by apply keeps_ret|].
  walk_step. walk_step. walk_step.
  assert (∀ c, c ∈ (connection_rows (sv_connections (w_server w'0))).*2 → has_conn w'0 c) as Hrows.
  { intros c ([id c'] & -> & Hc)%list_elem_of_fmap. by apply (row_has_conn w'0 id). }
  apply (keeps_bind anything); [|next; walk].
  apply keeps_for_each; [done|]. intros c w2 Hc Ht2 He. apply conn_graceful_stop_typed; [done|].
  eapply has_conn_grown; [exact He|by apply Hrows].
Qed.
Hint Resolve stop_typed graceful_stop_typed : keeps.

Definition numbered w (c : ConnId) (id : Z) : Prop := ∃ k, w_conns w !! c = Some k ∧ sc_id k = id.
Lemma numbered_grown w w' c id : extends w w' → numbered w c id → numbered w' c id.
Proof. intros Hg (k & Hk & <-). destruct (gr_conn _ _ Hg _ _ Hk) as (k' & Hk' & []). by exists k'. Qed.

Lemma new_connection_typed id factory secure conf w :
  typed w → is_u64 id →
  keeps (new_connection id factory secure conf) (λ c w', numbered w' c id) w.
Proof.
  intros Ht Hid. unfold new_connection. walk_step.
  eapply keeps_bind; [apply keeps_alloc_conn; [done|]|].
  { split; cbn; [intros r Hr; by apply elem_of_nil in Hr|done|done|done]. }
  intros c w1 Ht1 He1 (k & Hk & Hkt & Eid). cbn in Eid.
  apply (keeps_bind (λ _ w', numbered w' c id)).
  - destruct (negb _); [|apply keeps_ret; [done|by exists k]].
    eapply keeps_mono; [apply start_idle_timer_typed; [done|by exists k]|].
    intros [] w2 Ht2 He2 _.
    by apply (numbered_grown w1); [|exists k].
  - intros [] w2 Ht2 _ Hn. by apply keeps_ret.
Qed.

Lemma on_establish_typed secure err w : typed w → keeps (on_establish secure err) anything w.
Proof.
  intros Ht. unfold on_establish. destruct err; [by apply keeps_ret|]. walk_step.
  apply (keeps_bind (λ _ w', typed w')).
  { set (w1 := w <| w_lastid ::= λ n, u64 (n + 1) |>).
    assert (extends w w1) as He by (apply grown_same; [done..|by exists []]).
    assert (typed w1) as Ht1.
    { apply (typed_update w); [done|done|by left|by left|by left| |apply u64_is|by left].
      eapply server_typed_grown; [done|done|by apply Ht]. }
    by split_and!. }
  intros [] w1 Ht1 _ _. walk_step.
  eapply keeps_bind; [apply new_connection_typed; [done|by apply ty_lastid]|].
  intros c w2 Ht2 _ Hn. assert (has_conn w2 c) as Hc by (destruct Hn as (k & Hk & _); by exists k).
  apply (keeps_bind anything); [|next; walk].
  apply keeps_mod_server; [done|]. cbn. intros id c' [[<- <-]|[_ ?]]%lookup_insert_Some; [by right|by left].
Qed.

(** *** The user and the environment *)

Lemma on_req_typed r m w : typed w → (has_req w r → keeps m anything w) → keeps (on_req r m) anything w.
Proof. intros Ht Hm. unfold on_req. walk_step. destruct (w_reqs w !! r) eqn:E; [apply Hm; by eexists|by apply keeps_ret]. Qed.
Lemma on_res_typed s m w : typed w → (has_res w s → keeps m anything w) → keeps (on_res s m) anything w.
Proof. intros Ht Hm. unfold on_res. walk_step. destruct (w_ress w !! s) eqn:E; [apply Hm; by eexists|by apply keeps_ret]. Qed.
Lemma on_conn_typed c m w : typed w → (has_conn w c → keeps m anything w) → keeps (on_conn c m) anything w.
Proof. intros Ht Hm. unfold on_conn. walk_step. destruct (w_conns w !! c) eqn:E; [apply Hm; by eexists|by apply keeps_ret]. Qed.

Lemma exec_action_typed a w : typed w → keeps (exec_action fuel a) anything w.
Proof.
  intros Ht. destruct a; cbn [exec_action]; try solve [walk];
    repeat first [apply on_req_typed; [done|intros ?]|apply on_res_typed; [done|intros ?]|apply on_conn_typed; [done|intros ?]];
    try solve [walk].
  unfold respond_new. apply (keeps_bind (λ s w', has_res w' s)); [|next; walk].
  apply keeps_alloc_res; [done|]. intros r' Hr. discriminate Hr.
Qed.

(** Who holds a connection is no matter of types. *)
Lemma held_typed o w : typed w → typed (w <| w_held := o |>) ∧ extends w (w <| w_held := o |>).
Proof.
  intros Ht. assert (extends w (w <| w_held := o |>)) as He by (apply grown_same; [done..|by exists []]).
  split; [|done]. apply (typed_update w); [done|done|by left|by left|by left| |by apply Ht|by left].
  eapply server_typed_grown; [done|done|by apply Ht].
Qed.

Lemma holding_typed c m w :
  typed w → (∀ w', typed w' → extends w w' → keeps m anything w') → keeps (holding c m) anything w.
Proof.
  intros Ht Hm. destruct (held_typed (Some c) w Ht) as [Ht1 He1]. specialize (Hm _ Ht1 He1).
  unfold keeps, holding in *. destruct (m _) as [a w'|e w'|f]; [| |done].
  - destruct Hm as (Ht2 & He2 & _). destruct (held_typed None w' Ht2). split_and!; [done| |done].
    etrans; [exact He1|by etrans].
  - destruct Hm as [Ht2 He2]. destruct (held_typed None w' Ht2). split; [done|]. etrans; [exact He1|by etrans].
Qed.

(** Events come from streams and timers that exist. *)
Definition input_exists w (i : Input) : Prop :=
  match i with
  | InConnection c _ | InRead c _ _ | InWrite c _ | InShutdown c | InEof c | InIdleTimer c => has_conn w c
  | _ => True
  end.

Lemma exec_input_typed i w : typed w → input_exists w i → keeps (exec_input fuel i) anything w.
Proof.
  intros Ht Hi. destruct i as [secure err|c err|c buf err|c err|c|c|c|now time|a]; cbn [exec_input input_exists] in *.
  - by apply on_establish_typed.
  - apply (keeps_bind anything); [by apply alive_typed|next]. apply on_connection_typed; known.
  - apply (keeps_bind anything); [by apply alive_typed|next]. apply holding_typed; [done|].
    intros w2 Ht2 He2. lift_to He2. apply on_read_typed; known.
  - apply (keeps_bind anything); [by apply alive_typed|next]. apply on_write_typed; known.
  - apply (keeps_bind anything); [by apply alive_typed|next]. apply on_shutdown_typed; known.
  - apply (keeps_bind anything); [by apply alive_typed|next]. apply on_eof_typed; known.
  - by apply on_idle_timer_typed.
  - set (w1 := w <| w_now := now |> <| w_time := time |>).
    assert (extends w w1) as He by (apply grown_same; [done..|by exists []]).
    apply keeps_modify; [|done]. apply (typed_update w); [done|done|by left|by left|by left| |by apply Ht|by left].
    eapply server_typed_grown; [done|done|by apply Ht].
  - by apply exec_action_typed.
Qed.
End Operations.

(** The user's code is made of calls into the library, so that it keeps what the
    library keeps. *)
Section Programs.
Context `{HttpProto} `{Env}.
Implicit Types (P : Program) (w : World).

Lemma new_ServerRequest_typed c w :
  typed w → has_conn w c → keeps (new_ServerRequest c) (λ r w', has_req w' r) w.
Proof.
  intros Ht Hc. unfold new_ServerRequest. walk_step. apply keeps_alloc_req; [done|].
  split; [|done]. cbn. intros c' [= <-]. done.
Qed.

#[export] Instance program_callbacks_typed P fuel n : @TypedCallbacks _ (program_callbacks P fuel n).
Proof.
  split; [|intros c w; by apply new_ServerRequest_typed].
  cbn. induction n as [|n IH]; intros ev w Ht Hev; cbn [program_fire]; [done|].
  apply keeps_for_each; [done|]. intros a w1 _ Ht1 _.
  apply @exec_action_typed; [|done]. split; [exact IH|intros c w2; by apply new_ServerRequest_typed].
Qed.

(** Every run, of every program, with any bounds. *)
Inductive any_run P fuel depth : World → Prop :=
| any_init conf factory : any_run P fuel depth (init_world conf factory)
| any_step w i w' :
    any_run P fuel depth w → input_exists w i →
    (@exec_input _ _ (program_callbacks P fuel depth) fuel i w = Ok tt w' ∨
     ∃ e, @exec_input _ _ (program_callbacks P fuel depth) fuel i w = Throw e w') →
    any_run P fuel depth w'.

Lemma init_typed conf factory : typed (init_world conf factory).
Proof.
  split; cbn; try (intros ? ?; rewrite lookup_empty; discriminate).
  - intros id c. cbn. rewrite lookup_empty. discriminate.
  - done.
  - intros o Ho. by apply elem_of_nil in Ho.
Qed.

(** Pointers lead to objects of the stores, and the server knows its connections by
    their numbers. *)
Lemma any_run_typed P fuel depth w : any_run P fuel depth w → well_typed w.
Proof.
  induction 1 as [conf factory|w i w' _ IH Hi Hstep]; [apply init_typed|].
  pose proof (exec_input_typed (CB := program_callbacks P fuel depth) fuel i w IH Hi) as Hk. unfold keeps in Hk.
  destruct Hstep as [E|[e E]]; rewrite E in Hk; apply Hk.
Qed.

(** C21: whatever the user's code does, one input undoes nothing: objects stay; a
    connection that closes, stops, ignores its input, was disconnected or is not
    listened to stays so; a request that left its connection belongs to no
    connection again and keeps the response it was given; a completed response stays
    completed; and what happened stays in the log. *)
Theorem server_only_grows P fuel depth w i w' :
  any_run P fuel depth w → input_exists w i →
  (@exec_input _ _ (program_callbacks P fuel depth) fuel i w = Ok tt w' ∨
   ∃ e, @exec_input _ _ (program_callbacks P fuel depth) fuel i w = Throw e w') →
  grown w w'.
Proof.
  intros Hrun Hi Hstep. apply any_run_typed in Hrun.
  pose proof (exec_input_typed (CB := program_callbacks P fuel depth) fuel i w Hrun Hi) as Hk. unfold keeps in Hk.
  destruct Hstep as [E|[e E]]; rewrite E in Hk; apply Hk.
Qed.
End Programs.
