(* ===== verification/ServerTypedRuns.v ===== *)
(** * Concrete runs of programs that are not polite

    What is undone by nothing where the safety theorem says nothing: a program closes
    the connection from [request_event]. *)
From S2P Require Import Prelude Errors Date Proto ServerState ServerOps ServerConn ServerMain ServerStep Sample Typing ServerTyping ServerTyped.
Local Open Scope Z_scope.

#[local] Instance input_exists_dec w i : Decision (input_exists w i).
Proof. destruct i; cbn [input_exists]; unfold has_conn; apply _. Defined.

(** The inputs one after another, whether a call returns or throws. *)
Fixpoint run_on (P : Program) (fuel depth : nat) (l : list Input) (w : World) : option World :=
  match l with
  | [] => Some w
  | i :: l =>
      if decide (input_exists w i) then
        match @exec_input _ _ (program_callbacks P fuel depth) fuel i w with
        | Ok _ w' | Throw _ w' => run_on P fuel depth l w'
        | Fault _ => None
        end
      else None
  end.

Lemma run_on_any P fuel depth l : ∀ w w',
  any_run P fuel depth w → run_on P fuel depth l w = Some w' → any_run P fuel depth w'.
Proof.
  induction l as [|i l IH]; intros w w' Hw; cbn [run_on]; [by intros [= <-]|].
  destruct (decide (input_exists w i)) as [Hi|]; [|done].
  destruct (exec_input fuel i w) as [[] w1|e w1|f] eqn:E; [| |done]; intros Hl; eapply IH; [|done| |done];
    eapply any_step; [done|done|by left|done|done|right; by exists e].
Qed.

(** Closes the connection when its first request has arrived. *)
Definition reckless : Program := λ ev _,
  match ev with EvRequest 1 => [AClose 1 (Some (StdErr operation_canceled))] | _ => [] end.
Definition start_world : World := init_world sample_config false.
Definition reckless_world : World :=
  default start_world (run_on reckless 20 4 [InUser ARun; InEstablish false None; InRead 1 "GG" None] start_world).

Lemma reckless_run : any_run reckless 20 4 reckless_world.
Proof.
  apply (run_on_any reckless 20 4 [InUser ARun; InEstablish false None; InRead 1 "GG" None] start_world); [constructor|].
  unfold reckless_world. destruct (run_on _ _ _ _ _) eqn:E; [done|]. vm_compute in E. discriminate E.
Qed.

(** The connection that is shut down after it was closed is still not listened to. *)
Lemma server_only_grows_witness :
  (sc_listener <$> w_conns reckless_world !! 1%nat) = Some false ∧
  ∃ w' k, @exec_input _ _ (program_callbacks reckless 20 4) 20 (InUser (AShutdown 1 (Some (StdErr operation_canceled)))) reckless_world = Ok tt w' ∧
    w_conns w' !! 1%nat = Some k ∧ ¬ sc_listener k.
Proof.
  split; [vm_compute; reflexivity|].
  destruct (@exec_input _ _ (program_callbacks reckless 20 4) 20 (InUser (AShutdown 1 (Some (StdErr operation_canceled)))) reckless_world) as [[] w'|e w'|f] eqn:E;
    [|vm_compute in E; discriminate E..].
  assert (input_exists reckless_world (InUser (AShutdown 1 (Some (StdErr operation_canceled))))) as Hi.
  { exact I. }
  destruct (server_only_grows reckless 20 4 reckless_world (InUser (AShutdown 1 (Some (StdErr operation_canceled)))) w' reckless_run Hi (or_introl E)) as [Hc _ _ _].
  destruct (w_conns reckless_world !! 1%nat) as [k|] eqn:Hk; [|vm_compute in Hk; discriminate Hk].
  destruct (Hc 1%nat k Hk) as (k' & Hk' & Hg). exists w', k'. split_and!; [done|done|].
  intros Hl. apply (cg_listener _ _ Hg) in Hl. vm_compute in Hk. injection Hk as <-. exact Hl.
Defined.
