(* ===== verification/ServerRuns.v ===== *)
(** * Concrete runs of the server

    The server of [Sample] with a user program that answers every request: the
    states used to show that the hypotheses of the safety theorems can hold. *)
From S2P Require Import Prelude Errors Date Proto ServerState ServerOps ServerConn ServerMain ServerStep Sample ServerInv ServerOwn ServerSpecs ServerRead ServerProgram ServerLife ServerSafety.
Local Open Scope Z_scope.

(** ** Deciding that an input is enabled *)

Section Check.
Context `{HttpProto} `{Env}.

Definition conn_test (w : World) (c : ConnId) (p : ServerConnection → bool) : bool :=
  match w_conns w !! c with Some k => p k | None => false end.

Definition enabledb (w : World) (i : Input) : bool :=
  match i with
  | InEstablish _ _ => w_lastid w + 1 <? 2 ^ 64
  | InConnection c _ | InWrite c _ | InEof c => conn_test w c sc_listener
  | InRead c _ _ => conn_test w c deliverable
  | InShutdown c => conn_test w c (λ k, sc_listener k && sc_disconnected k)
  | InIdleTimer c => conn_test w c (λ k, bool_decide (sc_idle_timer k = Some true))
  | InTick _ _ => true
  | InUser a => calm a || match a with ARun | AStop => true | _ => false end
  end.

Lemma enabledb_sound w i : enabledb w i = true → enabled w i.
Proof.
  assert (∀ c p, conn_test w c p = true → ∃ k, w_conns w !! c = Some k ∧ p k = true) as Hc.
  { unfold conn_test. intros c p. destruct (w_conns w !! c); [eauto|done]. }
  destruct i as [| | | |c| |c| |a]; cbn [enabledb enabled]; try by auto.
  - apply Z.ltb_lt.
  - by intros (k & Hk & [Hl Hr]%andb_true_iff)%Hc; exists k.
  - intros (k & Hk & Ht%bool_decide_eq_true)%Hc. eauto.
  - by destruct a.
Qed.

(** Running inputs and checking them on the way. *)
Fixpoint run_checked (P : Program) (fuel depth n : nat) (w : World) (l : list Input) : option (nat * World) :=
  match l with
  | [] => Some (n, w)
  | i :: l' =>
      if enabledb w i && Nat.leb (n + cost i) fuel then
        match @exec_input _ _ (program_callbacks P fuel (S (S depth))) fuel i w with
        | Ok _ w' => run_checked P fuel depth (n + cost i) w' l'
        | _ => None
        end
      else None
  end.

Lemma run_checked_reach P fuel depth l : ∀ n w n' w',
  reach P fuel depth n w → run_checked P fuel depth n w l = Some (n', w') → reach P fuel depth n' w'.
Proof.
  induction l as [|i l IH]; intros n w n' w' Hr; cbn [run_checked]; [by intros [= <- <-]|].
  destruct (_ && _) eqn:Hb; [|done]. apply andb_true_iff in Hb as [Hen Hle%Nat.leb_le].
  destruct (exec_input fuel i w) as [[] w1| |] eqn:Hex; [|done..].
  apply IH. eapply reach_step; [done|by apply enabledb_sound|done|done].
Qed.
End Check.

(** ** A program that answers every request *)

Definition ok_message (chunked : bool) : ResMsg SHeaders unit := {|
  rm_code := 0; rm_headers := []; rm_parts := if chunked then [] else ["hello"%string];
  rm_chunked := chunked; rm_http_version := 11; rm_message := "OK"%string; rm_codec := tt |}.

(** Requests with a body are answered with chunks, when they are routed. *)
Definition answering : Program := λ ev w,
  match ev with
  | EvRequest r =>
      match w_reqs w !! r with
      | Some q => match sr_response q with Some _ => [] | None => [ARespondNew r (ok_message false)] end
      | None => []
      end
  | _ => []
  end.

Lemma answering_polite : polite answering.
Proof.
  split.
  - by intros [] w.
  - intros [] w Hev; cbn [answering]; repeat case_match; repeat constructor.
  - by left.
  - by left.
Qed.

Definition start_world : World := init_world sample_config false.

Lemma start_reach fuel depth : reach answering fuel depth 0 start_world.
Proof. by apply reach_init. Qed.

(** Two pipelined requests, the second one with a body that is not complete. *)
Definition two_inputs : list Input :=
  [InUser ARun; InEstablish false None; InTick 5000 100; InRead 1%nat "GGPab" None].
Definition two_world : World :=
  match run_checked answering 20 0 0 start_world two_inputs with Some (_, w) => w | None => start_world end.

Lemma two_reach : reach answering 20 0 5 two_world.
Proof.
  eapply (run_checked_reach _ _ _ two_inputs 0 start_world); [apply start_reach|].
  vm_compute. reflexivity.
Qed.

(** A program that answers in chunks: the head when the request is routed, two
    chunks when it is received. *)
Definition chatting : Program := λ ev w,
  match ev with
  | EvRoute r => [ARespondNew r (ok_message true)]
  | EvRequest r =>
      match w_reqs w !! r with
      | Some q => match sr_response q with
                  | Some s => [ASendChunk s "one"; ASendFinalChunk s "two"]
                  | None => [] end
      | None => []
      end
  | _ => []
  end.

Lemma chatting_polite : polite chatting.
Proof.
  split.
  - by intros [] w.
  - intros [] w Hev; cbn [chatting]; repeat case_match; repeat constructor.
  - by left.
  - by left.
Qed.

Definition chat_inputs : list Input :=
  [InUser ARun; InEstablish false None; InTick 5000 100; InRead 1%nat "GPab" None].
Definition chat_world : World :=
  match run_checked chatting 20 0 0 start_world chat_inputs with Some (_, w) => w | None => start_world end.

Lemma chat_reach : reach chatting 20 0 4 chat_world.
Proof.
  eapply (run_checked_reach _ _ _ chat_inputs 0 start_world); [by apply reach_init|].
  vm_compute. reflexivity.
Qed.

(** ** The safety theorems apply to these runs *)

(** A request is answered before its body is complete, with the last answer of its
    connection; the rest of the body comes together with another request; the stream
    reports that the connection, which was shut down, is closed. *)
Definition hasty_message : ResMsg SHeaders unit := {|
  rm_code := 0; rm_headers := [("Connection", "close")]; rm_parts := ["bye"%string];
  rm_chunked := false; rm_http_version := 11; rm_message := "OK"%string; rm_codec := tt |}.
Definition silent_program : Program := λ _ _, [].

Lemma silent_polite : polite silent_program.
Proof. split; [done|constructor|by left|by left]. Qed.

Definition late_inputs : list Input :=
  [InUser ARun; InEstablish false None; InTick 5000 100; InRead 1%nat "Pab" None;
   InUser (ARespondNew 1 hasty_message); InRead 1%nat "c.G" None].
Definition stranded_inputs : list Input := late_inputs ++ [InShutdown 1%nat].
Definition run_silent (l : list Input) : World :=
  match run_checked silent_program 20 0 0 start_world l with Some (_, w) => w | None => start_world end.
Definition stranded_world : World := run_silent stranded_inputs.

Lemma stranded_reach : reach silent_program 20 0 6 stranded_world.
Proof.
  eapply (run_checked_reach _ _ _ stranded_inputs 0 start_world); [by apply reach_init|].
  vm_compute. reflexivity.
Qed.

Definition late_answer : Input := InUser (ARespondNew 2 (ok_message false)).


Lemma responses_in_order_witness :
  heads (tape 1%nat (w_log two_world)) = [1%nat; 2%nat] ∧
  arrived (tape 1%nat (w_log two_world)) = [1%nat; 2%nat; 3%nat] ∧
  sublist (heads (tape 1%nat (w_log two_world))) (arrived (tape 1%nat (w_log two_world))).
Proof.
  split; [vm_compute; reflexivity|]. split; [vm_compute; reflexivity|].
  exact (proj1 (responses_in_order answering 20 0 5 two_world 1%nat answering_polite two_reach)).
Defined.

Lemma wire_framed_witness :
  length (tape 1%nat (w_log chat_world)) = 6%nat ∧ framed (tape 1%nat (w_log chat_world)).
Proof.
  split; [vm_compute; reflexivity|].
  exact (wire_framed chatting 20 0 4 chat_world 1%nat chatting_polite chat_reach).
Defined.

Definition req_at (w : World) (r : nat) : ServerRequest :=
  match w_reqs w !! r with Some q => q | None => {| sr_connection := None; sr_server := false;
    sr_response := None; sr_routed := false; sr_partial := false; sr_finish_on_receive := false;
    sr_is_done := false; sr_is_secure := false; sr_msg := req_empty |} end.

Lemma no_dangling_connection_witness :
  sr_connection (req_at two_world 3) = Some 1%nat ∧
  ∃ k, w_conns two_world !! 1%nat = Some k ∧ 3%nat ∈ sc_requests k ∧
    (sc_listener k = true ∧ sv_connections (w_server two_world) !! sc_id k = Some 1%nat ∨ stranded two_world 3).
Proof.
  assert (w_reqs two_world !! 3%nat = Some (req_at two_world 3)) as Hq by (vm_compute; reflexivity).
  assert (sr_connection (req_at two_world 3) = Some 1%nat) as Hc by (vm_compute; reflexivity).
  split; [exact Hc|].
  exact (no_dangling_connection answering 20 0 5 two_world 3 (req_at two_world 3) 1
    answering_polite two_reach Hq Hc).
Defined.

Lemma deque_agrees_witness :
  (∃ k, w_conns two_world !! 1%nat = Some k ∧ 3%nat ∈ sc_requests k ∧ NoDup (sc_requests k)) ∧
  sr_connection (req_at two_world 3) = Some 1%nat.
Proof.
  assert (sr_connection (req_at two_world 3) = Some 1%nat) as Hc by (vm_compute; reflexivity).
  split; [|exact Hc]. destruct (w_conns two_world !! 1%nat) as [k|] eqn:Hk; [|vm_compute in Hk; discriminate Hk].
  destruct (deque_agrees answering 20 0 5 two_world 1 k answering_polite two_reach Hk) as (Hn & Hq & _).
  exists k. split; [reflexivity|]. split; [|exact Hn]. apply Hq. exists (req_at two_world 3).
  split; [vm_compute; reflexivity|exact Hc].
Defined.

(** The peer closes before the body of the third request is complete. *)
Definition cut_inputs : list Input := two_inputs ++ [InEof 1%nat].
Definition cut_world : World :=
  match run_checked answering 20 0 0 start_world cut_inputs with Some (_, w) => w | None => start_world end.

Lemma cut_reach : reach answering 20 0 5 cut_world.
Proof.
  eapply (run_checked_reach _ _ _ cut_inputs 0 start_world); [apply start_reach|].
  vm_compute. reflexivity.
Qed.

(** The first request was answered, the third one was cut off. *)
Lemma ends_once_witness :
  epilogue 3 (w_log cut_world) = [EvError 3 (Some (StdErr connection_reset)); EvFinish 3] ∧
  farewell 1 (req_at cut_world 1) true [EvFinish 1] ∧
  farewell 3 (req_at cut_world 3) (completed_of cut_world (req_at cut_world 3)) (epilogue 3 (w_log cut_world)).
Proof.
  assert (w_reqs cut_world !! 1%nat = Some (req_at cut_world 1)) as H1 by (vm_compute; reflexivity).
  assert (w_reqs cut_world !! 3%nat = Some (req_at cut_world 3)) as H3 by (vm_compute; reflexivity).
  split; [vm_compute; reflexivity|]. split.
  - exact (ends_once answering 20 0 5 cut_world 1 (req_at cut_world 1) answering_polite cut_reach H1).
  - exact (ends_once answering 20 0 5 cut_world 3 (req_at cut_world 3) answering_polite cut_reach H3).
Defined.

(** A connection that has answered its requests is idle. *)
Definition idle_inputs : list Input :=
  [InUser ARun; InEstablish false None; InTick 5000 100; InRead 1%nat "GG" None].
Definition idle_world : World :=
  match run_checked answering 20 0 0 start_world idle_inputs with Some (_, w) => w | None => start_world end.

Lemma idle_reach : reach answering 20 0 2 idle_world.
Proof.
  eapply (run_checked_reach _ _ _ idle_inputs 0 start_world); [apply start_reach|].
  vm_compute. reflexivity.
Qed.

Lemma idle_timer_idle_witness :
  ∃ k, w_conns idle_world !! 1%nat = Some k ∧ sc_idle_timer k = Some true ∧ sc_requests k = [].
Proof.
  destruct (w_conns idle_world !! 1%nat) as [k|] eqn:Hk; [|vm_compute in Hk; discriminate Hk].
  assert (sc_idle_timer k = Some true) as Ht by (vm_compute in Hk; injection Hk as <-; reflexivity).
  exists k. split; [reflexivity|]. split; [exact Ht|].
  exact (idle_timer_idle answering 20 0 2 idle_world 1%nat k answering_polite idle_reach Hk Ht).
Defined.
