(* ===== verification/ServerFacts.v ===== *)
(** * What the operations of the server do

    Contracts of the life cycle, of listening and configuring, of the Date header
    and of closing and upgrading a connection. *)
From S2P Require Import Prelude Errors Date Proto ServerState ServerOps ServerConn ServerMain ServerStep ServerInv ServerOwn ServerSpecs ServerFinish ServerUser ServerRecv ServerRead ServerProgram ServerEvents ServerLife ServerSafety.
From Stdlib Require Import Ascii.
Local Open Scope Z_scope.

(** ** Stopping *)

Section Stop.
Context `{HttpProto} `{!HttpProtoLaws} `{Env} `{!EnvLaws}.

End Stop.

(** ** The Date header *)

Section DateHeader.
Context `{Henv : Env}.
Context `{Hproto : HttpProto}.
Implicit Types (w : World).

(** Whether the text of the Date header is made anew at [now]: the comparison is
    one of unsigned numbers, so that it always is while the loop's clock is below a
    second. *)
Definition date_is_old (made now : Z) : bool := (made =? 0) || (now <? 1000) || (made + 1000 <=? now).

Lemma rfc822_date_total `{!EnvLaws} t : ∃ d, rfc822_date gmtime t = Some d.
Proof.
  pose proof (gmtime_wday t) as Hw. pose proof (gmtime_mon t) as Hm. unfold rfc822_date, rfc822_of_datetime.
  destruct (name_at_spec day_snames (dt_wday (gmtime t))) as (a & b & c & -> & _); [by right|simpl; lia|].
  destruct (name_at_spec month_snames (dt_mon (gmtime t))) as (x & y & z & -> & _); [by left|simpl; lia|].
  by eexists.
Qed.

(** C35: [Server::date_header_now] hands out the text it made less than a second ago,
    without a change, or makes it from the wall clock and remembers it. *)
Theorem date_header_cached `{!EnvLaws} w :
  0 ≤ sv_hdate_time (w_server w) ≤ w_now w → w_now w < 2 ^ 64 →
  ∃ d w', date_header_now w = Ok d w' ∧ sv_hdate_str (w_server w') = d ∧
    if date_is_old (sv_hdate_time (w_server w)) (w_now w)
    then rfc822_date gmtime (w_time w) = Some d ∧ sv_hdate_time (w_server w') = w_now w
    else w' = w.
Proof.
  intros Hmade Hnow. unfold date_header_now, get_server, gets, mod_server, modify, mbind, M_bind, mret, M_ret.
  assert ((sv_hdate_time (w_server w) =? 0) || (sv_hdate_time (w_server w) <=? u64 (w_now w - 1000)) =
    date_is_old (sv_hdate_time (w_server w)) (w_now w)) as ->.
  { unfold date_is_old, wrap. destruct (Z.ltb_spec (w_now w) 1000).
    - rewrite <-(Z.mod_add _ 1), Z.mod_small by lia. rewrite orb_true_r, orb_true_l.
      apply orb_true_iff. right. apply Z.leb_le. lia.
    - rewrite Z.mod_small by lia. rewrite orb_false_r. f_equal.
      apply eq_true_iff_eq. rewrite !Z.leb_le. lia. }
  destruct (date_is_old _ _); [|by eexists _, w].
  destruct (rfc822_date_total (w_time w)) as [d Hd]. cbn. rewrite Hd. by eexists d, _.
Qed.
End DateHeader.

(** ** Listening and configuring *)

Section Listening.
Context `{Hproto : HttpProto} `{Henv : Env}.
Implicit Types (w : World) (loc : Location) (lg : list Obs).

(** The listener for a location: a socket that is given decides itself whether it
    is a unix socket, and brings its path. *)
Definition listener_of loc : Listener :=
  match lc_sock loc with
  | Some fd =>
      match getsockname fd with
      | Some (Some path) => mkListener true (loc <| lc_path := path |>)
      | _ => mkListener false loc
      end
  | None => mkListener (negb (String.eqb (lc_path loc) EmptyString)) loc
  end.

(** What opening a location does, newest first: the file of a unix socket that is
    to be made is removed before. *)
Definition listen_obs loc : list Obs :=
  OListen (ls_location (listener_of loc)) ::
  match lc_sock loc with
  | None => if String.eqb (lc_path loc) EmptyString then [] else [OUnlink (lc_path loc)]
  | Some _ => []
  end.
Definition listened (l : list Location) : list Obs := concat (map listen_obs (rev l)).

(** The system refuses to open a location. *)
Definition refuses loc (e : exn) : Prop :=
  match lc_sock loc with Some fd => getsockname fd = None ∧ e = PandaException "bad expected access" | None => False end ∨
  ∃ lg, listen_error (ls_location (listener_of loc)) lg = Some e.

(** From [w], the locations [l] were opened and those of [rest] were not: nothing
    else has changed but the log. *)
Record opened w w' (l rest : list Location) : Prop := {
  op_server : w_server w' = (w_server w) <| sv_listeners := sv_listeners (w_server w) ++ map listener_of l |>
    <| sv_conf ::= λ c, c <| cf_locations := map (ls_location ∘ listener_of) l ++ rest |> |>;
  op_conns : w_conns w' = w_conns w;
  op_reqs : w_reqs w' = w_reqs w;
  op_ress : w_ress w' = w_ress w
}.

(** Only the log has changed. *)
Definition same_stores w w' : Prop :=
  w_server w' = w_server w ∧ w_conns w' = w_conns w ∧ w_reqs w' = w_reqs w ∧ w_ress w' = w_ress w.

Lemma listened_snoc l loc : listened (l ++ [loc]) = listen_obs loc ++ listened l.
Proof. unfold listened. by rewrite rev_app_distr. Qed.

(** One location: the listener, or the refusal. *)
Lemma wp_make_listener w loc (Q : Listener → World → Prop) E :
  Q (listener_of loc) (w <| w_log ::= app (listen_obs loc) |>) →
  (∀ e w', refuses loc e → same_stores w w' → E e w') →
  wp (make_listener loc) Q E w.
Proof.
  intros HQ HE. unfold make_listener, refuses, listen_obs, listener_of in *. apply wp_bind.
  destruct (lc_sock loc) as [fd|] eqn:Hfd.
  - destruct (getsockname fd) as [[path|]|] eqn:Hsock.
    + apply wp_ret, wp_bind, wp_gets. destruct (listen_error _ _) as [e|] eqn:He.
      * apply wp_throw, HE; [right; by eexists|done].
      * by apply wp_bind, wp_modify, wp_ret.
    + apply wp_ret, wp_bind, wp_gets. destruct (listen_error _ _) as [e|] eqn:He.
      * apply wp_throw, HE; [right; by eexists|done].
      * by apply wp_bind, wp_modify, wp_ret.
    + apply wp_throw, HE; [by left|done].
  - destruct (String.eqb _ _); cbn [negb] in *.
    + apply wp_ret, wp_bind, wp_gets. destruct (listen_error _ _) as [e|] eqn:He.
      * apply wp_throw, HE; [right; by eexists|done].
      * by apply wp_bind, wp_modify, wp_ret.
    + apply wp_bind, wp_modify, wp_ret, wp_bind, wp_gets. destruct (listen_error _ _) as [e|] eqn:He.
      * apply wp_throw, HE; [right; by eexists|done].
      * by apply wp_bind, wp_modify, wp_ret.
Qed.

(** The loop over the locations. *)
Lemma wp_listen_all w0 todo (Q : unit → World → Prop) E : ∀ w l,
  opened w0 w l todo → w_log w = listened l ++ w_log w0 →
  (∀ w', opened w0 w' (l ++ todo) [] → w_log w' = listened (l ++ todo) ++ w_log w0 → Q tt w') →
  (∀ e w' good loc rest, l ++ todo = good ++ loc :: rest → opened w0 w' good (loc :: rest) →
    refuses loc e → E e w') →
  wp (listen_all (map (ls_location ∘ listener_of) l) todo) Q E w.
Proof.
  induction todo as [|loc todo IH]; intros w l Ho Hlog HQ HE; cbn [listen_all].
  { apply wp_ret, HQ; by rewrite app_nil_r. }
  destruct Ho as [Hs Hc Hr Hx]. apply wp_bind, wp_make_listener.
  2: { intros e w' He (Es & Ec & Er & Ex). eapply (HE _ _ l loc todo); [done| |done]. split; congruence. }
  apply wp_bind, wp_modify.
  replace (map (ls_location ∘ listener_of) l ++ [ls_location (listener_of loc)])
    with (map (ls_location ∘ listener_of) (l ++ [loc])) by by rewrite map_app.
  apply IH; rewrite <-?app_assoc.
  - split; [|done..]. wsimpl. rewrite Hs, !map_app, app_assoc. done.
  - rewrite listened_snoc. wsimpl. by rewrite Hlog, <-app_assoc.
  - done.
  - done.
Qed.

Lemma wp_start_listening w (Q : unit → World → Prop) E :
  sv_listeners (w_server w) = [] →
  let locs := cf_locations (sv_conf (w_server w)) in
  (∀ w', opened w w' locs [] → w_log w' = listened locs ++ w_log w → Q tt w') →
  (∀ e w' good loc rest, locs = good ++ loc :: rest → opened w w' good (loc :: rest) →
    refuses loc e → E e w') →
  wp start_listening Q E w.
Proof.
  intros Hl locs HQ HE. apply wp_bind, wp_get_server. rewrite Hl.
  apply (wp_listen_all w locs Q E w []); [|done..].
  split; [|done..]. cbn. rewrite app_nil_r. unfold locs. by destruct (w_server w) as [? []].
Qed.

(** The old listeners are forgotten. *)
Lemma wp_forget_listeners w (Q : unit → World → Prop) E :
  (∀ w', same_stores (w <| w_server ::= λ s, s <| sv_listeners := [] |> |>) w' → Q tt w') →
  wp stop_listening Q E w.
Proof.
  intros HQ. apply wp_bind, wp_get_server, wp_bind.
  eapply (wp_mono _ (λ _, same_stores w) _ E); [|intros [] w1 (Es & Ec & Er & Ex)|done].
  - apply wp_for_each; [done|]. intros l w1 _ Hw. destruct (ls_is_pipe l); [|done].
    destruct (pipe_sockname _); [by apply wp_modify|done].
  - apply wp_modify, HQ. split_and!; wsimpl; congruence.
Qed.

Context `{!Callbacks}.
Definition started w : World := w <| w_server ::= λ s, s <| sv_state := running |> |>.

(** C33: [Server::run] opens the locations in their order and reports [run_event]. When
    one is refused, the listeners before it stay open and the server counts as
    running: a second [run] is refused. *)
Theorem run_listens w :
  (∀ w, fire EvRun w = Ok tt w) →
  sv_state (w_server w) = initial → sv_listeners (w_server w) = [] →
  let locs := cf_locations (sv_conf (w_server w)) in
  match run w with
  | Ok _ w' => opened (started w) w' locs [] ∧ w_log w' = OEvent EvRun :: listened locs ++ w_log w
  | Throw e w' => ∃ good loc rest, locs = good ++ loc :: rest ∧ refuses loc e ∧
      opened (started w) w' good (loc :: rest) ∧
      run w' = Throw (HttpError "server is already running") w'
  | Fault _ => False
  end.
Proof.
  intros Hfire Hst Hl locs. apply wp_bind, wp_get_server. rewrite Hst. apply wp_bind, wp_modify, wp_bind.
  apply (wp_start_listening (started w)); [done| |].
  - intros w1 [Es Ec Er Ex] Hlog. apply wp_bind, wp_modify. unfold wpf. rewrite Hfire.
    split; [by split|]. wsimpl. by rewrite Hlog.
  - intros e w1 good loc rest Hlocs Ho He. exists good, loc, rest. split_and!; [done..|].
    unfold run, get_server, gets, mbind, M_bind. by rewrite (op_server _ _ _ _ Ho).
Qed.

(** C34: [Server::configure] refuses a configuration without locations and one with an
    undefined location, and changes nothing then; otherwise it takes the
    configuration, with the default backlog and the common [tcp_nodelay] filled in,
    and leaves a server that runs listening to its locations, or, when one of them is
    refused, to those before it. *)
Theorem configure_contract w conf :
  let locs := map (normalize_location conf) (cf_locations conf) in
  match configure conf w with
  | Ok _ w' =>
      w_conns w' = w_conns w ∧
      w_server w' = (if is_running (sv_state (w_server w))
                     then (w_server w) <| sv_listeners := map listener_of locs |>
                            <| sv_conf := conf <| cf_locations := map (ls_location ∘ listener_of) locs |> |>
                     else (w_server w) <| sv_conf := conf <| cf_locations := locs |> |>) ∧
      Forall (λ l, location_undefined l = false ∧ lc_backlog l ≠ 0 ∧
                   (cf_tcp_nodelay conf = true → lc_tcp_nodelay l = true)) locs
  | Throw e w' =>
      (w' = w ∧ (cf_locations conf = [] ∨ existsb location_undefined (cf_locations conf) = true)) ∨
      (sv_state (w_server w) = running ∧ sv_state (w_server w') = running ∧ ∃ good loc rest,
       locs = good ++ loc :: rest ∧ refuses loc e ∧ sv_listeners (w_server w') = map listener_of good)
  | Fault _ => False
  end.
Proof.
  intros locs. assert (locs = map (normalize_location conf) (cf_locations conf)) as Elocs by done. clearbody locs.
  unfold configure. destruct (cf_locations conf) as [|loc0 l0] eqn:Hlocs.
  { apply wp_throw. left. auto. }
  rewrite <-Hlocs in *. clear Hlocs. destruct (existsb _ _) eqn:Hbad; [apply wp_throw; left; auto|].
  assert (Forall (λ l, location_undefined l = false ∧ lc_backlog l ≠ 0 ∧
    (cf_tcp_nodelay conf = true → lc_tcp_nodelay l = true)) locs) as Hok.
  { rewrite Elocs. apply Forall_map, Forall_forall. intros l Hin. split_and!.
    - rewrite <-not_true_iff_false. intros Hu. apply not_true_iff_false in Hbad. apply Hbad.
      apply existsb_exists. exists l. split; [by apply list_elem_of_In|].
      rewrite <-Hu. unfold normalize_location. by destruct (lc_backlog l =? 0), (cf_tcp_nodelay conf).
    - unfold normalize_location. destruct (lc_backlog l =? 0) eqn:Hb; destruct (cf_tcp_nodelay conf); cbn; try done.
      all: by apply Z.eqb_neq.
    - unfold normalize_location. intros ->. by destruct (lc_backlog l =? 0). }
  subst locs.
  apply wp_bind, wp_get_server, wp_bind. destruct (sv_state (w_server w)) eqn:Hst; cbn [is_running].
  2: { apply wp_forget_listeners. intros w1 (Es & Ec & Er & Ex).
       apply wp_bind, wp_modify, wp_bind, wp_get_server. wsimpl. rewrite Es. cbn.
       rewrite Hst. cbn.
       apply wp_start_listening; wsimpl; rewrite Es; [done| |].
       - intros w2 [Es2 Ec2 Er2 Ex2] _. revert Es2 Ec2. wsimpl. rewrite Es. intros Es2 Ec2.
         split_and!; [congruence| |done]. rewrite Es2. cbn. by rewrite app_nil_r.
       - intros e w2 good loc rest Hl [Es2 _ _ _] He. revert Es2. wsimpl. rewrite Es. intros Es2.
         right. split_and!; [done|by rewrite Es2|]. exists good, loc, rest. split_and!; [done..|by rewrite Es2]. }
  all: apply wp_ret, wp_bind, wp_modify, wp_bind, wp_get_server; wsimpl; cbn; rewrite Hst; cbn; by split_and!.
Qed.
End Listening.

(** ** Closing a connection and handing over its stream *)

Section Silent.
Context `{Hproto : HttpProto} `{Henv : Env} `{CB : !Callbacks} {T : fault → Prop}.
Local Abbreviation wp := (wpf T).
Implicit Types (w : World) (q : ServerRequest) (k : ServerConnection) (err : option ErrorCode).

Definition detached q : ServerRequest := q <| sr_connection := None |> <| sr_server := false |>.

(** What the user is told about a request that is dropped: a request that was not
    received is an error, one that was received is dropped unless its response is
    complete. *)
Definition drop_notice w err (r : ReqId) : list Obs :=
  match w_reqs w !! r with
  | Some q =>
      if negb (sr_is_done q) then [OEvent (if sr_partial q then EvPartial r err else EvError r err)]
      else if (match sr_response q ≫= (w_ress w !!.) with Some x => rs_completed x | None => false end)
           then [] else [OEvent (EvDrop r err)]
  | None => []
  end.
Definition drop_obs w err (l : list ReqId) : list Obs :=
  concat (map (λ r, drop_notice w err r ++ [OEvent (EvFinish r)]) (rev l)).

(** The objects of a request exist. *)
Definition known w (r : ReqId) : Prop :=
  ∃ q, w_reqs w !! r = Some q ∧ (∀ s, sr_response q = Some s → is_Some (w_ress w !! s)).

Record dropped w w' (c : ConnId) k err (l : list ReqId) : Prop := {
  dr_conns : w_conns w' = <[c := k <| sc_requests := [] |>]> (w_conns w);
  dr_ress : w_ress w' = w_ress w;
  dr_server : w_server w' = w_server w;
  dr_log : w_log w' = drop_obs w err l ++ w_log w;
  dr_reqs : ∀ r, w_reqs w' !! r = (if decide (r ∈ l) then detached <$> w_reqs w !! r else w_reqs w !! r)
}.

Lemma drop_obs_cons w err r l :
  drop_obs w err (r :: l) = drop_obs w err l ++ drop_notice w err r ++ [OEvent (EvFinish r)].
Proof. unfold drop_obs. cbn [rev]. rewrite map_app, concat_app. cbn. by rewrite app_nil_r. Qed.

(** Detaching a request changes nothing that the notices read. *)
Lemma drop_notice_detached w w1 err r r' :
  w_reqs w1 = alter detached r' (w_reqs w) → w_ress w1 = w_ress w → drop_notice w1 err r = drop_notice w err r.
Proof.
  intros Hr Hx. unfold drop_notice. rewrite Hr, Hx, lookup_alter. case_decide; [subst r'|done].
  by destruct (w_reqs w !! r).
Qed.

Lemma drop_obs_ext w w' err l :
  (∀ r, drop_notice w err r = drop_notice w' err r) → drop_obs w err l = drop_obs w' err l.
Proof. intros Heq. unfold drop_obs. f_equal. apply map_ext. intros r. by rewrite Heq. Qed.

Lemma dropped_nil w c k err : w_conns w !! c = Some k → sc_requests k = [] → dropped w w c k err [].
Proof.
  intros Hk Hl. split; try done. symmetry. apply insert_id. rewrite Hk, <-Hl. by destruct k.
Qed.

Hypothesis silent : ∀ ev w, fire ev w = Ok tt w.

Lemma wp_emit_silent ev w (Q : unit → World → Prop) E :
  Q tt (w <| w_log ::= cons (OEvent ev) |>) → wp (emit ev) Q E w.
Proof. intros HQ. apply wp_bind, wp_modify. unfold wpf. by rewrite silent. Qed.

Lemma wp_notify_silent w r err (Q : unit → World → Prop) E :
  known w r → Q tt (w <| w_log := drop_notice w err r ++ w_log w |>) → wp (notify_dropped r err) Q E w.
Proof.
  intros (q & Hq & Hs). unfold drop_notice. rewrite Hq. intros HQ. apply wp_bind. eapply wp_get_req_at; [done|].
  destruct (negb _); [destruct (sr_partial q); by apply wp_emit_silent|].
  apply wp_bind. unfold response_completed. destruct (sr_response q) as [s|]; cbn [mbind option_bind] in *.
  - destruct (Hs s eq_refl) as [x Hx]. apply wp_bind. eapply wp_get_res_at; [done|]. apply wp_ret. rewrite Hx in HQ.
    destruct (rs_completed x); [by destruct w|by apply wp_emit_silent].
  - by apply wp_ret, wp_emit_silent.
Qed.

Lemma wp_conn_at w c k (Q : ServerConnection → World → Prop) E :
  w_conns w !! c = Some k → Q k w → wp (get_conn c) Q E w.
Proof. intros Hk HQ. apply wp_bind, wp_gets. by eapply wp_deref. Qed.

Lemma wp_drop_silent n c err E : ∀ l w k (Q : unit → World → Prop),
  w_conns w !! c = Some k → sc_requests k = l → Forall (known w) l → (length l ≤ n)%nat →
  (∀ w', dropped w w' c k err l → Q tt w') → wp (drop_requests n c err) Q E w.
Proof.
  induction n as [|n IH]; intros l w k Q Hk Hl Hknown Hlen HQ; cbn [drop_requests];
    apply wp_bind; (eapply wp_conn_at; [done|]); rewrite Hl; destruct l as [|r l]; try (cbn in Hlen; lia).
  1,2: by apply wp_ret, HQ, dropped_nil.
  apply Forall_cons in Hknown as [Hr Hknown]. apply wp_bind, wp_bind, wp_bind. eapply wp_conn_at; [done|].
  rewrite Hl. apply wp_ret, wp_bind, wp_modify, wp_bind, wp_modify, wp_emit_silent. apply wp_bind.
  set (w1 := w <| w_reqs ::= _ |> <| w_conns ::= _ |> <| w_log ::= _ |>).
  assert (∀ r', known w r' → known w1 r') as Hkn.
  { intros r' (q & Hq & Hs). unfold known, w1. wsimpl. rewrite lookup_alter.
    case_decide; [subst r'; rewrite Hq; by exists (detached q)|by exists q]. }
  apply wp_notify_silent; [by apply Hkn|]. set (w2 := w1 <| w_log := _ |>).
  assert (w_conns w2 !! c = Some (k <| sc_requests := l |>)) as Hk2.
  { unfold w2, w1. wsimpl. rewrite lookup_alter_eq, Hk. apply (f_equal Some), requests_update. by rewrite Hl. }
  apply (IH l w2 _ Q Hk2); [done|by eapply Forall_impl|cbn in Hlen; lia|].
  intros w3 [Hc3 Hx3 Hs3 Hlog3 Hr3]. apply HQ. split.
  - rewrite Hc3. unfold w2, w1. wsimpl. apply map_eq. intros c'.
    destruct (decide (c' = c)) as [->|]; [by rewrite !lookup_insert_eq|].
    by rewrite !lookup_insert_ne, lookup_alter_ne by done.
  - by rewrite Hx3.
  - by rewrite Hs3.
  - rewrite Hlog3, (drop_obs_ext w2 w) by (intros; by apply (drop_notice_detached w w2 err _ r)).
    unfold w2. wsimpl. rewrite (drop_notice_detached w w1 err r r) by done.
    unfold w1. wsimpl. by rewrite drop_obs_cons, <-!app_assoc.
  - intros r'. rewrite Hr3. unfold w2, w1. wsimpl. rewrite lookup_alter.
    destruct (decide (r = r')) as [->|].
    + rewrite (decide_True (P := r' ∈ r' :: l)) by by left. case_decide; [|done].
      by destruct (w_reqs w !! r').
    + destruct (decide (r' ∈ l)); [rewrite decide_True by by right|rewrite decide_False by set_solver]; done.
Qed.

(** Without the connection the server has none left, and was stopping. *)
Definition last_one w (id : Z) : bool :=
  is_stopping (sv_state (w_server w)) && Nat.eqb (size (delete id (sv_connections (w_server w)))) 0.

Record departed w w' (id : Z) : Prop := {
  dp_conns : w_conns w' = w_conns w;
  dp_reqs : w_reqs w' = w_reqs w;
  dp_connections : sv_connections (w_server w') = delete id (sv_connections (w_server w));
  dp_state : sv_state (w_server w') = if last_one w id then initial else sv_state (w_server w);
  dp_log : w_log w' = (if last_one w id then [OEvent EvStop] else []) ++ w_log w
}.

Lemma wp_remove_silent w c k (Q : unit → World → Prop) E :
  w_conns w !! c = Some k → (∀ w', departed w w' (sc_id k) → Q tt w') → wp (remove c) Q E w.
Proof.
  intros Hk HQ. apply wp_bind. eapply wp_conn_at; [done|]. apply wp_bind, wp_modify, wp_bind, wp_get_server.
  wsimpl. change (sv_state (_ <| sv_connections ::= _ |>)) with (sv_state (w_server w)).
  destruct (sv_state (w_server w)) eqn:Hst.
  1,2: apply wp_ret, HQ; split; wsimpl; unfold last_one; rewrite ?Hst; done.
  apply wp_bind, wp_get_server, wp_bind, wp_assert; [wsimpl; cbn; by rewrite Hst|]. wsimpl.
  destruct (Nat.eqb _ _) eqn:Hsize.
  - apply wp_bind, wp_modify, wp_emit_silent, HQ. split; wsimpl; unfold last_one; rewrite ?Hst, ?Hsize; done.
  - apply wp_ret, HQ. split; wsimpl; unfold last_one; rewrite ?Hst, ?Hsize; done.
Qed.

(** Only the record of a connection and the log have changed. *)
Record put w w' (c : ConnId) k (lg : list Obs) : Prop := {
  pt_conns : w_conns w' = <[c := k]> (w_conns w);
  pt_reqs : w_reqs w' = w_reqs w;
  pt_ress : w_ress w' = w_ress w;
  pt_server : w_server w' = w_server w;
  pt_log : w_log w' = lg
}.

Definition stop_obs (c : ConnId) (timer : option bool) : list Obs :=
  match timer with Some _ => [OTimerStop c] | None => [] end.

Lemma alter_at (m : gmap nat ServerConnection) c k f : m !! c = Some k → alter f c m = <[c := f k]> m.
Proof.
  intros Hk. apply map_eq. intros c'. destruct (decide (c' = c)) as [->|].
  - by rewrite lookup_alter_eq, lookup_insert_eq, Hk.
  - by rewrite lookup_alter_ne, lookup_insert_ne.
Qed.

Lemma wp_stop_timer_silent w c k (Q : unit → World → Prop) E :
  w_conns w !! c = Some k →
  (∀ w', put w w' c (k <| sc_idle_timer ::= timer_stopped |>) (stop_obs c (sc_idle_timer k) ++ w_log w) → Q tt w') →
  wp (stop_idle_timer c) Q E w.
Proof.
  intros Hk HQ. apply wp_bind. eapply wp_conn_at; [done|].
  destruct (sc_idle_timer k) as [b|] eqn:Ht.
  - apply wp_bind, wp_modify, wp_modify, HQ. split; wsimpl; try done.
    rewrite (alter_at _ c k) by done. destruct k; cbn in *. by subst.
  - apply wp_ret, HQ. split; try done. symmetry. apply insert_id. rewrite Hk. f_equal.
    destruct k; cbn in *. by subst.
Qed.

(** [close] up to the requests. *)
Definition shut k : ServerConnection := k <| sc_idle_timer ::= timer_stopped |> <| sc_listener := false |>.

Lemma wp_shut w c k (Q : unit → World → Prop) E :
  w_conns w !! c = Some k →
  (∀ w', put w w' c (shut k) (OReset c :: stop_obs c (sc_idle_timer k) ++ w_log w) → Q tt w') →
  wp (stop_idle_timer c ;; unlisten c ;; log (OReset c)) Q E w.
Proof.
  intros Hk HQ. apply wp_bind. eapply wp_stop_timer_silent; [done|]. intros w1 [Ec Er Ex Es El].
  apply wp_bind, wp_modify, wp_modify, HQ. split; wsimpl; try done; [|by rewrite El].
  erewrite alter_at; [|by rewrite Ec, lookup_insert_eq]. by rewrite Ec, insert_insert_eq.
Qed.

End Silent.

Section Closing.
Context `{Hproto : HttpProto} `{Henv : Env} `{CB : !Callbacks}.
Context (fuel : nat).
Implicit Types (w : World) (q : ServerRequest) (k : ServerConnection) (err : option ErrorCode).
Hypothesis silent : ∀ ev w, fire ev w = Ok tt w.

(** C17: [ServerConnection::close] under listeners that do nothing: the timer is
    stopped and the stream reset, every queued request is detached and reported in
    its order, each with the notice its state calls for, then [finish_event]; the
    connection leaves the server, and the last one of a stopping server ends it. *)
Theorem close_trace w c k err :
  w_conns w !! c = Some k → Forall (known w) (sc_requests k) → (length (sc_requests k) ≤ fuel)%nat →
  ∃ w', close fuel c err w = Ok tt w' ∧
    w_log w' = (if last_one w (sc_id k) then [OEvent EvStop] else []) ++ drop_obs w err (sc_requests k) ++
      OReset c :: stop_obs c (sc_idle_timer k) ++ w_log w ∧
    w_conns w' = <[c := k <| sc_idle_timer ::= timer_stopped |> <| sc_listener := false |>
                          <| sc_requests := [] |>]> (w_conns w) ∧
    sv_connections (w_server w') = delete (sc_id k) (sv_connections (w_server w)) ∧
    (∀ r, w_reqs w' !! r =
      if decide (r ∈ sc_requests k) then detached <$> w_reqs w !! r else w_reqs w !! r).
Proof.
  intros Hk Hknown Hlen. apply (wp_no_throw (close fuel c err)).
  unfold close, do_close. cbn [negb when]. apply wp_bind. eapply wp_shut; [done|].
  intros w1 [Ec1 Er1 Ex1 Es1 El1]. apply wp_bind.
  eapply (wp_drop_silent silent fuel c err _ (sc_requests k) w1 (shut k)); [by rewrite Ec1, lookup_insert_eq|done| |done|].
  { eapply Forall_impl; [exact Hknown|]. intros r (q & Hq & Hs). exists q. by rewrite Er1, Ex1. }
  intros w2 [Ec2 Ex2 Es2 El2 Er2]. eapply (wp_remove_silent silent); [by rewrite Ec2, lookup_insert_eq|].
  intros w3 [Ec3 Er3 Em3 _ El3]. assert (last_one w2 (sc_id ((shut k) <| sc_requests := [] |>)) = last_one w (sc_id k)) as Elast
    by (unfold last_one; by rewrite Es2, Es1).
  split_and!.
  - rewrite El3. rewrite Elast, El2, El1.
    rewrite (drop_obs_ext w1 w); [done|]. intros r. unfold drop_notice. by rewrite Er1, Ex1.
  - by rewrite Ec3, Ec2, Ec1, insert_insert_eq.
  - by rewrite Em3, Es2, Es1.
  - intros r. by rewrite Er3, Er2, Er1.
Qed.

(** The stream of a connection was handed over. *)
Record upgraded w w' (c : ConnId) k (r : ReqId) : Prop := {
  up_conns : w_conns w' =
    <[c := k <| sc_listener := false |> <| sc_idle_timer := None |> <| sc_requests := [] |>]> (w_conns w);
  up_reqs : w_reqs w' = alter detached r (w_reqs w);
  up_connections : sv_connections (w_server w') = delete (sc_id k) (sv_connections (w_server w));
  up_log : w_log w' = (if last_one w (sc_id k) then [OEvent EvStop] else []) ++
    OEvent (EvFinish r) :: stop_obs c (sc_idle_timer k) ++ w_log w
}.

Lemma wp_conn_upgrade w c k r (Q : unit → World → Prop) E :
  w_conns w !! c = Some k → sc_requests k = [r] → (∀ w', upgraded w w' c k r → Q tt w') →
  wp (conn_upgrade c r) Q E w.
Proof.
  intros Hk Hr HQ. apply wp_bind. eapply wp_conn_at; [done|]. rewrite bool_decide_true by done.
  apply wp_bind, wp_modify, wp_bind. eapply wp_stop_timer_silent; [wsimpl; by rewrite (alter_at _ c k), lookup_insert_eq|].
  intros w1 [Ec Er Ex Es El]. revert Ec El. wsimpl.
  rewrite (alter_at _ c k), insert_insert_eq by done. intros Ec El.
  apply wp_bind, wp_modify, wp_bind, wp_bind, wp_bind. eapply wp_conn_at; [wsimpl; by rewrite Ec, lookup_alter_eq, lookup_insert_eq|].
  cbn. rewrite Hr. apply wp_ret, wp_bind, wp_modify, wp_bind, wp_modify, (wp_emit_silent silent).
  eapply (wp_remove_silent silent); [wsimpl; by rewrite Ec, !lookup_alter_eq, lookup_insert_eq|].
  intros w2 [Ec2 Er2 Em2 _ El2]. apply HQ. revert Ec2 Er2 Em2 El2. unfold last_one. wsimpl. cbn. rewrite Es.
  intros Ec2 Er2 Em2 El2. split; [|by rewrite Er2, Er|done|by rewrite El2, El].
  rewrite Ec2, Ec. erewrite alter_at; [|by rewrite lookup_alter_eq, lookup_insert_eq].
  erewrite alter_at; [|by rewrite lookup_insert_eq]. rewrite !insert_insert_eq.
  by rewrite (requests_update _ tail []) by (ksimpl; by rewrite Hr).
Qed.

(** C18: [ServerRequest::upgrade] hands the stream over exactly when the request asks
    for it and is the only one of its connection: nobody listens to the stream any
    more, the timer is gone, the request is detached and the connection has left the
    server. A request that was dropped or asks for something else is answered with an
    error code, and nothing changes; one that outlived its connection follows a
    dangling pointer. *)
Theorem upgrade_contract w r q :
  w_reqs w !! r = Some q →
  match sr_connection q with
  | None => req_upgrade r w = Ok (inr (StdErr connection_aborted)) w
  | Some c =>
      if negb (iequals (headers_connection (req_headers (sr_msg q))) "upgrade")
      then req_upgrade r w = Ok (inr (HttpErr upgrade_wrong_request)) w
      else ∀ k, w_conns w !! c = Some k →
        if negb (lives w c k) then req_upgrade r w = Fault DanglingRef
        else if bool_decide (sc_requests k = [r])
        then ∃ w', req_upgrade r w = Ok (inl tt) w' ∧ upgraded w w' c k r
        else req_upgrade r w = Throw (LogicError "should not happen") w
  end.
Proof.
  intros Hq. destruct (sr_connection q) as [c|] eqn:Hc;
    unfold req_upgrade, get_req, gets, mbind, M_bind; rewrite Hq; cbn [deref]; unfold mret, M_ret; rewrite Hc; [|done].
  destruct (negb _); [done|]. intros k Hk. rewrite (alive_at w c k Hk).
  destruct (lives w c k); cbn [negb]; [|done].
  destruct (bool_decide_reflect (sc_requests k = [r])) as [Hr|Hr].
  - destruct (wp_no_throw (conn_upgrade c r) w (λ w', upgraded w w' c k r)) as (w' & Hw' & Hup).
    + by eapply wp_conn_upgrade.
    + exists w'. by rewrite Hw'.
  - unfold conn_upgrade, get_conn, gets, mbind, M_bind. rewrite Hk. cbn [deref]. unfold mret, M_ret.
    by rewrite bool_decide_false.
Qed.
End Closing.

(** ** Answers are given once *)

Section Answers.
Context `{Hproto : HttpProto} `{Henv : Env} `{CB : !Callbacks}.
Context (fuel : nat).
Implicit Types (w : World) (q : ServerRequest) (k : ServerConnection).

Lemma get_req_at w r q : w_reqs w !! r = Some q → get_req r w = Ok q w.
Proof. unfold get_req, gets, mbind, M_bind. by intros ->. Qed.

Lemma get_res_at w s x : w_ress w !! s = Some x → get_res s w = Ok x w.
Proof. unfold get_res, gets, mbind, M_bind. by intros ->. Qed.

Lemma get_conn_at w c k : w_conns w !! c = Some k → get_conn c w = Ok k w.
Proof. unfold get_conn, gets, mbind, M_bind. by intros ->. Qed.

(** C36: an answer can be given once, and cannot be added to when it is complete:
    a second [respond], and chunks for a completed response, throw and change
    nothing. An answer to a request that was dropped is ignored. *)
Theorem answers_are_final w r q s x :
  w_reqs w !! r = Some q → w_ress w !! s = Some x →
  (sr_connection q = None → req_respond fuel r s w = Ok tt w) ∧
  (∀ c k, sr_connection q = Some c → w_conns w !! c = Some k → lives w c k = true → is_Some (sr_response q) →
   req_respond fuel r s w = Throw (HttpError "double response for request given") w) ∧
  (rs_completed x = true → ∀ chunk,
   res_send_chunk s chunk w = Throw (HttpError "can't send chunk: response has already been completed") w ∧
   res_send_final_chunk fuel s chunk w = Throw (HttpError "can't send chunk: response has already been completed") w).
Proof.
  intros Hq Hx. pose proof (get_req_at w r q Hq) as Er. pose proof (get_res_at w s x Hx) as Es. split_and!.
  - intros Hc. unfold req_respond. rewrite (bind_ok Er). by rewrite Hc.
  - intros c k Hc Hk Hl [s' Hs]. pose proof (alive_at w c k Hk) as Ea. rewrite Hl in Ea.
    unfold req_respond, respond. rewrite (bind_ok Er), Hc, (bind_ok Ea), (bind_ok Er), bool_decide_true by done.
    rewrite (bind_ok (s' := w) (a := tt)) by done. by rewrite Hs.
  - intros Hdone chunk. unfold res_send_chunk, res_send_final_chunk. by rewrite !(bind_ok Es), Hdone.
Qed.

(** A final chunk that is given to a response that waits behind another one of
    its connection is lost: what it says has no influence on the state. *)
Lemma final_chunk_lost w c k r l q s chunk chunk' :
  w_conns w !! c = Some k → sc_requests k = r :: l → w_reqs w !! r = Some q → sr_response q ≠ Some s →
  conn_send_final_chunk fuel c s chunk w = conn_send_final_chunk fuel c s chunk' w.
Proof.
  intros Hk Hl Hq Hs. pose proof (get_conn_at w c k Hk) as Ec.
  assert (assert_requests c w = Ok tt w) as Ea by (unfold assert_requests; by rewrite (bind_ok Ec), Hl).
  unfold conn_send_final_chunk. rewrite !(bind_ok Ea).
  set (w1 := w <| w_ress ::= alter (λ x, x <| rs_completed := true |>) s |>).
  rewrite !(bind_ok (m := mod_res _ _) (s' := w1) (a := tt)) by done.
  assert (front c w1 = Ok r w1) as Ef.
  { unfold front. by rewrite (bind_ok (get_conn_at w1 c k Hk)), Hl. }
  rewrite !(bind_ok Ef), !(bind_ok (get_req_at w1 r q Hq)). by rewrite !bool_decide_false.
Qed.
End Answers.

(** ** The error page *)

Lemma length_app_string a b : String.length (a +:+ b) = (String.length a + String.length b)%nat.
Proof. induction a as [|x a IH]; [done|]. apply (f_equal S), IH. Qed.

(** The error page is long enough, whatever the message, for the browsers that
    replace pages of at most 512 bytes by their own, which is what its padding is
    for. *)
Lemma error_page_padded m : (512 < String.length (error_page m))%nat.
Proof.
  unfold error_page. rewrite !length_app_string.
  assert (String.length (Nat.iter 6 (λ s, s +:+ error_padding) EmptyString) = 396%nat) as -> by reflexivity.
  change (String.length "</title></head>") with 15%nat. change (String.length "</h1></center>") with 14%nat.
  change (String.length "<hr><center>UniEvent-HTTP</center>") with 34%nat.
  cbn [String.length nl dquote]. lia.
Qed.
