(* ===== verification/ServerTrace.v ===== *)
(** * What an exchange looks like

    Under listeners that do nothing: what receiving a request does and reports, and
    what answering it writes. The world is followed through an operation by [STr],
    which says what the connection [c] and the request [r] have become. *)
From S2P Require Import Prelude Errors Date Proto ServerState ServerOps ServerConn ServerMain ServerStep ServerInv ServerOwn ServerSpecs ServerFinish ServerFacts.
From stdpp Require Import sorting.
Local Open Scope Z_scope.

Section STr.
Context `{HttpProto} `{Env} `{CB : !Callbacks} {T : fault → Prop}.
Local Abbreviation wp := (wpf T).
Implicit Types (w : World) (k : ServerConnection) (q : ServerRequest) (E : exn → World → Prop).

(** The other connections and requests, and the server's connections and state, are
    those of [w0]; the responses are [R] and the log is [L]. *)
Record STr w0 (c : ConnId) (r : ReqId) k q (R : gmap nat ServerResponse) (L : list Obs) w : Prop := {
  st_conns : w_conns w = <[c := k]> (w_conns w0);
  st_reqs : w_reqs w = <[r := q]> (w_reqs w0);
  st_ress : w_ress w = R;
  st_connections : sv_connections (w_server w) = sv_connections (w_server w0);
  st_state : sv_state (w_server w) = sv_state (w_server w0);
  st_log : w_log w = L
}.

Lemma STr_start w c r k q :
  w_conns w !! c = Some k → w_reqs w !! r = Some q → STr w c r k q (w_ress w) (w_log w) w.
Proof. intros Hk Hq. split; try done; by rewrite insert_id. Qed.

Context (w0 : World) (c : ConnId) (r : ReqId).
Local Abbreviation tr := (STr w0 c r).

Lemma st_get_conn k q R L (Q : ServerConnection → World → Prop) E w :
  tr k q R L w → Q k w → wp (get_conn c) Q E w.
Proof. intros HT. apply wp_conn_at. by rewrite (st_conns _ _ _ _ _ _ _ _ HT), lookup_insert_eq. Qed.

Lemma st_get_req k q R L (Q : ServerRequest → World → Prop) E w :
  tr k q R L w → Q q w → wp (get_req r) Q E w.
Proof. intros HT. apply wp_get_req_at. by rewrite (st_reqs _ _ _ _ _ _ _ _ HT), lookup_insert_eq. Qed.

Lemma st_get_res k q R L s x (Q : ServerResponse → World → Prop) E w :
  tr k q R L w → R !! s = Some x → Q x w → wp (get_res s) Q E w.
Proof. intros HT Hx. apply wp_get_res_at. by rewrite (st_ress _ _ _ _ _ _ _ _ HT). Qed.

Lemma st_mod_conn k q R L f (Q : unit → World → Prop) E w :
  tr k q R L w → (∀ w', tr (f k) q R L w' → Q tt w') → wp (mod_conn c f) Q E w.
Proof. intros [] HQ. apply wp_modify, HQ. split; try done; wsimpl. by rewrite st_conns0, alter_insert_eq. Qed.

Lemma st_mod_req k q R L f (Q : unit → World → Prop) E w :
  tr k q R L w → (∀ w', tr k (f q) R L w' → Q tt w') → wp (mod_req r f) Q E w.
Proof. intros [] HQ. apply wp_modify, HQ. split; try done; wsimpl. by rewrite st_reqs0, alter_insert_eq. Qed.

Lemma st_mod_res k q R L s x f (Q : unit → World → Prop) E w :
  tr k q (<[s := x]> R) L w → (∀ w', tr k q (<[s := f x]> R) L w' → Q tt w') → wp (mod_res s f) Q E w.
Proof. intros [] HQ. apply wp_modify, HQ. split; try done; wsimpl. by rewrite st_ress0, alter_insert_eq. Qed.

Lemma st_log_obs k q R L o (Q : unit → World → Prop) E w :
  tr k q R L w → (∀ w', tr k q R (o :: L) w' → Q tt w') → wp (log o) Q E w.
Proof. intros [] HQ. apply wp_modify, HQ. split; try done; wsimpl. by rewrite st_log0. Qed.

Lemma st_emit k q R L ev (Q : unit → World → Prop) E w :
  (∀ ev w, fire ev w = Ok tt w) → tr k q R L w →
  (∀ w', tr k q R (OEvent ev :: L) w' → Q tt w') → wp (emit ev) Q E w.
Proof.
  intros Hsilent HT HQ. apply wp_bind. eapply st_log_obs; [done|]. intros w' HT'. unfold wpf. rewrite Hsilent. by apply HQ.
Qed.

Lemma st_date `{!EnvLaws} k q R L (Q : string → World → Prop) E w :
  tr k q R L w → (∀ d w', tr k q R L w' → Q d w') → wp date_header_now Q E w.
Proof.
  intros [] HQ. apply wp_bind, wp_get_server, wp_bind, wp_gets, wp_bind.
  destruct (_ || _); [|apply wp_ret, wp_bind, wp_get_server, wp_ret, HQ; by split].
  apply wp_bind, wp_modify, wp_bind, wp_gets. destruct (rfc822_date_total (w_time w)) as [d Hd]. wsimpl. rewrite Hd.
  apply wp_modify, wp_bind, wp_get_server, wp_ret, HQ. by split.
Qed.
End STr.

Ltac st_next HT :=
  let w' := fresh "w" in let HT' := fresh "HT'" in
  intros w' HT'; clear HT; rename HT' into HT.
Ltac st_step :=
  match goal with
  | |- wpf _ (mbind _ _) _ _ _ => apply wp_bind
  | |- wpf _ (mret _) _ _ _ => apply wp_ret
  | HT : STr _ _ _ _ _ _ _ ?w |- wpf _ (get_conn _) _ _ ?w => eapply st_get_conn; [exact HT|]
  | HT : STr _ _ _ _ _ _ _ ?w |- wpf _ (get_req _) _ _ ?w => eapply st_get_req; [exact HT|]
  | HT : STr _ _ _ _ _ _ _ ?w |- wpf _ (get_res _) _ _ ?w =>
      eapply st_get_res; [exact HT|apply lookup_insert_eq|]
  | HT : STr _ _ _ _ _ _ _ ?w |- wpf _ (mod_conn _ _) _ _ ?w => eapply st_mod_conn; [exact HT|st_next HT]
  | HT : STr _ _ _ _ _ _ _ ?w |- wpf _ (mod_req _ _) _ _ ?w => eapply st_mod_req; [exact HT|st_next HT]
  | HT : STr _ _ _ _ _ _ _ ?w |- wpf _ (mod_res _ _) _ _ ?w => eapply st_mod_res; [exact HT|st_next HT; cbn [setter set_rs_msg set_rs_request set_rs_completed rs_msg rs_request rs_completed] in HT]
  | HT : STr _ _ _ _ _ _ _ ?w |- wpf _ (log _) _ _ ?w => eapply st_log_obs; [exact HT|st_next HT]
  | HT : STr _ _ _ _ _ _ _ ?w, HS : ∀ ev w, fire ev w = Ok tt w |- wpf _ (emit _) _ _ ?w =>
      eapply st_emit; [exact HS|exact HT|st_next HT]
  end; cbv beta.
Ltac st_steps := repeat st_step.

(** ** Answering a request *)

Section Respond.
Context `{HttpProto} `{!HttpProtoLaws} `{Env} `{!EnvLaws} `{CB : !Callbacks} {T : fault → Prop}.
Local Abbreviation wp := (wpf T).
Implicit Types (w : World) (k : ServerConnection) (q : ServerRequest) (x : ServerResponse) (m : RMsg).

(** The head that is written for the message [m]: the status 200 and a Date header
    are the defaults. *)
Definition with_code m : RMsg := if rm_code m =? 0 then m <| rm_code := 200 |> else m.
Definition with_date (d : string) m : RMsg :=
  if headers_has (rm_headers m) "Date" then m else m <| rm_headers ::= λ h, headers_date h d |>.
Definition without_keep_alive m : RMsg := m <| rm_headers ::= λ h, headers_keep_alive h false |>.

(** The answer is the last one of its connection: the connection is being stopped, or
    this answer reaches the limit and nothing is queued behind it. *)
Definition last_answer k : bool :=
  sc_stopping k ||
  (negb (sc_max_keepalive_requests k =? 0)
   && (sc_max_keepalive_requests k <=? u64 (sc_requests_processed k + 1))
   && (Z.of_nat (length (sc_requests k)) =? 1)).
Definition kept_alive k q m : bool :=
  negb (last_answer k) && res_keep_alive m && req_keep_alive (sr_msg q).

Lemma with_date_keep_alive d m : res_keep_alive (with_date d m) = res_keep_alive m.
Proof. unfold with_date, res_keep_alive. destruct (headers_has _ _); [done|]. apply keep_alive_date. Qed.

Lemma with_code_keep_alive m : res_keep_alive (with_code m) = res_keep_alive m.
Proof. unfold with_code. by destruct (_ =? _). Qed.

(** The request behind has its answer already. *)
Definition next_answered w (rest : list ReqId) : bool :=
  match rest with
  | r' :: _ => match w_reqs w !! r' with Some q' => bool_decide (is_Some (sr_response q')) | None => false end
  | [] => false
  end.

(** The end of a request: the connection is shut down, or its timer is started when
    nothing is queued and nothing is left to write. *)
Definition end_obs (c : ConnId) k (rest : list ReqId) (L : list Obs) : list Obs :=
  if sc_closing k || sc_stopping k then [ODisconnect c; OShutdown c]
  else match rest, sc_idle_timer k with
       | [], Some false => if write_queue_size c L =? 0 then [OTimerOnce c (sc_idle_timeout k)] else []
       | _, _ => []
       end.

Section Steps.
Context (w0 : World) (c : ConnId) (r : ReqId) (s : ResId) (n : nat).
Hypothesis silent : ∀ ev w, fire ev w = Ok tt w.
Local Abbreviation tr := (STr w0 c r).

Lemma st_prepare_head k q R L a b m (Q : unit → World → Prop) E w :
  tr k q (<[s := mkSRes a b m]> R) L w →
  (∀ d w', tr k q (<[s := mkSRes a b (with_date d (with_code m))]> R) L w' → Q tt w') →
  wp (prepare_head s) Q E w.
Proof.
  intros HT HQ. unfold prepare_head. apply wp_bind. eapply st_get_res; [done|apply lookup_insert_eq|].
  cbn [rs_msg]. apply wp_bind.
  eapply (wp_mono _ (λ _, tr k q (<[s := mkSRes a b (with_code m)]> R) L) _ E); [| |done].
  - unfold with_code. destruct (rm_code m =? 0); cbn [when]; st_steps; done.
  - intros [] w1 HT1. assert (rm_headers (with_code m) = rm_headers m) as Eh by (unfold with_code; by destruct (_ =? _)).
    destruct (headers_has (rm_headers m) "Date") eqn:Hd.
    + apply wp_ret, (HQ EmptyString). unfold with_date. by rewrite Eh, Hd.
    + apply wp_bind. eapply st_date; [apply _|exact HT1|].
      intros d w2 HT2. st_steps. apply (HQ d). unfold with_date. by rewrite Eh, Hd.
Qed.

Lemma st_write_head k q R L a b m (Q : unit → World → Prop) E w :
  tr k q (<[s := mkSRes a b m]> R) L w →
  (∀ w', tr k q (<[s := mkSRes a b (m <| rm_codec := (to_vector m (sr_msg q)).2 |>)]> R)
     (OWrite c (WHead r s (to_vector m (sr_msg q)).1) :: L) w' → Q tt w') →
  wp (write_head c r s) Q E w.
Proof.
  intros HT HQ. unfold write_head. st_steps. cbn [rs_msg].
  destruct (to_vector m (sr_msg q)) as [v codec]. unfold stream_write. st_steps. by apply HQ.
Qed.

Lemma wp_drop_none fuel err k (Q : unit → World → Prop) E w :
  w_conns w !! c = Some k → sc_requests k = [] → Q tt w → wp (drop_requests fuel c err) Q E w.
Proof.
  intros Hk Hl HQ. destruct fuel; cbn [drop_requests]; apply wp_bind; (eapply wp_conn_at; [done|]); by rewrite Hl.
Qed.

(** [finish_request], up to the write of the next answer. *)
Lemma st_finish next k q R L x rest (Q : unit → World → Prop) E w :
  tr k q (<[s := x]> R) L w → sc_requests k = r :: rest → sr_is_done q = true → sr_response q = Some s →
  rs_completed x = true → r ∉ rest → Forall (known w0) rest →
  (if sc_closing k || sc_stopping k then rest = [] else rest = [] → is_Some (sc_idle_timer k)) →
  (∀ w' k', tr k' (detached q) (<[s := x]> R) (end_obs c k rest (OEvent (EvFinish r) :: L) ++ OEvent (EvFinish r) :: L) w' →
    sc_requests k' = rest → sc_closing k' = sc_closing k → sc_stopping k' = sc_stopping k →
    wp (if negb (sc_closing k || sc_stopping k) && next_answered w0 rest then next else mret tt) Q E w') →
  wp (finish_request_with (S n) next c) Q E w.
Proof.
  intros HT Hr Hd Hs Hx Hin Hknown Hnext HQ. unfold finish_request_with, front, end_obs in *.
  st_steps. rewrite Hr. st_steps. unfold response_completed. rewrite Hs. st_steps.
  rewrite Hx. apply wp_assert; [done|]. cbv beta. rewrite Hd. cbn [negb]. unfold cleanup_request, front. st_steps. rewrite Hr. st_steps.
  ksimpl. rewrite Hr. cbn [tail]. destruct (sc_closing k || sc_stopping k) eqn:Hcl; cbn [negb andb] in HQ.
  - subst rest. st_steps. apply wp_assert; [done|]. cbv beta. unfold shutdown, do_close. st_steps.
    eapply wp_drop_none; [by rewrite (st_conns _ _ _ _ _ _ _ _ HT), lookup_insert_eq|ksimpl; by rewrite Hr|].
    apply wp_ret. eapply HQ; [exact HT|ksimpl; by rewrite Hr|done|done].
  - destruct rest as [|r' rest].
    + unfold check_if_idle. st_steps. ksimpl. rewrite Hr. cbn [tail]. destruct (Hnext eq_refl) as [b Hb]. rewrite Hb in *.
      apply wp_bind. eapply wp_deref; [done|]. apply wp_bind, wp_gets. rewrite (st_log _ _ _ _ _ _ _ _ HT).
      cbn [next_answered] in HQ.
      destruct b; cbn [negb andb].
      * apply wp_ret. eapply HQ; [exact HT|ksimpl; by rewrite Hr|done|done].
      * destruct (_ =? 0); [|apply wp_ret; eapply HQ; [exact HT|ksimpl; by rewrite Hr|done|done]].
        unfold start_idle_timer. st_steps. eapply HQ; [exact HT|ksimpl; by rewrite Hr|done|done].
    + apply Forall_cons in Hknown as [(q' & Hq' & _) _]. apply not_elem_of_cons in Hin as [Hne _].
      apply wp_bind. eapply wp_get_req_at.
      { rewrite (st_reqs _ _ _ _ _ _ _ _ HT), lookup_insert_ne by done. exact Hq'. }
      eapply HQ in HT; [|ksimpl; by rewrite Hr|done|done]. cbn [next_answered] in HT. rewrite Hq' in HT.
      by destruct (sr_response q').
Qed.

(** The answer is counted, and the connection is stopped when it is the last one. *)
Record same_ends k k' : Prop := {
  se_requests : sc_requests k' = sc_requests k;
  se_closing : sc_closing k' = sc_closing k;
  se_timer : sc_idle_timer k' = sc_idle_timer k ∧ sc_idle_timeout k' = sc_idle_timeout k
}.

Lemma st_limit k q R L (Q : unit → World → Prop) E w :
  let k1 := k <| sc_requests_processed ::= λ n, u64 (n + 1) |> in
  tr k1 q R L w → sc_requests k ≠ [] →
  (∀ w' k', tr k' q R L w' → sc_stopping k' = last_answer k → same_ends k k' → Q tt w') →
  wp (when (negb (sc_max_keepalive_requests k1 =? 0)
            && (sc_max_keepalive_requests k1 <=? sc_requests_processed k1)
            && (Z.of_nat (length (sc_requests k1)) =? 1)) (conn_graceful_stop (S n) c)) Q E w.
Proof.
  intros k1 HT Hr HQ. apply wp_when; intros Hlim.
  - unfold conn_graceful_stop. st_steps. change (sc_requests k1) with (sc_requests k).
    destruct (sc_requests k) as [|r0 l] eqn:Hl; [done|]. st_steps. eapply HQ; [exact HT| |].
    + unfold last_answer. rewrite Hl. change (sc_requests k1) with (sc_requests k) in Hlim. rewrite Hl in Hlim.
      change (true = sc_stopping k || (negb (sc_max_keepalive_requests k1 =? 0) &&
        (sc_max_keepalive_requests k1 <=? sc_requests_processed k1) && (Z.of_nat (length (r0 :: l)) =? 1))).
      by rewrite Hlim, orb_true_r.
    + split; done.
  - eapply HQ; [exact HT| |by split]. unfold last_answer.
    change (sc_stopping k = sc_stopping k || (negb (sc_max_keepalive_requests k1 =? 0) &&
      (sc_max_keepalive_requests k1 <=? sc_requests_processed k1) && (Z.of_nat (length (sc_requests k1)) =? 1))).
    by rewrite Hlim, orb_false_r.
Qed.

(** [if (stopping) res->keep_alive(false)]. *)
Lemma st_last (b : bool) k q R L a d m (Q : unit → World → Prop) E w :
  tr k q (<[s := mkSRes a d m]> R) L w →
  (∀ w', tr k q (<[s := mkSRes a d (if b then without_keep_alive m else m)]> R) L w' → Q tt w') →
  wp (when b (mod_res s (λ x, x <| rs_msg ::= λ m, m <| rm_headers ::= λ h, headers_keep_alive h false |> |>))) Q E w.
Proof. intros HT HQ. destruct b; cbn [when]; st_steps; by apply HQ. Qed.

End Steps.

(** The requests [l] are taken from their connection. *)
Definition detach_all (l : list ReqId) (reqs : gmap nat ServerRequest) : gmap nat ServerRequest :=
  foldr (alter detached) reqs l.

Lemma detach_all_lookup l reqs r :
  detach_all l reqs !! r = if decide (r ∈ l) then detached <$> reqs !! r else reqs !! r.
Proof.
  induction l as [|r' l IH]; [done|]. change (detach_all (r' :: l) reqs) with (alter detached r' (detach_all l reqs)).
  rewrite lookup_alter. destruct (decide (r' = r)) as [->|Hne], (decide (r ∈ l)), (decide (r ∈ _ :: l));
    try set_solver; rewrite IH; by destruct (reqs !! r).
Qed.

(** The world [w0] without the requests [l] behind the one that is answered. *)
Definition without_rest w (l : list ReqId) : World := w <| w_reqs ::= detach_all l |>.

Section Answer.
Context (w0 : World) (c : ConnId) (r : ReqId) (s : ResId) (n : nat).
Hypothesis silent : ∀ ev w, fire ev w = Ok tt w.

(** The notices of the dropped requests are read in the world in which the response
    [s] is complete. *)
Definition with_completed w : World := w <| w_ress ::= alter (λ x, x <| rs_completed := true |>) s |>.

Lemma drop_notice_answer k q R L m w err r' :
  STr w0 c r k q (<[s := mkSRes (Some r) true m]> R) L w → r ≠ r' → is_Some (w_ress w0 !! s) →
  (∀ s', s' ≠ s → R !! s' = w_ress w0 !! s') → drop_notice w err r' = drop_notice (with_completed w0) err r'.
Proof.
  intros [] Hne [x Hx] HR. unfold drop_notice, with_completed. rewrite st_reqs0, st_ress0, lookup_insert_ne by done. wsimpl.
  destruct (w_reqs w0 !! r') as [q'|]; [|done]. destruct (sr_response q') as [s'|]; [|done]. cbn [mbind option_bind].
  destruct (decide (s' = s)) as [->|Hs'].
  - by rewrite lookup_insert_eq, lookup_alter_eq, Hx.
  - by rewrite lookup_insert_ne, lookup_alter_ne, HR by done.
Qed.

(** Dropping the requests behind the one that is answered. *)
Lemma st_drop_rest k q R L m rest (Q : unit → World → Prop) E w :
  STr w0 c r k q (<[s := mkSRes (Some r) true m]> R) L w → sc_requests k = r :: rest →
  r ∉ rest → Forall (known w0) rest → (length rest ≤ S n)%nat → is_Some (w_ress w0 !! s) →
  (∀ s', s' ≠ s → R !! s' = w_ress w0 !! s') →
  (∀ w', STr (without_rest w0 rest) c r (k <| sc_requests := [r] |>) q (<[s := mkSRes (Some r) true m]> R)
      (drop_obs (with_completed w0) (Some (HttpErr pipeline_canceled)) rest ++ L) w' → Q tt w') →
  wp (when (1 <? Z.of_nat (length (sc_requests k)))
       (mod_conn c (λ k, k <| sc_requests ::= tail |>) ;;
        drop_requests (S n) c (Some (HttpErr pipeline_canceled)) ;;
        mod_conn c (λ k, k <| sc_requests ::= cons r |>))) Q E w.
Proof.
  intros HT Hr Hin Hknown Hlen Hx HR HQ. rewrite Hr. destruct rest as [|r' rest].
  { apply wp_ret, HQ. replace (k <| sc_requests := [r] |>) with k by (destruct k; cbn in *; by subst).
    unfold without_rest. destruct HT. by split. }
  replace (1 <? _) with true by (symmetry; apply Z.ltb_lt; cbn [length]; lia). cbn [when]. st_steps.
  assert (∀ r0, r0 ∈ r' :: rest → r ≠ r0) as Hne by (intros r0 Hr0 ->; done).
  eapply (wp_drop_silent silent (S n) c _ _ (r' :: rest)); [by rewrite (st_conns _ _ _ _ _ _ _ _ HT), lookup_insert_eq|ksimpl; by rewrite Hr| |exact Hlen|].
  { rewrite Forall_forall in Hknown |- *. intros r0 Hr0. destruct (Hknown _ Hr0) as (q0 & Hq0 & Hs0). exists q0.
    rewrite (st_reqs _ _ _ _ _ _ _ _ HT), (st_ress _ _ _ _ _ _ _ _ HT), lookup_insert_ne by auto. split; [done|].
    intros s0 Hs. destruct (decide (s0 = s)) as [->|]; [rewrite lookup_insert_eq; by eexists|].
    rewrite lookup_insert_ne, HR by done. by apply Hs0. }
  intros w2 [Hc1 Hx1 Hs1 Hl1 Hr1]. apply wp_modify, HQ. pose proof HT as [Hc Hq Hxs Hcs Hst Hl].
  split; wsimpl; try congruence.
  - rewrite Hc1, Hc, alter_insert_eq, !insert_insert_eq. f_equal.
  - apply map_eq. intros r0. rewrite Hr1, Hq. destruct (decide (r0 = r)) as [->|Hr0].
    + by rewrite decide_False, !lookup_insert_eq by done.
    + rewrite !lookup_insert_ne by done. unfold without_rest. wsimpl. by rewrite detach_all_lookup.
  - rewrite Hs1. exact Hcs.
  - rewrite Hs1. exact Hst.
  - rewrite Hl1, Hl. f_equal. unfold drop_obs. f_equal. apply map_ext_in. intros r0 Hr0. f_equal.
    eapply drop_notice_answer; [exact HT| |done|done]. apply Hne. apply in_rev in Hr0. by apply list_elem_of_In.
Qed.

(** The connection when the request is finished: it is closing unless both sides keep
    it alive, and then nothing is behind the request any more. *)
Definition ending_conn k (keep : bool) : ServerConnection :=
  if keep then k else k <| sc_closing := true |> <| sc_ignored := true |> <| sc_requests := [r] |>.
Definition ending_rest (keep : bool) (rest : list ReqId) : list ReqId := if keep then rest else [].
Definition ending_world (keep : bool) (rest : list ReqId) : World := if keep then w0 else without_rest w0 rest.
Definition ending_obs (keep : bool) (rest : list ReqId) : list Obs :=
  if keep then [] else drop_obs (with_completed w0) (Some (HttpErr pipeline_canceled)) rest ++ [OReadIgnore c].

(** [closing = true] and what follows it. *)
Lemma st_close_after k q R L m rest (Q : unit → World → Prop) E w :
  STr w0 c r k q (<[s := mkSRes (Some r) true m]> R) L w → sc_requests k = r :: rest → sr_is_done q = true →
  r ∉ rest → Forall (known w0) rest → (length rest ≤ S n)%nat → is_Some (w_ress w0 !! s) →
  (∀ s', s' ≠ s → R !! s' = w_ress w0 !! s') →
  (∀ w', STr (ending_world false rest) c r (ending_conn k false) q (<[s := mkSRes (Some r) true m]> R)
      (ending_obs false rest ++ L) w' → Q tt w') →
  wp (close_after_response (S n) c r) Q E w.
Proof.
  intros HT Hr Hd Hin Hknown Hlen Hx HR HQ. unfold close_after_response. st_steps. rewrite Hd. cbn [when].
  unfold read_ignore. st_steps. eapply st_drop_rest; [exact HT|ksimpl; exact Hr|done..|].
  intros w' HT'. apply HQ. unfold ending_obs. by rewrite <-app_assoc.
Qed.

Lemma st_write_next (keep : bool) k q R L m rest (Q : unit → World → Prop) E w :
  STr w0 c r k q (<[s := mkSRes (Some r) true m]> R) L w → sc_requests k = r :: rest → sr_is_done q = true →
  sr_response q = Some s → r ∉ rest → Forall (known w0) rest → (length rest ≤ S n)%nat → is_Some (w_ress w0 !! s) →
  (∀ s', s' ≠ s → R !! s' = w_ress w0 !! s') →
  res_keep_alive m && req_keep_alive (sr_msg q) = keep →
  (keep = true → sc_closing k || sc_stopping k = false ∧ (rest = [] → is_Some (sc_idle_timer k))) →
  let next := write_next_response_with (S n) (finish_request_n (S n) n c) c in
  let k1 := ending_conn k keep in
  (∀ d w' k', let m' := with_date d (with_code m) in
    let L' := OEvent (EvFinish r) :: ending_obs keep rest ++ OWrite c (WHead r s (to_vector m' (sr_msg q)).1) :: L in
    STr (ending_world keep rest) c r k' (detached q)
      (<[s := mkSRes (Some r) true (m' <| rm_codec := (to_vector m' (sr_msg q)).2 |>)]> R)
      (end_obs c k1 (ending_rest keep rest) L' ++ L') w' →
    sc_requests k' = ending_rest keep rest → sc_closing k' = sc_closing k1 → sc_stopping k' = sc_stopping k1 →
    wp (if keep && next_answered w0 rest then next else mret tt) Q E w') →
  wp (write_next_response (S n) c) Q E w.
Proof.
  intros HT Hr Hd Hs Hin Hknown Hlen Hx HR Hkeep Hgo next k1 HQ. unfold write_next_response, write_next_response_with, front. st_steps.
  rewrite Hr. st_steps. eapply wp_deref; [done|]. st_steps.
  eapply st_prepare_head; [exact HT|]. clear HT. intros d w1 HT. st_steps. unfold take_chunks. st_steps.
  cbn [rs_completed negb]. rewrite andb_false_r. cbn [andb]. st_steps.
  eapply st_write_head; [exact HT|]. clear HT. intros w2 HT. st_steps. cbn [rs_msg].
  change (res_keep_alive (_ <| rm_codec := _ |>)) with (res_keep_alive (with_date d (with_code m))).
  rewrite with_date_keep_alive, with_code_keep_alive, <-negb_andb, Hkeep. specialize (HQ d). cbv zeta in HQ.
  cut (∀ w3, STr (ending_world keep rest) c r k1 q
      (<[s := mkSRes (Some r) true ((with_date d (with_code m)) <| rm_codec := (to_vector (with_date d (with_code m)) (sr_msg q)).2 |>)]> R)
      (ending_obs keep rest ++ OWrite c (WHead r s (to_vector (with_date d (with_code m)) (sr_msg q)).1) :: L) w3 →
    wp (res ← get_res s; if negb (rs_completed res) then for_each (write_chunk c s) [] else finish_request (S n) c) Q E w3).
  - intros Hrest. clear Hkeep. destruct keep; cbn [negb when]; [by apply wp_ret, Hrest|].
    eapply st_close_after; [exact HT|done..].
  - clear HT. intros w3 HT. st_steps. cbn [rs_completed negb]. unfold finish_request. cbn [finish_request_n].
    subst k1. clear Hkeep. destruct keep; cbn [ending_conn ending_rest ending_world andb] in *.
    + destruct (Hgo eq_refl) as [Hcl Ht].
      eapply st_finish; [exact silent|exact HT|exact Hr|done..|by rewrite Hcl|]. intros w9 k9 HT9 Hr9 Hc9 Hs9. rewrite Hcl. by eapply HQ.
    + eapply st_finish; [exact silent|exact HT|done..|apply not_elem_of_nil|constructor|done|]. intros w9 k9 HT9 Hr9 Hc9 Hs9. by eapply HQ.
Qed.

(** What follows the end of the request [r]. *)
Definition after_obs k (keep : bool) (rest : list ReqId) (L : list Obs) : list Obs :=
  if keep then match rest, sc_idle_timer k with
               | [], Some false => if write_queue_size c L =? 0 then [OTimerOnce c (sc_idle_timeout k)] else []
               | _, _ => []
               end
  else [ODisconnect c; OShutdown c].

(** The request was answered, finished and detached: [d] is the date of its head. *)
Record answered k q x rest (d : string) w (k' : ServerConnection) : Prop := {
  an_log :
    let keep := kept_alive k q (rs_msg x) in
    let m := with_date d (with_code (if last_answer k then without_keep_alive (rs_msg x) else rs_msg x)) in
    let L := OEvent (EvFinish r) :: ending_obs keep rest ++ OWrite c (WHead r s (to_vector m (sr_msg q)).1) :: w_log w0 in
    w_log w = after_obs k keep rest L ++ L;
  an_conns : w_conns w = <[c := k']> (w_conns w0);
  an_requests : sc_requests k' = if kept_alive k q (rs_msg x) then rest else [];
  an_closing : sc_closing k' = negb (kept_alive k q (rs_msg x));
  an_reqs : w_reqs w = <[r := detached (q <| sr_response := Some s |>)]>
    (if kept_alive k q (rs_msg x) then w_reqs w0 else detach_all rest (w_reqs w0));
  an_ress :
    let m := with_date d (with_code (if last_answer k then without_keep_alive (rs_msg x) else rs_msg x)) in
    w_ress w = <[s := mkSRes (Some r) true (m <| rm_codec := (to_vector m (sr_msg q)).2 |>)]> (w_ress w0)
}.

Lemma wp_alive_at k w (Q : unit → World → Prop) E :
  w_conns w !! c = Some k → lives w c k = true → Q tt w → wp (alive c) Q E w.
Proof. intros Hk Hl HQ. unfold wpf. by rewrite (alive_at w c k Hk), Hl. Qed.

Lemma wp_respond_front k q x rest (Q : unit → World → Prop) E :
  w_conns w0 !! c = Some k → lives w0 c k = true → w_reqs w0 !! r = Some q → w_ress w0 !! s = Some x →
  sr_connection q = Some c → sr_response q = None → sr_is_done q = true →
  sc_requests k = r :: rest → r ∉ rest → Forall (known w0) rest → (length rest ≤ S n)%nat → sc_closing k = false →
  (kept_alive k q (rs_msg x) = true → rest = [] → is_Some (sc_idle_timer k)) →
  negb (rm_chunked (rs_msg x)) || negb (body_length (rm_parts (rs_msg x)) =? 0) = true →
  (∀ d w' k', answered k q x rest d w' k' →
    wp (if kept_alive k q (rs_msg x) && next_answered w0 rest
        then write_next_response_with (S n) (finish_request_n (S n) n c) c else mret tt) Q E w') →
  wp (req_respond (S n) r s) Q E w0.
Proof.
  intros Hk Hlive Hq Hx Hc Hres Hd Hr Hin Hknown Hlen Hcl Htimer Hfull HQ.
  set (keep := kept_alive k q (rs_msg x)) in *.
  unfold req_respond. pose proof (STr_start w0 c r k q Hk Hq) as HT. destruct x as [a b m].
  rewrite <-(insert_id (w_ress w0) s (mkSRes a b m)) in HT by done. cbn [rs_msg] in *.
  st_steps. rewrite Hc. apply wp_bind. eapply wp_alive_at; [exact Hk|exact Hlive|]. unfold respond. st_steps. rewrite Hc.
  apply wp_assert; [by apply bool_decide_eq_true|]. cbv beta.
  rewrite Hres. st_steps. eapply (st_limit _ _ _ _ k); [exact HT|by rewrite Hr|]. clear HT. intros w3 k3 HT Hst [Hr3 Hc3 Ht3].
  st_steps. rewrite Hst. eapply st_last; [exact HT|]. clear HT. intros w4 HT.
  set (m1 := if last_answer k then without_keep_alive m else m) in *.
  assert (negb (rm_chunked m1) || negb (body_length (rm_parts m1) =? 0) = true) as Hfull1
    by (unfold m1; by destruct (last_answer k)).
  assert (res_keep_alive m1 && req_keep_alive (sr_msg (q <| sr_response := Some s |>)) = keep) as Ekeep.
  { change (sr_msg (q <| sr_response := Some s |>)) with (sr_msg q). unfold m1, keep, kept_alive. destruct (last_answer k); [|done]. cbn [negb andb].
    unfold res_keep_alive, without_keep_alive. cbn. by rewrite keep_alive_close. }
  assert (keep = true → last_answer k = false) as Hlast by (unfold keep, kept_alive; by destruct (last_answer k)).
  st_steps. cbn [rs_msg rs_completed] in HT |- *.
  change (if last_answer k then without_keep_alive m else m) with m1 in HT |- *.
  rewrite Hfull1. cbn [when]. st_steps. unfold front. st_steps. rewrite Hr3, Hr. st_steps.
  rewrite Nat.eqb_refl. destruct Ht3 as [Ht3 Hto3].
  eapply (st_write_next keep k3); [exact HT|by rewrite Hr3|exact Hd|done..|by eexists|done|exact Ekeep| |].
  - intros Hk0. rewrite Hc3, Hst, Hcl, Ht3, (Hlast Hk0). split; [done|by apply Htimer].
  - cbv zeta. intros d0 w6 k6 HT5 Hr5 Hc5 _. apply (HQ d0 w6 k6). destruct HT5.
    split; cbn [rs_msg]; change (kept_alive k q m) with keep; change (if last_answer k then _ else m) with m1.
    + cbv zeta. rewrite st_log0. f_equal. unfold after_obs, end_obs, ending_conn, ending_rest. destruct keep; ksimpl; [|done].
      by rewrite Hc3, Hst, Hcl, Hlast, Ht3, Hto3 by done.
    + rewrite st_conns0. unfold ending_world. by destruct keep.
    + exact Hr5.
    + rewrite Hc5. unfold ending_conn. destruct keep; ksimpl; [by rewrite Hc3, Hcl|done].
    + rewrite st_reqs0. unfold ending_world. by destruct keep.
    + exact st_ress0.
Qed.
End Answer.
End Respond.

Section RespondTrace.
Context `{HttpProto} `{!HttpProtoLaws} `{Env} `{!EnvLaws} `{CB : !Callbacks}.

(** C15: [ServerRequest::respond] with a complete response, for the first request of a
    connection that was received in full: the head with its defaults is written, the
    request is finished and detached. When both sides keep the connection alive, the
    call goes on exactly as [write_next_response] when the next request has its answer
    already, and returns when it waits for one; with nothing queued it starts the
    idle timer. When one side does not, or this is the last answer, it stops
    reading, detaches every request behind and reports it as cancelled, in order,
    and shuts the connection down. *)
Theorem respond_trace w0 c r s n k q x rest :
  (∀ ev w, fire ev w = Ok tt w) →
  w_conns w0 !! c = Some k → lives w0 c k = true → w_reqs w0 !! r = Some q → w_ress w0 !! s = Some x →
  sr_connection q = Some c → sr_response q = None → sr_is_done q = true →
  sc_requests k = r :: rest → r ∉ rest → Forall (known w0) rest → (length rest ≤ S n)%nat → sc_closing k = false →
  (kept_alive k q (rs_msg x) = true → rest = [] → is_Some (sc_idle_timer k)) →
  negb (rm_chunked (rs_msg x)) || negb (body_length (rm_parts (rs_msg x)) =? 0) = true →
  ∃ d w' k', answered w0 c r s k q x rest d w' k' ∧
    req_respond (S n) r s w0 =
      (if kept_alive k q (rs_msg x) && next_answered w0 rest
       then write_next_response_with (S n) (finish_request_n (S n) n c) c else mret tt) w'.
Proof.
  intros silent Hk Hl Hq Hx Hc Hres Hd Hr Hin Hknown Hlen Hcl Ht Hfull.
  apply (wpf_outcome (req_respond (S n) r s) w0 (λ o, ∃ d w' k', answered w0 c r s k q x rest d w' k' ∧
    o = (if kept_alive k q (rs_msg x) && next_answered w0 rest
       then write_next_response_with (S n) (finish_request_n (S n) n c) c else mret tt) w')).
  eapply wp_respond_front; [done..|]. intros d w' k' Ha. unfold wpf.
  match goal with |- match ?o with _ => _ end => destruct o eqn:Ho end; by exists d, w', k'.
Qed.
End RespondTrace.

(** ** Receiving requests *)

Section Read.
Context `{HttpProto} `{!HttpProtoLaws} `{Env} `{CB : !Callbacks}.
Implicit Types (w : World) (k : ServerConnection) (q : ServerRequest) (msg : ReqMsg).

(** The messages the parser takes from a buffer that ends with one of them: up to
    the first one that ends the connection. *)
Inductive pipelined (lim : Z * Z) : PState → string → list ReqMsg → PState → Prop :=
| pipelined_nil p : pipelined lim p EmptyString [] p
| pipelined_close p buf p' msg rest :
    buf ≠ EmptyString → parse_shift lim p buf = (p', (true, msg, PsDone, None, rest)) →
    headers_connection (req_headers msg) ≠ "upgrade"%string →
    req_keep_alive msg = false → pipelined lim p buf [msg] p'
| pipelined_next p buf p' msg rest msgs p'' :
    buf ≠ EmptyString → parse_shift lim p buf = (p', (true, msg, PsDone, None, rest)) →
    headers_connection (req_headers msg) ≠ "upgrade"%string →
    req_keep_alive msg = true → pipelined lim p' rest msgs p'' → pipelined lim p buf (msg :: msgs) p''.

(** The request object of a message that was received in full. *)
Definition received c k msg : ServerRequest := {|
  sr_connection := Some c; sr_server := true; sr_response := None;
  sr_routed := true; sr_partial := false; sr_finish_on_receive := false;
  sr_is_done := true; sr_is_secure := sc_secure k; sr_msg := msg |}.

(** What receiving one message reports, and the connection after it. *)
Definition receive_obs c r (timer : option bool) (keep : bool) : list Obs :=
  (if keep then [] else [OReadIgnore c]) ++
  [OEvent (EvRequest r); OEvent (EvReceive r); OEvent (EvRoute r); OArrive c r] ++ stop_obs c timer.
Definition receive_conn k p r (keep : bool) : ServerConnection :=
  let k' := k <| sc_idle_timer ::= timer_stopped |> <| sc_parser := p |> <| sc_current := Some r |>
              <| sc_requests ::= λ l, l ++ [r] |> in
  if keep then k' else k' <| sc_ignored := true |>.

Context (fuel : nat) (c : ConnId).
Hypothesis silent : ∀ ev w, fire ev w = Ok tt w.

Lemma st_alloc w r k q (Q : ReqId → World → Prop) E :
  r = fresh_key (w_reqs w) → w_conns w !! c = Some k →
  (∀ w', STr w c r k q (w_ress w) (w_log w) w' → Q r w') → wp (alloc_req q) Q E w.
Proof.
  intros -> Hk HQ. unfold alloc_req. apply wp_bind, wp_gets, wp_bind, wp_modify, wp_ret, HQ.
  split; try done; wsimpl. by rewrite insert_id.
Qed.

Lemma STr_put w w1 w2 r k k1 q R L L1 :
  STr w1 c r k q R L w2 → put w w1 c k1 L1 → STr w c r k q R L w2.
Proof.
  intros [] []. split; try congruence. by rewrite st_conns0, pt_conns, insert_insert_eq.
Qed.

(** One complete message at the front of the buffer. *)
Lemma read_iter_trace w0 k buf p' msg rest :
  w_conns w0 !! c = Some k → sc_factory k = false → sc_closing k = false →
  (∀ r, last (sc_requests k) = Some r → is_Some (w_reqs w0 !! r)) →
  parse_shift (sc_limits k) (sc_parser k) buf = (p', (true, msg, PsDone, None, rest)) →
  headers_connection (req_headers msg) ≠ "upgrade"%string →
  let r := fresh_key (w_reqs w0) in
  let keep := req_keep_alive msg in
  ∃ w', on_read_iter fuel c buf w0 = Ok (if keep then Some rest else None) w' ∧
    STr w0 c r (receive_conn k p' r keep) (received c k msg) (w_ress w0)
      (receive_obs c r (sc_idle_timer k) keep ++ w_log w0) w'.
Proof.
  intros Hk Hf Hcl Hlast Hp Hup r keep.
  cut (wp (on_read_iter fuel c buf) (λ o w', o = (if keep then Some rest else None) ∧
    STr w0 c r (receive_conn k p' r keep) (received c k msg) (w_ress w0)
      (receive_obs c r (sc_idle_timer k) keep ++ w_log w0) w') no_throw w0).
  { intros (o & w' & E & -> & HT)%wp_no_throw_value. by exists w'. }
  unfold on_read_iter, parse_next, new_request, new_ServerRequest.
  apply wp_bind. eapply wp_stop_timer_silent; [exact Hk|]. intros w1 [].
  set (k1 := k <| sc_idle_timer ::= timer_stopped |>) in *.
  assert (w_conns w1 !! c = Some k1) as Hk1 by (by rewrite pt_conns, lookup_insert_eq).
  apply wp_bind, wp_bind. eapply wp_conn_at; [exact Hk1|].
  change (parse_shift (sc_limits k1) (sc_parser k1) buf) with (parse_shift (sc_limits k) (sc_parser k) buf).
  rewrite Hp. apply wp_bind, wp_bind. eapply wp_conn_at; [exact Hk1|]. change (sc_factory k1) with (sc_factory k).
  rewrite Hf. apply wp_bind. eapply wp_conn_at; [exact Hk1|].
  eapply (st_alloc w1 r k1); [by rewrite pt_reqs|exact Hk1|].
  intros w2 HT. rewrite pt_ress, pt_log in HT. eapply STr_put in HT; [|by split].
  st_steps. unfold enqueue_parsed. st_steps. ksimpl.
  rewrite bool_decide_false.
  2: { intros Hl. apply Hlast in Hl as [x Hx]. unfold r in Hx. by rewrite fresh_key_None in Hx. }
  unfold emplace_back. st_steps. cbn [state_le_headers state_ge_done state_is_done]. st_steps.
  ksimpl.
  apply String.eqb_neq in Hup. cbn [sr_msg setter set_sr_msg set_sr_is_done]. rewrite Hup, andb_false_r.
  unfold route, deliver, after_done, read_ignore. st_steps. cbn [sr_routed setter set_sr_msg set_sr_is_done negb when]. st_steps.
  cbn [sr_partial setter set_sr_msg set_sr_is_done set_sr_routed set_sr_server]. cbn [state_is_done when]. st_steps.
  cbn [sr_finish_on_receive setter set_sr_msg set_sr_is_done set_sr_routed set_sr_server when]. st_steps. ksimpl.
  change (sc_closing k1) with (sc_closing k). rewrite Hcl. cbn [orb].
  change (req_keep_alive (sr_msg _)) with keep. clearbody keep.
  destruct keep; cbn [negb]; st_steps; (split; [done|exact HT]).
Qed.

(** What receiving the messages reports, oldest first in the list. *)
Fixpoint pipeline_obs (timer : option bool) (l : list (ReqId * ReqMsg)) : list Obs :=
  match l with
  | [] => []
  | (r, msg) :: l => pipeline_obs timer l ++ receive_obs c r timer (req_keep_alive msg)
  end.

(** The world in which the messages have been received as the requests [rs]. *)
Record received_all w k msgs (rs : list ReqId) w' k' : Prop := {
  ra_log : w_log w' = pipeline_obs (sc_idle_timer k) (zip rs msgs) ++ w_log w;
  ra_conns : w_conns w' = <[c := k']> (w_conns w);
  ra_requests : sc_requests k' = sc_requests k ++ rs;
  ra_ignored : sc_ignored k' = sc_ignored k || existsb (λ m, negb (req_keep_alive m)) msgs;
  ra_reqs : w_reqs w' = list_to_map (zip rs (received c k <$> msgs)) ∪ w_reqs w;
  ra_fresh : NoDup rs ∧ ∀ r, r ∈ rs → w_reqs w !! r = None;
  ra_length : length rs = length msgs;
  ra_ress : w_ress w' = w_ress w;
  ra_server : sv_connections (w_server w') = sv_connections (w_server w) ∧
              sv_state (w_server w') = sv_state (w_server w)
}.

Lemma received_all_nil w k : w_conns w !! c = Some k → received_all w k [] [] w k.
Proof.
  intros Hk. split; try done; [by rewrite insert_id|by rewrite app_nil_r|by rewrite orb_false_r| |].
  - cbn. by rewrite map_empty_union.
  - split; [constructor|]. intros r Hr. by apply elem_of_nil in Hr.
Qed.

Lemma received_all_cons w k msg msgs p r rs w1 w' k' :
  w_reqs w !! r = None →
  STr w c r (receive_conn k p r (req_keep_alive msg)) (received c k msg) (w_ress w)
    (receive_obs c r (sc_idle_timer k) (req_keep_alive msg) ++ w_log w) w1 →
  received_all w1 (receive_conn k p r (req_keep_alive msg)) msgs rs w' k' →
  received_all w k (msg :: msgs) (r :: rs) w' k'.
Proof.
  intros Hr [] []. destruct ra_fresh0 as [Hnd Hfr].
  assert (stop_obs c (sc_idle_timer (receive_conn k p r (req_keep_alive msg))) = stop_obs c (sc_idle_timer k)) as Et.
  { unfold receive_conn. destruct (req_keep_alive msg); ksimpl; by destruct (sc_idle_timer k). }
  assert (r ∉ rs) as Hrs.
  { intros Hin. apply Hfr in Hin. by rewrite st_reqs0, lookup_insert_eq in Hin. }
  split.
  - rewrite ra_log0, st_log0. cbn [zip pipeline_obs]. rewrite <-app_assoc. f_equal.
    clear -Et. induction (zip rs msgs) as [|[r' m'] l IH]; [done|]. cbn [pipeline_obs]. rewrite IH.
    unfold receive_obs. by rewrite Et.
  - by rewrite ra_conns0, st_conns0, insert_insert_eq.
  - rewrite ra_requests0. unfold receive_conn. destruct (req_keep_alive msg); ksimpl; by rewrite <-app_assoc.
  - rewrite ra_ignored0. unfold receive_conn. cbn [existsb]. destruct (req_keep_alive msg); ksimpl; [done|].
    by rewrite orb_true_r.
  - rewrite ra_reqs0, st_reqs0. cbn [zip zip_with fmap list_fmap]. rewrite list_to_map_cons.
    replace (received c (receive_conn k p r (req_keep_alive msg))) with (received c k)
      by (unfold receive_conn; by destruct (req_keep_alive msg)).
    rewrite <-insert_union_l. symmetry. apply insert_union_r, not_elem_of_list_to_map_1.
    by rewrite fst_zip by (rewrite length_fmap; lia).
  - split; [by constructor|]. intros r' [->|Hr']%elem_of_cons; [done|].
    apply Hfr in Hr'. rewrite st_reqs0 in Hr'. by apply lookup_insert_None in Hr' as [? _].
  - cbn. by rewrite ra_length0.
  - congruence.
  - destruct ra_server0. split; congruence.
Qed.

Lemma on_read_loop_trace lim p buf msgs p' :
  pipelined lim p buf msgs p' → ∀ n w0 k,
  (String.length buf ≤ n)%nat → lim = sc_limits k → p = sc_parser k →
  w_conns w0 !! c = Some k → sc_factory k = false → sc_closing k = false →
  (∀ r, last (sc_requests k) = Some r → is_Some (w_reqs w0 !! r)) →
  ∃ rs w' k', on_read_loop fuel n c buf w0 = Ok tt w' ∧ received_all w0 k msgs rs w' k' ∧ sc_parser k' = p'.
Proof.
  induction 1 as [p|p buf p' msg rest Hb Hp Hup Hka|p buf p' msg rest msgs p'' Hb Hp Hup Hka Hpipe IH];
    intros n w0 k Hn -> -> Hk Hf Hcl Hlast.
  { exists [], w0, k. split_and!; [by destruct n|by apply received_all_nil|done]. }
  all: destruct buf as [|a buf]; [done|]; destruct n as [|n]; [cbn in Hn; lia|].
  all: destruct (read_iter_trace w0 k _ _ _ _ Hk Hf Hcl Hlast Hp Hup) as (w1 & E1 & HT); rewrite Hka in E1, HT.
  all: assert (w_reqs w0 !! fresh_key (w_reqs w0) = None) as Hfr by apply fresh_key_None.
  - exists [fresh_key (w_reqs w0)], w1, (receive_conn k p' (fresh_key (w_reqs w0)) false). split_and!; [| |done].
    + cbn [on_read_loop]. by rewrite (bind_ok E1).
    + eapply (received_all_cons _ _ _ _ p'); [done|by rewrite Hka|].
      rewrite Hka. apply received_all_nil. by rewrite (st_conns _ _ _ _ _ _ _ _ HT), lookup_insert_eq.
  - pose proof (parse_shift_shrinks _ _ _ _ _ _ _ _ Hb Hp) as [Hlt _].
    destruct (IH n w1 (receive_conn k p' (fresh_key (w_reqs w0)) true)) as (rs & w' & k' & E & Hra & Hpk);
      try done; [cbn in *; lia|by rewrite (st_conns _ _ _ _ _ _ _ _ HT), lookup_insert_eq| |].
    { intros r Hr. unfold receive_conn in Hr. ksimpl. rewrite last_snoc in Hr. injection Hr as <-.
      rewrite (st_reqs _ _ _ _ _ _ _ _ HT), lookup_insert_eq. by eexists. }
    exists (fresh_key (w_reqs w0) :: rs), w', k'. split_and!; [|eapply (received_all_cons _ _ _ _ p'); [done|by rewrite Hka|by rewrite Hka]|done].
    cbn [on_read_loop]. by rewrite (bind_ok E1).
Qed.

(** C13: reading a buffer of pipelined requests on a connection: every message becomes a
    request of its own, in order, at the end of the queue; each is routed and then
    delivered once, in full; the first that does not keep the connection alive is
    the last one read. *)
Theorem read_trace w0 k buf msgs p' :
  w_conns w0 !! c = Some k → sc_factory k = false → sc_closing k = false →
  (∀ r, last (sc_requests k) = Some r → is_Some (w_reqs w0 !! r)) →
  pipelined (sc_limits k) (sc_parser k) buf msgs p' →
  ∃ rs w' k', on_read fuel c buf None w0 = Ok tt w' ∧ received_all w0 k msgs rs w' k' ∧ sc_parser k' = p'.
Proof. intros. by eapply on_read_loop_trace. Qed.

End Read.

(** ** Stopping gracefully *)

Section Graceful.
Context `{HttpProto} `{Env} `{CB : !Callbacks}.
Implicit Types (w : World) (k : ServerConnection) (l : list ConnId).
Context (fuel : nat).
Hypothesis silent : ∀ ev w, fire ev w = Ok tt w.

(** An idle connection is shut down, one with requests goes on until they are answered. *)
Definition stopped_gracefully k : ServerConnection :=
  match sc_requests k with
  | [] => k <| sc_disconnected := true |>
  | _ :: _ => k <| sc_stopping := true |>
  end.
Definition is_idle w c : bool :=
  match w_conns w !! c with Some k => bool_decide (sc_requests k = []) | None => false end.
Fixpoint graceful_obs w l : list Obs :=
  match l with
  | [] => []
  | c :: l => graceful_obs w l ++ (if is_idle w c then [ODisconnect c; OShutdown c] else [])
  end.

(** The sockets of the pipes, which are unlinked. *)
Fixpoint unlink_obs (l : list Listener) : list Obs :=
  match l with
  | [] => []
  | x :: l => unlink_obs l ++
      match (if ls_is_pipe x then pipe_sockname (ls_location x) else None) with Some path => [OUnlink path] | None => [] end
  end.

Record all_stopped w l w' : Prop := {
  as_conns : ∀ c, w_conns w' !! c = (if decide (c ∈ l) then stopped_gracefully else id) <$> w_conns w !! c;
  as_reqs : w_reqs w' = w_reqs w;
  as_ress : w_ress w' = w_ress w;
  as_server : w_server w' = w_server w;
  as_log : w_log w' = graceful_obs w l ++ w_log w
}.

Lemma stopped_gracefully_requests k : sc_requests (stopped_gracefully k) = sc_requests k.
Proof. unfold stopped_gracefully. by destruct (sc_requests k) eqn:E; ksimpl. Qed.

Lemma stopped_gracefully_twice k : stopped_gracefully (stopped_gracefully k) = stopped_gracefully k.
Proof. unfold stopped_gracefully. destruct (sc_requests k) eqn:E; ksimpl; by rewrite E. Qed.

Lemma wp_stop_one w c k (Q : unit → World → Prop) E :
  w_conns w !! c = Some k → (∀ w', all_stopped w [c] w' → Q tt w') → wp (conn_graceful_stop fuel c) Q E w.
Proof.
  intros Hk HQ. unfold conn_graceful_stop. apply wp_bind. eapply wp_conn_at; [done|].
  assert (∀ w' f, w_conns w' = alter f c (w_conns w) → f k = stopped_gracefully k → ∀ c',
    w_conns w' !! c' = (if decide (c' ∈ [c]) then stopped_gracefully else id) <$> w_conns w !! c') as Hconns.
  { intros w' f -> Hf c'. case_decide as Hc.
    - apply list_elem_of_singleton in Hc as ->. by rewrite lookup_alter_eq, Hk; cbn; rewrite Hf.
    - rewrite lookup_alter_ne by set_solver. by destruct (w_conns w !! c'). }
  unfold stopped_gracefully in Hconns at 1. destruct (sc_requests k) as [|r l] eqn:Hr.
  - unfold shutdown, do_close. apply wp_bind, wp_bind, wp_modify, wp_bind, wp_modify, wp_modify, wp_bind.
    eapply wp_drop_none; [wsimpl; by rewrite lookup_alter_eq, Hk|done|]. apply wp_ret, HQ.
    split; try done; [by eapply Hconns|]. wsimpl. cbn [graceful_obs]. unfold is_idle. rewrite Hk, bool_decide_true by done. done.
  - apply wp_modify, HQ. split; try done; [by eapply Hconns|].
    wsimpl. cbn [graceful_obs]. unfold is_idle. rewrite Hk, bool_decide_false by (by rewrite Hr). done.
Qed.

Lemma is_idle_stopped w w' l c : all_stopped w l w' → is_idle w' c = is_idle w c.
Proof.
  intros []. unfold is_idle. rewrite as_conns0. destruct (w_conns w !! c) as [k|]; [|done]. cbn.
  case_decide; [by rewrite stopped_gracefully_requests|done].
Qed.

Lemma graceful_obs_ext w w' l : (∀ c, is_idle w' c = is_idle w c) → graceful_obs w' l = graceful_obs w l.
Proof. intros Hext. induction l as [|c l IH]; [done|]. cbn. by rewrite IH, Hext. Qed.

Lemma all_stopped_cons w c l w1 w' : all_stopped w [c] w1 → all_stopped w1 l w' → all_stopped w (c :: l) w'.
Proof.
  intros H1 H2. assert (graceful_obs w1 l = graceful_obs w l) as El.
  { apply graceful_obs_ext. intros c'. by apply is_idle_stopped with [c]. }
  destruct H1, H2. split; try congruence.
  - intros c'. rewrite as_conns1, as_conns0, <-option_fmap_compose. destruct (w_conns w !! c') as [k|]; [|done].
    cbn. f_equal. repeat case_decide; try set_solver; [apply stopped_gracefully_twice|done..].
  - rewrite as_log1, as_log0, El. cbn. by rewrite <-app_assoc.
Qed.

Lemma wp_stop_all l : ∀ w (Q : unit → World → Prop) E,
  Forall (λ c, is_Some (w_conns w !! c)) l → (∀ w', all_stopped w l w' → Q tt w') →
  wp (for_each (conn_graceful_stop fuel) l) Q E w.
Proof.
  induction l as [|c l IH]; intros w Q E Hl HQ.
  { apply wp_ret, HQ. split; try done. intros c. case_decide; [set_solver|]. by rewrite option_fmap_id. }
  apply Forall_cons in Hl as [[k Hk] Hl]. apply wp_bind. eapply wp_stop_one; [done|]. intros w1 H1.
  apply IH; [|intros; by eapply HQ, all_stopped_cons].
  eapply Forall_impl; [exact Hl|]. intros c' Hc'. by rewrite (as_conns _ _ _ H1), fmap_is_Some.
Qed.

Lemma wp_unlink_all (l : list Listener) : ∀ w (Q : unit → World → Prop) E,
  (∀ w', w' = w <| w_log := unlink_obs l ++ w_log w |> → Q tt w') →
  wp (for_each (λ x, if ls_is_pipe x then
        match pipe_sockname (ls_location x) with Some path => log (OUnlink path) | None => mret tt end
      else mret tt) l) Q E w.
Proof.
  induction l as [|x l IH]; intros w Q E HQ; [apply wp_ret, HQ; by destruct w|]. apply wp_bind.
  cut (∀ w1, w1 = w <| w_log := match (if ls_is_pipe x then pipe_sockname (ls_location x) else None) with
      Some path => [OUnlink path] | None => [] end ++ w_log w |> →
    wp (for_each (λ x, if ls_is_pipe x then
        match pipe_sockname (ls_location x) with Some path => log (OUnlink path) | None => mret tt end
      else mret tt) l) Q E w1).
  { intros Hgo. destruct (ls_is_pipe x); [destruct (pipe_sockname _)|]; [apply wp_modify|apply wp_ret..];
      apply Hgo; by destruct w. }
  intros w1 ->. apply IH. intros w' ->. apply HQ. cbn [unlink_obs]. by rewrite <-app_assoc.
Qed.

(** C16: [Server::graceful_stop] of a running server: it listens no more; connections
    without requests are shut down, those with requests are marked to end with their
    last answer, and no request is touched; the server is stopped at once when it has
    no connection, and stops with its last one otherwise. *)
Theorem graceful_stop_trace w :
  sv_state (w_server w) = running →
  (∀ id c, sv_connections (w_server w) !! id = Some c → is_Some (w_conns w !! c)) →
  let conns := sv_connections (w_server w) in
  let l := (connection_rows conns).*2 in
  let none := Nat.eqb (size conns) 0 in
  ∃ w', graceful_stop fuel w = Ok tt w' ∧
    w_server w' = (w_server w) <| sv_listeners := [] |> <| sv_state := if none then initial else stopping |> ∧
    (∀ c, w_conns w' !! c = (if decide (c ∈ l) then stopped_gracefully else id) <$> w_conns w !! c) ∧
    w_reqs w' = w_reqs w ∧ w_ress w' = w_ress w ∧
    w_log w' = (if none then [OEvent EvStop] else []) ++ graceful_obs w l ++
      unlink_obs (sv_listeners (w_server w)) ++ w_log w.
Proof.
  intros Hst Hknown conns l none. apply (wp_no_throw (graceful_stop fuel)). unfold graceful_stop.
  apply wp_bind, wp_get_server. rewrite Hst. apply wp_bind, wp_modify, wp_bind. unfold stop_listening.
  apply wp_bind, wp_get_server, wp_bind, wp_unlink_all. intros w1 ->. apply wp_modify, wp_bind, wp_get_server, wp_bind.
  apply wp_stop_all; [|intros w2 [Ec Er Ex Es El]].
  - apply Forall_forall. intros c Hc. apply list_elem_of_fmap in Hc as ([id c'] & -> & Hc).
    eapply (Hknown id). revert Hc. unfold connection_rows. rewrite merge_sort_Permutation.
    intros Hc. by apply elem_of_map_to_list in Hc.
  - rewrite (graceful_obs_ext w) in El by done.
    unfold stop_if_done. apply wp_bind, wp_get_server, wp_bind. rewrite Es. apply wp_assert; [done|].
    match goal with |- context [Nat.eqb ?n 0] => change (Nat.eqb n 0) with none end. clearbody none. destruct none.
    + apply wp_bind, wp_modify, wp_emit_silent; [done|]. wsimpl.
      split_and!; [rewrite Es; reflexivity|exact Ec|exact Er|exact Ex|rewrite El; reflexivity].
    + apply wp_ret. split_and!; [exact Es|exact Ec|exact Er|exact Ex|exact El].
Qed.
End Graceful.
