(* ===== verification/ServerFactRuns.v ===== *)
(** * Concrete runs for the contracts of the server

    The worlds at which the hypotheses of the theorems of [ServerFacts] hold, and
    runs of user programs that are not polite. *)
From S2P Require Import Prelude Errors Date Proto ServerState ServerOps ServerConn ServerMain ServerStep Sample ServerInv ServerOwn ServerSpecs ServerFinish ServerUser ServerRecv ServerRead ServerProgram ServerEvents ServerLife ServerSafety ServerSplit ServerRuns ServerFacts ServerTrace.
Local Open Scope Z_scope.

(** ** Witnesses *)

(** Nothing has outlived its connection in [two_world]. *)
Lemma two_not_stranded r : ¬ stranded two_world r.
Proof.
  assert (map_Forall (λ _ k, sc_listener k = true) (w_conns two_world)) as Hall
    by (apply (bool_decide_unpack _); vm_compute; exact I).
  intros (q & c & k & _ & _ & Hk & _ & Hl & _). rewrite (Hall c k Hk) in Hl. discriminate Hl.
Qed.


(** The rest of the body and a whole request, then another body and a last request. *)
Lemma pipelining_transparent_witness :
  let exec := @exec_input _ _ (program_callbacks answering 20 2) 20 in
  ∃ w1 w2, exec (InRead 1%nat "c.G" None) two_world = Ok tt w1 ∧
    at_boundary 1%nat w1 ∧
    exec (InRead 1%nat ("c.G" +:+ "Pxy.C") None) two_world = exec (InRead 1%nat "Pxy.C" None) w1 ∧
    exec (InRead 1%nat "Pxy.C" None) w1 = Ok tt w2.
Proof.
  intros exec. assert (enabled two_world (InRead 1%nat "c.G" None)) as Hen
    by (apply enabledb_sound; vm_compute; reflexivity).
  assert (5 + String.length "c.G" ≤ 20)%nat as Hle by (simpl; lia).
  destruct (exec (InRead 1%nat "c.G" None) two_world) as [[] w1| |] eqn:Hex;
    [|vm_compute in Hex; discriminate Hex..].
  assert (at_boundary 1%nat w1) as Hb.
  { vm_compute in Hex. injection Hex as <-. eexists. by split_and!. }
  destruct (exec (InRead 1%nat "Pxy.C" None) w1) as [[] w2| |] eqn:Hex2;
    [|vm_compute in Hex; injection Hex as <-; vm_compute in Hex2; discriminate Hex2..].
  exists w1, w2. split; [reflexivity|]. split; [exact Hb|]. split; [|exact Hex2].
  exact (pipelining_transparent answering 20 0 5 two_world 1%nat "c.G" "Pxy.C" w1
    answering_polite two_reach Hen Hle Hex Hb).
Defined.

(** The header of [two_world] was made at 5000 ms; half a second later it is taken
    again. *)
Definition later (ms : Z) (w : World) : World := w <| w_now := ms |>.

Lemma later_server ms w : w_server (later ms w) = w_server w.
Proof. reflexivity. Qed.

Lemma date_header_cached_witness :
  sv_hdate_time (w_server two_world) = 5000 ∧
  date_header_now (later 5500 two_world) = Ok (sv_hdate_str (w_server two_world)) (later 5500 two_world).
Proof.
  split; [vm_compute; reflexivity|].
  destruct (date_header_cached (later 5500 two_world)) as (d & w' & E & Hd & Hc);
    [vm_compute; split; discriminate|vm_compute; reflexivity|].
  assert (date_is_old (sv_hdate_time (w_server (later 5500 two_world))) (w_now (later 5500 two_world)) = false)
    as Hold by (vm_compute; reflexivity).
  rewrite Hold in Hc. subst w'. rewrite E, <-Hd, later_server. reflexivity.
Defined.

#[local] Instance silent_user : Callbacks := {| fire _ w := Ok tt w; factory_new_request := new_ServerRequest |}.

Lemma all_silent ev w : fire ev w = Ok tt w.
Proof. reflexivity. Qed.

Lemma run_listens_witness :
  ∃ w', run start_world = Ok tt w' ∧ opened (started start_world) w' [sample_location] [] ∧
    w_log w' = [OEvent EvRun; OListen sample_location].
Proof.
  pose proof (run_listens start_world (λ _, eq_refl) eq_refl eq_refl) as Hrun. cbv zeta in Hrun.
  destruct (run start_world) as [[] w'|e w'|f] eqn:E; [|vm_compute in E; discriminate E..].
  exists w'. split; [reflexivity|]. exact Hrun.
Defined.

(** Two requests that nobody has answered yet. *)
Definition nothing : Program := λ _ _, [].
Definition run_program (P : Program) (l : list Input) (w : World) : outcome World unit :=
  for_each (@exec_input _ _ (program_callbacks P 20 4) 20) l w.
Definition state_after (P : Program) (l : list Input) : World :=
  match run_program P l start_world with Ok _ w => w | _ => start_world end.
Definition connected (l : list Input) : list Input :=
  InUser ARun :: InEstablish false None :: InTick 5000 100 :: l.

Definition conn_of (w : World) : ServerConnection :=
  default (mkConn 0 false false false false false None None (0, 0) [] 0 0 0 None false false 0) (w_conns w !! 1%nat).

Definition waiting_world : World :=
  state_after nothing (connected [InRead 1 "GG" None; InUser (ARespondNew 2 (ok_message true))]).

Lemma close_trace_witness :
  sc_requests (conn_of waiting_world) = [1%nat; 2%nat] ∧
  ∃ w', close 20 1%nat None waiting_world = Ok tt w' ∧
    w_log w' = drop_obs waiting_world None [1%nat; 2%nat] ++ OReset 1 :: OTimerStop 1 :: w_log waiting_world.
Proof.
  split; [vm_compute; reflexivity|].
  destruct (close_trace 20 all_silent waiting_world 1%nat (conn_of waiting_world) None)
    as (w' & E & Hlog & _); [vm_compute; reflexivity| |vm_compute; repeat constructor|].
  - apply Forall_forall. intros r Hr.
    assert (r = 1%nat ∨ r = 2%nat) as [-> | ->].
    { change (r ∈ [1%nat; 2%nat]) in Hr. set_solver. }
    + exists (req_at waiting_world 1). split; [vm_compute; reflexivity|]. intros s Hs. vm_compute in Hs. discriminate Hs.
    + exists (req_at waiting_world 2). split; [vm_compute; reflexivity|]. intros s Hs. vm_compute in Hs.
      injection Hs as <-. vm_compute. eexists. reflexivity.
  - exists w'. split; [exact E|]. exact Hlog.
Defined.

Definition upgrade_world : World := state_after nothing (connected [InRead 1 "U" None]).

Lemma upgrade_contract_witness :
  ∃ w', req_upgrade 1%nat upgrade_world = Ok (inl tt) w' ∧ upgraded upgrade_world w' 1%nat (conn_of upgrade_world) 1%nat.
Proof.
  assert (w_reqs upgrade_world !! 1%nat = Some (req_at upgrade_world 1)) as Hq by (vm_compute; reflexivity).
  assert (w_conns upgrade_world !! 1%nat = Some (conn_of upgrade_world)) as Hk by (vm_compute; reflexivity).
  assert (sr_connection (req_at upgrade_world 1) = Some 1%nat) as Hc by (vm_compute; reflexivity).
  assert (negb (iequals (headers_connection (req_headers (sr_msg (req_at upgrade_world 1)))) "upgrade") = false)
    as Hh by (vm_compute; reflexivity).
  assert (bool_decide (sc_requests (conn_of upgrade_world) = [1%nat]) = true) as Hr by (vm_compute; reflexivity).
  pose proof (upgrade_contract all_silent upgrade_world 1%nat (req_at upgrade_world 1) Hq) as Hup.
  assert (lives upgrade_world 1%nat (conn_of upgrade_world) = true) as Hl by (vm_compute; reflexivity).
  rewrite Hc, Hh in Hup. specialize (Hup (conn_of upgrade_world) Hk). rewrite Hl, Hr in Hup. exact Hup.
Defined.

Lemma answers_are_final_witness :
  req_respond 20 2%nat 1%nat waiting_world = Throw (HttpError "double response for request given") waiting_world.
Proof.
  destruct (w_ress waiting_world !! 1%nat) as [x|] eqn:Hx; [|vm_compute in Hx; discriminate Hx].
  destruct (answers_are_final 20 waiting_world 2%nat (req_at waiting_world 2) 1%nat x
    ltac:(vm_compute; reflexivity) Hx) as (_ & Hdouble & _).
  apply (Hdouble 1%nat (conn_of waiting_world)); vm_compute; [reflexivity..|eexists; reflexivity].
Defined.

Lemma final_chunk_lost_witness :
  conn_send_final_chunk 20 1%nat 1%nat "the end" waiting_world = conn_send_final_chunk 20 1%nat 1%nat EmptyString waiting_world.
Proof.
  apply (final_chunk_lost 20 waiting_world 1%nat (conn_of waiting_world) 1%nat [2%nat] (req_at waiting_world 1) 1%nat);
    [vm_compute; reflexivity..|]. vm_compute. discriminate.
Defined.

(** An answer that is kept beside the first of two waiting requests, of which the
    second has its own already; and one that closes the connection. *)
Definition kept_response : ServerResponse := new_ServerResponse 404 [].
Definition last_response : ServerResponse := new_ServerResponse 404 [("Connection", "close")]%string.
Definition arrived_world : World :=
  (state_after nothing (connected [InRead 1 "GG" None; InUser (ARespondNew 2 (ok_message false))]))
    <| w_ress ::= <[7%nat := kept_response]> |> <| w_ress ::= <[8%nat := last_response]> |>.

Lemma arrived_known : Forall (known arrived_world) [2%nat].
Proof.
  constructor; [|constructor]. exists (req_at arrived_world 2). split; [vm_compute; reflexivity|].
  intros s Hs. vm_compute in Hs. injection Hs as <-. vm_compute. eexists. reflexivity.
Qed.

Lemma respond_trace_witness :
  sc_requests (conn_of arrived_world) = [1%nat; 2%nat] ∧
  (∃ d w' k', answered arrived_world 1 1 7 (conn_of arrived_world) (req_at arrived_world 1) kept_response [2%nat] d w' k' ∧
     req_respond 20 1%nat 7%nat arrived_world =
       write_next_response_with 20 (finish_request_n 20 19 1%nat) 1%nat w') ∧
  (∃ d w' k', answered arrived_world 1 1 8 (conn_of arrived_world) (req_at arrived_world 1) last_response [2%nat] d w' k' ∧
     req_respond 20 1%nat 8%nat arrived_world = Ok tt w').
Proof.
  split; [vm_compute; reflexivity|split].
  - assert (kept_alive (conn_of arrived_world) (req_at arrived_world 1) (rs_msg kept_response) &&
      next_answered arrived_world [2%nat] = true) as Hgo by (vm_compute; reflexivity).
    destruct (respond_trace arrived_world 1%nat 1%nat 7%nat 19 (conn_of arrived_world)
      (req_at arrived_world 1) kept_response [2%nat] all_silent) as (d & w' & k' & Ha & E);
      [vm_compute; reflexivity..|set_solver|exact arrived_known|simpl; lia|vm_compute; reflexivity|discriminate|vm_compute; reflexivity|].
    rewrite Hgo in E. exists d, w', k'. split; [exact Ha|exact E].
  - assert (kept_alive (conn_of arrived_world) (req_at arrived_world 1) (rs_msg last_response) &&
      next_answered arrived_world [2%nat] = false) as Hgo by (vm_compute; reflexivity).
    destruct (respond_trace arrived_world 1%nat 1%nat 8%nat 19 (conn_of arrived_world)
      (req_at arrived_world 1) last_response [2%nat] all_silent) as (d & w' & k' & Ha & E);
      [vm_compute; reflexivity..|set_solver|exact arrived_known|simpl; lia|vm_compute; reflexivity|discriminate|vm_compute; reflexivity|].
    rewrite Hgo in E. exists d, w', k'. split; [exact Ha|exact E].
Defined.

Definition idle_world : World := state_after nothing (connected []).

Lemma read_trace_witness :
  ∃ rs w', on_read 20 1%nat "GPab.CG" None idle_world = Ok tt w' ∧ length rs = 3%nat ∧
    sc_requests (conn_of w') = rs.
Proof.
  destruct (read_trace 20 1%nat all_silent idle_world (conn_of idle_world) "GPab.CG"
    [s_request [] ""; s_request [] "ab"; s_request [("Connection", "close")] ""]%string None)
    as (rs & w' & k' & E & [] & _); [vm_compute; reflexivity..| | |].
  - intros r Hr. vm_compute in Hr. discriminate Hr.
  - eapply @pipelined_next; [discriminate|vm_compute; reflexivity|discriminate|reflexivity|].
    eapply @pipelined_next; [discriminate|vm_compute; reflexivity|discriminate|reflexivity|].
    eapply @pipelined_close; [discriminate|vm_compute; reflexivity|discriminate|reflexivity].
  - exists rs, w'. split; [exact E|]. split; [exact ra_length|].
    unfold conn_of at 1. rewrite ra_conns, lookup_insert_eq. exact ra_requests.
Defined.

(** A connection with a request and one without. *)
Definition mixed_world : World := state_after nothing (connected [InRead 1 "G" None; InEstablish false None]).

Lemma graceful_stop_trace_witness :
  sv_state (w_server mixed_world) = running ∧
  ∃ w', graceful_stop 20 mixed_world = Ok tt w' ∧ sv_state (w_server w') = stopping ∧
    w_log w' = [ODisconnect 2; OShutdown 2] ++ w_log mixed_world.
Proof.
  split; [vm_compute; reflexivity|].
  destruct (graceful_stop_trace 20 all_silent mixed_world) as (w' & E & Hserver & _ & _ & _ & Hlog);
    [vm_compute; reflexivity| |].
  - assert (map_Forall (λ _ c, is_Some (w_conns mixed_world !! c)) (sv_connections (w_server mixed_world))) as Hall
      by (apply (bool_decide_unpack _); vm_compute; exact I).
    exact Hall.
  - exists w'. split; [exact E|]. split; [rewrite Hserver; vm_compute; reflexivity|].
    rewrite Hlog. vm_compute. reflexivity.
Defined.

(** ** Programs that are not polite

    What the hypotheses of the safety theorem exclude does go wrong. *)

Definition when_event (p : Event → bool) (l : list Action) : Program := λ ev _, if p ev then l else [].
Definition outcome_fault {A} (o : outcome World A) : option fault :=
  match o with Fault f => Some f | _ => None end.
Definition response_heads (o : outcome World unit) : option (list ReqId) :=
  match o with Ok _ w => Some (heads (tape 1%nat (w_log w))) | _ => None end.
Definition events (w : World) : list Event :=
  rev (omap (λ o, match o with OEvent ev => Some ev | _ => None end) (w_log w)).
Definition stop_events (w : World) : nat :=
  length (filter (λ b, b = true) (map (λ ev, match ev with EvStop => true | _ => false end) (events w))).

(** [Server::stop] after [graceful_stop], while a connection is left, calls
    [stop_event] twice: closing the last connection of a stopping server calls it,
    and then [stop] does. *)
Lemma stop_event_twice :
  stop_events (state_after nothing (connected [InRead 1 "G" None; InUser AGracefulStop; InUser AStop])) = 2%nat.
Proof. vm_compute. reflexivity. Qed.

(** With [idle_timeout = 0], which stands for no limit, a connection has no idle
    timer, and finishing its last request dereferences it. *)
Lemma no_idle_timeout_faults :
  outcome_fault (for_each (@exec_input _ _ (program_callbacks nothing 20 4) 20)
    (connected [InRead 1 "G" None; InUser (ARespondNew 1 (ok_message false))])
    (init_world (sample_config <| cf_idle_timeout := 0 |>) false)) = Some NullDeref.
Proof. vm_compute. reflexivity. Qed.

(** Stopping gracefully while a response is being sent in chunks and another request
    waits: the assertion of [finish_request] that no request is left fails. *)
Example graceful_stop_asserts :
  outcome_fault (run_program nothing (connected
    [InRead 1 "GG" None; InUser (ARespondNew 1 (ok_message true)); InUser AGracefulStop;
     InUser (ASendFinalChunk 1 "x")]) start_world) = Some AssertFailed.
Proof. vm_compute. reflexivity. Qed.

(** Dropping the request from its own [error_event]: the default answer is then
    given to a request that has no connection. *)
Example drop_on_error_asserts :
  outcome_fault (run_program (when_event (λ ev, match ev with EvError _ _ => true | _ => false end) [ADrop 1])
    (connected [InRead 1 "x" None]) start_world) = Some AssertFailed.
Proof. vm_compute. reflexivity. Qed.

(** Stopping the server when a request that was answered early is received in full:
    [on_read] goes on to finish a request that is gone. *)
Example stop_on_receive_empty_front :
  outcome_fault (run_program (λ ev _, match ev with
      | EvRoute r => [ARespondNew r (ok_message false)] | EvRequest _ => [AStop] | _ => [] end)
    (connected [InRead 1 "Pab" None; InRead 1 "." None]) start_world) = Some EmptyFront.
Proof. vm_compute. reflexivity. Qed.

(** Closing the connection from [request_event]: the rest of the buffer is still
    delivered, as a request of a connection that the server does not hold. *)
Example close_on_request_revives :
  let w := state_after (when_event (λ ev, match ev with EvRequest 1 => true | _ => false end)
             [AClose 1 (Some (StdErr operation_canceled))]) (connected [InRead 1 "GG" None]) in
  sv_connections (w_server w) = ∅ ∧ sr_connection (req_at w 2) = Some 1%nat ∧
  existsb (λ ev, match ev with EvRequest 2 => true | _ => false end) (events w) = true.
Proof.
  cbv zeta. split_and!; vm_compute; reflexivity.
Qed.

(** Answering the next request in chunks from [finish_event]: its head is written
    twice. *)
Example answer_on_finish_twice :
  response_heads (run_program (λ ev _, match ev with
      | EvRequest 2 => [ARespondNew 1 (ok_message false)] | EvFinish 1 => [ARespondNew 2 (ok_message true)] | _ => [] end)
    (connected [InRead 1 "GG" None]) start_world) = Some [1; 2; 2]%nat.
Proof. vm_compute. reflexivity. Qed.

(** An early answer that closes the connection is finished in the loop of [on_read],
    which shuts the connection down and goes on with its buffer: the request that
    is queued then outlives the connection, and answering it follows a dangling
    pointer. *)
Example late_request_dangles :
  sv_connections (w_server stranded_world) = ∅ ∧ sr_connection (req_at stranded_world 2) = Some 1%nat ∧
  outcome_fault (run_program silent_program [late_answer] stranded_world) = Some DanglingRef.
Proof. split_and!; vm_compute; reflexivity. Qed.
