(* ===== verification/ClientProto.v ===== *)
(** * What the client takes from Protocol-HTTP, panda::URI and UniEvent

    Messages, the response parser and URIs are third-party code: they are the
    fields of the class [ClientProto]; what the source relies on about them is
    the class [ClientProtoLaws]. *)
From S2P Require Import Prelude Errors Proto.
Local Open Scope Z_scope.

Abbreviation Fields := (list (string * string)).

(** The data of a [protocol::http::Request] the source touches; the URI is a
    shared object, held by the request outside of this record. [cm_lib] is the
    library's own state in the object (the form's boundary, the compressor). *)
Record CMsg (Cookies Lib : Type) := mkCMsg {
  cm_method : string;
  cm_headers : Fields;                (* headers.fields *)
  cm_cookies : Cookies;
  cm_parts : list string;             (* body.parts *)
  cm_chunked : bool;
  cm_compression_prefs : Z;
  cm_form_streaming : bool;           (* form_streaming() *)
  cm_lib : Lib
}.
Arguments mkCMsg {_ _}. Arguments cm_method {_ _}. Arguments cm_headers {_ _}.
Arguments cm_cookies {_ _}. Arguments cm_parts {_ _}. Arguments cm_chunked {_ _}.
Arguments cm_compression_prefs {_ _}. Arguments cm_form_streaming {_ _}. Arguments cm_lib {_ _}.

Section CMsgSetters.
Context {K L : Type}.
Local Abbreviation T := (CMsg K L).
#[export] Instance set_cm_method : Setter (R:=T) cm_method := λ g r,
  mkCMsg (g (cm_method r)) (cm_headers r) (cm_cookies r) (cm_parts r) (cm_chunked r) (cm_compression_prefs r) (cm_form_streaming r) (cm_lib r).
#[export] Instance set_cm_headers : Setter (R:=T) cm_headers := λ g r,
  mkCMsg (cm_method r) (g (cm_headers r)) (cm_cookies r) (cm_parts r) (cm_chunked r) (cm_compression_prefs r) (cm_form_streaming r) (cm_lib r).
#[export] Instance set_cm_cookies : Setter (R:=T) cm_cookies := λ g r,
  mkCMsg (cm_method r) (cm_headers r) (g (cm_cookies r)) (cm_parts r) (cm_chunked r) (cm_compression_prefs r) (cm_form_streaming r) (cm_lib r).
#[export] Instance set_cm_parts : Setter (R:=T) cm_parts := λ g r,
  mkCMsg (cm_method r) (cm_headers r) (cm_cookies r) (g (cm_parts r)) (cm_chunked r) (cm_compression_prefs r) (cm_form_streaming r) (cm_lib r).
#[export] Instance set_cm_compression_prefs : Setter (R:=T) cm_compression_prefs := λ g r,
  mkCMsg (cm_method r) (cm_headers r) (cm_cookies r) (cm_parts r) (cm_chunked r) (g (cm_compression_prefs r)) (cm_form_streaming r) (cm_lib r).
End CMsgSetters.

Class ClientProto := {
  (* panda::URI *)
  Uri : Type;
  uri_parse : string → Uri;              (* URI(string) *)
  uri_scheme : Uri → string;
  uri_host : Uri → string;
  uri_port : Uri → Z;                    (* explicit, or the scheme's *)
  uri_explicit_port : Uri → bool;
  uri_secure : Uri → bool;
  uri_user : Uri → string;
  uri_password : Uri → string;
  uri_set_scheme : string → Uri → Uri;
  uri_set_host : string → Uri → Uri;
  uri_set_port : Z → Uri → Uri;
  (* protocol::http::Request and its headers *)
  Cookies : Type;
  cookies_empty : Cookies;               (* cookies.clear() *)
  Lib : Type;
  fields_has : Fields → string → bool;   (* Headers::has *)
  fields_add : Fields → string → string → Fields;
  cm_new : CMsg Cookies Lib;
  cm_form_stream : CMsg Cookies Lib → CMsg Cookies Lib;   (* form_stream() *)
  cm_keep_alive : CMsg Cookies Lib → bool;
  allow_compression : Z → Z → Z;         (* of compression_prefs *)
  IDENTITY : Z;
  GZIP : Z;
  cm_body_length : list string → Z;
  cm_to_vector : CMsg Cookies Lib → Uri → list string;
  cm_make_chunk : CMsg Cookies Lib → string → list string;
  cm_final_chunk : CMsg Cookies Lib → string → list string;
  cm_form_field : CMsg Cookies Lib → string → string → list string;
  cm_form_file : CMsg Cookies Lib → string → string → string → list string;
  cm_form_data : CMsg Cookies Lib → string → list string;
  cm_form_finish : CMsg Cookies Lib → list string;
  (* protocol::http::Response *)
  RespMsg : Type;
  resp_new : RespMsg;                    (* new_response() *)
  resp_code : RespMsg → Z;
  resp_location : RespMsg → string;      (* headers.get("Location") *)
  resp_keep_alive : RespMsg → bool;
  (* protocol::http::ResponseParser, less the pointer to the context request *)
  RParser : Type;
  rparser_init : RParser;                (* a parser that was reset *)
  (* the context request's message, parser, buffer -> parser, whether the context
     request is kept, response, state, error, rest of the buffer *)
  rparse_shift : CMsg Cookies Lib → RParser → string →
    RParser * (bool * RespMsg * proto_state * option ErrorCode * string);
  rparser_eof : option (CMsg Cookies Lib) → RParser →
    RParser * (option RespMsg * option ErrorCode);
  (* std::hash *)
  hash_string : string → Z;
  hash_u16 : Z → Z;
  (* CookieJar: collect the cookies of a response to a URI, and set the cookies of
     a request (context URI, top level, time) *)
  CookieJar : Type;
  jar_parse : string → CookieJar;
  jar_to_string : CookieJar → bool → Z → string;
  jar_collect : CookieJar → RespMsg → Uri → Z → CookieJar;
  jar_populate : CookieJar → CMsg Cookies Lib → Uri → Uri → bool → Z → CMsg Cookies Lib
}.

Abbreviation QMsg := (CMsg Cookies Lib).

(** What the source relies on. *)
Class ClientProtoLaws `{ClientProto} := {
  (* setting a non-empty part of a URI sets it, and leaves the other parts *)
  uri_scheme_set : ∀ s u, uri_scheme (uri_set_scheme s u) = s;
  uri_host_set_scheme : ∀ s u, uri_host (uri_set_scheme s u) = uri_host u;
  uri_host_set : ∀ h u, uri_host (uri_set_host h u) = h;
  uri_scheme_set_host : ∀ h u, uri_scheme (uri_set_host h u) = uri_scheme u;
  uri_host_set_port : ∀ n u, uri_host (uri_set_port n u) = uri_host u;
  uri_scheme_set_port : ∀ n u, uri_scheme (uri_set_port n u) = uri_scheme u;
  (* the error state and a reported error are the same thing *)
  rparse_error : ∀ q p buf p' keep msg st err rest,
    rparse_shift q p buf = (p', (keep, msg, st, err, rest)) →
    (st = PsError ↔ err ≠ None);
  (* without an error the parser consumes input, and all of it when the message
     is not over *)
  rparse_shrinks : ∀ q p buf p' keep msg st rest,
    buf ≠ EmptyString →
    rparse_shift q p buf = (p', (keep, msg, st, None, rest)) →
    (String.length rest < String.length buf)%nat ∧
    (st ≠ PsDone → rest = EmptyString);
  (* the context request is given up when, and only when, its final response is
     complete *)
  rparse_keeps : ∀ q p buf p' keep msg st rest,
    rparse_shift q p buf = (p', (keep, msg, st, None, rest)) →
    keep = negb (state_is_done st && negb (resp_code msg =? 100));
  (* form_stream() makes the message a streamed form *)
  cm_form_stream_on : ∀ m, cm_form_streaming (cm_form_stream m) = true;
  (* with a context request, the end of input yields a response object *)
  rparser_eof_some : ∀ q p p' res err,
    rparser_eof (Some q) p = (p', (res, err)) → res ≠ None;
  (* a response that the end of input completes has a body: it is not a 100 *)
  rparser_eof_final : ∀ q p p' res,
    rparser_eof (Some q) p = (p', (Some res, None)) → resp_code res ≠ 100
}.
