(* ===== verification/ClientState.v ===== *)
(** * The objects of the HTTP client ([Request.h], [Response.h], [Form.h],
      [Client.h], [Pool.h], [UserAgent.h], [http.icc])

    Requests, clients, pools, URIs and user agents are shared, mutable objects;
    they live in stores indexed by object identity, and a pointer is an identity,
    a null pointer [None]. The thread's globals are fields of the world. *)
From S2P Require Import Prelude Errors Proto ClientProto.
Local Open Scope Z_scope.

Abbreviation UriId := nat (only parsing).
Abbreviation CtxId := nat (only parsing).
Abbreviation RqId := nat (only parsing).
Abbreviation ClientId := nat (only parsing).
Abbreviation PoolId := nat (only parsing).
Abbreviation LoopId := nat (only parsing).
Abbreviation AgentId := nat (only parsing).
Abbreviation JarId := nat (only parsing).

(** [struct NetLoc]: what a connection is made to. The SSL context and the proxy
    are pointers, and are compared as pointers. *)
Record NetLoc := mkNetLoc {
  nl_host : string;
  nl_port : Z;
  nl_ssl_ctx : option CtxId;
  nl_proxy : option UriId;
  nl_ssl_check_cert : bool
}.

#[export] Instance NetLoc_eq_dec : EqDecision NetLoc.
Proof. solve_decision. Defined.
#[export] Program Instance NetLoc_countable : Countable NetLoc :=
  inj_countable'
    (λ n, (nl_host n, nl_port n, nl_ssl_ctx n, nl_proxy n, nl_ssl_check_cert n))
    (λ t, match t with (h, p, s, x, k) => mkNetLoc h p s x k end) _.
Next Obligation. by intros []. Qed.

(** The subclasses of [IFormItem]. Of a [FormFile]: whether it holds its input
    stream ([in]), and its streamer: null, or whether it is running. *)
Inductive FormItem :=
  | FormField (name content : string)
  | FormEmbeddedFile (name content mime_type filename : string)
  | FormFile (name mime_type filename : string) (in_ : bool) (streamer : option bool) (max_buf : Z).

(** The request's timer: whether it runs, and whether the request listens to it. *)
Record ReqTimer := mkTimer { tm_active : bool; tm_listener : bool }.

(** The listeners the library itself adds to the events of a request: a user agent
    (with its context URI and the top-level flag), a stack frame of
    [http_request_sync]. *)
Inductive ReqListener :=
  | LAgent (ua : AgentId) (context_uri : UriId) (top_level : bool)
  | LSync (frame : nat).

(** An operation of the stream that has not been reported yet. *)
Inductive Pending := PConnect | PWrite.

Section ClientObjects.
Context `{ClientProto}.

(** [struct Request]. *)
Record CRequest := mkCReq {
  rq_timeout : Z;
  rq_connect_timeout : Z;
  rq_follow_redirect : bool;
  rq_tcp_nodelay : bool;
  rq_redirection_limit : Z;
  rq_ssl_ctx : option CtxId;
  rq_proxy : option UriId;
  rq_proxy_resolve : bool;
  rq_form : list FormItem;
  rq_ssl_check_cert : bool;
  rq_uri : option UriId;
  rq_msg : QMsg;
  rq_listeners : list ReqListener;
  rq_redirection_counter : Z;
  rq_transfer_completed : bool;
  rq_client : option ClientId;
  rq_pool : option PoolId;
  rq_timer : option ReqTimer
}.

(** [struct Response]. *)
Record CResponse := mkCResp { rp_msg : RespMsg; rp_is_done : bool }.

(** [struct Client]. [cl_context] is the parser's context request. Of the stream:
    whether it is connected or connecting, its operations in flight, and whether
    its handle is weak. *)
Record Client := mkClient {
  cl_loop : LoopId;
  cl_pool : option PoolId;
  cl_netloc : NetLoc;
  cl_request : option RqId;
  cl_response : option CResponse;
  cl_parser : RParser;
  cl_context : option RqId;
  cl_last_activity_time : Z;
  cl_in_redirect : bool;
  cl_redirect_canceled : bool;
  cl_form_field : Z;
  cl_connected : bool;
  cl_connecting : bool;
  cl_pending : list Pending;
  cl_weak : bool
}.

(** [Pool::NetLocList]. [nl_version] counts the changes of the deque: a change
    invalidates the iterators made before it. *)
Record NetLocList := mkNLL {
  nl_free : gset ClientId;
  nl_busy : gset ClientId;
  nl_queue : list RqId;
  nl_version : nat
}.

(** [struct Pool]. [pl_idle_timer] is null, or the interval of the running timer. *)
Record Pool := mkPool {
  pl_loop : LoopId;
  pl_idle_timer : option Z;
  pl_idle_timeout : Z;
  pl_max_connections : Z;
  pl_clients : gmap NetLoc NetLocList;
  pl_factory : bool
}.

(** [struct UserAgent] with its configuration. *)
Record UserAgent := mkAgent {
  ua_pool : PoolId;
  ua_cookie_jar : JarId;
  ua_identity : option string;
  ua_ssl_ctx : option CtxId;
  ua_proxy : option UriId
}.

(** [struct RedirectContext]. *)
Record RedirectContext := mkRedirect {
  rc_uri : UriId;
  rc_ssl_ctx : option CtxId;
  rc_cookies : Cookies;
  rc_removed_headers : Fields
}.

(** The events of a request. *)
Inductive CEvent :=
  | CEvPartial (r : RqId) (res : CResponse) (err : option ErrorCode)
  | CEvResponse (r : RqId) (res : CResponse) (err : option ErrorCode)
  | CEvRedirect (r : RqId) (res : CResponse) (ctx : RedirectContext)
  | CEvContinue (r : RqId).

(** What is written to a connection. *)
Inductive CWire :=
  | CHead (r : RqId) (data : list string)
  | CChunk (r : RqId) (data : list string)
  | CFinal (r : RqId) (data : list string)
  | CForm (r : RqId) (data : list string).

(** What can be observed of a run, last first. [CSubmit] records a request the
    user handed over; [CUseSsl] the context, the server name and the name the
    certificate is checked for. *)
Inductive CObs :=
  | CFire (ev : CEvent)
  | CSubmit (r : RqId)
  | CConnect (c : ClientId) (host : string) (port timeout : Z)
  | CReset (c : ClientId)
  | CWrite (c : ClientId) (x : CWire)
  | CReadStart (c : ClientId)
  | CClearFilters (c : ClientId)
  | CUseSsl (c : ClientId) (ctx : CtxId) (server_name : string) (check_host : option string)
  | CUseSocks (c : ClientId) (host : string) (port : Z) (user password : string) (resolve : bool)
  | CNoDelay (c : ClientId)
  | CTimerOnce (r : RqId) (timeout : Z)
  | CStreamerStart (r : RqId)
  | CStreamerStop (r : RqId)
  | CDestroyClient (c : ClientId).

(** The world of a thread: its objects, its loops' clocks, the SSL contexts (with
    whether they verify the peer), the static SSL contexts of [Client.cc], the
    default pools, and the variables of [http_request_sync] with the live stack
    frames' results. *)
Record CWorld := mkCWorld {
  cw_uris : gmap UriId Uri;
  cw_reqs : gmap RqId CRequest;
  cw_clients : gmap ClientId Client;
  cw_pools : gmap PoolId Pool;
  cw_agents : gmap AgentId UserAgent;
  cw_jars : gmap JarId CookieJar;
  cw_instances : list PoolId;
  cw_loops : nat;
  cw_now : LoopId → Z;
  cw_ctxs : gmap CtxId bool;
  cw_ssl_default : option CtxId;
  cw_ssl_verify : option CtxId;
  cw_sync_pool : option PoolId;
  cw_sync_busy : bool;
  cw_frames : gmap nat (option (CResponse + ErrorCode));
  cw_log : list CObs
}.

End ClientObjects.

(** ** Field updates *)
Section ClientSetters.
Context `{ClientProto}.
#[export] Instance set_nl_free : Setter nl_free := λ g r,
  mkNLL (g (nl_free r)) (nl_busy r) (nl_queue r) (nl_version r).
#[export] Instance set_nl_busy : Setter nl_busy := λ g r,
  mkNLL (nl_free r) (g (nl_busy r)) (nl_queue r) (nl_version r).
#[export] Instance set_nl_queue : Setter nl_queue := λ g r,
  mkNLL (nl_free r) (nl_busy r) (g (nl_queue r)) (nl_version r).
#[export] Instance set_nl_version : Setter nl_version := λ g r,
  mkNLL (nl_free r) (nl_busy r) (nl_queue r) (g (nl_version r)).
#[export] Instance set_rq_timeout : Setter rq_timeout := λ g r,
  mkCReq (g (rq_timeout r)) (rq_connect_timeout r) (rq_follow_redirect r) (rq_tcp_nodelay r)
    (rq_redirection_limit r) (rq_ssl_ctx r) (rq_proxy r) (rq_proxy_resolve r) (rq_form r)
    (rq_ssl_check_cert r) (rq_uri r) (rq_msg r) (rq_listeners r) (rq_redirection_counter r)
    (rq_transfer_completed r) (rq_client r) (rq_pool r) (rq_timer r).
#[export] Instance set_rq_connect_timeout : Setter rq_connect_timeout := λ g r,
  mkCReq (rq_timeout r) (g (rq_connect_timeout r)) (rq_follow_redirect r) (rq_tcp_nodelay r)
    (rq_redirection_limit r) (rq_ssl_ctx r) (rq_proxy r) (rq_proxy_resolve r) (rq_form r)
    (rq_ssl_check_cert r) (rq_uri r) (rq_msg r) (rq_listeners r) (rq_redirection_counter r)
    (rq_transfer_completed r) (rq_client r) (rq_pool r) (rq_timer r).
#[export] Instance set_rq_follow_redirect : Setter rq_follow_redirect := λ g r,
  mkCReq (rq_timeout r) (rq_connect_timeout r) (g (rq_follow_redirect r)) (rq_tcp_nodelay r)
    (rq_redirection_limit r) (rq_ssl_ctx r) (rq_proxy r) (rq_proxy_resolve r) (rq_form r)
    (rq_ssl_check_cert r) (rq_uri r) (rq_msg r) (rq_listeners r) (rq_redirection_counter r)
    (rq_transfer_completed r) (rq_client r) (rq_pool r) (rq_timer r).
#[export] Instance set_rq_tcp_nodelay : Setter rq_tcp_nodelay := λ g r,
  mkCReq (rq_timeout r) (rq_connect_timeout r) (rq_follow_redirect r) (g (rq_tcp_nodelay r))
    (rq_redirection_limit r) (rq_ssl_ctx r) (rq_proxy r) (rq_proxy_resolve r) (rq_form r)
    (rq_ssl_check_cert r) (rq_uri r) (rq_msg r) (rq_listeners r) (rq_redirection_counter r)
    (rq_transfer_completed r) (rq_client r) (rq_pool r) (rq_timer r).
#[export] Instance set_rq_redirection_limit : Setter rq_redirection_limit := λ g r,
  mkCReq (rq_timeout r) (rq_connect_timeout r) (rq_follow_redirect r) (rq_tcp_nodelay r) (g
    (rq_redirection_limit r)) (rq_ssl_ctx r) (rq_proxy r) (rq_proxy_resolve r) (rq_form r)
    (rq_ssl_check_cert r) (rq_uri r) (rq_msg r) (rq_listeners r) (rq_redirection_counter r)
    (rq_transfer_completed r) (rq_client r) (rq_pool r) (rq_timer r).
#[export] Instance set_rq_ssl_ctx : Setter rq_ssl_ctx := λ g r,
  mkCReq (rq_timeout r) (rq_connect_timeout r) (rq_follow_redirect r) (rq_tcp_nodelay r)
    (rq_redirection_limit r) (g (rq_ssl_ctx r)) (rq_proxy r) (rq_proxy_resolve r) (rq_form r)
    (rq_ssl_check_cert r) (rq_uri r) (rq_msg r) (rq_listeners r) (rq_redirection_counter r)
    (rq_transfer_completed r) (rq_client r) (rq_pool r) (rq_timer r).
#[export] Instance set_rq_proxy : Setter rq_proxy := λ g r,
  mkCReq (rq_timeout r) (rq_connect_timeout r) (rq_follow_redirect r) (rq_tcp_nodelay r)
    (rq_redirection_limit r) (rq_ssl_ctx r) (g (rq_proxy r)) (rq_proxy_resolve r) (rq_form r)
    (rq_ssl_check_cert r) (rq_uri r) (rq_msg r) (rq_listeners r) (rq_redirection_counter r)
    (rq_transfer_completed r) (rq_client r) (rq_pool r) (rq_timer r).
#[export] Instance set_rq_proxy_resolve : Setter rq_proxy_resolve := λ g r,
  mkCReq (rq_timeout r) (rq_connect_timeout r) (rq_follow_redirect r) (rq_tcp_nodelay r)
    (rq_redirection_limit r) (rq_ssl_ctx r) (rq_proxy r) (g (rq_proxy_resolve r)) (rq_form r)
    (rq_ssl_check_cert r) (rq_uri r) (rq_msg r) (rq_listeners r) (rq_redirection_counter r)
    (rq_transfer_completed r) (rq_client r) (rq_pool r) (rq_timer r).
#[export] Instance set_rq_form : Setter rq_form := λ g r,
  mkCReq (rq_timeout r) (rq_connect_timeout r) (rq_follow_redirect r) (rq_tcp_nodelay r)
    (rq_redirection_limit r) (rq_ssl_ctx r) (rq_proxy r) (rq_proxy_resolve r) (g (rq_form r))
    (rq_ssl_check_cert r) (rq_uri r) (rq_msg r) (rq_listeners r) (rq_redirection_counter r)
    (rq_transfer_completed r) (rq_client r) (rq_pool r) (rq_timer r).
#[export] Instance set_rq_ssl_check_cert : Setter rq_ssl_check_cert := λ g r,
  mkCReq (rq_timeout r) (rq_connect_timeout r) (rq_follow_redirect r) (rq_tcp_nodelay r)
    (rq_redirection_limit r) (rq_ssl_ctx r) (rq_proxy r) (rq_proxy_resolve r) (rq_form r) (g
    (rq_ssl_check_cert r)) (rq_uri r) (rq_msg r) (rq_listeners r) (rq_redirection_counter r)
    (rq_transfer_completed r) (rq_client r) (rq_pool r) (rq_timer r).
#[export] Instance set_rq_uri : Setter rq_uri := λ g r,
  mkCReq (rq_timeout r) (rq_connect_timeout r) (rq_follow_redirect r) (rq_tcp_nodelay r)
    (rq_redirection_limit r) (rq_ssl_ctx r) (rq_proxy r) (rq_proxy_resolve r) (rq_form r)
    (rq_ssl_check_cert r) (g (rq_uri r)) (rq_msg r) (rq_listeners r) (rq_redirection_counter r)
    (rq_transfer_completed r) (rq_client r) (rq_pool r) (rq_timer r).
#[export] Instance set_rq_msg : Setter rq_msg := λ g r,
  mkCReq (rq_timeout r) (rq_connect_timeout r) (rq_follow_redirect r) (rq_tcp_nodelay r)
    (rq_redirection_limit r) (rq_ssl_ctx r) (rq_proxy r) (rq_proxy_resolve r) (rq_form r)
    (rq_ssl_check_cert r) (rq_uri r) (g (rq_msg r)) (rq_listeners r) (rq_redirection_counter r)
    (rq_transfer_completed r) (rq_client r) (rq_pool r) (rq_timer r).
#[export] Instance set_rq_listeners : Setter rq_listeners := λ g r,
  mkCReq (rq_timeout r) (rq_connect_timeout r) (rq_follow_redirect r) (rq_tcp_nodelay r)
    (rq_redirection_limit r) (rq_ssl_ctx r) (rq_proxy r) (rq_proxy_resolve r) (rq_form r)
    (rq_ssl_check_cert r) (rq_uri r) (rq_msg r) (g (rq_listeners r)) (rq_redirection_counter r)
    (rq_transfer_completed r) (rq_client r) (rq_pool r) (rq_timer r).
#[export] Instance set_rq_redirection_counter : Setter rq_redirection_counter := λ g r,
  mkCReq (rq_timeout r) (rq_connect_timeout r) (rq_follow_redirect r) (rq_tcp_nodelay r)
    (rq_redirection_limit r) (rq_ssl_ctx r) (rq_proxy r) (rq_proxy_resolve r) (rq_form r)
    (rq_ssl_check_cert r) (rq_uri r) (rq_msg r) (rq_listeners r) (g (rq_redirection_counter r))
    (rq_transfer_completed r) (rq_client r) (rq_pool r) (rq_timer r).
#[export] Instance set_rq_transfer_completed : Setter rq_transfer_completed := λ g r,
  mkCReq (rq_timeout r) (rq_connect_timeout r) (rq_follow_redirect r) (rq_tcp_nodelay r)
    (rq_redirection_limit r) (rq_ssl_ctx r) (rq_proxy r) (rq_proxy_resolve r) (rq_form r)
    (rq_ssl_check_cert r) (rq_uri r) (rq_msg r) (rq_listeners r) (rq_redirection_counter r) (g
    (rq_transfer_completed r)) (rq_client r) (rq_pool r) (rq_timer r).
#[export] Instance set_rq_client : Setter rq_client := λ g r,
  mkCReq (rq_timeout r) (rq_connect_timeout r) (rq_follow_redirect r) (rq_tcp_nodelay r)
    (rq_redirection_limit r) (rq_ssl_ctx r) (rq_proxy r) (rq_proxy_resolve r) (rq_form r)
    (rq_ssl_check_cert r) (rq_uri r) (rq_msg r) (rq_listeners r) (rq_redirection_counter r)
    (rq_transfer_completed r) (g (rq_client r)) (rq_pool r) (rq_timer r).
#[export] Instance set_rq_pool : Setter rq_pool := λ g r,
  mkCReq (rq_timeout r) (rq_connect_timeout r) (rq_follow_redirect r) (rq_tcp_nodelay r)
    (rq_redirection_limit r) (rq_ssl_ctx r) (rq_proxy r) (rq_proxy_resolve r) (rq_form r)
    (rq_ssl_check_cert r) (rq_uri r) (rq_msg r) (rq_listeners r) (rq_redirection_counter r)
    (rq_transfer_completed r) (rq_client r) (g (rq_pool r)) (rq_timer r).
#[export] Instance set_rq_timer : Setter rq_timer := λ g r,
  mkCReq (rq_timeout r) (rq_connect_timeout r) (rq_follow_redirect r) (rq_tcp_nodelay r)
    (rq_redirection_limit r) (rq_ssl_ctx r) (rq_proxy r) (rq_proxy_resolve r) (rq_form r)
    (rq_ssl_check_cert r) (rq_uri r) (rq_msg r) (rq_listeners r) (rq_redirection_counter r)
    (rq_transfer_completed r) (rq_client r) (rq_pool r) (g (rq_timer r)).
#[export] Instance set_cl_loop : Setter cl_loop := λ g r,
  mkClient (g (cl_loop r)) (cl_pool r) (cl_netloc r) (cl_request r) (cl_response r) (cl_parser r)
    (cl_context r) (cl_last_activity_time r) (cl_in_redirect r) (cl_redirect_canceled r)
    (cl_form_field r) (cl_connected r) (cl_connecting r) (cl_pending r) (cl_weak r).
#[export] Instance set_cl_pool : Setter cl_pool := λ g r,
  mkClient (cl_loop r) (g (cl_pool r)) (cl_netloc r) (cl_request r) (cl_response r) (cl_parser r)
    (cl_context r) (cl_last_activity_time r) (cl_in_redirect r) (cl_redirect_canceled r)
    (cl_form_field r) (cl_connected r) (cl_connecting r) (cl_pending r) (cl_weak r).
#[export] Instance set_cl_netloc : Setter cl_netloc := λ g r,
  mkClient (cl_loop r) (cl_pool r) (g (cl_netloc r)) (cl_request r) (cl_response r) (cl_parser r)
    (cl_context r) (cl_last_activity_time r) (cl_in_redirect r) (cl_redirect_canceled r)
    (cl_form_field r) (cl_connected r) (cl_connecting r) (cl_pending r) (cl_weak r).
#[export] Instance set_cl_request : Setter cl_request := λ g r,
  mkClient (cl_loop r) (cl_pool r) (cl_netloc r) (g (cl_request r)) (cl_response r) (cl_parser r)
    (cl_context r) (cl_last_activity_time r) (cl_in_redirect r) (cl_redirect_canceled r)
    (cl_form_field r) (cl_connected r) (cl_connecting r) (cl_pending r) (cl_weak r).
#[export] Instance set_cl_response : Setter cl_response := λ g r,
  mkClient (cl_loop r) (cl_pool r) (cl_netloc r) (cl_request r) (g (cl_response r)) (cl_parser r)
    (cl_context r) (cl_last_activity_time r) (cl_in_redirect r) (cl_redirect_canceled r)
    (cl_form_field r) (cl_connected r) (cl_connecting r) (cl_pending r) (cl_weak r).
#[export] Instance set_cl_parser : Setter cl_parser := λ g r,
  mkClient (cl_loop r) (cl_pool r) (cl_netloc r) (cl_request r) (cl_response r) (g (cl_parser r))
    (cl_context r) (cl_last_activity_time r) (cl_in_redirect r) (cl_redirect_canceled r)
    (cl_form_field r) (cl_connected r) (cl_connecting r) (cl_pending r) (cl_weak r).
#[export] Instance set_cl_context : Setter cl_context := λ g r,
  mkClient (cl_loop r) (cl_pool r) (cl_netloc r) (cl_request r) (cl_response r) (cl_parser r) (g
    (cl_context r)) (cl_last_activity_time r) (cl_in_redirect r) (cl_redirect_canceled r)
    (cl_form_field r) (cl_connected r) (cl_connecting r) (cl_pending r) (cl_weak r).
#[export] Instance set_cl_last_activity_time : Setter cl_last_activity_time := λ g r,
  mkClient (cl_loop r) (cl_pool r) (cl_netloc r) (cl_request r) (cl_response r) (cl_parser r)
    (cl_context r) (g (cl_last_activity_time r)) (cl_in_redirect r) (cl_redirect_canceled r)
    (cl_form_field r) (cl_connected r) (cl_connecting r) (cl_pending r) (cl_weak r).
#[export] Instance set_cl_in_redirect : Setter cl_in_redirect := λ g r,
  mkClient (cl_loop r) (cl_pool r) (cl_netloc r) (cl_request r) (cl_response r) (cl_parser r)
    (cl_context r) (cl_last_activity_time r) (g (cl_in_redirect r)) (cl_redirect_canceled r)
    (cl_form_field r) (cl_connected r) (cl_connecting r) (cl_pending r) (cl_weak r).
#[export] Instance set_cl_redirect_canceled : Setter cl_redirect_canceled := λ g r,
  mkClient (cl_loop r) (cl_pool r) (cl_netloc r) (cl_request r) (cl_response r) (cl_parser r)
    (cl_context r) (cl_last_activity_time r) (cl_in_redirect r) (g (cl_redirect_canceled r))
    (cl_form_field r) (cl_connected r) (cl_connecting r) (cl_pending r) (cl_weak r).
#[export] Instance set_cl_form_field : Setter cl_form_field := λ g r,
  mkClient (cl_loop r) (cl_pool r) (cl_netloc r) (cl_request r) (cl_response r) (cl_parser r)
    (cl_context r) (cl_last_activity_time r) (cl_in_redirect r) (cl_redirect_canceled r) (g
    (cl_form_field r)) (cl_connected r) (cl_connecting r) (cl_pending r) (cl_weak r).
#[export] Instance set_cl_connected : Setter cl_connected := λ g r,
  mkClient (cl_loop r) (cl_pool r) (cl_netloc r) (cl_request r) (cl_response r) (cl_parser r)
    (cl_context r) (cl_last_activity_time r) (cl_in_redirect r) (cl_redirect_canceled r)
    (cl_form_field r) (g (cl_connected r)) (cl_connecting r) (cl_pending r) (cl_weak r).
#[export] Instance set_cl_connecting : Setter cl_connecting := λ g r,
  mkClient (cl_loop r) (cl_pool r) (cl_netloc r) (cl_request r) (cl_response r) (cl_parser r)
    (cl_context r) (cl_last_activity_time r) (cl_in_redirect r) (cl_redirect_canceled r)
    (cl_form_field r) (cl_connected r) (g (cl_connecting r)) (cl_pending r) (cl_weak r).
#[export] Instance set_cl_pending : Setter cl_pending := λ g r,
  mkClient (cl_loop r) (cl_pool r) (cl_netloc r) (cl_request r) (cl_response r) (cl_parser r)
    (cl_context r) (cl_last_activity_time r) (cl_in_redirect r) (cl_redirect_canceled r)
    (cl_form_field r) (cl_connected r) (cl_connecting r) (g (cl_pending r)) (cl_weak r).
#[export] Instance set_cl_weak : Setter cl_weak := λ g r,
  mkClient (cl_loop r) (cl_pool r) (cl_netloc r) (cl_request r) (cl_response r) (cl_parser r)
    (cl_context r) (cl_last_activity_time r) (cl_in_redirect r) (cl_redirect_canceled r)
    (cl_form_field r) (cl_connected r) (cl_connecting r) (cl_pending r) (g (cl_weak r)).
#[export] Instance set_pl_loop : Setter pl_loop := λ g r,
  mkPool (g (pl_loop r)) (pl_idle_timer r) (pl_idle_timeout r) (pl_max_connections r)
    (pl_clients r) (pl_factory r).
#[export] Instance set_pl_idle_timer : Setter pl_idle_timer := λ g r,
  mkPool (pl_loop r) (g (pl_idle_timer r)) (pl_idle_timeout r) (pl_max_connections r)
    (pl_clients r) (pl_factory r).
#[export] Instance set_pl_idle_timeout : Setter pl_idle_timeout := λ g r,
  mkPool (pl_loop r) (pl_idle_timer r) (g (pl_idle_timeout r)) (pl_max_connections r)
    (pl_clients r) (pl_factory r).
#[export] Instance set_pl_max_connections : Setter pl_max_connections := λ g r,
  mkPool (pl_loop r) (pl_idle_timer r) (pl_idle_timeout r) (g (pl_max_connections r))
    (pl_clients r) (pl_factory r).
#[export] Instance set_pl_clients : Setter pl_clients := λ g r,
  mkPool (pl_loop r) (pl_idle_timer r) (pl_idle_timeout r) (pl_max_connections r) (g
    (pl_clients r)) (pl_factory r).
#[export] Instance set_pl_factory : Setter pl_factory := λ g r,
  mkPool (pl_loop r) (pl_idle_timer r) (pl_idle_timeout r) (pl_max_connections r) (pl_clients r)
    (g (pl_factory r)).
#[export] Instance set_ua_pool : Setter ua_pool := λ g r,
  mkAgent (g (ua_pool r)) (ua_cookie_jar r) (ua_identity r) (ua_ssl_ctx r) (ua_proxy r).
#[export] Instance set_ua_cookie_jar : Setter ua_cookie_jar := λ g r,
  mkAgent (ua_pool r) (g (ua_cookie_jar r)) (ua_identity r) (ua_ssl_ctx r) (ua_proxy r).
#[export] Instance set_ua_identity : Setter ua_identity := λ g r,
  mkAgent (ua_pool r) (ua_cookie_jar r) (g (ua_identity r)) (ua_ssl_ctx r) (ua_proxy r).
#[export] Instance set_ua_ssl_ctx : Setter ua_ssl_ctx := λ g r,
  mkAgent (ua_pool r) (ua_cookie_jar r) (ua_identity r) (g (ua_ssl_ctx r)) (ua_proxy r).
#[export] Instance set_ua_proxy : Setter ua_proxy := λ g r,
  mkAgent (ua_pool r) (ua_cookie_jar r) (ua_identity r) (ua_ssl_ctx r) (g (ua_proxy r)).
#[export] Instance set_cw_uris : Setter cw_uris := λ g r,
  mkCWorld (g (cw_uris r)) (cw_reqs r) (cw_clients r) (cw_pools r) (cw_agents r) (cw_jars r)
    (cw_instances r) (cw_loops r) (cw_now r) (cw_ctxs r) (cw_ssl_default r) (cw_ssl_verify r)
    (cw_sync_pool r) (cw_sync_busy r) (cw_frames r) (cw_log r).
#[export] Instance set_cw_reqs : Setter cw_reqs := λ g r,
  mkCWorld (cw_uris r) (g (cw_reqs r)) (cw_clients r) (cw_pools r) (cw_agents r) (cw_jars r)
    (cw_instances r) (cw_loops r) (cw_now r) (cw_ctxs r) (cw_ssl_default r) (cw_ssl_verify r)
    (cw_sync_pool r) (cw_sync_busy r) (cw_frames r) (cw_log r).
#[export] Instance set_cw_clients : Setter cw_clients := λ g r,
  mkCWorld (cw_uris r) (cw_reqs r) (g (cw_clients r)) (cw_pools r) (cw_agents r) (cw_jars r)
    (cw_instances r) (cw_loops r) (cw_now r) (cw_ctxs r) (cw_ssl_default r) (cw_ssl_verify r)
    (cw_sync_pool r) (cw_sync_busy r) (cw_frames r) (cw_log r).
#[export] Instance set_cw_pools : Setter cw_pools := λ g r,
  mkCWorld (cw_uris r) (cw_reqs r) (cw_clients r) (g (cw_pools r)) (cw_agents r) (cw_jars r)
    (cw_instances r) (cw_loops r) (cw_now r) (cw_ctxs r) (cw_ssl_default r) (cw_ssl_verify r)
    (cw_sync_pool r) (cw_sync_busy r) (cw_frames r) (cw_log r).
#[export] Instance set_cw_agents : Setter cw_agents := λ g r,
  mkCWorld (cw_uris r) (cw_reqs r) (cw_clients r) (cw_pools r) (g (cw_agents r)) (cw_jars r)
    (cw_instances r) (cw_loops r) (cw_now r) (cw_ctxs r) (cw_ssl_default r) (cw_ssl_verify r)
    (cw_sync_pool r) (cw_sync_busy r) (cw_frames r) (cw_log r).
#[export] Instance set_cw_jars : Setter cw_jars := λ g r,
  mkCWorld (cw_uris r) (cw_reqs r) (cw_clients r) (cw_pools r) (cw_agents r) (g (cw_jars r))
    (cw_instances r) (cw_loops r) (cw_now r) (cw_ctxs r) (cw_ssl_default r) (cw_ssl_verify r)
    (cw_sync_pool r) (cw_sync_busy r) (cw_frames r) (cw_log r).
#[export] Instance set_cw_instances : Setter cw_instances := λ g r,
  mkCWorld (cw_uris r) (cw_reqs r) (cw_clients r) (cw_pools r) (cw_agents r) (cw_jars r) (g
    (cw_instances r)) (cw_loops r) (cw_now r) (cw_ctxs r) (cw_ssl_default r) (cw_ssl_verify r)
    (cw_sync_pool r) (cw_sync_busy r) (cw_frames r) (cw_log r).
#[export] Instance set_cw_loops : Setter cw_loops := λ g r,
  mkCWorld (cw_uris r) (cw_reqs r) (cw_clients r) (cw_pools r) (cw_agents r) (cw_jars r)
    (cw_instances r) (g (cw_loops r)) (cw_now r) (cw_ctxs r) (cw_ssl_default r) (cw_ssl_verify r)
    (cw_sync_pool r) (cw_sync_busy r) (cw_frames r) (cw_log r).
#[export] Instance set_cw_now : Setter cw_now := λ g r,
  mkCWorld (cw_uris r) (cw_reqs r) (cw_clients r) (cw_pools r) (cw_agents r) (cw_jars r)
    (cw_instances r) (cw_loops r) (g (cw_now r)) (cw_ctxs r) (cw_ssl_default r) (cw_ssl_verify r)
    (cw_sync_pool r) (cw_sync_busy r) (cw_frames r) (cw_log r).
#[export] Instance set_cw_ctxs : Setter cw_ctxs := λ g r,
  mkCWorld (cw_uris r) (cw_reqs r) (cw_clients r) (cw_pools r) (cw_agents r) (cw_jars r)
    (cw_instances r) (cw_loops r) (cw_now r) (g (cw_ctxs r)) (cw_ssl_default r) (cw_ssl_verify r)
    (cw_sync_pool r) (cw_sync_busy r) (cw_frames r) (cw_log r).
#[export] Instance set_cw_ssl_default : Setter cw_ssl_default := λ g r,
  mkCWorld (cw_uris r) (cw_reqs r) (cw_clients r) (cw_pools r) (cw_agents r) (cw_jars r)
    (cw_instances r) (cw_loops r) (cw_now r) (cw_ctxs r) (g (cw_ssl_default r)) (cw_ssl_verify r)
    (cw_sync_pool r) (cw_sync_busy r) (cw_frames r) (cw_log r).
#[export] Instance set_cw_ssl_verify : Setter cw_ssl_verify := λ g r,
  mkCWorld (cw_uris r) (cw_reqs r) (cw_clients r) (cw_pools r) (cw_agents r) (cw_jars r)
    (cw_instances r) (cw_loops r) (cw_now r) (cw_ctxs r) (cw_ssl_default r) (g (cw_ssl_verify r))
    (cw_sync_pool r) (cw_sync_busy r) (cw_frames r) (cw_log r).
#[export] Instance set_cw_sync_pool : Setter cw_sync_pool := λ g r,
  mkCWorld (cw_uris r) (cw_reqs r) (cw_clients r) (cw_pools r) (cw_agents r) (cw_jars r)
    (cw_instances r) (cw_loops r) (cw_now r) (cw_ctxs r) (cw_ssl_default r) (cw_ssl_verify r) (g
    (cw_sync_pool r)) (cw_sync_busy r) (cw_frames r) (cw_log r).
#[export] Instance set_cw_sync_busy : Setter cw_sync_busy := λ g r,
  mkCWorld (cw_uris r) (cw_reqs r) (cw_clients r) (cw_pools r) (cw_agents r) (cw_jars r)
    (cw_instances r) (cw_loops r) (cw_now r) (cw_ctxs r) (cw_ssl_default r) (cw_ssl_verify r)
    (cw_sync_pool r) (g (cw_sync_busy r)) (cw_frames r) (cw_log r).
#[export] Instance set_cw_frames : Setter cw_frames := λ g r,
  mkCWorld (cw_uris r) (cw_reqs r) (cw_clients r) (cw_pools r) (cw_agents r) (cw_jars r)
    (cw_instances r) (cw_loops r) (cw_now r) (cw_ctxs r) (cw_ssl_default r) (cw_ssl_verify r)
    (cw_sync_pool r) (cw_sync_busy r) (g (cw_frames r)) (cw_log r).
#[export] Instance set_cw_log : Setter cw_log := λ g r,
  mkCWorld (cw_uris r) (cw_reqs r) (cw_clients r) (cw_pools r) (cw_agents r) (cw_jars r)
    (cw_instances r) (cw_loops r) (cw_now r) (cw_ctxs r) (cw_ssl_default r) (cw_ssl_verify r)
    (cw_sync_pool r) (cw_sync_busy r) (cw_frames r) (g (cw_log r)).

End ClientSetters.
