(* ===== verification/ClientOps.v ===== *)
(** * Store access, the stream, SSL contexts and the methods of a request
      ([Request.h], [Request.icc], [Client.cc])

    The client's side of the model's effects: access to the objects, what the
    client asks of its stream, and the methods of [Request] that touch neither a
    client nor a pool. *)
From S2P Require Import Prelude Errors Proto ClientProto ClientState.
Local Open Scope Z_scope.

(** The environment: the order of addresses in a set of pointers
    ([set::begin()]), and whether OpenSSL finds its default verify paths, given
    what happened. *)
Class ClientEnv `{ClientProto} := {
  set_begin : gset ClientId → option ClientId;
  default_verify_paths_ok : list CObs → bool
}.

Class ClientEnvLaws `{ClientEnv} := {
  set_begin_in : ∀ X c, set_begin X = Some c → c ∈ X;
  set_begin_none : ∀ X, set_begin X = None → X = ∅
}.

(** The user's code (the listeners of a request's events, a pool's factory) and the
    event loop, run until it is done or once without waiting. *)
Class CCallbacks `{ClientProto} := {
  cfire : CEvent → M CWorld unit;
  factory_new_client : PoolId → M CWorld ClientId;
  loop_run : LoopId → bool → M CWorld unit
}.

Section ClientStore.
Context `{ClientProto}.

Definition clog (o : CObs) : M CWorld unit := modify (λ w, w <| cw_log ::= cons o |>).

Definition get_uri (u : UriId) : M CWorld Uri := o ← gets (λ w, cw_uris w !! u); deref o.
Definition get_rq (r : RqId) : M CWorld CRequest := o ← gets (λ w, cw_reqs w !! r); deref o.
Definition get_client (c : ClientId) : M CWorld Client :=
  o ← gets (λ w, cw_clients w !! c); deref o.
Definition get_pool (p : PoolId) : M CWorld Pool := o ← gets (λ w, cw_pools w !! p); deref o.

Definition mod_uri (u : UriId) (f : Uri → Uri) : M CWorld unit :=
  modify (λ w, w <| cw_uris ::= alter f u |>).
Definition mod_rq (r : RqId) (f : CRequest → CRequest) : M CWorld unit :=
  modify (λ w, w <| cw_reqs ::= alter f r |>).
Definition mod_client (c : ClientId) (f : Client → Client) : M CWorld unit :=
  modify (λ w, w <| cw_clients ::= alter f c |>).
Definition mod_pool (p : PoolId) (f : Pool → Pool) : M CWorld unit :=
  modify (λ w, w <| cw_pools ::= alter f p |>).

Definition alloc_uri (u : Uri) : M CWorld UriId :=
  i ← gets (λ w, fresh (dom (cw_uris w)));
  modify (λ w, w <| cw_uris ::= <[i := u]> |>) ;; mret i.
Definition alloc_client (k : Client) : M CWorld ClientId :=
  c ← gets (λ w, fresh (dom (cw_clients w)));
  modify (λ w, w <| cw_clients ::= <[c := k]> |>) ;; mret c.
Definition alloc_pool (q : Pool) : M CWorld PoolId :=
  p ← gets (λ w, fresh (dom (cw_pools w)));
  modify (λ w, w <| cw_pools ::= <[p := q]> |>) ;; mret p.
Definition alloc_ctx : M CWorld CtxId :=
  x ← gets (λ w, fresh (dom (cw_ctxs w)));
  modify (λ w, w <| cw_ctxs ::= <[x := false]> |>) ;; mret x.

(** [loop()->now()] of a client. *)
Definition client_now (c : ClientId) : M CWorld Z :=
  k ← get_client c; gets (λ w, cw_now w (cl_loop k)).

(** ** The stream *)

Definition tcp_write (c : ClientId) (x : CWire) : M CWorld unit :=
  clog (CWrite c x) ;; mod_client c (λ k, k <| cl_pending ::= λ l, l ++ [PWrite] |>).
Definition read_start (c : ClientId) : M CWorld unit := clog (CReadStart c).
Definition set_weak (c : ClientId) (b : bool) : M CWorld unit :=
  mod_client c (λ k, k <| cl_weak := b |>).
Definition tcp_connect (c : ClientId) (host : string) (port timeout : Z) : M CWorld unit :=
  clog (CConnect c host port timeout) ;;
  mod_client c (λ k, k <| cl_connecting := true |> <| cl_pending ::= λ l, l ++ [PConnect] |>).

(** ** SSL contexts *)

(** [_default_ssl_context]: a function's static variable, initialised once. *)
Definition default_ssl_context : M CWorld CtxId :=
  o ← gets cw_ssl_default;
  match o with
  | Some x => mret x
  | None => x ← alloc_ctx; modify (λ w, w <| cw_ssl_default := Some x |>) ;; mret x
  end.

(** [_verify_ssl_context]. *)
Definition verify_ssl_context `{!ClientEnv} : M CWorld CtxId :=
  o ← gets cw_ssl_verify;
  match o with
  | Some x => mret x
  | None =>
      x ← alloc_ctx;
      modify (λ w, w <| cw_ssl_verify := Some x |>) ;;
      ok ← gets (λ w, default_verify_paths_ok (cw_log w));
      (if (ok : bool) then mret tt
       else throw (HttpError "can not set ssl certificate default verify paths")) ;;
      modify (λ w, w <| cw_ctxs ::= <[x := true]> |>) ;;
      mret x
  end.

(** [Client::get_default_ssl_context]. *)
Definition get_default_ssl_context `{!ClientEnv} (verify : bool) : M CWorld CtxId :=
  if verify then verify_ssl_context else default_ssl_context.

End ClientStore.

(** ** [NetLoc] *)

(** [NetLoc::operator==]. *)
Definition NetLoc_eqb (a b : NetLoc) : bool :=
  String.eqb (nl_host a) (nl_host b) && (nl_port a =? nl_port b) &&
  bool_decide (nl_ssl_ctx a = nl_ssl_ctx b) && bool_decide (nl_proxy a = nl_proxy b) &&
  Bool.eqb (nl_ssl_check_cert a) (nl_ssl_check_cert b).

Lemma NetLoc_eqb_spec a b : NetLoc_eqb a b = true ↔ a = b.
Proof.
  unfold NetLoc_eqb. rewrite !andb_true_iff, String.eqb_eq, Z.eqb_eq, !bool_decide_eq_true, Bool.eqb_true_iff.
  destruct a, b; naive_solver.
Qed.

(** [Pool::Hash::hash_combine] on [size_t]; the third summand is the truth value of
    [s < 6]. *)
Definition hash_combine (s v : Z) : Z :=
  Z.lxor s (u64 (v + 0x9e3779b9 + (if s <? 6 then 1 else 0) + Z.shiftr s 2)).

(** [Pool::Hash::operator()]. *)
Definition NetLoc_hash `{ClientProto} (p : NetLoc) : Z :=
  hash_combine (hash_combine 0 (hash_string (nl_host p))) (hash_u16 (nl_port p)).

(** ** Methods of a request *)

Definition DEFAULT_TIMEOUT : Z := 20000.
Definition DEFAULT_REDIRECTION_LIMIT : Z := 20.

Section RequestMethods.
Context `{ClientProto} `{!CCallbacks}.

(** [Request::netloc]. *)
Definition request_netloc (r : RqId) : M CWorld NetLoc :=
  req ← get_rq r;
  http ← match rq_proxy req with
         | Some x => u ← get_uri x;
             mret (if String.eqb (uri_scheme u) "http" then Some u else None)
         | None => mret None
         end;
  match http with
  | Some u => mret (mkNetLoc (uri_host u) (uri_port u) None None false)
  | None =>
      i ← deref (rq_uri req);
      u ← get_uri i;
      mret (mkNetLoc (uri_host u) (uri_port u) (rq_ssl_ctx req) (rq_proxy req)
        (rq_ssl_check_cert req))
  end.

(** [Request::check]. *)
Definition request_check (r : RqId) : M CWorld unit :=
  req ← get_rq r;
  match rq_uri req with
  | None => throw (HttpError "request must have uri")
  | Some i =>
      u ← get_uri i;
      if String.eqb (uri_host u) EmptyString then throw (HttpError "uri must have host")
      else mret tt
  end.

(** [Request::ensure_timer_active]. *)
Definition ensure_timer_active (r : RqId) : M CWorld unit :=
  req ← get_rq r;
  if rq_timeout req =? 0 then mret tt
  else
    let active := match rq_timer req with Some t => tm_active t | None => false end in
    (if active then mret tt else clog (CTimerOnce r (rq_timeout req))) ;;
    mod_rq r (λ q, q <| rq_timer := Some (mkTimer true true) |>).

(** [Request::cleanup_after_redirect]. *)
Definition cleanup_after_redirect (r : RqId) : M CWorld unit :=
  mod_rq r (λ q, q <| rq_client := None |> <| rq_transfer_completed := false |>
                   <| rq_timer ::= fmap (λ t, mkTimer (tm_active t) false) |>).

(** [_timer->clear()]. *)
Definition clear_timer (r : RqId) : M CWorld unit :=
  mod_rq r (λ q, q <| rq_timer ::= fmap (λ _, mkTimer false false) |>).

Definition emit_event (ev : CEvent) : M CWorld unit := clog (CFire ev) ;; cfire ev.

(** [Request::finish_and_notify]. *)
Definition finish_and_notify (r : RqId) (res : option CResponse) (err : option ErrorCode) :
    M CWorld unit :=
  let res := match res with Some x => x | None => mkCResp resp_new false end in
  cleanup_after_redirect r ;;
  mod_rq r (λ q, q <| rq_redirection_counter := 0 |> <| rq_pool := None |>) ;;
  clear_timer r ;;
  emit_event (CEvPartial r res err) ;;
  emit_event (CEvResponse r res err).

End RequestMethods.
