(* ===== verification/Form.v ===== *)
(** * Form items ([Form.h], [Form.cc])

    What a multipart form writes to its client: fields and embedded files at once,
    a file through a streamer, whose progress is input of the model. *)
From S2P Require Import Prelude Errors Proto ClientProto ClientState ClientOps.
Local Open Scope Z_scope.

Section Forms.
Context `{ClientProto}.

(** [IFormItem::produce]. *)
Definition produce (r : RqId) (chunk : list string) (out : ClientId) : M CWorld unit :=
  tcp_write out (CForm r chunk).

(** [request->form[i]]. *)
Definition form_at (r : RqId) (i : Z) : M CWorld FormItem :=
  req ← get_rq r;
  match (if 0 <=? i then rq_form req !! Z.to_nat i else None) with
  | Some item => mret item
  | None => fault_with OutOfBounds
  end.

Definition set_form_at (r : RqId) (i : Z) (item : FormItem) : M CWorld unit :=
  mod_rq r (λ q, q <| rq_form ::= <[Z.to_nat i := item]> |>).

(** [start] of the three classes. A streamer without an input stream cannot be
    started: the stream was moved into the previous streamer. *)
Definition form_item_start (r : RqId) (i : Z) (out : ClientId) : M CWorld bool :=
  item ← form_at r i;
  req ← get_rq r;
  match item with
  | FormField name content =>
      produce r (cm_form_field (rq_msg req) name content) out ;; mret true
  | FormEmbeddedFile name content mime_type filename =>
      produce r (cm_form_file (rq_msg req) name filename mime_type) out ;;
      produce r (cm_form_data (rq_msg req) content) out ;; mret true
  | FormFile name mime_type filename in_ streamer max_buf =>
      set_form_at r i (FormFile name mime_type filename false (Some false) max_buf) ;;
      (if in_ then mret tt else fault_with NullDeref) ;;
      clog (CStreamerStart r) ;;
      set_form_at r i (FormFile name mime_type filename false (Some true) max_buf) ;;
      produce r (cm_form_file (rq_msg req) name filename mime_type) out ;; mret false
  end.

(** [stop] of the three classes. *)
Definition form_item_stop (r : RqId) (i : Z) : M CWorld unit :=
  item ← form_at r i;
  match item with
  | FormField _ _ | FormEmbeddedFile _ _ _ _ => mret tt
  | FormFile name mime_type filename in_ streamer max_buf =>
      _ ← deref streamer;
      clog (CStreamerStop r) ;;
      set_form_at r i (FormFile name mime_type filename in_ None max_buf)
  end.

(** [FormFile::ClientOutput::write]: the pieces of a chunk, one after another. *)
Definition form_output_write (r : RqId) (out : ClientId) (data : string) : M CWorld unit :=
  req ← get_rq r;
  for_each (λ piece, produce r [piece] out) (cm_form_data (rq_msg req) data).

End Forms.
