(* ===== verification/Client.v ===== *)
(** * A client ([Client.h], [Client.cc])

    One definition per method. Resetting a stream reports its operations in flight
    at once, which calls back into [cancel]: the methods are defined over the
    [cancel] they may reach ([cancel_] below); [Pool.client_cancel] closes the
    recursion. *)
From S2P Require Import Prelude Errors Proto ClientProto ClientState ClientOps Form.
Local Open Scope Z_scope.

(** What a client uses of its pool. *)
Class PoolOps `{ClientProto} := {
  pool_putback : PoolId → ClientId → M CWorld unit;
  pool_request : PoolId → RqId → M CWorld (option ClientId)
}.

(** [is_redirect]. *)
Definition is_redirect (code : Z) : bool :=
  existsb (Z.eqb code) [300; 301; 302; 303; 307; 308].

(** [(int32_t)size]. *)
Definition i32 (z : Z) : Z := (z + 2 ^ 31) mod 2 ^ 32 - 2 ^ 31.

Section ClientCore.
Context `{ClientProto} `{!ClientEnv} `{!CCallbacks}.

(** [Client::Client(loop)], [Client::Client(pool)]. *)
Definition new_client_at (loop : LoopId) (pool : option PoolId) : M CWorld ClientId :=
  alloc_client {|
    cl_loop := loop; cl_pool := pool; cl_netloc := mkNetLoc EmptyString 0 None None true;
    cl_request := None; cl_response := None; cl_parser := rparser_init; cl_context := None;
    cl_last_activity_time := 0; cl_in_redirect := false; cl_redirect_canceled := false;
    cl_form_field := -1; cl_connected := false; cl_connecting := false; cl_pending := [];
    cl_weak := false |}.

Context (cancel_ : ClientId → option ErrorCode → M CWorld unit).

(** [Client::on_connect], [Client::on_write]. *)
Definition client_on_connect (c : ClientId) (err : option ErrorCode) : M CWorld unit :=
  k ← get_client c;
  match cl_request k, err with
  | Some _, Some e => cancel_ c (Some (Nested connect_error e))
  | _, _ => mret tt
  end.

Definition client_on_write (c : ClientId) (err : option ErrorCode) : M CWorld unit :=
  k ← get_client c;
  match cl_request k, err with
  | Some _, Some _ => cancel_ c err
  | _, _ => mret tt
  end.

(** [Tcp::reset()]. *)
Definition tcp_reset (c : ClientId) : M CWorld unit :=
  k ← get_client c;
  clog (CReset c) ;;
  mod_client c (λ k, k <| cl_connected := false |> <| cl_connecting := false |>
                       <| cl_pending := [] |>) ;;
  for_each (λ p, match p with
                 | PConnect => client_on_connect c (Some (StdErr operation_canceled))
                 | PWrite => client_on_write c (Some (StdErr operation_canceled))
                 end) (cl_pending k).

(** [Client::drop_connection]. *)
Definition drop_connection (c : ClientId) : M CWorld unit :=
  k ← get_client c;
  let req := cl_request k in
  mod_client c (λ k, k <| cl_request := None |>) ;;
  tcp_reset c ;;
  mod_client c (λ k, k <| cl_request := req |>).

(** [Client::send_form]. *)
Fixpoint send_form_loop (n : nat) (c : ClientId) (r : RqId) : M CWorld unit :=
  k ← get_client c;
  req ← get_rq r;
  if cl_form_field k <? i32 (Z.of_nat (length (rq_form req))) then
    match n with
    | O => fault_with OutOfFuel
    | S n' =>
        done ← form_item_start r (cl_form_field k) c;
        if (done : bool) then
          mod_client c (λ k, k <| cl_form_field ::= Z.succ |>) ;;
          send_form_loop n' c r
        else mret tt
    end
  else mret tt.

Definition send_form (c : ClientId) : M CWorld unit :=
  k ← get_client c;
  assert (bool_decide (is_Some (cl_request k))) ;;
  r ← deref (cl_request k);
  req ← get_rq r;
  send_form_loop (length (rq_form req)) c r ;;
  k ← get_client c;
  req ← get_rq r;
  if cl_form_field k =? i32 (Z.of_nat (length (rq_form req))) then
    mod_client c (λ k, k <| cl_form_field := -1 |>) ;;
    tcp_write c (CForm r (cm_form_finish (rq_msg req))) ;;
    mod_rq r (λ q, q <| rq_transfer_completed := true |>) ;;
    read_start c
  else mret tt.

(** The SSL layer of a new connection, in [Client::request]. *)
Definition setup_ssl (c : ClientId) (r : RqId) (u : Uri) : M CWorld unit :=
  req ← get_rq r;
  ctx ← match rq_ssl_ctx req with
        | Some x => mret x
        | None => get_default_ssl_context (rq_ssl_check_cert req)
        end;
  clog (CUseSsl c ctx (uri_host u) (if rq_ssl_check_cert req then Some (uri_host u) else None)).

(** The proxy of a new connection, in [Client::request]. *)
Definition setup_proxy (c : ClientId) (r : RqId) : M CWorld unit :=
  req ← get_rq r;
  match rq_proxy req with
  | None => mret tt
  | Some x =>
      u ← get_uri x;
      if String.eqb (uri_scheme u) "socks5" then
        clog (CUseSocks c (uri_host u) (uri_port u) (uri_user u) (uri_password u)
          (rq_proxy_resolve req))
      else if String.eqb (uri_scheme u) "http" then mret tt
      else throw (HttpError "client supports only socks5 protocol for proxy")
  end.

(** The new connection itself, in [Client::request]. *)
Definition start_connection (c : ClientId) (r : RqId) (netloc : NetLoc) : M CWorld unit :=
  k ← get_client c;
  (if cl_connected k then drop_connection c else mret tt) ;;
  clog (CClearFilters c) ;;
  req ← get_rq r;
  i ← deref (rq_uri req);
  u ← get_uri i;
  (if uri_secure u then setup_ssl c r u else mret tt) ;;
  setup_proxy c r ;;
  req ← get_rq r;
  (if rq_tcp_nodelay req then clog (CNoDelay c) else mret tt) ;;
  mod_client c (λ k, k <| cl_netloc := netloc |>) ;;
  let conn_timeout :=
    if negb (rq_connect_timeout req =? 0) then rq_connect_timeout req else rq_timeout req in
  tcp_connect c (nl_host netloc) (nl_port netloc) conn_timeout.

(** [if (!request->uri->scheme()) request->uri->scheme("http")]. *)
Definition default_scheme (r : RqId) : M CWorld unit :=
  req ← get_rq r;
  i ← deref (rq_uri req);
  u ← get_uri i;
  if String.eqb (uri_scheme u) EmptyString then mod_uri i (uri_set_scheme "http") else mret tt.

(** The compression the client asks for, in [Client::request]. *)
Definition default_compression (m : QMsg) : QMsg :=
  if (cm_compression_prefs m =? IDENTITY) && negb (fields_has (cm_headers m) "Accept-Encoding")
  then m <| cm_compression_prefs ::= allow_compression GZIP |> else m.

(** The request's head, with the body or the start of the form, in
    [Client::request]. *)
Definition send_request (c : ClientId) (r : RqId) : M CWorld unit :=
  mod_rq r (λ q, q <| rq_msg ::= default_compression |>) ;;
  req ← get_rq r;
  i ← deref (rq_uri req);
  u ← get_uri i;
  mod_client c (λ k, k <| cl_context := Some r |>) ;;
  tcp_write c (CHead r (cm_to_vector (rq_msg req) u)) ;;
  if cm_form_streaming (rq_msg req) then
    mod_client c (λ k, k <| cl_form_field := 0 |>) ;;
    send_form c
  else
    (if negb (cm_chunked (rq_msg req)) || negb (cm_body_length (cm_parts (rq_msg req)) =? 0)
     then mod_rq r (λ q, q <| rq_transfer_completed := true |>) else mret tt) ;;
    read_start c.

(** [Client::request]. *)
Definition client_request (c : ClientId) (r : RqId) : M CWorld unit :=
  k ← get_client c;
  (if bool_decide (is_Some (cl_request k))
   then throw (HttpError "client supports only one request at a time") else mret tt) ;;
  req ← get_rq r;
  (if bool_decide (is_Some (rq_client req))
   then throw (HttpError "request is already in progress") else mret tt) ;;
  request_check r ;;
  mod_rq r (λ q, q <| rq_client := Some c |>) ;;
  default_scheme r ;;
  netloc ← request_netloc r;
  req ← get_rq r;
  (if negb (cl_connected k) || negb (NetLoc_eqb (cl_netloc k) netloc) ||
      negb (cm_keep_alive (rq_msg req))
   then start_connection c r netloc else mret tt) ;;
  (if negb (rq_timeout req =? 0) then ensure_timer_active r else mret tt) ;;
  set_weak c false ;;
  mod_client c (λ k, k <| cl_request := Some r |>) ;;
  send_request c r.

Context {PO : PoolOps}.

(** [Client::finish_request]. *)
Definition client_finish_request (c : ClientId) (_err : option ErrorCode) : M CWorld unit :=
  k ← get_client c;
  let res := cl_response k in
  mod_client c (λ k, k <| cl_request := None |> <| cl_response := None |>) ;;
  r ← deref (cl_request k);
  req ← get_rq r;
  let err := match _err with
             | None => if negb (rq_transfer_completed req)
                       then Some (HttpErr transfer_aborted) else None
             | Some _ => _err
             end in
  keep ← match err with
         | Some _ => mret false
         | None => x ← deref res;
             mret (resp_keep_alive (rp_msg x) && cm_keep_alive (rq_msg req))
         end;
  (if (keep : bool) then set_weak c true else drop_connection c) ;;
  k ← get_client c;
  (if 0 <=? cl_form_field k then
     form_item_stop r (cl_form_field k) ;;
     mod_client c (λ k, k <| cl_form_field := -1 |>)
   else mret tt) ;;
  now ← client_now c;
  mod_client c (λ k, k <| cl_last_activity_time := now |>) ;;
  match cl_pool k with Some p => pool_putback p c | None => mret tt end ;;
  finish_and_notify r res err.

(** [Client::cancel]. *)
Definition client_cancel_with (c : ClientId) (err : option ErrorCode) : M CWorld unit :=
  k ← get_client c;
  match cl_request k with
  | None => mret tt
  | Some _ =>
      mod_client c (λ k, k <| cl_parser := rparser_init |> <| cl_context := None |>) ;;
      (if cl_in_redirect k then mod_client c (λ k, k <| cl_redirect_canceled := true |>)
       else mret tt) ;;
      client_finish_request c err
  end.

(** [Client::timed_out]. *)
Definition timed_out_client (c : ClientId) : M CWorld unit :=
  k ← get_client c;
  let err := StdErr timed_out in
  cancel_ c (Some (if cl_connecting k then Nested connect_error err else err)).

(** [Client::send_chunk], [Client::send_final_chunk]. *)
Definition client_send_chunk (c : ClientId) (r : RqId) (chunk : string) : M CWorld unit :=
  k ← get_client c;
  assert (bool_decide (cl_request k = Some r)) ;;
  if String.eqb chunk EmptyString then mret tt
  else
    req ← get_rq r;
    tcp_write c (CChunk r (cm_make_chunk (rq_msg req) chunk)).

Definition client_send_final_chunk (c : ClientId) (r : RqId) (chunk : string) : M CWorld unit :=
  k ← get_client c;
  assert (bool_decide (cl_request k = Some r)) ;;
  mod_rq r (λ q, q <| rq_transfer_completed := true |>) ;;
  req ← get_rq r;
  tcp_write c (CFinal r (cm_final_chunk (rq_msg req) chunk)).

(** [Client::form_file_complete]. *)
Definition form_file_complete (c : ClientId) (ec : option ErrorCode) : M CWorld unit :=
  match ec with
  | Some _ => client_finish_request c ec
  | None => mod_client c (λ k, k <| cl_form_field ::= Z.succ |>) ;; send_form c
  end.

(** ** Redirects: [Client::analyze_request] *)

(** The target of a [Location], relative to the request's URI. *)
Definition redirect_target (location : string) (prev_uri : Uri) : Uri :=
  let uri := uri_parse location in
  let uri := if String.eqb (uri_scheme uri) EmptyString
             then uri_set_scheme (uri_scheme prev_uri) uri else uri in
  if String.eqb (uri_host uri) EmptyString then
    let uri := uri_set_host (uri_host prev_uri) uri in
    if uri_explicit_port prev_uri then uri_set_port (uri_port prev_uri) uri else uri
  else uri.

(** The headers a redirect removes. *)
Definition is_private_header (name : string) : bool :=
  String.eqb name "Authorization" || String.eqb name "Cookie" ||
  String.eqb name "Host" || String.eqb name "Referer".

(** The loop over the headers: those that stay, and those that are recorded. *)
Fixpoint scrub_headers (headers removed : Fields) : Fields * Fields :=
  match headers with
  | [] => ([], removed)
  | (name, value) :: rest =>
      if is_private_header name then scrub_headers rest (fields_add removed name value)
      else let '(kept, removed) := scrub_headers rest removed in ((name, value) :: kept, removed)
  end.

(** The request after a redirect was accepted, and the context it left. *)
Definition redirect_context (prev_uri : UriId) (req : CRequest) : RedirectContext := {|
  rc_uri := prev_uri;
  rc_ssl_ctx := rq_ssl_ctx req;
  rc_cookies := cm_cookies (rq_msg req);
  rc_removed_headers := (scrub_headers (cm_headers (rq_msg req)) []).2 |}.

Definition redirected_request (uri : UriId) (req : CRequest) : CRequest :=
  req <| rq_msg ::= λ m, m <| cm_headers := (scrub_headers (cm_headers m) []).1 |>
                           <| cm_cookies := cookies_empty |> |>
      <| rq_ssl_ctx := None |> <| rq_uri := Some uri |>.

(** The event, in its [try] block: the result says whether to go on. *)
Definition notify_redirect (c : ClientId) (r : RqId) (res : CResponse) (ctx : RedirectContext) :
    M CWorld bool :=
  mod_client c (λ k, k <| cl_in_redirect := true |>) ;;
  try_catch
    (emit_event (CEvRedirect r res ctx) ;;
     mod_client c (λ k, k <| cl_in_redirect := false |>))
    (λ e, mod_client c (λ k, k <| cl_in_redirect := false |> <| cl_redirect_canceled := false |>) ;;
          cancel_ c (Some (StdErr operation_canceled)) ;;
          throw e) ;;
  k ← get_client c;
  if cl_redirect_canceled k then
    mod_client c (λ k, k <| cl_redirect_canceled := false |>) ;; mret false
  else mret true.

(** Following the redirect, after the event. *)
Definition follow_redirect (c : ClientId) : M CWorld unit :=
  k ← get_client c;
  res ← deref (cl_response k);
  r ← deref (cl_request k);
  (if resp_code (rp_msg res) =? 303 then
     mod_rq r (λ q, q <| rq_msg ::= λ m, m <| cm_method := "GET"%string |> <| cm_parts := [] |> |>)
   else mret tt) ;;
  netloc ← request_netloc r;
  mod_client c (λ k, k <| cl_request := None |> <| cl_response := None |>) ;;
  mod_rq r (λ q, q <| rq_client := None |>) ;;
  (if resp_keep_alive (rp_msg res) then mret tt else tcp_reset c) ;;
  cleanup_after_redirect r ;;
  k ← get_client c;
  match cl_pool k with
  | Some p =>
      if negb (String.eqb (nl_host netloc) (nl_host (cl_netloc k))) ||
         negb (nl_port netloc =? nl_port (cl_netloc k)) then
        now ← client_now c;
        mod_client c (λ k, k <| cl_last_activity_time := now |>) ;;
        pool_putback p c ;;
        set_weak c true ;;
        pool_request p r ;; mret tt
      else client_request c r
  | None => client_request c r
  end.

Definition redirect (c : ClientId) (r : RqId) (res : CResponse) : M CWorld unit :=
  req ← get_rq r;
  if rq_redirection_limit req =? 0 then cancel_ c (Some (HttpErr unexpected_redirect))
  else
    let count := u16 (rq_redirection_counter req + 1) in
    mod_rq r (λ q, q <| rq_redirection_counter := count |>) ;;
    if rq_redirection_limit req <? count then cancel_ c (Some (HttpErr redirection_limit))
    else
      let uristr := resp_location (rp_msg res) in
      if String.eqb uristr EmptyString then cancel_ c (Some (HttpErr no_redirect_uri))
      else
        prev ← deref (rq_uri req);
        prev_uri ← get_uri prev;
        uri ← alloc_uri (redirect_target uristr prev_uri);
        req ← get_rq r;
        let ctx := redirect_context prev req in
        mod_rq r (redirected_request uri) ;;
        go ← notify_redirect c r res ctx;
        if (go : bool) then follow_redirect c else mret tt.

(** [Client::analyze_request]. *)
Definition analyze_request (c : ClientId) : M CWorld unit :=
  k ← get_client c;
  res ← deref (cl_response k);
  r ← deref (cl_request k);
  req ← get_rq r;
  if resp_code (rp_msg res) =? 100 then
    emit_event (CEvContinue r) ;;
    mod_client c (λ k, k <| cl_response := None |>)
  else if rq_follow_redirect req && is_redirect (resp_code (rp_msg res)) then redirect c r res
  else client_finish_request c None.

(** ** Input *)

(** [_parser.parse_shift(buf)] with the context request [r]: the response so far,
    the state, the error and the rest. *)
Definition client_parse (c : ClientId) (r : RqId) (buf : string) :
    M CWorld (CResponse * proto_state * option ErrorCode * string) :=
  k ← get_client c;
  req ← get_rq r;
  let '(p', (keep, msg, st, err, rest)) := rparse_shift (rq_msg req) (cl_parser k) buf in
  mod_client c (λ k, k <| cl_parser := p' |>
                       <| cl_context := if (keep : bool) then Some r else None |>) ;;
  mret (mkCResp msg (state_ge_done st), st, err, rest).

(** The loop of [Client::on_read]. *)
Fixpoint client_on_read_loop (n : nat) (c : ClientId) (buf : string) : M CWorld unit :=
  if String.eqb buf EmptyString then mret tt
  else match n with
  | O => fault_with OutOfFuel
  | S n' =>
      k ← get_client c;
      match cl_context k with
      | None => drop_connection c
      | Some q =>
          x ← client_parse c q buf;
          let '(res, st, err, rest) := x in
          mod_client c (λ k, k <| cl_response := Some res |>) ;;
          match err with
          | Some _ => cancel_ c err
          | None =>
              if state_le_headers st then mret tt
              else if negb (state_is_done st) then
                if resp_code (rp_msg res) =? 100 then client_on_read_loop n' c rest
                else
                  k ← get_client c;
                  r ← deref (cl_request k);
                  req ← get_rq r;
                  if rq_follow_redirect req && is_redirect (resp_code (rp_msg res))
                  then client_on_read_loop n' c rest
                  else
                    emit_event (CEvPartial r res None) ;;
                    client_on_read_loop n' c rest
              else
                analyze_request c ;;
                client_on_read_loop n' c rest
          end
      end
  end.

(** [Client::on_read]. *)
Definition client_on_read (c : ClientId) (buf : string) (err : option ErrorCode) : M CWorld unit :=
  match err with
  | Some _ => cancel_ c err
  | None => client_on_read_loop (String.length buf) c buf
  end.

(** [_parser.eof()]. *)
Definition client_parse_eof (c : ClientId) : M CWorld (option RespMsg * option ErrorCode) :=
  k ← get_client c;
  q ← match cl_context k with
      | Some r => req ← get_rq r; mret (Some (rq_msg req))
      | None => mret None
      end;
  let '(p', x) := rparser_eof q (cl_parser k) in
  mod_client c (λ k, k <| cl_parser := p' |> <| cl_context := None |>) ;;
  mret x.

(** [Client::on_eof]. *)
Definition client_on_eof (c : ClientId) : M CWorld unit :=
  k ← get_client c;
  match cl_request k with
  | None => tcp_reset c
  | Some _ =>
      x ← client_parse_eof c;
      msg ← deref x.1;
      mod_client c (λ k, k <| cl_response := Some (mkCResp msg true) |>) ;;
      match x.2 with
      | Some _ => cancel_ c x.2
      | None => analyze_request c
      end
  end.

End ClientCore.
