(* ===== verification/Pool.v ===== *)
(** * Connection pools ([Pool.h], [Pool.cc], and the methods of [Request.icc] that
      reach a client or a pool)

    A pool keeps, per [NetLoc], its free and busy clients and the requests that
    wait for one. The file ends with the recursion of clients and pools closed. *)
From S2P Require Import Prelude Errors Proto ClientProto ClientState ClientOps Form Client.
Local Open Scope Z_scope.

Definition DEFAULT_IDLE_TIMEOUT : Z := 60000.
Definition DEFAULT_MAX_CONNECTIONS : Z := 10.

(** [Pool::Config]; [pc_factory] says whether there is a factory. *)
Record PoolConfig := mkPoolConfig {
  pc_max_connections : Z; pc_idle_timeout : Z; pc_factory : bool }.
Definition default_pool_config : PoolConfig :=
  mkPoolConfig DEFAULT_MAX_CONNECTIONS DEFAULT_IDLE_TIMEOUT false.

(** What a pool uses of its clients: [Client::request]. *)
Class ClientOps `{ClientProto} := { client_start : ClientId → RqId → M CWorld unit }.

Section PoolMethods.
Context `{ClientProto} `{!ClientEnv} `{!CCallbacks} {CO : ClientOps}.

Definition find_list (p : PoolId) (n : NetLoc) : M CWorld (option NetLocList) :=
  q ← get_pool p; mret (pl_clients q !! n).
Definition put_list (p : PoolId) (n : NetLoc) (l : NetLocList) : M CWorld unit :=
  mod_pool p (λ q, q <| pl_clients ::= <[n := l]> |>).

(** [queue.emplace_back(req)], [queue.pop_front()], [queue.erase(it)]. *)
Definition set_queue (l : NetLocList) (q : list RqId) : NetLocList :=
  l <| nl_queue := q |> <| nl_version ::= S |>.

(** [Pool::idle_timeout(val)]. *)
Definition set_idle_timeout (p : PoolId) (val : Z) : M CWorld unit :=
  mod_pool p (λ q, q <| pl_idle_timeout := val |>
    <| pl_idle_timer := if val =? 0 then None else Some (if 1000 <=? val then 1000 else val) |>).

(** [Pool::max_connections(value)]. *)
Definition set_max_connections (p : PoolId) (value : Z) : M CWorld unit :=
  mod_pool p (λ q, q <| pl_max_connections := value |>).

(** [Pool::Pool]. *)
Definition new_pool (cfg : PoolConfig) (loop : LoopId) : M CWorld PoolId :=
  p ← alloc_pool {|
    pl_loop := loop; pl_idle_timer := None; pl_idle_timeout := 0;
    pl_max_connections := pc_max_connections cfg; pl_clients := ∅;
    pl_factory := pc_factory cfg |};
  set_idle_timeout p (pc_idle_timeout cfg) ;;
  mret p.

(** [Pool::Pool(const LoopSP&)]. *)
Definition new_default_pool (loop : LoopId) : M CWorld PoolId := new_pool default_pool_config loop.

(** [Pool::instance]. *)
Definition find_instance (w : CWorld) (loop : LoopId) : option PoolId :=
  find (λ p, match cw_pools w !! p with
             | Some q => bool_decide (pl_loop q = loop)
             | None => false
             end) (cw_instances w).

Definition instance (loop : LoopId) : M CWorld PoolId :=
  o ← gets (λ w, find_instance w loop);
  match o with
  | Some p => mret p
  | None =>
      p ← new_pool default_pool_config loop;
      modify (λ w, w <| cw_instances ::= λ l, l ++ [p] |>) ;;
      mret p
  end.

(** [Pool::new_client]. *)
Definition new_client (p : PoolId) : M CWorld ClientId :=
  q ← get_pool p;
  if pl_factory q then factory_new_client p else new_client_at (pl_loop q) (Some p).

(** The choice of a client for a request, in [Pool::request]: none when the request
    is enqueued. *)
Definition choose_client (p : PoolId) (r : RqId) (netloc : NetLoc) : M CWorld (option ClientId) :=
  o ← find_list p netloc;
  match o with
  | None =>
      c ← new_client p;
      put_list p netloc (mkNLL ∅ {[ c ]} [] 0) ;;
      mret (Some c)
  | Some l =>
      match set_begin (nl_free l) with
      | Some c =>
          put_list p netloc (l <| nl_free ::= λ X, X ∖ {[ c ]} |> <| nl_busy ::= λ X, X ∪ {[ c ]} |>) ;;
          mret (Some c)
      | None =>
          q ← get_pool p;
          if Z.of_nat (size (nl_busy l)) <? pl_max_connections q then
            c ← new_client p;
            put_list p netloc (l <| nl_busy ::= λ X, X ∪ {[ c ]} |>) ;;
            mret (Some c)
          else
            put_list p netloc (set_queue l (nl_queue l ++ [r])) ;;
            req ← get_rq r;
            (if negb (rq_timeout req =? 0) then ensure_timer_active r else mret tt) ;;
            mret None
      end
  end.

(** [Pool::request]. *)
Definition pool_do_request (p : PoolId) (r : RqId) : M CWorld (option ClientId) :=
  request_check r ;;
  mod_rq r (λ q, q <| rq_pool := Some p |>) ;;
  netloc ← request_netloc r;
  client ← choose_client p r netloc;
  match client with Some c => client_start c r | None => mret tt end ;;
  mret client.

(** [*it == req]: the position of a request in a queue. *)
Fixpoint queue_index (r : RqId) (q : list RqId) : option nat :=
  match q with
  | [] => None
  | x :: q' => if bool_decide (x = r) then Some 0%nat else S <$> queue_index r q'
  end.

(** [Pool::cancel_request]: the request is notified, then erased at the iterator
    that was found before. *)
Definition pool_cancel_request (p : PoolId) (r : RqId) (err : option ErrorCode) : M CWorld unit :=
  netloc ← request_netloc r;
  o ← find_list p netloc;
  assert (bool_decide (is_Some o)) ;;
  l ← deref o;
  match queue_index r (nl_queue l) with
  | None => assert false
  | Some i =>
      finish_and_notify r None err ;;
      o' ← find_list p netloc;
      match o' with
      | Some l' =>
          if bool_decide (nl_version l' = nl_version l)
          then put_list p netloc (set_queue l' (delete i (nl_queue l')))
          else fault_with BadIterator
      | None => fault_with BadIterator
      end
  end.

(** [Pool::putback]. *)
Definition pool_do_putback (p : PoolId) (c : ClientId) : M CWorld unit :=
  k ← get_client c;
  o ← find_list p (cl_netloc k);
  assert (bool_decide (is_Some o)) ;;
  l ← deref o;
  match nl_queue l with
  | r :: q =>
      put_list p (cl_netloc k) (set_queue l q) ;;
      client_start c r
  | [] =>
      assert (bool_decide (c ∈ nl_busy l)) ;;
      put_list p (cl_netloc k)
        (l <| nl_busy ::= λ X, X ∖ {[ c ]} |> <| nl_free ::= λ X, X ∪ {[ c ]} |>)
  end.

(** [Pool::check_inactivity]: the time before which an activity is too old (the
    subtraction of [uint64_t]), the list of a [NetLoc] afterwards, and the clients
    that are let go. The pool is taken to hold the last reference to them, which
    destroys them; [~Client] asserts that the client has no request. *)
Definition remove_time (now idle_timeout : Z) : Z := u64 (now - idle_timeout).

Definition inactive (w : CWorld) (remove_time : Z) (c : ClientId) : bool :=
  match cw_clients w !! c with
  | Some k => cl_last_activity_time k <? remove_time
  | None => false
  end.

Definition sweep_list (w : CWorld) (remove_time : Z) (l : NetLocList) : option NetLocList :=
  let free := filter (λ c, inactive w remove_time c = false) (nl_free l) in
  if bool_decide (free = ∅) && bool_decide (nl_busy l = ∅) then None
  else Some (l <| nl_free := free |>).

Definition swept_clients (w : CWorld) (remove_time : Z) (cs : gmap NetLoc NetLocList) :
    list ClientId :=
  p ← map_to_list cs; elements (filter (λ c, inactive w remove_time c = true) (nl_free p.2)).

Definition destroy_client (c : ClientId) : M CWorld unit :=
  k ← get_client c;
  assert (bool_decide (cl_request k = None)) ;;
  clog (CDestroyClient c) ;;
  modify (λ w, w <| cw_clients ::= delete c |>).

Definition check_inactivity (p : PoolId) : M CWorld unit :=
  q ← get_pool p;
  now ← gets (λ w, cw_now w (pl_loop q));
  let t := remove_time now (pl_idle_timeout q) in
  gone ← gets (λ w, swept_clients w t (pl_clients q));
  swept ← gets (λ w, omap (sweep_list w t) (pl_clients q));
  for_each destroy_client gone ;;
  mod_pool p (λ q, q <| pl_clients := swept |>).

(** [Pool::size], [Pool::nbusy], [Pool::empty]. *)
Definition pool_size (q : Pool) : nat :=
  map_fold (λ _ l n, n + size (nl_free l) + size (nl_busy l))%nat 0%nat (pl_clients q).
Definition pool_nbusy (q : Pool) : nat :=
  map_fold (λ _ l n, n + size (nl_busy l))%nat 0%nat (pl_clients q).
Definition pool_empty (q : Pool) : bool := bool_decide (size (pl_clients q) = 0%nat).

(** [Pool::~Pool]. *)
Definition destroy_list (l : NetLocList) : M CWorld unit :=
  for_each (λ c, mod_client c (λ k, k <| cl_pool := None |>)) (elements (nl_busy l)) ;;
  for_each (λ r, finish_and_notify r None (Some (StdErr operation_canceled))) (nl_queue l).

Definition destroy_pool (p : PoolId) : M CWorld unit :=
  q ← get_pool p;
  for_each (λ x, destroy_list x.2) (map_to_list (pl_clients q)) ;;
  modify (λ w, w <| cw_pools ::= delete p |>).

#[export] Instance pool_ops_over_client : PoolOps := {|
  pool_putback := pool_do_putback;
  pool_request := pool_do_request |}.

End PoolMethods.

(** ** The closed recursion *)
Section Closed.
Context `{ClientProto} `{!ClientEnv} `{!CCallbacks}.

(** The client's [request] as the pool calls it. *)
Definition client_ops_over
    (cancel : ClientId → option ErrorCode → M CWorld unit) : ClientOps :=
  {| client_start := client_request cancel |}.

(** The depth [n] bounds how often a reset can come back to [cancel]. *)
Fixpoint cancel_n (n : nat) (c : ClientId) (err : option ErrorCode) : M CWorld unit :=
  match n with
  | O => fault_with OutOfFuel
  | S n' =>
      client_cancel_with (PO := pool_ops_over_client (CO := client_ops_over (cancel_n n')))
        (cancel_n n') c err
  end.

(** [Client::cancel]: the reset of a stream finds no request, so depth one is
    enough. *)
Definition client_cancel : ClientId → option ErrorCode → M CWorld unit := cancel_n 1.

#[export] Instance client_ops : ClientOps := client_ops_over client_cancel.
#[export] Instance pool_ops : PoolOps := pool_ops_over_client.

(** [Request::send_chunk], [Request::send_final_chunk] with [CHECK_SEND_CHUNK]. *)
Definition check_send_chunk (r : RqId) : M CWorld ClientId :=
  req ← get_rq r;
  (if rq_transfer_completed req
   then throw (HttpError "can't send chunk: request has already been transfered")
   else mret tt) ;;
  match rq_client req with
  | None => throw (HttpError "can't send chunk: request is not active")
  | Some c => mret c
  end.

Definition request_send_chunk (r : RqId) (chunk : string) : M CWorld unit :=
  c ← check_send_chunk r; client_send_chunk c r chunk.
Definition request_send_final_chunk (r : RqId) (chunk : string) : M CWorld unit :=
  c ← check_send_chunk r; client_send_final_chunk c r chunk.

(** [Request::cancel]. *)
Definition request_cancel (r : RqId) (err : option ErrorCode) : M CWorld unit :=
  req ← get_rq r;
  match rq_client req, rq_pool req with
  | Some c, _ => client_cancel c err
  | None, Some p => pool_cancel_request p r err
  | None, None => mret tt
  end.

(** [Request::on_timer]. *)
Definition request_on_timer (r : RqId) : M CWorld unit :=
  req ← get_rq r;
  match rq_client req, rq_pool req with
  | Some c, _ => timed_out_client client_cancel c
  | None, Some p => pool_cancel_request p r (Some (StdErr timed_out))
  | None, None => mret tt
  end.

End Closed.
