(* ===== verification/UserAgent.v ===== *)
(** * Building requests, user agents, and the calls of [http.h]
      ([Request.h], [UserAgent.h], [UserAgent.cc], [http.h], [http.icc])

    The listeners that the library itself adds to a request are values
    ([ReqListener]); [run_listener] is what they do when their event fires. *)
From S2P Require Import Prelude Errors Proto ClientProto ClientState ClientOps Form Client Pool.
Local Open Scope Z_scope.

Definition DEFAULT_UA : string := "Mozilla/5.0 (Windows NT 6.1; WOW64) AppleWebKit/537.36 (KHTML, like Gecko) Chrome/47.0.2526.111 Safari/537.36 UniEvent-HTTP/1.0".

(** ** Building requests: the members' initialisers, and the [Builder] *)
Section Builder.
Context `{ClientProto}.

Definition default_request (default_ssl_verify : bool) : CRequest := {|
  rq_timeout := DEFAULT_TIMEOUT; rq_connect_timeout := 0; rq_follow_redirect := true;
  rq_tcp_nodelay := false; rq_redirection_limit := DEFAULT_REDIRECTION_LIMIT;
  rq_ssl_ctx := None; rq_proxy := None; rq_proxy_resolve := true; rq_form := [];
  rq_ssl_check_cert := default_ssl_verify; rq_uri := None; rq_msg := cm_new;
  rq_listeners := []; rq_redirection_counter := 0; rq_transfer_completed := false;
  rq_client := None; rq_pool := None; rq_timer := None |}.

(** The methods of [Request::Builder]. *)
Inductive BuilderCall :=
  | BTimeout (v : Z)
  | BConnectTimeout (v : Z)
  | BFollowRedirect (v : bool)
  | BRedirectionLimit (v : Z)
  | BSslCtx (ctx : option CtxId)
  | BSslCheckCert (check : bool)
  | BProxy (proxy : option UriId)
  | BTcpNodelay (v : bool)
  | BFormField (name value : string)
  | BFormItem (value : FormItem)
  | BFormEmbedded (name value mime_type filename : string)
  | BFormFile (name mime_type filename : string)
  | BUri (uri : option UriId)           (* of protocol::http::Request::BuilderImpl *)
  | BMethod (method : string).          (* of protocol::http::Request::BuilderImpl *)

Definition default_max_buf : Z := 10000000.

(** [form_stream()], then [form.emplace_back(item)]. *)
Definition add_form_item (item : FormItem) (q : CRequest) : CRequest :=
  q <| rq_msg ::= cm_form_stream |> <| rq_form ::= λ l, l ++ [item] |>.

Definition builder_call (b : BuilderCall) (q : CRequest) : CRequest :=
  match b with
  | BTimeout v => q <| rq_timeout := v |>
  | BConnectTimeout v => q <| rq_connect_timeout := v |>
  | BFollowRedirect v => q <| rq_follow_redirect := v |>
  | BRedirectionLimit v => q <| rq_redirection_limit := v |>
  | BSslCtx ctx => q <| rq_ssl_ctx := ctx |>
  | BSslCheckCert v => q <| rq_ssl_check_cert := v |>
  | BProxy proxy => q <| rq_proxy := proxy |>
  | BTcpNodelay v => q <| rq_tcp_nodelay := v |>
  | BFormField name value => add_form_item (FormField name value) q
  | BFormItem value => add_form_item value q
  | BFormEmbedded name value mime filename =>
      add_form_item (FormEmbeddedFile name value mime filename) q
  | BFormFile name mime filename =>
      add_form_item (FormFile name mime filename true None default_max_buf) q
  | BUri uri => q <| rq_uri := uri |>
  | BMethod m => q <| rq_msg ::= λ x, x <| cm_method := m |> |>
  end.

Definition build (default_ssl_verify : bool) (l : list BuilderCall) : CRequest :=
  fold_left (λ q b, builder_call b q) l (default_request default_ssl_verify).

Definition alloc_request (q : CRequest) : M CWorld RqId :=
  r ← gets (λ w, fresh (dom (cw_reqs w)));
  modify (λ w, w <| cw_reqs ::= <[r := q]> |>) ;; mret r.

End Builder.

Section Agents.
Context `{ClientProto} `{!ClientEnv} `{!CCallbacks}.

Definition get_agent (a : AgentId) : M CWorld UserAgent :=
  o ← gets (λ w, cw_agents w !! a); deref o.
Definition get_jar (j : JarId) : M CWorld CookieJar :=
  o ← gets (λ w, cw_jars w !! j); deref o.

(** [UserAgent::Config]. *)
Record AgentConfig := mkAgentConfig {
  ac_identity : option string; ac_ssl_ctx : option CtxId; ac_proxy : option UriId }.
Definition default_agent_config : AgentConfig := mkAgentConfig (Some DEFAULT_UA) None None.

(** [UserAgent::UserAgent]. *)
Definition new_agent (loop : LoopId) (serialized : string) (cfg : AgentConfig) : M CWorld AgentId :=
  p ← instance loop;
  j ← gets (λ w, fresh (dom (cw_jars w)));
  modify (λ w, w <| cw_jars ::= <[j := jar_parse serialized]> |>) ;;
  a ← gets (λ w, fresh (dom (cw_agents w)));
  modify (λ w, w <| cw_agents ::= <[a := mkAgent p j (ac_identity cfg) (ac_ssl_ctx cfg) (ac_proxy cfg)]> |>) ;;
  mret a.

(** [Date(loop()->now())]. *)
Definition agent_now (a : AgentId) : M CWorld Z :=
  ua ← get_agent a;
  q ← get_pool (ua_pool ua);
  gets (λ w, cw_now w (pl_loop q)).

(** [UserAgent::inject], after the cookies were set. *)
Definition inject_identity (ua : UserAgent) (q : CRequest) : CRequest :=
  match ua_identity ua with
  | Some v =>
      if fields_has (cm_headers (rq_msg q)) "User-Agent" then q
      else q <| rq_msg ::= λ m, m <| cm_headers ::= λ h, fields_add h "User-Agent" v |> |>
  | None => q
  end.

Definition inject_config (ua : UserAgent) (q : CRequest) : CRequest :=
  let q := match ua_ssl_ctx ua, rq_ssl_ctx q with
           | Some x, None => q <| rq_ssl_ctx := Some x |>
           | _, _ => q
           end in
  match ua_proxy ua, rq_proxy q with
  | Some x, None => q <| rq_proxy := Some x |>
  | _, _ => q
  end.

(** [UserAgent::inject]. *)
Definition inject (a : AgentId) (r : RqId) (context_uri : UriId) (top_level : bool) (now : Z) :
    M CWorld unit :=
  ua ← get_agent a;
  jar ← get_jar (ua_cookie_jar ua);
  req ← get_rq r;
  i ← deref (rq_uri req);
  u ← get_uri i;
  context ← get_uri context_uri;
  mod_rq r (λ q, q <| rq_msg ::= λ m, jar_populate jar m u context top_level now |>) ;;
  mod_rq r (λ q, inject_config ua (inject_identity ua q)).

(** [ua->cookie_jar()->collect(res, uri, now)]. *)
Definition collect (a : AgentId) (res : CResponse) (uri : UriId) (now : Z) : M CWorld unit :=
  ua ← get_agent a;
  jar ← get_jar (ua_cookie_jar ua);
  u ← get_uri uri;
  modify (λ w, w <| cw_jars ::= <[ua_cookie_jar ua := jar_collect jar (rp_msg res) u now]> |>).

(** What a listener of the library does for an event of the request [r]. *)
Definition run_listener (ev : CEvent) (l : ReqListener) : M CWorld unit :=
  match l, ev with
  | LAgent a _ _, CEvResponse r res None =>
      now ← agent_now a;
      req ← get_rq r;
      i ← deref (rq_uri req);
      collect a res i now
  | LAgent a context_uri top_level, CEvRedirect r res ctx =>
      now ← agent_now a;
      collect a res (rc_uri ctx) now ;;
      inject a r context_uri top_level now
  | LSync f, CEvResponse r res err =>
      o ← gets (λ w, cw_frames w !! f);
      match o with
      | None => fault_with DanglingRef
      | Some _ =>
          modify (λ w, w <| cw_frames ::= <[f := Some (match err with Some e => inr e | None => inl res end)]> |>)
      end
  | _, _ => mret tt
  end.

(** The listeners of the library, in the order in which they were added. *)
Definition event_request (ev : CEvent) : RqId :=
  match ev with
  | CEvPartial r _ _ | CEvResponse r _ _ | CEvRedirect r _ _ | CEvContinue r => r
  end.

Definition run_listeners (ev : CEvent) : M CWorld unit :=
  req ← get_rq (event_request ev);
  for_each (run_listener ev) (rq_listeners req).

Definition add_listener (r : RqId) (l : ReqListener) : M CWorld unit :=
  mod_rq r (λ q, q <| rq_listeners ::= λ ls, ls ++ [l] |>).

(** [UserAgent::request]. *)
Definition agent_request (a : AgentId) (r : RqId) (context_uri : UriId) (top_level : bool) :
    M CWorld (option ClientId) :=
  add_listener r (LAgent a context_uri top_level) ;;
  now ← agent_now a;
  inject a r context_uri top_level now ;;
  ua ← get_agent a;
  pool_request (ua_pool ua) r.

(** [UserAgent::request] for a request that is its own context: the shared pointer is
    copied, so that what happens to [req->uri] later does not change the context.
    [inject] dereferences it before the pool sees the request: a fault, after which
    there is no state. *)
Definition agent_request_own (a : AgentId) (r : RqId) (top_level : bool) : M CWorld (option ClientId) :=
  req ← get_rq r;
  i ← deref (rq_uri req);
  agent_request a r i top_level.

(** [UserAgent::to_string]. *)
Definition agent_to_string (a : AgentId) (include_session : bool) : M CWorld string :=
  now ← agent_now a;
  ua ← get_agent a;
  jar ← get_jar (ua_cookie_jar ua);
  mret (jar_to_string jar include_session now).

(** ** [http.h] *)

(** [http_request]. *)
Definition http_request (r : RqId) (loop : LoopId) : M CWorld unit :=
  p ← instance loop; pool_request p r ;; mret tt.

(** [BusyGuard]'s constructor and destructor around [m]. *)
Definition busy_guard {A} (m : M CWorld A) : M CWorld A :=
  busy ← gets cw_sync_busy;
  (if (busy : bool) then throw (PandaException "recursive syncronous http request detected")
   else mret tt) ;;
  modify (λ w, w <| cw_sync_busy := true |>) ;;
  x ← try_catch m (λ e, modify (λ w, w <| cw_sync_busy := false |>) ;; throw e);
  modify (λ w, w <| cw_sync_busy := false |>) ;;
  mret x.

(** The pool of the synchronous calls. *)
Definition get_sync_pool : M CWorld PoolId :=
  o ← gets cw_sync_pool;
  match o with
  | Some p => mret p
  | None =>
      loop ← gets cw_loops;
      modify (λ w, w <| cw_loops ::= S |>) ;;
      p ← instance loop;
      modify (λ w, w <| cw_sync_pool := Some p |>) ;;
      mret p
  end.

(** A stack frame that holds [ret], around [m]: it ends on a return and on a throw. *)
Definition with_frame {A} (m : nat → M CWorld A) : M CWorld A :=
  f ← gets (λ w, fresh (dom (cw_frames w)));
  modify (λ w, w <| cw_frames ::= <[f := None]> |>) ;;
  x ← try_catch (m f) (λ e, modify (λ w, w <| cw_frames ::= delete f |>) ;; throw e);
  modify (λ w, w <| cw_frames ::= delete f |>) ;;
  mret x.

(** [http_request_sync]; [None] is the default-constructed result. *)
Definition http_request_sync (r : RqId) : M CWorld (option (CResponse + ErrorCode)) :=
  p ← get_sync_pool;
  busy_guard (with_frame (λ f,
    add_listener r (LSync f) ;;
    q ← get_pool p;
    (if negb (pool_empty q) then loop_run (pl_loop q) true else mret tt) ;;
    pool_request p r ;;
    loop_run (pl_loop q) false ;;
    o ← gets (λ w, cw_frames w !! f);
    mret (default None o))).

(** [http_get], asynchronous and synchronous. *)
Definition http_get (uri : UriId) (default_ssl_verify : bool) (loop : LoopId) : M CWorld unit :=
  r ← alloc_request (build default_ssl_verify [BUri (Some uri); BMethod "GET"]);
  http_request r loop.
Definition http_get_sync (uri : UriId) (default_ssl_verify : bool) :
    M CWorld (option (CResponse + ErrorCode)) :=
  r ← alloc_request (build default_ssl_verify [BUri (Some uri); BMethod "GET"]);
  http_request_sync r.

(** [http_get] for the text of a URL: [new URI(url)]. *)
Definition http_get_url (url : string) (default_ssl_verify : bool) (loop : LoopId) : M CWorld unit :=
  i ← alloc_uri (uri_parse url); http_get i default_ssl_verify loop.
Definition http_get_url_sync (url : string) (default_ssl_verify : bool) :
    M CWorld (option (CResponse + ErrorCode)) :=
  i ← alloc_uri (uri_parse url); http_get_sync i default_ssl_verify.

End Agents.
