(* ===== verification/Text.v ===== *)
(** * Making, describing and printing values
      ([Server.h], [Server.cc], [ServerConnection.cc], [Request.icc], [UserAgent.h])

    The constructors and setters of a location, the address of a stream, the
    settings of a user agent, and the text of locations, configurations and network
    locations. *)
From S2P Require Import Prelude Errors Date Proto ServerState ServerOps ServerConn ServerMain ClientProto ClientState ClientOps Form Client Pool UserAgent.
From stdpp Require Import pretty.
From Stdlib Require Import Ascii.
Local Open Scope Z_scope.

(** ** Locations *)

(** The members' initialisers; [AF_INET] is 2. *)
Definition default_location : Location := {|
  lc_host := EmptyString; lc_port := 0; lc_path := EmptyString; lc_reuse_port := true;
  lc_backlog := DEFAULT_BACKLOG; lc_domain := 2; lc_tcp_nodelay := false;
  lc_ssl_ctx := None; lc_sock := None |}.

(** [Location(host, port, backlog, ssl_ctx)]. *)
Definition new_location (host : string) (port backlog : Z) (ssl_ctx : option nat) : Location :=
  default_location <| lc_host := host |> <| lc_port := port |> <| lc_backlog := backlog |> <| lc_ssl_ctx := ssl_ctx |>.

(** The setters, which can be chained. *)
Inductive LocationCall :=
  | set_host (val : string)
  | set_port (val : Z)
  | set_path (val : string)
  | set_reuse_port (val : bool)
  | set_backlog (val : Z)
  | set_domain (val : Z)
  | set_ssl_ctx (val : option nat)
  | set_sock (val : Z)
  | set_tcp_nodelay (val : bool).

Definition location_call (b : LocationCall) (loc : Location) : Location :=
  match b with
  | set_host val => loc <| lc_host := val |>
  | set_port val => loc <| lc_port := u16 val |>
  | set_path val => loc <| lc_path := val |>
  | set_reuse_port val => loc <| lc_reuse_port := val |>
  | set_backlog val => loc <| lc_backlog := val |>
  | set_domain val => loc <| lc_domain := val |>
  | set_ssl_ctx val => loc <| lc_ssl_ctx := val |>
  | set_sock val => loc <| lc_sock := Some val |>
  | set_tcp_nodelay val => loc <| lc_tcp_nodelay := val |>
  end.

(** ** The text of locations and configurations *)

Section Print.
(* what ip() and port() say of the address that getsockname gives for a socket *)
Context (sock_address : Z → option (string * Z)).
Context (SIZE_UNLIMITED : Z).

Definition print_bool (b : bool) : string := if b then "1" else "0".

(** [operator<<(ostream&, const Server::Location&)]. *)
Definition print_Location (location : Location) : string :=
  "{uri: " +:+ (match lc_ssl_ctx location with Some _ => "https://" | None => "http://" end) +:+
  (if negb (String.eqb (lc_path location) EmptyString) then
     "<unix:" +:+ lc_path location +:+ ">"
   else
     match lc_sock location with
     | Some fd =>
         match sock_address fd with
         | Some (ip, port) => ip +:+ ":" +:+ pretty port +:+ ", reuse_port: false"
         | None => "<unknown custom socket>"
         end +:+ ", tcp_nodelay: " +:+ print_bool (lc_tcp_nodelay location)
     | None =>
         lc_host location +:+ ":" +:+ pretty (lc_port location) +:+
         ", reuse_port: " +:+ print_bool (lc_reuse_port location) +:+
         ", tcp_nodelay: " +:+ print_bool (lc_tcp_nodelay location)
     end) +:+
  ", backlog: " +:+ pretty (lc_backlog location) +:+ "}".

(** [operator<<(ostream&, const Server::Config&)]. *)
Definition print_Config (conf : Config) : string :=
  "{idle_timeout: " +:+ pretty (cf_idle_timeout conf / 1000) +:+ "s" +:+
  ", max_headers_size: " +:+ pretty (cf_max_headers_size conf) +:+
  (if negb (cf_max_body_size conf =? SIZE_UNLIMITED)
   then ", max_body_size: " +:+ pretty (cf_max_body_size conf) else EmptyString) +:+
  (if negb (cf_max_keepalive_requests conf =? 0)
   then ", max_keepalive_requests: " +:+ pretty (cf_max_keepalive_requests conf) else EmptyString) +:+
  ", tcp_nodelay: " +:+ print_bool (cf_tcp_nodelay conf) +:+
  ", locations: [" +:+
  foldr (λ loc s, print_Location loc +:+ ", " +:+ s) EmptyString (cf_locations conf) +:+ "]}".
End Print.

(** ** The addresses of a stream *)

Section Address.
(* a stream is a Tcp or a Pipe; the addresses they report, or the error *)
Context {Stream SockAddr : Type} (is_tcp : Stream → bool).
Context (tcp_sockaddr tcp_peeraddr : Stream → SockAddr + ErrorCode).
Context (pipe_sockname pipe_peername : Stream → string + ErrorCode).
Context (Unix : string → SockAddr).

Definition get_sockaddr (stream : Stream) : SockAddr + ErrorCode :=
  if is_tcp stream then tcp_sockaddr stream
  else match pipe_sockname stream with inr error => inr error | inl path => inl (Unix path) end.

Definition get_peeraddr (stream : Stream) : SockAddr + ErrorCode :=
  if is_tcp stream then tcp_peeraddr stream
  else match pipe_peername stream with inr error => inr error | inl path => inl (Unix path) end.
End Address.

(** [ServerRequest::sockaddr], [ServerRequest::peeraddr]: [value()] throws when the
    stream of the connection reports an error. *)
Section RequestAddress.
Context `{HttpProto} {SockAddr : Type} (no_address : SockAddr).
Context (conn_sockaddr conn_peeraddr : ConnId → SockAddr + exn).

Definition address_value (a : SockAddr + exn) : M World SockAddr :=
  match a with inl x => mret x | inr e => throw e end.
Definition req_sockaddr (r : ReqId) : M World SockAddr :=
  req ← get_req r;
  match sr_connection req with Some c => address_value (conn_sockaddr c) | None => mret no_address end.
Definition req_peeraddr (r : ReqId) : M World SockAddr :=
  req ← get_req r;
  match sr_connection req with Some c => address_value (conn_peeraddr c) | None => mret no_address end.
End RequestAddress.

(** ** The settings of a user agent *)

Section AgentSettings.
Context `{ClientProto}.

Definition mod_agent (a : AgentId) (f : UserAgent → UserAgent) : M CWorld unit :=
  modify (λ w, w <| cw_agents ::= alter f a |>).

Definition set_cookie_jar (a : AgentId) (value : JarId) : M CWorld unit :=
  mod_agent a (λ ua, ua <| ua_cookie_jar := value |>).
Definition set_identity (a : AgentId) (value : option string) : M CWorld unit :=
  mod_agent a (λ ua, ua <| ua_identity := value |>).
Definition set_proxy (a : AgentId) (value : option UriId) : M CWorld unit :=
  mod_agent a (λ ua, ua <| ua_proxy := value |>).
Definition set_agent_ssl_ctx (a : AgentId) (value : option CtxId) : M CWorld unit :=
  mod_agent a (λ ua, ua <| ua_ssl_ctx := value |>).
End AgentSettings.

(** ** The text of a network location *)

(** [operator<<(ostream&, const NetLoc&)]. *)
Definition print_NetLoc (h : NetLoc) : string := nl_host h +:+ ":" +:+ pretty (nl_port h).

(** A reference reader: the port is what follows the last colon. *)
Fixpoint split_last (s : string) : option (string * string) :=
  match s with
  | EmptyString => None
  | String ch rest =>
      match split_last rest with
      | Some (a, b) => Some (String ch a, b)
      | None => if Ascii.eqb ch ":" then Some (EmptyString, rest) else None
      end
  end.

Fixpoint read_number (n : Z) (s : string) : option Z :=
  match s with
  | EmptyString => Some n
  | String ch rest => d ← digit_val ch; read_number (10 * n + d) rest
  end.

Definition parse_NetLoc (s : string) : option (string * Z) :=
  '(host, port) ← split_last s; n ← read_number 0 port; Some (host, n).

Lemma pretty_char_cases (x : N) : (x < 10)%N → ∃ k, (k < 10)%nat ∧ x = N.of_nat k.
Proof. intros Hx. exists (N.to_nat x). lia. Qed.

Lemma digit_val_pretty (x : N) : (x < 10)%N → digit_val (pretty_N_char x) = Some (Z.of_N x).
Proof.
  intros (k & Hk & ->)%pretty_char_cases. do 10 (destruct k as [|k]; [reflexivity|]). lia.
Qed.

Lemma pretty_char_no_colon (x : N) : Ascii.eqb (pretty_N_char x) ":" = false.
Proof. destruct x as [|[[[[]|[]|]|[[]|[]|]|]|[[[]|[]|]|[[]|[]|]|]|]]; reflexivity. Qed.

Lemma read_pretty (x : N) s : read_number 0 (pretty_N_go x s) = read_number (Z.of_N x) s.
Proof.
  revert s. induction (N.lt_wf_0 x) as [x _ IH]. intros s.
  destruct (decide (x = 0%N)) as [->|Hx]; [done|].
  rewrite pretty_N_go_step by lia. rewrite IH by (apply N.div_lt; lia). cbn [read_number].
  rewrite digit_val_pretty by (apply N.mod_lt; lia). cbn. f_equal.
  rewrite N2Z.inj_div, N2Z.inj_mod by lia. pose proof (Z.div_mod (Z.of_N x) 10). lia.
Qed.

Lemma split_pretty (x : N) s : split_last s = None → split_last (pretty_N_go x s) = None.
Proof.
  revert s. induction (N.lt_wf_0 x) as [x _ IH]. intros s Hs.
  destruct (decide (x = 0%N)) as [->|Hx]; [done|].
  rewrite pretty_N_go_step by lia. apply IH; [apply N.div_lt; lia|]. cbn [split_last].
  by rewrite Hs, pretty_char_no_colon.
Qed.

Lemma pretty_port (z : Z) :
  0 ≤ z → split_last (pretty z) = None ∧ read_number 0 (pretty z) = Some z.
Proof.
  intros Hz. destruct z as [|p|p]; [done| |lia].
  change (pretty (Z.pos p)) with (pretty_N_go (N.pos p) EmptyString).
  split; [by apply split_pretty|]. by rewrite read_pretty.
Qed.

Lemma split_last_app h t : split_last t = None → split_last (h +:+ ":" +:+ t) = Some (h, t).
Proof.
  intros Ht. induction h as [|ch h IH].
  - change (EmptyString +:+ ":" +:+ t) with (String ":" t). cbn [split_last]. by rewrite Ht.
  - change (String ch h +:+ ":" +:+ t) with (String ch (h +:+ ":" +:+ t)). cbn [split_last]. by rewrite IH.
Qed.

(** C39: the text of a network location, which the logs show, tells its host and its
    port, even when the host is an IPv6 address with colons of its own. *)
Theorem netloc_text_roundtrip (h : NetLoc) :
  0 ≤ nl_port h → parse_NetLoc (print_NetLoc h) = Some (nl_host h, nl_port h).
Proof.
  intros [Hsplit Hread]%pretty_port. unfold parse_NetLoc, print_NetLoc.
  rewrite (split_last_app _ _ Hsplit). cbn. by rewrite Hread.
Qed.

Lemma netloc_text_roundtrip_witness :
  0 ≤ 8080 ∧ parse_NetLoc (print_NetLoc (mkNetLoc "::1" 8080 None None true)) = Some ("::1"%string, 8080).
Proof. split; [lia|]. apply (netloc_text_roundtrip (mkNetLoc "::1" 8080 None None true)). cbn. lia. Defined.
