(* ===== verification/ClientStep.v ===== *)
(** * Runs of the client: user programs, loop events, and how they meet

    The user's code is a [CProgram]: for every event of a request a list of calls
    that may depend on the whole state, and what an event loop delivers while
    [http_request_sync] runs it. [exec_cinput] executes one event of the loop or
    one top-level call. *)
From S2P Require Import Prelude Errors Proto ClientProto ClientState ClientOps Form Client Pool UserAgent.
Local Open Scope Z_scope.

(** Remove the first occurrence of a pending operation. *)
Definition is_connect (p : Pending) : bool := match p with PConnect => true | PWrite => false end.
Fixpoint remove_pending (b : bool) (l : list Pending) : list Pending :=
  match l with
  | [] => []
  | p :: l' => if Bool.eqb (is_connect p) b then l' else p :: remove_pending b l'
  end.

Section ClientSteps.
Context `{ClientProto} `{!ClientEnv}.

(** The calls the user can make. *)
Inductive CAction :=
  | UNewUri (s : string)
  | UNewRequest (verify : bool) (l : list BuilderCall)
  | UNewClient (loop : LoopId)
  | UNewPool (cfg : PoolConfig) (loop : LoopId)
  | UNewAgent (loop : LoopId) (serialized : string) (cfg : AgentConfig)
  | UPoolRequest (p : PoolId) (r : RqId)
  | UClientRequest (c : ClientId) (r : RqId)
  | UAgentRequest (a : AgentId) (r : RqId) (context_uri : UriId) (top_level : bool)
  | UHttpRequest (r : RqId) (loop : LoopId)
  | UHttpSync (r : RqId)
  | UCancel (r : RqId) (err : option ErrorCode)
  | UClientCancel (c : ClientId) (err : option ErrorCode)
  | USendChunk (r : RqId) (chunk : string)
  | USendFinalChunk (r : RqId) (chunk : string)
  | UIdleTimeout (p : PoolId) (val : Z)
  | UMaxConnections (p : PoolId) (val : Z)
  | UDestroyPool (p : PoolId)
  | UThrow (n : nat).

(** What a loop delivers: the report of a stream operation, data, the end of the
    stream, a request's timer, a pool's timer, the streamer of a form's file, the
    clock; and a call of the user. *)
Inductive CInput :=
  | CInConnect (c : ClientId) (err : option ErrorCode)
  | CInWrite (c : ClientId) (err : option ErrorCode)
  | CInRead (c : ClientId) (buf : string) (err : option ErrorCode)
  | CInEof (c : ClientId)
  | CInTimer (r : RqId)
  | CInIdleTimer (p : PoolId)
  | CInFileData (c : ClientId) (data : string)
  | CInFileEnd (c : ClientId) (err : option ErrorCode)
  | CInTick (loop : LoopId) (now : Z)
  | CInUser (a : CAction).

Section Exec.
Context {CB : CCallbacks}.

(** A request that is handed over is recorded. *)
Definition submit {A} (r : RqId) (m : M CWorld A) : M CWorld unit :=
  clog (CSubmit r) ;; m ;; mret tt.

Definition exec_caction (a : CAction) : M CWorld unit :=
  match a with
  | UNewUri s => alloc_uri (uri_parse s) ;; mret tt
  | UNewRequest verify l => alloc_request (build verify l) ;; mret tt
  | UNewClient loop => new_client_at loop None ;; mret tt
  | UNewPool cfg loop => new_pool cfg loop ;; mret tt
  | UNewAgent loop serialized cfg => new_agent loop serialized cfg ;; mret tt
  | UPoolRequest p r => submit r (pool_request p r)
  | UClientRequest c r => submit r (client_request client_cancel c r)
  | UAgentRequest a r uri top => submit r (agent_request a r uri top)
  | UHttpRequest r loop => submit r (http_request r loop)
  | UHttpSync r => http_request_sync r ;; mret tt
  | UCancel r err => request_cancel r err
  | UClientCancel c err => client_cancel c err
  | USendChunk r chunk => request_send_chunk r chunk
  | USendFinalChunk r chunk => request_send_final_chunk r chunk
  | UIdleTimeout p val => set_idle_timeout p val
  | UMaxConnections p val => set_max_connections p val
  | UDestroyPool p => destroy_pool p
  | UThrow n => throw (UserException n)
  end.

(** The form item a client is sending, and its request. *)
Definition current_file (c : ClientId) : M CWorld (RqId * Z) :=
  k ← get_client c; r ← deref (cl_request k); mret (r, cl_form_field k).

Definition exec_cinput (i : CInput) : M CWorld unit :=
  match i with
  | CInConnect c err =>
      mod_client c (λ k, k <| cl_connecting := false |>
        <| cl_connected := bool_decide (err = None) |> <| cl_pending ::= remove_pending true |>) ;;
      client_on_connect client_cancel c err
  | CInWrite c err =>
      mod_client c (λ k, k <| cl_pending ::= remove_pending false |>) ;;
      client_on_write client_cancel c err
  | CInRead c buf err => client_on_read client_cancel c buf err
  | CInEof c => client_on_eof client_cancel c
  | CInTimer r =>
      mod_rq r (λ q, q <| rq_timer ::= fmap (λ t, mkTimer false (tm_listener t)) |>) ;;
      request_on_timer r
  | CInIdleTimer p => check_inactivity p
  | CInFileData c data => x ← current_file c; form_output_write x.1 c data
  | CInFileEnd c err => form_file_complete client_cancel c err
  | CInTick loop now => modify (λ w, w <| cw_now ::= λ f l, if bool_decide (l = loop) then now else f l |>)
  | CInUser a => exec_caction a
  end.

(** A list of inputs, one after another. *)
Definition run_cinputs (l : list CInput) : M CWorld unit := for_each exec_cinput l.
End Exec.

(** A user program. [pr_event] is what the listeners of an event do: given how many
    callbacks may still nest inside of this one, the event, how many calls were made
    already and the world, the next call; a listener makes [pr_calls] calls at most.
    [pr_loop] is what a loop delivers next while it is run inside of a synchronous
    call ([None]: it has nothing left). *)
Record CProgram := mkProgram {
  pr_event : nat → CEvent → nat → CWorld → option CAction;
  pr_calls : nat;
  pr_loop : LoopId → bool → CWorld → option CInput
}.

Section Run.
Context (P : CProgram).

Fixpoint listen (CB : CCallbacks) (level : nat) (ev : CEvent) (i calls : nat) : M CWorld unit := λ w,
  match calls, pr_event P level ev i w with
  | S calls', Some a => (exec_caction (CB := CB) a ;; listen CB level ev (S i) calls') w
  | _, _ => Ok tt w
  end.

(** An event runs the user's listeners and then the library's own. *)
Definition fire_with (CB : CCallbacks) (level : nat) (ev : CEvent) : M CWorld unit :=
  listen CB level ev 0 (pr_calls P) ;; run_listeners ev.

Fixpoint loop_with (CB : CCallbacks) (steps : nat) (l : LoopId) (nowait : bool) : M CWorld unit :=
  λ w, match pr_loop P l nowait w, steps with
       | None, _ => Ok tt w
       | Some _, O => Fault OutOfFuel
       | Some i, S steps' =>
           (exec_cinput (CB := CB) i ;; loop_with CB steps' l nowait) w
       end.

(** The callbacks of a program; [n] bounds how deep callbacks nest and how long a
    nested loop runs. *)
Fixpoint client_callbacks (n : nat) : CCallbacks :=
  match n with
  | O => {| cfire _ := fault_with OutOfFuel;
            factory_new_client _ := fault_with OutOfFuel;
            loop_run _ _ := fault_with OutOfFuel |}
  | S n' =>
      {| cfire := fire_with (client_callbacks n') n';
         factory_new_client p :=
           q ← get_pool p; new_client_at (pl_loop q) (Some p);
         loop_run := loop_with (client_callbacks n') n |}
  end.
End Run.

(** The state a run starts in. *)
Definition init_cworld : CWorld := {|
  cw_uris := ∅; cw_reqs := ∅; cw_clients := ∅; cw_pools := ∅; cw_agents := ∅; cw_jars := ∅;
  cw_instances := []; cw_loops := 1; cw_now := λ _, 0; cw_ctxs := ∅; cw_ssl_default := None;
  cw_ssl_verify := None; cw_sync_pool := None; cw_sync_busy := false; cw_frames := ∅;
  cw_log := [] |}.

End ClientSteps.
