(* ===== verification/ClientSample.v ===== *)
(** * A concrete client library and environment

    An instance of [ClientProto] small enough to compute with, which satisfies
    [ClientProtoLaws]; the witnesses and the counterexamples run the client with it.

    A URI is three characters: the scheme ([p] http, [s] https, [x] socks5, [-]
    none), the host (a letter, [-] none) and the port (a s_digit, [-] none). On the
    wire a response is one letter: [O] (200), [C] (200, connection close), [1]
    (100), [R] or [S] with a URI (302 and 303, the target in three characters),
    [L] (302 without a Location), [B] a body up to a full stop, [H] headers that
    are not complete; anything else is an error. *)
From S2P Require Import Prelude Errors Proto ClientProto ClientState ClientOps Form Client Pool UserAgent ClientStep.
From Stdlib Require Import Ascii.
Local Open Scope Z_scope.

Record SUri := mkSUri { su_scheme : string; su_host : string; su_port : option Z }.

Definition s_digit (a : ascii) : option Z :=
  let n := Z.of_nat (nat_of_ascii a) in
  if (48 <=? n) && (n <=? 57) then Some (n - 48) else None.

Definition su_parse (s : string) : SUri :=
  match s with
  | String a (String b (String c EmptyString)) =>
      mkSUri
        (if Ascii.eqb a "p" then "http" else if Ascii.eqb a "s" then "https"
         else if Ascii.eqb a "x" then "socks5" else EmptyString)%string
        (if Ascii.eqb b "-" then EmptyString else String b EmptyString)
        (s_digit c)
  | _ => mkSUri EmptyString EmptyString None
  end.

Definition su_default_port (scheme : string) : Z :=
  if String.eqb scheme "http" then 80 else if String.eqb scheme "https" then 443 else 0.

(** A response: its code, its Location, whether it keeps the connection alive. *)
Record SResp := mkSResp { sp_code : Z; sp_location : string; sp_keep : bool; sp_body : string }.

Fixpoint c_scan (body s : string) : string * option string :=
  match s with
  | EmptyString => (body, None)
  | String a rest =>
      if Ascii.eqb a "." then (body, Some rest) else c_scan (body +:+ String a EmptyString) rest
  end.

Definition c_body (body s : string) :
    option string * (bool * SResp * proto_state * option ErrorCode * string) :=
  match c_scan body s with
  | (b, Some rest) => (None, (false, mkSResp 200 EmptyString true b, PsDone, None, rest))
  | (b, None) => (Some b, (true, mkSResp 200 EmptyString true b, PsBody, None, EmptyString))
  end.

Definition c_done (code : Z) (location : string) (keep_alive : bool) (rest : string) :
    option string * (bool * SResp * proto_state * option ErrorCode * string) :=
  (None, (code =? 100, mkSResp code location keep_alive EmptyString, PsDone, None, rest)).

Definition c_error : option string * (bool * SResp * proto_state * option ErrorCode * string) :=
  (None, (false, mkSResp 0 EmptyString false EmptyString, PsError, Some (SysErr 2), EmptyString)).

Definition c_parse (p : option string) (buf : string) :
    option string * (bool * SResp * proto_state * option ErrorCode * string) :=
  match p with
  | Some body => c_body body buf
  | None =>
      match buf with
      | String a rest =>
          if Ascii.eqb a "O" then c_done 200 EmptyString true rest
          else if Ascii.eqb a "C" then c_done 200 EmptyString false rest
          else if Ascii.eqb a "1" then c_done 100 EmptyString true rest
          else if Ascii.eqb a "L" then c_done 302 EmptyString true rest
          else if Ascii.eqb a "B" then c_body EmptyString rest
          else if Ascii.eqb a "H"
          then (Some EmptyString, (true, mkSResp 200 EmptyString true EmptyString, PsHeaders, None, EmptyString))
          else if Ascii.eqb a "R" || Ascii.eqb a "S" then
            match rest with
            | String x (String y (String z rest')) =>
                c_done (if Ascii.eqb a "R" then 302 else 303)
                  (String x (String y (String z EmptyString))) true rest'
            | _ => c_error
            end
          else c_error
      | EmptyString => c_error
      end
  end.

#[export] Instance sample_client_proto : ClientProto := {
  Uri := SUri;
  uri_parse := su_parse;
  uri_scheme := su_scheme;
  uri_host := su_host;
  uri_port u := match su_port u with Some n => n | None => su_default_port (su_scheme u) end;
  uri_explicit_port u := match su_port u with Some _ => true | None => false end;
  uri_secure u := String.eqb (su_scheme u) "https";
  uri_user _ := EmptyString;
  uri_password _ := EmptyString;
  uri_set_scheme s u := mkSUri s (su_host u) (su_port u);
  uri_set_host h u := mkSUri (su_scheme u) h (su_port u);
  uri_set_port n u := mkSUri (su_scheme u) (su_host u) (Some n);
  Cookies := list (string * string);
  cookies_empty := [];
  Lib := unit;
  fields_has h k := existsb (λ p, String.eqb p.1 k) h;
  fields_add h k v := h ++ [(k, v)];
  cm_new := mkCMsg "GET"%string [] [] [] false 1 false tt;
  cm_form_stream m := mkCMsg "POST"%string (cm_headers m) (cm_cookies m) (cm_parts m) (cm_chunked m)
    (cm_compression_prefs m) true tt;
  cm_keep_alive m := negb (existsb (λ p, String.eqb p.1 "Connection" && String.eqb p.2 "close") (cm_headers m));
  allow_compression a b := Z.lor a b;
  IDENTITY := 1;
  GZIP := 2;
  cm_body_length l := Z.of_nat (list_sum (map String.length l));
  cm_to_vector m u := cm_method m :: su_host u :: cm_parts m;
  cm_make_chunk _ c := [c];
  cm_final_chunk _ c := [c];
  cm_form_field _ n v := [n; v];
  cm_form_file _ n f t := [n; f; t];
  cm_form_data _ d := [d];
  cm_form_finish _ := ["--"%string];
  RespMsg := SResp;
  resp_new := mkSResp 0 EmptyString true EmptyString;
  resp_code := sp_code;
  resp_location := sp_location;
  resp_keep_alive := sp_keep;
  RParser := option string;
  rparser_init := None;
  rparse_shift _ := c_parse;
  rparser_eof q p := (None, (match q with Some _ => Some (mkSResp 200 EmptyString false EmptyString) | None => None end,
                             match p with Some _ => None | None => Some (SysErr 3) end));
  hash_string s := Z.of_nat (String.length s);
  hash_u16 p := p;
  CookieJar := list (string * string);
  jar_parse s := [];
  jar_to_string _ _ _ := EmptyString;
  jar_collect j _ u _ := j ++ [("c", su_host u)]%string;
  jar_populate j m _ _ _ _ := m <| cm_cookies ::= λ l, l ++ j |>
}.

#[export] Instance sample_client_env : ClientEnv := {
  set_begin X := head (elements X);
  default_verify_paths_ok _ := true
}.

#[export] Instance sample_client_env_laws : ClientEnvLaws.
Proof.
  split; intros X; simpl.
  - intros c Hc. apply elem_of_elements. destruct (elements X); [done|]. simplify_eq/=. by left.
  - destruct (elements X) eqn:He; [intros _|done]. by apply elements_empty_inv, leibniz_equiv in He.
Qed.

Lemma c_scan_shrinks b s b' rest :
  c_scan b s = (b', Some rest) → (String.length rest < String.length s)%nat.
Proof.
  revert b. induction s as [|a s IH]; intros b; [done|]. cbn [c_scan String.length].
  destruct (Ascii.eqb a "."); [by intros [= _ <-]; lia|]. intros Hs. apply IH in Hs. lia.
Qed.

(** What the laws ask of one result of the parser. *)
Definition c_good (buf : string)
    (x : option string * (bool * SResp * proto_state * option ErrorCode * string)) : Prop :=
  let '(_, (keep, msg, st, err, rest)) := x in
  (st = PsError ↔ err ≠ None) ∧
  (err = None →
   (String.length rest < String.length buf)%nat ∧ (st ≠ PsDone → rest = EmptyString) ∧
   keep = negb (state_is_done st && negb (sp_code msg =? 100))).

Lemma c_error_good buf : c_good buf c_error.
Proof. done. Qed.

Lemma c_done_good code l k rest buf :
  (String.length rest < String.length buf)%nat → c_good buf (c_done code l k rest).
Proof. intros. repeat split; try done. simpl. by destruct (code =? 100). Qed.

Lemma c_body_good b s buf :
  buf ≠ EmptyString → (String.length s ≤ String.length buf)%nat → c_good buf (c_body b s).
Proof.
  intros Hb Hl. unfold c_body. destruct (c_scan b s) as [b' [rest|]] eqn:Hs.
  - apply c_scan_shrinks in Hs. repeat split; try done. simpl in *. lia.
  - repeat split; try done. destruct buf; simpl in *; [done|lia].
Qed.

Lemma c_parse_good p buf : buf ≠ EmptyString → c_good buf (c_parse p buf).
Proof.
  intros Hb. unfold c_parse. destruct p as [b|]; [by apply c_body_good|].
  destruct buf as [|a s]; [done|].
  repeat (case_match; [by first [apply c_done_good; simpl; lia | apply c_body_good; [|simpl; lia]]|]).
  case_match; [by repeat split; simpl; try lia|].
  case_match; [|apply c_error_good].
  repeat (case_match; try apply c_error_good); apply c_done_good; simpl; lia.
Qed.

#[export] Instance sample_client_laws : ClientProtoLaws.
Proof.
  split; try done.
  - intros q p buf p' keep msg st err rest Hp. destruct buf as [|a s].
    + destruct p as [b|]; cbn in Hp; injection Hp as <- <- <- <- <- <-; naive_solver.
    + pose proof (c_parse_good p (String a s) ltac:(discriminate)) as Hg.
      cbn in Hp. rewrite Hp in Hg. apply Hg.
  - intros q p buf p' keep msg st rest Hb Hp.
    pose proof (c_parse_good p buf Hb) as Hg. cbn in Hp. rewrite Hp in Hg.
    destruct Hg as (_ & Hg). by destruct Hg as (? & ? & ?).
  - intros q p buf p' keep msg st rest Hp. destruct buf as [|a s].
    + destruct p as [b|]; cbn in Hp; by simplify_eq.
    + pose proof (c_parse_good p (String a s) ltac:(discriminate)) as Hg.
      cbn in Hp. rewrite Hp in Hg. destruct Hg as (_ & Hg). by destruct Hg as (? & ? & ?).
  - intros q p p' res err [= <- <- <-]. done.
  - by intros q p p' res [= <- <- _].
Qed.
