(* ===== verification/ClientInv.v ===== *)
(** * The invariant of clients and pools

    Every client that serves a request is known to that request, every queued
    request waits at the location it asks for, a pool's lists hold its clients
    where they belong, and every request that was handed over is answered once.
    The invariant is stated with what is momentarily out of place: the requests
    [HD] that the library holds in its hands, the client [K] that a pool holds
    (with the list it is in), the client [X] whose parser has just given up its
    context request, and the notifications [D] that are still due. *)
From S2P Require Import Prelude Errors Proto ClientProto ClientState ClientOps Form Client Pool UserAgent ClientStep.
Local Open Scope Z_scope.

Definition b2z (b : bool) : Z := if b then 1 else 0.

(** How many elements of a list satisfy [f]. *)
Fixpoint count {A} (f : A → bool) (l : list A) : Z :=
  match l with [] => 0 | x :: l' => b2z (f x) + count f l' end.

Lemma count_app {A} (f : A → bool) l l' : count f (l ++ l') = count f l + count f l'.
Proof. induction l; simpl; lia. Qed.

Lemma count_nonneg {A} (f : A → bool) l : 0 ≤ count f l.
Proof. induction l as [|x l IH]; simpl; [done|]. destruct (f x); simpl; lia. Qed.

Section Inv.
Context `{ClientProto}.
Implicit Types (w : CWorld) (r : RqId) (c : ClientId) (p : PoolId) (n : NetLoc).

Definition is_submit r (o : CObs) : bool :=
  match o with CSubmit r' => bool_decide (r' = r) | _ => false end.
Definition is_answer r (o : CObs) : bool :=
  match o with CFire (CEvResponse r' _ _) => bool_decide (r' = r) | _ => false end.
Definition is_redirection r (o : CObs) : bool :=
  match o with CFire (CEvRedirect r' _ _) => bool_decide (r' = r) | _ => false end.
Definition submitted r (l : list CObs) : Z := count (is_submit r) l.
Definition answered r (l : list CObs) : Z := count (is_answer r) l.
Definition redirected r (l : list CObs) : Z := count (is_redirection r) l.

(** [Request::netloc], as a function of the world. *)
Definition http_proxy w (q : CRequest) : option Uri :=
  x ← rq_proxy q; u ← (cw_uris w !! x);
  if String.eqb (uri_scheme u) "http" then Some u else None.
Definition proxy_netloc (u : Uri) : NetLoc := mkNetLoc (uri_host u) (uri_port u) None None false.
Definition uri_netloc (q : CRequest) (u : Uri) : NetLoc :=
  mkNetLoc (uri_host u) (uri_port u) (rq_ssl_ctx q) (rq_proxy q) (rq_ssl_check_cert q).
Definition netloc_of w (q : CRequest) : option NetLoc :=
  match http_proxy w q with
  | Some u => Some (proxy_netloc u)
  | None => i ← rq_uri q; u ← (cw_uris w !! i); Some (uri_netloc q u)
  end.

Definition is_file (f : FormItem) : bool :=
  match f with FormFile _ _ _ _ _ _ => true | _ => false end.

(** A proxy the library can connect through. *)
Definition known_proxy w (x : UriId) : Prop :=
  ∃ u, cw_uris w !! x = Some u ∧
    (uri_scheme u = "socks5"%string ∨ uri_scheme u = "http"%string).

(** A request the library can carry out without an exception: a URI with a scheme
    and a host, a proxy of a known kind, a form without streamed files. *)
Record good w (q : CRequest) : Prop := {
  g_uri : ∃ i u, rq_uri q = Some i ∧ cw_uris w !! i = Some u ∧
            uri_host u ≠ EmptyString ∧ uri_scheme u ≠ EmptyString;
  g_proxy : ∀ x, rq_proxy q = Some x → known_proxy w x;
  g_form : Forall (λ f, is_file f = false) (rq_form q);
  g_size : Z.of_nat (length (rq_form q)) < 2 ^ 31
}.

(** The part of a location a redirect to the same host and port leaves as it is. *)
Definition shape w (q : CRequest) n : Prop :=
  match http_proxy w q with
  | Some u => n = proxy_netloc u
  | None => nl_ssl_ctx n = None ∧ nl_proxy n = rq_proxy q ∧
            nl_ssl_check_cert n = rq_ssl_check_cert q
  end.
Definition stable w (q : CRequest) : Prop := ∀ n, netloc_of w q = Some n → shape w q n.

Definition busy_rq (q : CRequest) : bool :=
  bool_decide (is_Some (rq_client q)) || bool_decide (is_Some (rq_pool q)).
Definition busy_at w r : bool := from_option busy_rq false (cw_reqs w !! r).

(** ** User agents

    What an agent and the listeners it left on requests rely on: its pool and its
    jar exist, it does not change what a location depends on when a request is
    redirected, and a URI is there to ask cookies for. *)

(** The parts of a world that no operation on clients and pools changes; a thunk, so
    that tactics keep an equation between two of them whole. *)
Definition env_of w : unit → gmap UriId Uri * gmap AgentId UserAgent * gmap JarId CookieJar :=
  λ _, (cw_uris w, cw_agents w, cw_jars w).

Record agent_ok w (ua : UserAgent) : Prop := {
  ak_pool : is_Some (cw_pools w !! ua_pool ua);
  ak_jar : is_Some (cw_jars w !! ua_cookie_jar ua);
  ak_ssl_ctx : ua_ssl_ctx ua = None;
  ak_proxy : ∀ x, ua_proxy ua = Some x → known_proxy w x
}.

(** A listener on a request with the given proxy; the listeners on a request, by the
    fields of the request that matter. *)
Definition listener_ok w (proxy : option UriId) (l : ReqListener) : Prop :=
  match l with
  | LAgent a u _ => ∃ ua, cw_agents w !! a = Some ua ∧ is_Some (cw_uris w !! u) ∧
      (is_Some (ua_proxy ua) → is_Some proxy)
  | LSync _ => False
  end.

Record heeded w (ls : list ReqListener) (proxy uri : option UriId) : Prop := {
  li_each : Forall (listener_ok w proxy) ls;
  li_uri : ls ≠ [] → ∃ i, uri = Some i ∧ is_Some (cw_uris w !! i)
}.
Definition listeners_ok w (q : CRequest) : Prop :=
  heeded w (rq_listeners q) (rq_proxy q) (rq_uri q).

Record env_ok w : Prop := {
  eo_agents : ∀ a ua, cw_agents w !! a = Some ua → agent_ok w ua;
  eo_listeners : ∀ r q, cw_reqs w !! r = Some q → listeners_ok w q
}.

(** ** Redirects

    Every time a request is handed over it is redirected at most as often as its
    limit says. A limit of 65535 is none: the counter wraps before it is passed. *)
Definition limited q : Prop := 0 ≤ rq_redirection_limit q < 2 ^ 16 - 1.
Definition low q : Prop := limited q → rq_redirection_counter q ≤ rq_redirection_limit q.

(** What a request has been through: [A] times it was answered or is to be, and it
    was redirected [R] times. The counter may be too high while the client that
    serves the request gives it up ([excused]) and until it is put down ([held]). *)
Record hops_ok (held excused : Prop) (A R : Z) q : Prop := {
  ho_counter : 0 ≤ rq_redirection_counter q;
  ho_idle : busy_rq q = false → held ∨ rq_redirection_counter q = 0;
  ho_low : held ∨ excused ∨ low q;
  ho_bound : limited q →
    R ≤ rq_redirection_limit q * A + Z.min (rq_redirection_counter q) (rq_redirection_limit q)
}.
Definition excused (X : option ClientId) q : Prop := ∃ c, X = Some c ∧ rq_client q = Some c.
Definition rounds (D : RqId → Z) (HD : gset RqId) w r : Z :=
  answered r (cw_log w) + D r - b2z (bool_decide (r ∈ HD)).
Definition hops w D HD X r : Prop :=
  match cw_reqs w !! r with
  | Some q => hops_ok (r ∈ HD) (excused X q) (rounds D HD w r) (redirected r (cw_log w)) q
  | None => redirected r (cw_log w) = 0
  end.

(** The list a pool's client belongs to. *)
Abbreviation Hand := (option (ClientId * NetLoc)).
Definition home (K : Hand) c (k : Client) : NetLoc * bool :=
  match K with
  | Some (c', n) => if decide (c = c') then (n, true)
                    else (cl_netloc k, bool_decide (is_Some (cl_request k)))
  | None => (cl_netloc k, bool_decide (is_Some (cl_request k)))
  end.
Definition in_list (h : bool) (l : NetLocList) c : Prop :=
  if h then c ∈ nl_busy l else c ∈ nl_free l.
Definition list_at w p n : option NetLocList := q ← (cw_pools w !! p); pl_clients q !! n.

Record client_ok w (HD : gset RqId) (K : Hand) (X : option ClientId) c (k : Client) : Prop := {
  co_request : ∀ r, cl_request k = Some r → (r ∉ HD) ∧ (∃ q, cw_reqs w !! r = Some q ∧
    rq_client q = Some c ∧ (cl_pool k ≠ None → shape w q (cl_netloc k)));
  co_hand : ∀ n, K = Some (c, n) → cl_request k = None ∧ cl_pool k ≠ None;
  co_context : ∀ r, cl_context k = Some r → cl_request k = Some r;
  co_has_context : ∀ r, cl_request k = Some r →
    cl_context k = Some r ∨ (cl_in_redirect k = true ∧ cl_redirect_canceled k = false) ∨ X = Some c;
  co_form : cl_form_field k = -1;
  co_canceled : cl_redirect_canceled k = true → cl_in_redirect k = true;
  co_redirect : cl_in_redirect k = true → cl_redirect_canceled k = true ∨ is_Some (cl_request k);
  co_pool : ∀ p, cl_pool k = Some p → ∃ l, list_at w p (home K c k).1 = Some l ∧
    in_list (home K c k).2 l c
}.

Record req_ok w r (q : CRequest) : Prop := {
  ro_client : ∀ c, rq_client q = Some c → ∃ k, cw_clients w !! c = Some k ∧ cl_request k = Some r;
  ro_queued : ∀ p, rq_client q = None → rq_pool q = Some p →
    ∃ n l, netloc_of w q = Some n ∧ list_at w p n = Some l ∧ r ∈ nl_queue l;
  ro_good : busy_rq q = true → good w q
}.

Record list_ok w (HD : gset RqId) (K : Hand) p (pmax : Z) n (l : NetLocList) : Prop := {
  lo_in : ∀ c h, in_list h l c → ∃ k, cw_clients w !! c = Some k ∧ cl_pool k = Some p ∧
    home K c k = (n, h);
  lo_queue : ∀ r, r ∈ nl_queue l → (r ∉ HD) ∧ (∃ q, cw_reqs w !! r = Some q ∧ rq_client q = None ∧
    rq_pool q = Some p ∧ netloc_of w q = Some n ∧ shape w q n);
  lo_nodup : NoDup (nl_queue l);
  lo_full : nl_queue l ≠ [] → nl_free l = ∅ ∧ pmax ≤ Z.of_nat (size (nl_busy l));
  lo_some : nl_free l = ∅ → nl_busy l ≠ ∅;
  lo_max : Z.of_nat (size (nl_free l)) + Z.of_nat (size (nl_busy l)) ≤ Z.max 1 pmax
}.

Record CInv (D : RqId → Z) (HD : gset RqId) (K : Hand) (X : option ClientId) w : Prop := {
  ci_client : ∀ c k, cw_clients w !! c = Some k → client_ok w HD K X c k;
  ci_req : ∀ r q, cw_reqs w !! r = Some q → r ∉ HD → req_ok w r q;
  ci_list : ∀ p q n l, cw_pools w !! p = Some q → pl_clients q !! n = Some l →
    list_ok w HD K p (pl_max_connections q) n l;
  ci_factory : ∀ p q, cw_pools w !! p = Some q → pl_factory q = false;
  ci_env : env_ok w;
  ci_ledger : ∀ r, submitted r (cw_log w) =
    answered r (cw_log w) + D r + (if bool_decide (r ∈ HD) then 0 else b2z (busy_at w r));
  ci_hops : ∀ r, hops w D HD X r
}.

(** The ledger with one more notification due, or one less. *)
Definition due (r : RqId) (z : Z) (D : RqId → Z) : RqId → Z :=
  λ x, if bool_decide (x = r) then D x + z else D x.

(** A request that stays as it is, in a state where as much is due to it. *)
Lemma hops_same w w' D D' HD HD' X X' r :
  hops w D HD X r → cw_reqs w' !! r = cw_reqs w !! r →
  redirected r (cw_log w') = redirected r (cw_log w) → rounds D' HD' w' r = rounds D HD w r →
  (r ∈ HD → r ∈ HD') → (∀ q, cw_reqs w !! r = Some q → excused X q → r ∈ HD' ∨ excused X' q ∨ low q) →
  hops w' D' HD' X' r.
Proof.
  unfold hops. intros Hh -> ER EA HHD HX. destruct (cw_reqs w !! r) as [q|] eqn:Hq; [|congruence].
  destruct Hh as [H1 H2 H3 H4]. rewrite ER, EA. split; [done|naive_solver| |done].
  destruct H3 as [|[H3|]]; [auto|by apply HX|auto].
Qed.

(** A request that changes. *)
Lemma hops_change w w' D D' HD HD' X X' r q q' :
  hops w D HD X r → cw_reqs w !! r = Some q → cw_reqs w' !! r = Some q' →
  redirected r (cw_log w') = redirected r (cw_log w) → rounds D' HD' w' r = rounds D HD w r →
  rq_redirection_limit q' = rq_redirection_limit q → 0 ≤ rq_redirection_counter q' →
  (limited q → rq_redirection_counter q ≤ rq_redirection_counter q') →
  (busy_rq q' = false → r ∈ HD' ∨ rq_redirection_counter q' = 0) →
  (r ∈ HD' ∨ excused X' q' ∨ low q') → hops w' D' HD' X' r.
Proof.
  unfold hops. intros Hh Hq -> ER EA EL HC Hle Hidle Hlow. rewrite Hq in Hh. destruct Hh as [H1 H2 H3 H4].
  rewrite ER, EA. split; [done|done|done|]. unfold limited in *. rewrite EL. intros Hlim.
  specialize (H4 Hlim). specialize (Hle Hlim). lia.
Qed.

(** ** What calls from inside of a redirect's event leave alone *)

Definition of_client {A} (f : Client → A) (d : A) w c : A :=
  from_option f d (cw_clients w !! c).
Abbreviation inr := (of_client cl_in_redirect false).
Abbreviation canceled := (of_client cl_redirect_canceled false).

Record ckept w w' : Prop := {
  ck_dom : ∀ c, is_Some (cw_clients w !! c) → is_Some (cw_clients w' !! c);
  ck_reqs : ∀ r q, cw_reqs w !! r = Some q →
    ∃ q', cw_reqs w' !! r = Some q' ∧ (rq_ssl_ctx q = None → rq_ssl_ctx q' = None);
  ck_uris : ∀ i, is_Some (cw_uris w !! i) → is_Some (cw_uris w' !! i);
  ck_pools : ∀ p, is_Some (cw_pools w !! p) → is_Some (cw_pools w' !! p);
  ck_inr : ∀ c, inr w' c = inr w c;
  ck_canceled : ∀ c, canceled w c = true → canceled w' c = true;
  ck_serving : ∀ c, inr w c = true → canceled w' c = false →
    of_client cl_request None w' c = of_client cl_request None w c ∧
    of_client cl_response None w' c = of_client cl_response None w c ∧
    of_client cl_context None w' c = of_client cl_context None w c
}.

Lemma ckept_refl w : ckept w w.
Proof. split; try done. intros r q Hq. by exists q. Qed.

Lemma ckept_trans w1 w2 w3 : ckept w1 w2 → ckept w2 w3 → ckept w1 w3.
Proof.
  intros [d1 q1 u1 p1 i1 c1 s1] [d2 q2 u2 p2 i2 c2 s2]. split.
  1,3,4,6: by eauto.
  - intros r q Hq. destruct (q1 r q Hq) as (q' & Hq' & ?).
    destruct (q2 r q' Hq') as (q'' & ? & ?). exists q''. auto.
  - intros c. by rewrite i2, i1.
  - intros c Hi Hc. destruct (s2 c) as (-> & -> & ->); [by rewrite i1|done|].
    apply s1; [done|]. destruct (canceled w2 c) eqn:He; [|done].
    by rewrite (c2 c He) in Hc.
Qed.

(** ** What the environment relies on stays true *)

Lemma env_parts w w' :
  env_of w' = env_of w →
  cw_uris w' = cw_uris w ∧ cw_agents w' = cw_agents w ∧ cw_jars w' = cw_jars w.
Proof. intros E. apply (f_equal (λ f, f tt)) in E. by injection E. Qed.

Lemma env_uris w w' : env_of w' = env_of w → cw_uris w' = cw_uris w.
Proof. by intros (? & _)%env_parts. Qed.

(** URIs, agents and jars stay, jars up to the cookies they hold; what is new is
    as it should be. *)
Record env_grown w w' : Prop := {
  eg_uris : ∀ i u, cw_uris w !! i = Some u → cw_uris w' !! i = Some u;
  eg_agents : ∀ a ua, cw_agents w !! a = Some ua → cw_agents w' !! a = Some ua;
  eg_new_agent : ∀ a ua, cw_agents w' !! a = Some ua → cw_agents w !! a = Some ua ∨ agent_ok w' ua;
  eg_jars : ∀ j, is_Some (cw_jars w !! j) → is_Some (cw_jars w' !! j);
  eg_pools : ∀ p, is_Some (cw_pools w !! p) → is_Some (cw_pools w' !! p)
}.

Lemma env_grown_same w w' :
  env_of w' = env_of w → (∀ p, is_Some (cw_pools w !! p) → is_Some (cw_pools w' !! p)) → env_grown w w'.
Proof. intros (Eu & Ea & Ej)%env_parts Hp. split; rewrite ?Eu, ?Ea, ?Ej; auto. Qed.

Lemma known_proxy_grown w w' x : env_grown w w' → known_proxy w x → known_proxy w' x.
Proof. intros Hg (u & Hu & Hs). exists u. split; [by apply Hg|done]. Qed.

Lemma good_grown w w' q : env_grown w w' → good w q → good w' q.
Proof.
  intros Hg [(i & u & Hi & Hu & Hh) G2 G3 G4]. split; [|intros x Hx; eapply known_proxy_grown; eauto|done..].
  exists i, u. split_and!; [done|by apply Hg|apply Hh..].
Qed.

Lemma good_at_uris w w' q : cw_uris w' = cw_uris w → good w q → good w' q.
Proof.
  intros E [G1 G2 G3 G4]. split; [by rewrite E|unfold known_proxy; by rewrite E|done..].
Qed.

Lemma good_uris w w' q : env_of w' = env_of w → good w q → good w' q.
Proof. intros E%env_uris. by apply good_at_uris. Qed.

Lemma listeners_ok_grown w w' q : env_grown w w' → listeners_ok w q → listeners_ok w' q.
Proof.
  intros Hg [L1 L2]. split.
  - eapply Forall_impl; [exact L1|]. intros [a u t|]; cbn; [|done]. intros (ua & Ha & [v Hv] & Hp).
    exists ua. split_and!; [by apply Hg| |done]. exists v. by apply Hg.
  - intros Hl. destruct (L2 Hl) as (i & Hi & [u Hu]). exists i. split; [done|]. exists u. by apply Hg.
Qed.

Lemma listeners_ok_env w w' q : env_of w' = env_of w → listeners_ok w q → listeners_ok w' q.
Proof.
  intros (Eu & Ea & _)%env_parts [L1 L2]. split; [|by rewrite Eu].
  eapply Forall_impl; [exact L1|]. intros []; cbn; by rewrite ?Eu, ?Ea.
Qed.

(** The environment of a world is sound when that of an earlier one is, and every
    request is as one of the earlier world as far as its listeners go. *)
Lemma env_ok_frame w w' :
  env_ok w → env_grown w w' →
  (∀ r q', cw_reqs w' !! r = Some q' → listeners_ok w' q' ∨
    ∃ r0 q, cw_reqs w !! r0 = Some q ∧ (listeners_ok w q → listeners_ok w q')) →
  env_ok w'.
Proof.
  intros [E1 E2] Hg Hr. split.
  - intros a ua Ha. destruct (eg_new_agent _ _ Hg a ua Ha) as [Ha0|]; [|done].
    destruct (E1 a ua Ha0) as [A1 A2 A3 A4]. split; [by apply Hg|by apply Hg|done|].
    intros x Hx. eapply known_proxy_grown; eauto.
  - intros r q' Hq'. destruct (Hr r q' Hq') as [|(r0 & q & Hq & Hl)]; [done|].
    eapply listeners_ok_grown; [done|]. by eapply Hl, E2.
Qed.

(** The requests stay as they are. *)
Lemma env_ok_grown w w' : env_ok w → env_grown w w' → cw_reqs w' = cw_reqs w → env_ok w'.
Proof. intros He Hg Er. eapply env_ok_frame; [done..|]. rewrite Er. intros r q Hq. right. by exists r, q. Qed.

Lemma env_ok_same w w' :
  env_ok w → env_of w' = env_of w → (∀ p, is_Some (cw_pools w !! p) → is_Some (cw_pools w' !! p)) →
  cw_reqs w' = cw_reqs w → env_ok w'.
Proof. intros He E Hp Er. eapply env_ok_grown; [done|by apply env_grown_same|done]. Qed.

(** One request changes. *)
Lemma env_ok_request w w' r q q' :
  env_ok w → env_of w' = env_of w → (∀ p, is_Some (cw_pools w !! p) → is_Some (cw_pools w' !! p)) →
  cw_reqs w !! r = Some q → cw_reqs w' = <[r := q']> (cw_reqs w) →
  (listeners_ok w q → listeners_ok w q') → env_ok w'.
Proof.
  intros He E Hp Hq Er Hl. eapply env_ok_frame; [done|by apply env_grown_same|]. rewrite Er.
  intros r0 q0 [[<- <-]|[_ Hq0]]%lookup_insert_Some; right; eauto.
Qed.

End Inv.
