(* ===== verification/ClientSpecs.v ===== *)
(** * What the operations of a client do to it and to its request

    A client works on itself and on one request at a time. [At] says that a world
    is an earlier one in which that client and that request have new values, and
    in which nothing else that matters has changed; the rules below step through an
    operation under it. *)
From S2P Require Import Prelude Errors Proto ClientProto ClientState ClientOps Form Client Pool UserAgent ClientStep ClientInv.
Local Open Scope Z_scope.

Section Requests.
Context `{ClientProto} {T : fault → Prop}.
Local Abbreviation wp := (wpf T).
Implicit Types (w : CWorld) (E : exn → CWorld → Prop).

Lemma wp_get_client w c k Q E :
  cw_clients w !! c = Some k → Q k w → wp (get_client c) Q E w.
Proof. intros Hk HQ. apply wp_bind, wp_gets. by eapply wp_deref. Qed.

Lemma wp_get_rq w r q Q E : cw_reqs w !! r = Some q → Q q w → wp (get_rq r) Q E w.
Proof. intros Hq HQ. apply wp_bind, wp_gets. by eapply wp_deref. Qed.

Lemma wp_get_uri w i u Q E : cw_uris w !! i = Some u → Q u w → wp (get_uri i) Q E w.
Proof. intros Hu HQ. apply wp_bind, wp_gets. by eapply wp_deref. Qed.

Lemma wp_request_netloc w r q n Q E :
  cw_reqs w !! r = Some q → netloc_of w q = Some n →
  (∀ x, rq_proxy q = Some x → is_Some (cw_uris w !! x)) →
  Q n w → wp (request_netloc r) Q E w.
Proof.
  intros Hq Hn Hp HQ. apply wp_bind. eapply wp_get_rq; [done|]. revert Hn. unfold netloc_of, http_proxy.
  assert ((i ← rq_uri q; u ← (cw_uris w !! i); Some (uri_netloc q u)) = Some n →
    wp (i ← deref (rq_uri q); u ← get_uri i; mret (uri_netloc q u)) Q E w) as Hown.
  { intros (i & Hi & (u & Hu & [= <-])%bind_Some)%bind_Some.
    apply wp_bind. eapply wp_deref; [done|]. apply wp_bind. eapply wp_get_uri; [done|]. by apply wp_ret. }
  unfold uri_netloc in *. intros Hn. apply wp_bind. revert Hn.
  destruct (rq_proxy q) as [x|] eqn:Hx; intros Hn; [|by apply wp_ret, Hown].
  destruct (Hp x eq_refl) as [v Hv]. apply wp_bind. eapply wp_get_uri; [done|]. apply wp_ret. revert Hn.
  change (Some x ≫= ?f) with (f x). cbv beta. rewrite Hv.
  change (Some v ≫= ?f) with (f v). cbv beta.
  destruct (String.eqb (uri_scheme v) "http"); [|by apply Hown].
  by intros [= <-].
Qed.

Lemma good_proxy w q x : good w q → rq_proxy q = Some x → is_Some (cw_uris w !! x).
Proof. intros Hg Hx. destruct (g_proxy _ _ Hg x Hx) as (u & Hu & _). by exists u. Qed.

Lemma wp_request_check w r q Q E :
  cw_reqs w !! r = Some q → good w q → Q tt w → wp (request_check r) Q E w.
Proof.
  intros Hq [(i & u & Hi & Hu & Hhost & Hscheme) _ _ _] HQ. apply wp_bind. eapply wp_get_rq; [done|].
  rewrite Hi. apply wp_bind. eapply wp_get_uri; [done|].
  apply String.eqb_neq in Hhost. rewrite Hhost. by apply wp_ret.
Qed.
End Requests.

Section At.
Context `{ClientProto}.
Implicit Types (w : CWorld) (r : RqId) (c : ClientId) (k : Client) (q : CRequest).

(** A log that was extended by nothing that the ledger counts. *)
Definition quiet_log (l l' : list CObs) : Prop :=
  ∀ r, submitted r l' = submitted r l ∧ answered r l' = answered r l ∧ redirected r l' = redirected r l.

Record At (w0 : CWorld) c r k q w : Prop := {
  at_clients : cw_clients w = <[c := k]> (cw_clients w0);
  at_reqs : cw_reqs w = <[r := q]> (cw_reqs w0);
  at_pools : cw_pools w = cw_pools w0;
  at_env : env_of w = env_of w0;
  at_log : quiet_log (cw_log w0) (cw_log w)
}.

Lemma At_start w c r k q :
  cw_clients w !! c = Some k → cw_reqs w !! r = Some q → At w c r k q w.
Proof. intros Hk Hq. split; try done; by rewrite insert_id. Qed.

Lemma at_uris w0 c r k q w : At w0 c r k q w → cw_uris w = cw_uris w0.
Proof. intros HA. apply env_uris, HA. Qed.

Definition quiet_obs (o : CObs) : bool :=
  match o with CSubmit _ | CFire (CEvResponse _ _ _) | CFire (CEvRedirect _ _ _) => false | _ => true end.

Lemma quiet_cons l l' o : quiet_log l l' → quiet_obs o = true → quiet_log l (o :: l').
Proof.
  intros Hl Ho r. destruct (Hl r) as (H1 & H2 & H3). unfold submitted, answered, redirected in *. cbn [count].
  rewrite H1, H2, H3. destruct o; try done. by match goal with ev : CEvent |- _ => destruct ev end.
Qed.

Section Rules.
Context {T : fault → Prop} (w0 : CWorld) (c : ClientId) (r : RqId).
Local Abbreviation wp := (wpf T).
Implicit Types (E : exn → CWorld → Prop).
Local Abbreviation at_ := (At w0 c r).

Lemma at_get_client k q Q E w : at_ k q w → Q k w → wp (get_client c) Q E w.
Proof.
  intros HA HQ. apply wp_bind, wp_gets. eapply wp_deref; [|done].
  by rewrite (at_clients _ _ _ _ _ _ HA), lookup_insert_eq.
Qed.

Lemma at_get_rq k q Q E w : at_ k q w → Q q w → wp (get_rq r) Q E w.
Proof.
  intros HA HQ. apply wp_bind, wp_gets. eapply wp_deref; [|done].
  by rewrite (at_reqs _ _ _ _ _ _ HA), lookup_insert_eq.
Qed.

Lemma at_get_uri k q i u Q E w :
  at_ k q w → cw_uris w0 !! i = Some u → Q u w → wp (get_uri i) Q E w.
Proof.
  intros HA Hu HQ. apply wp_bind, wp_gets. eapply wp_deref; [|done].
  by rewrite (at_uris _ _ _ _ _ _ HA).
Qed.

Lemma at_mod_client k q f Q E w :
  at_ k q w → (∀ w', at_ (f k) q w' → Q tt w') → wp (mod_client c f) Q E w.
Proof.
  intros [H1 H2 H3 H4 H5] HQ. apply wp_modify, HQ. split; try done; cbn.
  by rewrite H1, alter_insert_eq.
Qed.

Lemma at_mod_rq k q f Q E w :
  at_ k q w → (∀ w', at_ k (f q) w' → Q tt w') → wp (mod_rq r f) Q E w.
Proof.
  intros [H1 H2 H3 H4 H5] HQ. apply wp_modify, HQ. split; try done; cbn.
  by rewrite H2, alter_insert_eq.
Qed.

Lemma at_clog k q o Q E w :
  at_ k q w → quiet_obs o = true → (∀ w', at_ k q w' → Q tt w') → wp (clog o) Q E w.
Proof.
  intros [H1 H2 H3 H4 H5] Ho HQ. apply wp_modify, HQ. split; try done; cbn.
  by apply quiet_cons.
Qed.

Lemma at_gets {A} k q (f : CWorld → A) Q E w :
  at_ k q w → (∀ x, Q x w) → wp (gets f) Q E w.
Proof. intros HA HQ. by apply wp_gets. Qed.

(** A change of the fields that the invariant does not speak of. *)
Lemma at_modify k q (f : CWorld → CWorld) Q E w :
  at_ k q w → cw_clients (f w) = cw_clients w → cw_reqs (f w) = cw_reqs w →
  cw_pools (f w) = cw_pools w → env_of (f w) = env_of w → cw_log (f w) = cw_log w →
  (∀ w', at_ k q w' → Q tt w') → wp (modify f) Q E w.
Proof.
  intros [H1 H2 H3 H4 H5] E1 E2 E3 E4 E5 HQ. apply wp_modify, HQ.
  split; by rewrite ?E1, ?E2, ?E3, ?E4, ?E5.
Qed.

Lemma at_write k q x Q E w :
  at_ k q w →
  (∀ w', at_ (k <| cl_pending ::= λ l, l ++ [PWrite] |>) q w' → Q tt w') →
  wp (tcp_write c x) Q E w.
Proof.
  intros HA HQ. apply wp_bind. eapply at_clog; [done|done|]. intros w' HA'.
  by eapply at_mod_client.
Qed.
End Rules.
End At.

(** One step of an operation under [At]. *)
Ltac at_next HA :=
  let w' := fresh "w" in let HA' := fresh "HA'" in
  intros w' HA'; clear HA; rename HA' into HA.
Ltac at_step :=
  match goal with
  | |- wpf _ (mbind _ _) _ _ _ => apply wp_bind
  | |- wpf _ (mret _) _ _ _ => apply wp_ret
  | |- wpf _ (gets _) _ _ _ => apply wp_gets
  | HA : At _ _ _ _ _ ?w |- wpf _ (get_client _) _ _ ?w => eapply at_get_client; [exact HA|]
  | HA : At _ _ _ _ _ ?w |- wpf _ (get_rq _) _ _ ?w => eapply at_get_rq; [exact HA|]
  | HA : At _ _ _ _ _ ?w |- wpf _ (get_uri _) _ _ ?w => eapply at_get_uri; [exact HA|eassumption|]
  | HA : At _ _ _ _ _ ?w |- wpf _ (mod_client _ _) _ _ ?w =>
      eapply at_mod_client; [exact HA|at_next HA]
  | HA : At _ _ _ _ _ ?w |- wpf _ (mod_rq _ _) _ _ ?w =>
      eapply at_mod_rq; [exact HA|at_next HA]
  | HA : At _ _ _ _ _ ?w |- wpf _ (clog _) _ _ ?w =>
      eapply at_clog; [exact HA|reflexivity|at_next HA]
  | HA : At _ _ _ _ _ ?w |- wpf _ (tcp_write _ _) _ _ ?w =>
      eapply at_write; [exact HA|at_next HA]
  | HA : At _ _ _ _ _ ?w |- wpf _ (modify _) _ _ ?w =>
      eapply at_modify; [exact HA|reflexivity|reflexivity|reflexivity|reflexivity|reflexivity
                        |at_next HA]
  end; cbv beta.

Ltac at_steps := repeat at_step.
Ltac at_deref H := eapply wp_deref; [cbn; exact H|]; cbv beta.

(** ** When OpenSSL does not find its verify paths

    Making the context that verifies certificates then throws, in the middle of
    [Client::request]; the library lets the exception pass. Nothing else does throw,
    and nothing goes wrong on its way, unless the exception comes out of a call that
    a listener of a redirect makes: the redirect catches it, and cancels its client
    while the call was left half done. [noisy] says that there are such calls. *)
Class Noisy := noisy : Prop.

Section Paths.
Context `{ClientProto} `{!ClientEnv} {Nz : Noisy}.

Definition verify_error : exn := HttpError "can not set ssl certificate default verify paths".
Definition paths_fail : Prop := ∃ l, default_verify_paths_ok l = false.

(** What may then be met: a fault, an exception, an exception of an event. *)
Definition tolerated (f : fault) : Prop := paths_fail ∧ noisy.
Definition escapes (e : exn) (w : CWorld) : Prop := paths_fail ∧ (e = verify_error ∨ noisy).
Definition is_redirect_event (ev : CEvent) : bool := match ev with CEvRedirect _ _ _ => true | _ => false end.
Definition event_escapes (ev : CEvent) (e : exn) (w : CWorld) : Prop :=
  escapes e w ∧ (is_redirect_event ev = true → noisy).

(** What is done before such an exception is passed on does not matter. *)
Lemma wp_pass_on {A B} (m : M CWorld A) e (Q : B → CWorld → Prop) w :
  paths_fail → noisy → wpf tolerated (m ;; throw e) Q escapes w.
Proof. intros Hp Hn. apply wp_bind. unfold wpf. destruct (m w); [split; [done|by right]..|by split]. Qed.
End Paths.

Section Clients.
Context `{ClientProto} `{!ClientProtoLaws} `{!ClientEnv} `{!CCallbacks} {Nz : Noisy}.
Local Abbreviation wp := (wpf tolerated).
Context (w0 : CWorld) (c : ClientId) (r : RqId).
Context (cancel_ : ClientId → option ErrorCode → M CWorld unit).
Implicit Types (E : exn → CWorld → Prop) (w : CWorld) (k : Client) (q : CRequest).
Local Abbreviation at_ := (At w0 c r).

(** Changes of the stream's state and of the response's parser only; changes of a
    request that leave what it asks for and who has it. *)
Record stream_only k k' : Prop := {
  so_pool : cl_pool k' = cl_pool k;
  so_netloc : cl_netloc k' = cl_netloc k;
  so_request : cl_request k' = cl_request k;
  so_response : cl_response k' = cl_response k;
  so_context : cl_context k' = cl_context k;
  so_in_redirect : cl_in_redirect k' = cl_in_redirect k;
  so_canceled : cl_redirect_canceled k' = cl_redirect_canceled k;
  so_form : cl_form_field k' = cl_form_field k
}.

Record same_request q q' : Prop := {
  sm_uri : rq_uri q' = rq_uri q;
  sm_proxy : rq_proxy q' = rq_proxy q;
  sm_ssl_ctx : rq_ssl_ctx q' = rq_ssl_ctx q;
  sm_check : rq_ssl_check_cert q' = rq_ssl_check_cert q;
  sm_form : rq_form q' = rq_form q;
  sm_listeners : rq_listeners q' = rq_listeners q;
  sm_client : rq_client q' = rq_client q;
  sm_pool : rq_pool q' = rq_pool q;
  sm_limit : rq_redirection_limit q' = rq_redirection_limit q;
  sm_counter : rq_redirection_counter q' = rq_redirection_counter q
}.

(** Resetting the stream of a client without a request reports to nobody. *)
Lemma at_tcp_reset k q Q E w :
  at_ k q w → cl_request k = None →
  (∀ w', at_ (k <| cl_connected := false |> <| cl_connecting := false |> <| cl_pending := [] |>) q w' →
    Q tt w') →
  wp (tcp_reset cancel_ c) Q E w.
Proof.
  intros HA Hr HQ. unfold tcp_reset. do 6 at_step.
  revert HA HQ. generalize (cl_pending k) as l.
  set (k1 := k <| cl_connected := false |> <| cl_connecting := false |> <| cl_pending := [] |>).
  assert (cl_request k1 = None) as Hk1 by done. clearbody k1.
  intros l HA HQ. induction l as [|x l IH]; [by apply wp_ret, HQ|].
  cbn [for_each]. apply wp_bind.
  destruct x; (eapply wp_bind, at_get_client; [exact HA|]); rewrite Hk1; apply wp_ret, IH.
Qed.

Lemma at_drop_connection k q Q E w :
  at_ k q w →
  (∀ w' k', at_ k' q w' → stream_only k k' → cl_connected k' = false → Q tt w') →
  wp (drop_connection cancel_ c) Q E w.
Proof.
  intros HA HQ. unfold drop_connection. do 5 at_step.
  eapply at_tcp_reset; [exact HA|done|]. intros wb HA2. at_step.
  by eapply HQ.
Qed.

(** A form without streamed files is written to its end. *)
Lemma at_send_form_loop m k q Q E w :
  at_ k q w → Forall (λ f, is_file f = false) (rq_form q) →
  Z.of_nat (length (rq_form q)) < 2 ^ 31 →
  0 ≤ cl_form_field k ≤ Z.of_nat (length (rq_form q)) →
  (Z.to_nat (Z.of_nat (length (rq_form q)) - cl_form_field k) ≤ m)%nat →
  (∀ w' k', at_ k' q w' →
    stream_only (k <| cl_form_field := Z.of_nat (length (rq_form q)) |>) k' → Q tt w') →
  wp (send_form_loop m c r) Q E w.
Proof.
  intros HA Hfile Hsize. revert k w HA. induction m as [|m IH]; intros k w HA Hff Hm HQ; cbn [send_form_loop];
    do 4 at_step; unfold i32; rewrite (Z.mod_small (_ + _)), Z.add_simpl_r by lia.
  - rewrite (proj2 (Z.ltb_ge _ _)) by lia. at_step. apply (HQ _ k HA).
    replace (Z.of_nat (length (rq_form q))) with (cl_form_field k) by lia. by destruct k.
  - destruct (Z.ltb_spec (cl_form_field k) (Z.of_nat (length (rq_form q)))) as [Hlt|Hge].
    2: { at_step. apply (HQ _ k HA).
         replace (Z.of_nat (length (rq_form q))) with (cl_form_field k) by lia. by destruct k. }
    destruct (lookup_lt_is_Some_2 (rq_form q) (Z.to_nat (cl_form_field k))) as [item Hitem]; [lia|].
    assert (∀ w' k', at_ k' q w' → stream_only k k' →
      wp (mod_client c (λ k, k <| cl_form_field ::= Z.succ |>) ;; send_form_loop m c r) Q E w') as Hnext.
    { intros wa k1 HA1 Hk1. do 2 at_step. destruct Hk1. eapply IH; [exact HA1|cbn; lia|cbn; lia|].
      intros wb k2 HA2 []. eapply HQ; [exact HA2|]. split; cbn in *; congruence. }
    apply wp_bind. unfold form_item_start, form_at. do 3 at_step.
    rewrite (proj2 (Z.leb_le _ _)), Hitem by lia. at_step. at_step. at_step.
    eapply Forall_lookup in Hfile; [|exact Hitem].
    destruct item as [name content|name content mime filename|]; [| |done]; unfold produce.
    + do 3 at_step. eapply Hnext; [exact HA|]. by destruct k.
    + do 5 at_step. eapply Hnext; [exact HA|]. by destruct k.
Qed.

Lemma at_send_form k q Q E w :
  at_ k q w → cl_request k = Some r → Forall (λ f, is_file f = false) (rq_form q) →
  Z.of_nat (length (rq_form q)) < 2 ^ 31 → cl_form_field k = 0 →
  (∀ w' k' q', at_ k' q' w' → stream_only (k <| cl_form_field := -1 |>) k' → same_request q q' →
    Q tt w') →
  wp (send_form c) Q E w.
Proof.
  intros HA Hr Hfile Hsize Hff HQ. unfold send_form. do 2 at_step. rewrite Hr.
  do 2 (apply wp_bind; cbn). do 3 at_step.
  eapply at_send_form_loop; [exact HA|done|done|lia|rewrite Hff; lia|].
  intros wa k1 HA1 [F1 F2 F3 F4 F5 F6 F7 F8]. cbn in *. do 4 at_step.
  unfold i32. rewrite (Z.mod_small (_ + _)), Z.add_simpl_r by lia.
  rewrite F8, Z.eqb_refl. do 6 at_step. unfold read_start. at_step.
  eapply HQ; [exact HA1| |by destruct q]. by split; cbn in *.
Qed.

Lemma at_send_request k q Q E w :
  at_ k q w → cl_request k = Some r → good w0 q → cl_form_field k = -1 →
  (∀ w' k' q', at_ k' q' w' → stream_only (k <| cl_context := Some r |>) k' → same_request q q' →
    Q tt w') →
  wp (send_request c r) Q E w.
Proof.
  intros HA Hr [(i & u & Hi & Hu & Hhost & Hscheme) Hproxy Hfile Hsize] Hff HQ. unfold send_request.
  at_steps. at_deref Hi. at_steps. case_match.
  - at_steps. eapply at_send_form; [exact HA|done|done|done|done|].
    intros wb k2 q2 HA2 [] []. eapply HQ; [exact HA2| |by split]. split; cbn in *; congruence.
  - at_step. case_match.
    + at_step. unfold read_start. at_step. eapply HQ; [exact HA|by split|by split].
    + at_step. unfold read_start. at_step. eapply HQ; [exact HA|by split|by split].
Qed.

Lemma at_default_ssl b k q Q w :
  at_ k q w → (∀ x w', at_ k q w' → Q x w') → wp (get_default_ssl_context b) Q escapes w.
Proof.
  intros HA HQ. unfold get_default_ssl_context, verify_ssl_context, default_ssl_context, alloc_ctx.
  destruct b; at_steps; (case_match; [at_step; by apply HQ|]); at_steps.
  - destruct (default_verify_paths_ok _) eqn:Hok; [at_steps; by apply HQ|]. apply wp_throw.
    split; [by eexists|by left].
  - by apply HQ.
Qed.

Lemma at_setup_ssl k q u Q w :
  at_ k q w → (∀ w', at_ k q w' → Q tt w') → wp (setup_ssl c r u) Q escapes w.
Proof.
  intros HA HQ. unfold setup_ssl. at_steps.
  destruct (rq_ssl_ctx q) as [x|]; [at_steps; by apply HQ|].
  eapply at_default_ssl; [exact HA|]. intros x wa HAa. at_step. by apply HQ.
Qed.

Lemma at_setup_proxy k q Q E w :
  at_ k q w → good w0 q → (∀ w', at_ k q w' → Q tt w') → wp (setup_proxy c r) Q E w.
Proof.
  intros HA Hg HQ. unfold setup_proxy. at_steps.
  destruct (rq_proxy q) as [x|] eqn:Hx; [|at_step; by apply HQ].
  destruct (g_proxy _ _ Hg x Hx) as (v & Hv & Hs). at_steps.
  destruct Hs as [-> | ->].
  - change (String.eqb "socks5" "socks5") with true. cbv iota. at_step. by apply HQ.
  - change (String.eqb "http" "socks5") with false. change (String.eqb "http" "http") with true.
    cbv iota. at_step. by apply HQ.
Qed.

Lemma at_drop_if (b : bool) k q Q E w :
  at_ k q w → (∀ w' k', at_ k' q w' → stream_only k k' → Q tt w') →
  wp (if b then drop_connection cancel_ c else mret tt) Q E w.
Proof.
  intros HA HQ. destruct b; [|at_step; by eapply HQ].
  eapply at_drop_connection; [exact HA|]. intros wa k' HA' Hk' _. by eapply HQ.
Qed.

Lemma at_if (b : bool) m k q Q E w :
  at_ k q w → (∀ Q', (∀ w', at_ k q w' → Q' tt w') → wp m Q' E w) →
  (∀ w', at_ k q w' → Q tt w') → wp (if b then m else mret tt) Q E w.
Proof. intros HA Hm HQ. destruct b; [by apply Hm|at_step; by apply HQ]. Qed.

Lemma at_start_connection k q n Q w :
  at_ k q w → cl_request k = None → good w0 q →
  (∀ w' k', at_ k' q w' → stream_only (k <| cl_netloc := n |>) k' → Q tt w') →
  wp (start_connection cancel_ c r n) Q escapes w.
Proof.
  intros HA Hr Hg HQ. pose proof Hg as [(i & u & Hi & Hu & Hhost & Hscheme) _ _ _].
  unfold start_connection. at_steps.
  eapply at_drop_if; [exact HA|]. intros wa k1 HA1 Hk1. clear HA. at_steps. at_deref Hi. at_steps.
  eapply at_if; [exact HA1|intros; by eapply at_setup_ssl|]. intros wb HAb. clear HA1. at_step.
  eapply at_setup_proxy; [exact HAb|done|]. intros wc HAc. clear HAb. at_steps.
  eapply at_if; [exact HAc|intros Q' HQ'; at_step; by apply HQ'|]. intros wd HAd. clear HAc. at_steps.
  unfold tcp_connect. at_steps. eapply HQ; [exact HAd|]. destruct Hk1. split; cbn in *; congruence.
Qed.

Lemma at_uris_eq k q w : at_ k q w → cw_uris w = cw_uris w0.
Proof. apply at_uris. Qed.

Lemma at_request_netloc k q n Q E w :
  at_ k q w → netloc_of w0 q = Some n → (∀ x, rq_proxy q = Some x → is_Some (cw_uris w0 !! x)) →
  Q n w → wp (request_netloc r) Q E w.
Proof.
  intros HA Hn Hp HQ. eapply wp_request_netloc; [|unfold netloc_of, http_proxy| |done].
  - by rewrite (at_reqs _ _ _ _ _ _ HA), lookup_insert_eq.
  - by rewrite (at_uris_eq _ _ _ HA).
  - by rewrite (at_uris_eq _ _ _ HA).
Qed.

Lemma at_request_check k q Q E w :
  at_ k q w → good w0 q → Q tt w → wp (request_check r) Q E w.
Proof.
  intros HA Hg HQ. eapply wp_request_check; [| |done].
  - by rewrite (at_reqs _ _ _ _ _ _ HA), lookup_insert_eq.
  - eapply good_uris; [apply HA|done].
Qed.

Lemma at_default_scheme k q Q E w :
  at_ k q w → good w0 q → Q tt w → wp (default_scheme r) Q E w.
Proof.
  intros HA [(i & u & Hi & Hu & Hhost & Hscheme) _ _ _] HQ. unfold default_scheme. at_steps.
  at_deref Hi. at_steps. apply String.eqb_neq in Hscheme. rewrite Hscheme. by at_steps.
Qed.

Lemma at_ensure_timer k q Q E w :
  at_ k q w → (∀ w' q', at_ k q' w' → same_request q q' → Q tt w') →
  wp (ensure_timer_active r) Q E w.
Proof.
  intros HA HQ. unfold ensure_timer_active. at_steps. case_match; [at_steps; by eapply HQ|].
  at_step. case_match; at_steps; by eapply HQ.
Qed.

Lemma same_request_trans q1 q2 q3 : same_request q1 q2 → same_request q2 q3 → same_request q1 q3.
Proof. intros [] []. split; congruence. Qed.

Lemma good_same q q' : same_request q q' → good w0 q → good w0 q'.
Proof. intros [S1 S2 S3 S4 S5 S6 S7 S8 _ _] []. by split; rewrite ?S1, ?S2, ?S5. Qed.

(** [Client::request]: the client serves the request and is bound to its location. *)
Lemma at_client_request k q n Q w :
  at_ k q w → cl_request k = None → rq_client q = None → cl_form_field k = -1 →
  good w0 q → netloc_of w0 q = Some n →
  (∀ w' k' q', at_ k' q' w' →
    stream_only (k <| cl_netloc := n |> <| cl_request := Some r |> <| cl_context := Some r |>) k' →
    same_request (q <| rq_client := Some c |>) q' → Q tt w') →
  wp (client_request cancel_ c r) Q escapes w.
Proof.
  intros HA Hr Hc Hff Hg Hn HQ. unfold client_request. at_steps. rewrite Hr.
  apply wp_ret; cbv beta. at_steps. rewrite Hc. apply wp_ret; cbv beta. at_steps.
  eapply at_request_check; [exact HA|done|]. at_steps.
  set (q1 := q <| rq_client := Some c |>) in *. assert (good w0 q1) as Hg1 by (by destruct Hg).
  eapply at_default_scheme; [exact HA|done|]. at_step.
  eapply (at_request_netloc _ q1 n); [exact HA|done| |].
  { intros x Hx. destruct (g_proxy _ _ Hg x Hx) as (v & Hv & _). by exists v. }
  at_steps. clearbody q1.
  match goal with |- wp ?m ?Q' ?E' ?w1 =>
    assert (Hnext : ∀ w2 k2, at_ k2 q1 w2 → stream_only (k <| cl_netloc := n |>) k2 → Q' tt w2) end.
  - intros wb k2 HA2 Hk2. at_step.
    match goal with |- wp ?m ?Q' ?E' ?w1 =>
      assert (Hnext : ∀ w2 q2, at_ k2 q2 w2 → same_request q1 q2 → Q' tt w2) end.
    + intros wc q2 HA3 Hq2. unfold set_weak. at_steps.
      eapply at_send_request; [exact HA3|done|by eapply good_same|cbn; by rewrite (so_form _ _ Hk2)|].
      intros wd k3 q3 HA4 Hk3 Hq3. eapply HQ; [exact HA4| |by eapply same_request_trans].
      destruct Hk2, Hk3. split; cbn in *; congruence.
    + destruct (negb _); [|at_step; by eapply Hnext]. eapply at_ensure_timer; [exact HA2|].
      intros wc q2 HA3 Hq2. by eapply Hnext.
  - destruct (_ || _) eqn:Hcond; [by eapply at_start_connection; [exact HA| | |]|].
    apply orb_false_iff in Hcond as [Hcond _]. apply orb_false_iff in Hcond as [_ Hcond].
    apply negb_false_iff, NetLoc_eqb_spec in Hcond. at_step. eapply Hnext; [exact HA|].
    rewrite <-Hcond. by destruct k.
Qed.

End Clients.
