(* ===== verification/ClientMoves.v ===== *)
(** * Moves of the invariant

    One lemma per change the operations of clients and pools make: a request is
    taken from a client or given to one, a client goes from one list of a pool to
    the other, a request enters or leaves a queue. *)
From S2P Require Import Prelude Errors Proto ClientProto ClientState ClientOps Form Client Pool UserAgent ClientStep ClientInv ClientSpecs.
Local Open Scope Z_scope.

Section Moves.
Context `{ClientProto}.
Implicit Types (w : CWorld) (r : RqId) (c : ClientId) (p : PoolId) (n : NetLoc).
Implicit Types (k : Client) (q : CRequest) (l : NetLocList) (D : RqId → Z).
Implicit Types (HD : gset RqId) (K : option (ClientId * NetLoc)) (X : option ClientId).

Lemma listeners_ok_same w q q' : same_request q q' → listeners_ok w q → listeners_ok w q'.
Proof.
  intros [E1 E2 _ _ _ E3 _ _ _ _]. unfold listeners_ok. by rewrite E1, E2, E3.
Qed.

Lemma shape_at_uris w w' q n : cw_uris w' = cw_uris w → shape w q n → shape w' q n.
Proof. intros E. unfold shape, http_proxy. by rewrite E. Qed.

Lemma shape_uris w w' q n : env_of w' = env_of w → shape w q n → shape w' q n.
Proof. intros E%env_uris. by apply shape_at_uris. Qed.

Lemma netloc_at_uris w w' q : cw_uris w' = cw_uris w → netloc_of w' q = netloc_of w q.
Proof. intros E. unfold netloc_of, http_proxy. by rewrite E. Qed.

Lemma netloc_of_uris w w' q : env_of w' = env_of w → netloc_of w' q = netloc_of w q.
Proof. intros E%env_uris. by apply netloc_at_uris. Qed.

Lemma netloc_of_same w q q' : same_request q q' → netloc_of w q' = netloc_of w q.
Proof.
  intros [E1 E2 E3 E4 _ _ _ _ _ _]. unfold netloc_of, http_proxy, uri_netloc. by rewrite E1, E2, E3, E4.
Qed.

Lemma shape_same w q q' n : same_request q q' → shape w q n → shape w q' n.
Proof. intros [E1 E2 E3 E4 _ _ _ _ _ _]. unfold shape, http_proxy. by rewrite E2, E4. Qed.

Lemma home_other c c' n k : c ≠ c' → home (Some (c', n)) c k = home None c k.
Proof. intros Hc. unfold home. by rewrite decide_False. Qed.

Lemma home_hand c n k : home (Some (c, n)) c k = (n, true).
Proof. unfold home. by rewrite decide_True. Qed.

Lemma ledger_due D r z x : due r z D x = D x + (if bool_decide (x = r) then z else 0).
Proof. unfold due. case_bool_decide; lia. Qed.

(** ** What a request has been through *)

Lemma quiet_rounds D HD w w' r :
  quiet_log (cw_log w) (cw_log w') → rounds D HD w' r = rounds D HD w r.
Proof. intros El. unfold rounds. by destruct (El r) as (_ & -> & _). Qed.

Lemma quiet_redirected w w' r :
  quiet_log (cw_log w) (cw_log w') → redirected r (cw_log w') = redirected r (cw_log w).
Proof. intros El. by destruct (El r) as (_ & _ & ->). Qed.

(** A request that is taken up has one answer more due, and is in the library's hands. *)
Lemma taken_rounds D HD w w' r x :
  quiet_log (cw_log w) (cw_log w') → r ∉ HD →
  rounds (due r 1 D) ({[ r ]} ∪ HD) w' x = rounds D HD w x.
Proof.
  intros El Hr. unfold rounds. destruct (El x) as (_ & -> & _). rewrite ledger_due.
  destruct (decide (x = r)) as [->|].
  - rewrite bool_decide_true, (bool_decide_true (r ∈ _)), bool_decide_false by set_solver. cbn. lia.
  - rewrite bool_decide_false by done. rewrite (bool_decide_ext (x ∈ {[r]} ∪ HD) (x ∈ HD)) by set_solver. lia.
Qed.

Lemma given_rounds D HD w w' r x :
  quiet_log (cw_log w) (cw_log w') → r ∈ HD →
  rounds (due r (-1) D) (HD ∖ {[ r ]}) w' x = rounds D HD w x.
Proof.
  intros El Hr. unfold rounds. destruct (El x) as (_ & -> & _). rewrite ledger_due.
  destruct (decide (x = r)) as [->|].
  - rewrite bool_decide_true, bool_decide_false, (bool_decide_true (r ∈ HD)) by set_solver. cbn. lia.
  - rewrite bool_decide_false by done. rewrite (bool_decide_ext (x ∈ HD ∖ {[r]}) (x ∈ HD)) by set_solver. lia.
Qed.

Lemma not_excused q : ¬ excused None q.
Proof. by intros (c & [=] & _). Qed.

Lemma hops_quiet D HD X w w' r :
  hops w D HD X r → cw_reqs w' !! r = cw_reqs w !! r → quiet_log (cw_log w) (cw_log w') → hops w' D HD X r.
Proof.
  intros Hh Er El. eapply hops_same; [done|done|by apply quiet_redirected|by apply quiet_rounds|done|auto].
Qed.

Lemma low_same q q' :
  rq_redirection_limit q' = rq_redirection_limit q → rq_redirection_counter q' = rq_redirection_counter q →
  low q → low q'.
Proof. intros E1 E2. unfold low, limited. by rewrite E1, E2. Qed.

(** A request that nobody gives up keeps to its limit. *)
Lemma hops_low D HD X w r q :
  hops w D HD X r → cw_reqs w !! r = Some q → r ∉ HD → (∀ c, rq_client q = Some c → X ≠ Some c) → low q.
Proof.
  unfold hops. intros Hh Hq Hr HX. rewrite Hq in Hh. destruct (ho_low _ _ _ _ _ Hh) as [|[(c & -> & Hc)|]]; [done| |done].
  by destruct (HX c Hc).
Qed.

Lemma CInv_low D K w r q : CInv D ∅ K None w → cw_reqs w !! r = Some q → low q.
Proof. intros Hi Hq. by eapply hops_low; [apply (ci_hops _ _ _ _ _ Hi r)|done|apply not_elem_of_empty|]. Qed.

(** A counter below its limit can be raised; one more redirect is then accounted for. *)
Lemma hops_raise D HD X w r q :
  hops w D HD X r → cw_reqs w !! r = Some q → low q → limited q →
  u16 (rq_redirection_counter q + 1) = rq_redirection_counter q + 1 ∧
  (rq_redirection_counter q + 1 ≤ rq_redirection_limit q →
   redirected r (cw_log w) + 1 ≤ rq_redirection_limit q * rounds D HD w r +
     Z.min (rq_redirection_counter q + 1) (rq_redirection_limit q)).
Proof.
  unfold hops. intros Hh Hq Hlow Hlim. rewrite Hq in Hh. destruct Hh as [H1 _ _ H4].
  specialize (Hlow Hlim). specialize (H4 Hlim). unfold limited in Hlim. split; [apply wrap_small|]; lia.
Qed.

(** ** What does not change *)

(** A client that stays as it is, in a world where its request and its list do. *)
Lemma client_ok_frame w w' HD HD' K K' X c k :
  client_ok w HD K X c k → cw_uris w' = cw_uris w →
  (∀ r q, cl_request k = Some r → r ∉ HD → cw_reqs w !! r = Some q → rq_client q = Some c →
    (r ∉ HD') ∧ ∃ q', cw_reqs w' !! r = Some q' ∧ same_request q q') →
  home K' c k = home K c k → (∀ n, K' = Some (c, n) → K = Some (c, n)) →
  (∀ p l n h, list_at w p n = Some l → in_list h l c →
     ∃ l', list_at w' p n = Some l' ∧ in_list h l' c) →
  client_ok w' HD' K' X c k.
Proof.
  intros [O1 O2 O3 O4 O5 O6 O8 O7] Hu Hr Hh HK Hl. split; try done.
  - intros r Hrk. destruct (O1 r Hrk) as (HH & q & Hq & Hc & Hs).
    destruct (Hr r q Hrk HH Hq Hc) as (HH' & q' & Hq' & E). split; [done|].
    exists q'. rewrite (sm_client _ _ E). split_and!; [done..|].
    intros Hp. eapply shape_at_uris; [done|]. eapply shape_same; [exact E|]. by apply Hs.
  - intros n Hn. apply (O2 n), HK, Hn.
  - intros p Hp. destruct (O7 p Hp) as (l & Hlist & Hin). rewrite Hh.
    destruct (Hl _ _ _ _ Hlist Hin) as (l' & ? & ?). by exists l'.
Qed.

(** A request that stays as it is, with its client and its queue. *)
Lemma req_ok_frame w w' r q q' :
  req_ok w r q → same_request q q' → cw_uris w' = cw_uris w →
  (∀ c k, cw_clients w !! c = Some k → cl_request k = Some r →
    ∃ k', cw_clients w' !! c = Some k' ∧ cl_request k' = Some r) →
  (∀ p n l, list_at w p n = Some l → r ∈ nl_queue l →
    ∃ l', list_at w' p n = Some l' ∧ r ∈ nl_queue l') →
  req_ok w' r q'.
Proof.
  intros [R1 R2 R3] E Hu Hc Hl. pose proof E as []. split.
  - intros c Hcl. rewrite sm_client in Hcl. destruct (R1 c Hcl) as (k & Hk & Hr). by eapply Hc.
  - intros p Hn Hp. rewrite sm_client in Hn. rewrite sm_pool in Hp.
    destruct (R2 p Hn Hp) as (n & l & Hloc & Hlist & Hin).
    destruct (Hl _ _ _ Hlist Hin) as (l' & ? & ?). exists n, l'. split_and!; [|done..].
    by rewrite (netloc_of_same _ _ _ E), (netloc_at_uris _ _ _ Hu).
  - unfold busy_rq. rewrite sm_client, sm_pool. intros Hb. eapply good_at_uris; [done|].
    eapply good_same; [exact E|]. by apply R3.
Qed.

(** A list that stays as it is, with its clients and its queue. *)
Lemma list_ok_frame w w' HD HD' K K' p pmax n l :
  list_ok w HD K p pmax n l → cw_uris w' = cw_uris w →
  (∀ c h k, in_list h l c → cw_clients w !! c = Some k → cl_pool k = Some p →
    home K c k = (n, h) →
    ∃ k', cw_clients w' !! c = Some k' ∧ cl_pool k' = Some p ∧ home K' c k' = (n, h)) →
  (∀ r q, r ∈ nl_queue l → r ∉ HD → cw_reqs w !! r = Some q → rq_client q = None →
    (r ∉ HD') ∧ ∃ q', cw_reqs w' !! r = Some q' ∧ same_request q q') →
  list_ok w' HD' K' p pmax n l.
Proof.
  intros [L1 L2 L3 L4 L5 L6] Hu Hc Hr. split; try done.
  - intros c h Hin. destruct (L1 c h Hin) as (k & Hk & Hp & Hh). by eapply Hc.
  - intros r Hin. destruct (L2 r Hin) as (HH & q & Hq & Hcl & Hp & Hn & Hs).
    destruct (Hr r q Hin HH Hq Hcl) as (HH' & q' & Hq' & E). split; [done|]. exists q'.
    pose proof E as []. rewrite sm_client, sm_pool. split_and!; try done.
    + by rewrite (netloc_of_same _ _ _ E), (netloc_at_uris _ _ _ Hu).
    + eapply shape_at_uris; [done|]. by eapply shape_same.
Qed.

Lemma same_request_refl q : same_request q q.
Proof. by split. Qed.

Lemma busy_at_lookup w r q : cw_reqs w !! r = Some q → busy_at w r = busy_rq q.
Proof. unfold busy_at. by intros ->. Qed.

Lemma busy_at_eq w w' r : cw_reqs w' !! r = cw_reqs w !! r → busy_at w' r = busy_at w r.
Proof. unfold busy_at. by intros ->. Qed.

Lemma busy_same q q' : same_request q q' → busy_rq q' = busy_rq q.
Proof. intros []. unfold busy_rq. by rewrite sm_client, sm_pool. Qed.

Lemma list_at_lookup w p (pq : Pool) n :
  cw_pools w !! p = Some pq → list_at w p n = pl_clients pq !! n.
Proof. unfold list_at. by intros ->. Qed.

Lemma list_at_pools w w' p n : cw_pools w' = cw_pools w → list_at w' p n = list_at w p n.
Proof. unfold list_at. by intros ->. Qed.

(** The list a pool's client is in. *)
Lemma client_listed D HD K X w c k p :
  CInv D HD K X w → cw_clients w !! c = Some k → cl_pool k = Some p →
  ∃ (pq : Pool) l, cw_pools w !! p = Some pq ∧ pl_clients pq !! (home K c k).1 = Some l ∧
    in_list (home K c k).2 l c ∧ list_ok w HD K p (pl_max_connections pq) (home K c k).1 l.
Proof.
  intros Hi Hk Hp. destruct (co_pool _ _ _ _ _ _ (ci_client _ _ _ _ _ Hi c k Hk) p Hp) as (l & Hl & Hin).
  unfold list_at in Hl. destruct (cw_pools w !! p) as [pq|] eqn:Hq; [|done].
  exists pq, l. split_and!; [done..|]. by eapply (ci_list _ _ _ _ _ Hi).
Qed.

(** ** A request is taken from its client, and given to one *)

Lemma CInv_take D HD X w w' c k k' r :
  CInv D HD None X w → cw_clients w !! c = Some k → cl_request k = Some r →
  (X = None ∨ X = Some c) →
  cw_clients w' = <[c := k']> (cw_clients w) → cw_reqs w' = cw_reqs w →
  cw_pools w' = cw_pools w → env_of w' = env_of w → quiet_log (cw_log w) (cw_log w') →
  cl_request k' = None → cl_context k' = None → cl_pool k' = cl_pool k →
  cl_netloc k' = cl_netloc k → cl_form_field k' = -1 →
  cl_in_redirect k' = cl_redirect_canceled k' →
  CInv (due r 1 D) ({[ r ]} ∪ HD) (_ ← cl_pool k; Some (c, cl_netloc k)) None w'.
Proof.
  intros [I1 I2 I3 I4 I5 I6 I7] Hk Hr HX Ec Er Ep Eu El R1 R2 R3 R4 R5 R6. pose proof (env_uris _ _ Eu) as Eu'.
  pose proof (I1 c k Hk) as [O1 O2 O3 O4 O5 O6 O8 O7].
  destruct (O1 r Hr) as (HrD & q & Hq & Hqc & _).
  set (K' := (_ ← cl_pool k; Some (c, cl_netloc k)) : option (ClientId * NetLoc)).
  assert (∀ c' k0, c' ≠ c → home K' c' k0 = home None c' k0) as Hother.
  { intros c' k0 Hne. unfold K', home. destruct (cl_pool k); [|done]. cbn. by rewrite decide_False. }
  assert (∀ p, cl_pool k = Some p → home K' c k' = (cl_netloc k, true)) as Hself.
  { intros p Hp. unfold K', home. rewrite Hp. cbn. by rewrite decide_True. }
  split.
  - intros c' k0. rewrite Ec. intros [[<- <-]|[Hne Hk0]]%lookup_insert_Some.
    + split; try (rewrite ?R1, ?R2; done).
      * intros n Hn. split; [done|]. rewrite R3. unfold K' in Hn. by destruct (cl_pool k).
      * by rewrite R6.
      * rewrite R6. by left.
      * intros p Hp. rewrite R3 in Hp. destruct (O7 p Hp) as (l & Hl & Hin). exists l.
        rewrite (Hself p Hp), (list_at_pools w w') by done. unfold home in *. by rewrite Hr in *.
    + eapply (client_ok_frame w w' HD _ None); [by destruct HX as [-> | ->]; split; destruct (I1 c' k0 Hk0); try done; intros r0 Hr0; destruct (co_has_context r0 Hr0) as [|[|[=]]]; auto|done| |by apply Hother| |].
      * intros r0 q0 Hr0 HrD0 Hq0 Hc0. rewrite Er.
        split; [|by exists q0; split; [|apply same_request_refl]].
        intros [->%elem_of_singleton|]%elem_of_union; [|done]. congruence.
      * intros n Hn. unfold K' in Hn. destruct (cl_pool k); cbn in Hn; congruence.
      * intros p l n h Hl Hin. exists l. by rewrite (list_at_pools w w').
  - intros r0 q0. rewrite Er. intros Hq0 Hnot.
    eapply (req_ok_frame w); [apply (I2 r0); [done|set_solver]|apply same_request_refl|done| |].
    + intros c' k0 Hk0 Hr0. exists k0. split; [|done]. rewrite Ec, lookup_insert_ne; [done|].
      intros <-. simplify_eq. set_solver.
    + intros p n l Hl Hin. exists l. by rewrite (list_at_pools w w').
  - intros p pq n l. rewrite Ep. intros Hpq Hl.
    eapply (list_ok_frame w); [by eapply I3|done| |].
    + intros c' h k0 Hin Hk0 Hp Hh. rewrite Ec. destruct (decide (c' = c)) as [->|Hne].
      * simplify_eq. exists k'. rewrite lookup_insert_eq, R3. split_and!; [done..|].
        rewrite (Hself p Hp). unfold home in Hh. by rewrite Hr in Hh.
      * exists k0. rewrite lookup_insert_ne by done. split_and!; [done..|]. by rewrite Hother.
    + intros r0 q0 Hin HrD0 Hq0 Hc0. rewrite Er. split; [|by exists q0; split; [|apply same_request_refl]].
      intros [->%elem_of_singleton|]%elem_of_union; [|done]. congruence.
  - intros p pq. rewrite Ep. apply I4.
  - eapply env_ok_same; [done|done|by rewrite ?Ep|done].
  - intros r0. destruct (El r0) as (-> & -> & _). rewrite I6, ledger_due.
    rewrite (busy_at_eq w w') by by rewrite Er.
    destruct (decide (r0 = r)) as [->|Hne].
    + rewrite (bool_decide_true (r = r)), bool_decide_false, bool_decide_true by set_solver.
      rewrite (busy_at_lookup _ _ _ Hq). unfold busy_rq. rewrite Hqc. cbn. lia.
    + rewrite (bool_decide_false (r0 = r)) by done.
      rewrite (bool_decide_ext (r0 ∈ {[r]} ∪ HD) (r0 ∈ HD)) by set_solver. lia.
  - intros r0. eapply (hops_same w); [apply I7|by rewrite Er|by apply quiet_redirected|by apply taken_rounds|set_solver|].
    intros q0 Hq0 (c0 & -> & Hc0). destruct HX as [|[= ->]]; [done|]. left.
    destruct (decide (r0 ∈ HD)) as [|HrD0]; [set_solver|].
    destruct (ro_client _ _ _ (I2 r0 q0 Hq0 HrD0) c Hc0) as (k0 & ? & ?). simplify_eq. set_solver.
Qed.

Lemma CInv_give D HD K w w' c k k' r q q' n :
  CInv D HD K None w → cw_clients w !! c = Some k → cw_reqs w !! r = Some q →
  cl_request k = None → r ∈ HD →
  K = (_ ← cl_pool k; Some (c, n)) → good w q → netloc_of w q = Some n →
  (cl_pool k ≠ None → shape w q n) → cl_form_field k = -1 → rq_client q = None → low q →
  At w c r k' q' w' →
  stream_only (k <| cl_netloc := n |> <| cl_request := Some r |> <| cl_context := Some r |>) k' →
  same_request (q <| rq_client := Some c |>) q' →
  CInv (due r (-1) D) (HD ∖ {[ r ]}) None None w'.
Proof.
  intros [I1 I2 I3 I4 I5 I6 I7] Hk Hq Hr HrD HK Hg Hn Hshape Hff Hcl Hlow [Ec Er Ep Eu El] [S1 S2 S3 S4 S5 S6 S7 S8] HS. pose proof (env_uris _ _ Eu) as Eu'.
  cbn in S1, S2, S3, S4, S5, S6, S7, S8.
  pose proof (I1 c k Hk) as [O1 O2 O3 O4 O5 O6 O8 O7].
  assert (∀ c' k0, c' ≠ c → home None c' k0 = home K c' k0) as Hother.
  { intros c' k0 Hne. subst K. unfold home. destruct (cl_pool k); [|done]. cbn. by rewrite decide_False. }
  assert (home None c k' = (n, true)) as Hself by by unfold home; rewrite S2, S3.
  assert (∀ p, cl_pool k = Some p → home K c k = (n, true)) as Hold.
  { intros p Hp. subst K. unfold home. rewrite Hp. cbn. by rewrite decide_True. }
  assert (rq_client q' = Some c) as Hc' by apply (sm_client _ _ HS).
  split.
  - intros c' k0. rewrite Ec. intros [[<- <-]|[Hne Hk0]]%lookup_insert_Some.
    + split; try done.
      * intros r0. rewrite S3. intros [= <-]. split; [set_solver|]. exists q'.
        rewrite Er, lookup_insert_eq. split_and!; [done..|]. rewrite S1, S2. intros Hp.
        eapply shape_uris; [done|]. eapply shape_same; [exact HS|]. by apply Hshape.
      * intros r0. by rewrite S3, S5.
      * intros r0. rewrite S3, S5. auto.
      * congruence.
      * rewrite S6, S7. done.
      * rewrite S3. by right.
      * intros p Hp. rewrite S1 in Hp. destruct (O7 p Hp) as (l & Hl & Hin). exists l.
        rewrite Hself, (list_at_pools w w') by done. by rewrite (Hold p Hp) in *.
    + eapply (client_ok_frame w w' HD _ K); [by apply I1|done| |by apply Hother|done|].
      * intros r0 q0 Hr0 HrD0 Hq0 Hc0. assert (r ≠ r0) by by intros ->.
        rewrite Er, lookup_insert_ne by done. split; [set_solver|].
        by exists q0; split; [|apply same_request_refl].
      * intros p l n0 h Hl Hin. exists l. by rewrite (list_at_pools w w').
  - intros r0 q0. rewrite Er. intros [[<- <-]|[Hne Hq0]]%lookup_insert_Some Hnot.
    + split.
      * intros c0 Hc0. assert (c0 = c) as -> by congruence. exists k'. by rewrite Ec, lookup_insert_eq.
      * intros p Hno. congruence.
      * intros _. eapply good_uris; [done|]. eapply good_same; [exact HS|by destruct Hg].
    + eapply (req_ok_frame w); [apply (I2 r0); [done|set_solver]|apply same_request_refl|done| |].
      * intros c' k0 Hk0 Hr0. exists k0. split; [|done]. rewrite Ec, lookup_insert_ne; [done|].
        intros <-. congruence.
      * intros p n0 l Hl Hin. exists l. by rewrite (list_at_pools w w').
  - intros p pq n0 l. rewrite Ep. intros Hpq Hl.
    eapply (list_ok_frame w); [by eapply I3|done| |].
    + intros c' h k0 Hin Hk0 Hp Hh. rewrite Ec. destruct (decide (c' = c)) as [->|Hne].
      * simplify_eq. exists k'. rewrite lookup_insert_eq, S1. split_and!; [done..|].
        rewrite Hself. by rewrite (Hold p Hp) in Hh.
      * exists k0. rewrite lookup_insert_ne by done. split_and!; [done..|]. by rewrite Hother.
    + intros r0 q0 Hin HrD0 Hq0 Hc0. assert (r ≠ r0) by by intros ->.
      rewrite Er, lookup_insert_ne by done. split; [set_solver|].
      by exists q0; split; [|apply same_request_refl].
  - intros p pq. rewrite Ep. apply I4.
  - eapply env_ok_request; [done|done|by rewrite Ep|done|done|].
    intros Hl. eapply listeners_ok_same; [exact HS|]. by destruct Hl.
  - intros r0. destruct (El r0) as (-> & -> & _). rewrite I6, ledger_due.
    destruct (decide (r0 = r)) as [->|Hne].
    + rewrite (bool_decide_true (r = r)), bool_decide_true, bool_decide_false by set_solver.
      rewrite (busy_at_lookup w' r q'); [|by rewrite Er, lookup_insert_eq].
      unfold busy_rq. rewrite Hc'. cbn. lia.
    + rewrite (bool_decide_false (r0 = r)) by done. rewrite (busy_at_eq w w'); [|by rewrite Er, lookup_insert_ne].
      rewrite (bool_decide_ext (r0 ∈ HD ∖ {[r]}) (r0 ∈ HD)) by set_solver. lia.
  - intros r0. destruct (decide (r0 = r)) as [->|Hne].
    + pose proof (sm_limit _ _ HS) as Elim. pose proof (sm_counter _ _ HS) as Ecnt. cbn in Elim, Ecnt.
      pose proof (I7 r) as Hh. eapply (hops_change w); [done|done|by rewrite Er, lookup_insert_eq|by apply quiet_redirected
        |by apply given_rounds|done| |by rewrite Ecnt| |].
      * unfold hops in Hh. rewrite Hq in Hh. rewrite Ecnt. apply Hh.
      * unfold busy_rq. by rewrite Hc'.
      * right. right. by eapply low_same.
    + eapply (hops_same w); [apply I7|by rewrite Er, lookup_insert_ne|by apply quiet_redirected|by apply given_rounds|set_solver|].
      by intros q0 _ ?%not_excused.
Qed.

(** ** Changes that do not matter, and a request that is put down or taken up *)

(** Only the log grows, and the requests' histories with it. *)
Lemma CInv_logged D D' HD K X w w' :
  CInv D HD K X w → cw_clients w' = cw_clients w → cw_reqs w' = cw_reqs w →
  cw_pools w' = cw_pools w → env_of w' = env_of w →
  (∀ r, submitted r (cw_log w') = submitted r (cw_log w) ∧
        answered r (cw_log w') + D' r = answered r (cw_log w) + D r) →
  (∀ r, hops w' D' HD X r) → CInv D' HD K X w'.
Proof.
  intros [I1 I2 I3 I4 I5 I6 I7] Ec Er Ep Eu El Hh. pose proof (env_uris _ _ Eu) as Eu'. split.
  - intros c k. rewrite Ec. intros Hk.
    eapply (client_ok_frame w); [by apply I1|done| |done|done|].
    + intros r q. rewrite Er. intros. split; [done|]. exists q. split; [done|apply same_request_refl].
    + intros p l n h. rewrite (list_at_pools w w') by done. eauto.
  - intros r q. rewrite Er. intros Hq Hr.
    eapply (req_ok_frame w); [by apply (I2 r)|apply same_request_refl|done| |].
    + intros c k. rewrite Ec. eauto.
    + intros p n l. rewrite (list_at_pools w w') by done. eauto.
  - intros p pq n l. rewrite Ep. intros Hpq Hl.
    eapply (list_ok_frame w); [by eapply I3|done| |].
    + intros c h k. rewrite Ec. eauto.
    + intros r q. rewrite Er. intros. split; [done|]. exists q. split; [done|apply same_request_refl].
  - intros p pq. rewrite Ep. apply I4.
  - eapply env_ok_same; [done|done|by rewrite ?Ep|done].
  - intros r. rewrite (busy_at_eq w w') by by rewrite Er. specialize (I6 r). destruct (El r). lia.
  - done.
Qed.

Lemma CInv_same D D' HD K X w w' :
  CInv D HD K X w → cw_clients w' = cw_clients w → cw_reqs w' = cw_reqs w →
  cw_pools w' = cw_pools w → env_of w' = env_of w →
  (∀ r, submitted r (cw_log w') = submitted r (cw_log w) ∧ redirected r (cw_log w') = redirected r (cw_log w) ∧
        answered r (cw_log w') + D' r = answered r (cw_log w) + D r) →
  CInv D' HD K X w'.
Proof.
  intros Hi Ec Er Ep Eu El. eapply CInv_logged; [done..| |]; intros r; destruct (El r) as (ES & ER & EA); [done|].
  eapply (hops_same w); [apply Hi|by rewrite Er|done| |done|auto]. unfold rounds. lia.
Qed.

(** A redirect is announced. *)
Lemma CInv_redirect_event D HD K X w r q res ctx :
  CInv D HD K X w → cw_reqs w !! r = Some q →
  (limited q → redirected r (cw_log w) + 1 ≤ rq_redirection_limit q * rounds D HD w r +
     Z.min (rq_redirection_counter q) (rq_redirection_limit q)) →
  CInv D HD K X (w <| cw_log ::= cons (CFire (CEvRedirect r res ctx)) |>).
Proof.
  intros Hi Hq Hlt. eapply (CInv_logged D D); [done..|].
  intros r0. pose proof (ci_hops _ _ _ _ _ Hi r0) as Hh. destruct (decide (r0 = r)) as [->|Hne].
  - unfold hops in *. change (cw_reqs (w <| cw_log ::= _ |>)) with (cw_reqs w). rewrite Hq in *.
    destruct Hh as [H1 H2 H3 H4]. split; [done..|]. intros Hlim. specialize (Hlt Hlim).
    unfold redirected. cbn [cw_log]. cbn. rewrite bool_decide_true by done. cbn.
    change (rounds D HD (w <| cw_log ::= _ |>) r) with (rounds D HD w r). unfold redirected in Hlt. lia.
  - eapply (hops_same w); [done|done| |done|done|auto].
    unfold redirected. cbn. by rewrite bool_decide_false by done.
Qed.

Lemma CInv_log D HD K X w w' :
  CInv D HD K X w → cw_clients w' = cw_clients w → cw_reqs w' = cw_reqs w →
  cw_pools w' = cw_pools w → env_of w' = env_of w → quiet_log (cw_log w) (cw_log w') →
  CInv D HD K X w'.
Proof.
  intros Hi Ec Er Ep Eu El. eapply CInv_same; [done..|]. intros r. by destruct (El r) as (-> & -> & ->).
Qed.

(** A change of a client that leaves what it serves and where it belongs. *)
Lemma CInv_client D HD K X X' w w' c k k' :
  CInv D HD K X w → cw_clients w !! c = Some k → (X = None ∨ X = Some c) →
  (X = None ∨ X' = X ∨ ∀ r q, cl_request k = Some r → cw_reqs w !! r = Some q → low q) →
  cw_clients w' = <[c := k']> (cw_clients w) → cw_reqs w' = cw_reqs w →
  cw_pools w' = cw_pools w → env_of w' = env_of w → quiet_log (cw_log w) (cw_log w') →
  cl_pool k' = cl_pool k → cl_netloc k' = cl_netloc k → cl_request k' = cl_request k →
  cl_form_field k' = cl_form_field k →
  (∀ r, cl_context k' = Some r → cl_request k' = Some r) →
  (∀ r, cl_request k' = Some r → cl_context k' = Some r ∨
     (cl_in_redirect k' = true ∧ cl_redirect_canceled k' = false) ∨ X' = Some c) →
  (cl_redirect_canceled k' = true → cl_in_redirect k' = true) →
  (cl_in_redirect k' = true → cl_redirect_canceled k' = true ∨ is_Some (cl_request k')) →
  CInv D HD K X' w'.
Proof.
  intros [I1 I2 I3 I4 I5 I6 I7] Hk HX HX' Ec Er Ep Eu El S1 S2 S3 S4 S5 S6 S7 S8. pose proof (env_uris _ _ Eu) as Eu'.
  assert (home K c k' = home K c k) as Hh by by unfold home; rewrite S2, S3.
  pose proof (I1 c k Hk) as [O1 O2 O3 O4 O5 O6 O8 O7]. split.
  - intros c' k0. rewrite Ec. intros [[<- <-]|[Hne Hk0]]%lookup_insert_Some.
    + split; try done.
      * intros r. rewrite S3, S1, S2, Er. intros Hr. destruct (O1 r Hr) as (HH & q & Hq & Hc & Hs).
        split; [done|]. exists q. split_and!; [done..|]. intros Hp. eapply shape_uris; [done|]. by apply Hs.
      * intros n. rewrite S3, S1. apply O2.
      * by rewrite S4.
      * intros p. rewrite S1, Hh. intros Hp. destruct (O7 p Hp) as (l & Hl & Hin). exists l.
        by rewrite (list_at_pools w w').
    + eapply (client_ok_frame w w' HD _ K); [|done| |done|done|].
      * destruct (I1 c' k0 Hk0). split; try done. intros r Hr.
        destruct (co_has_context r Hr) as [|[|HXc]]; [auto..|]. destruct HX; congruence.
      * intros r q. rewrite Er. intros. split; [done|]. exists q. split; [done|apply same_request_refl].
      * intros p l n h. rewrite (list_at_pools w w') by done. eauto.
  - intros r q. rewrite Er. intros Hq Hr.
    eapply (req_ok_frame w); [by apply (I2 r)|apply same_request_refl|done| |].
    + intros c' k0 Hk0 Hr0. rewrite Ec. destruct (decide (c' = c)) as [->|].
      * exists k'. rewrite lookup_insert_eq. split; [done|congruence].
      * exists k0. by rewrite lookup_insert_ne.
    + intros p n l. rewrite (list_at_pools w w') by done. eauto.
  - intros p pq n l. rewrite Ep. intros Hpq Hl.
    eapply (list_ok_frame w); [by eapply I3|done| |].
    + intros c' h k0 Hin Hk0 Hp0 Hh0. rewrite Ec. destruct (decide (c' = c)) as [->|].
      * exists k'. rewrite lookup_insert_eq, Hh, S1. assert (k0 = k) as -> by congruence. done.
      * exists k0. by rewrite lookup_insert_ne.
    + intros r q. rewrite Er. intros. split; [done|]. exists q. split; [done|apply same_request_refl].
  - intros p pq. rewrite Ep. apply I4.
  - eapply env_ok_same; [done|done|by rewrite ?Ep|done].
  - intros r. destruct (El r) as (-> & -> & _). rewrite (busy_at_eq w w') by by rewrite Er. apply I6.
  - intros r. eapply (hops_same w); [apply I7|by rewrite Er|by apply quiet_redirected|by apply quiet_rounds|done|].
    intros q Hq Hx. destruct HX' as [->|[->|Hlow]]; [by destruct (not_excused q)|auto|].
    destruct Hx as (c0 & -> & Hc0). destruct HX as [|[= ->]]; [done|].
    destruct (decide (r ∈ HD)) as [|HrD]; [by left|].
    destruct (ro_client _ _ _ (I2 r q Hq HrD) c Hc0) as (k0 & ? & ?). simplify_eq. right. right. by eapply Hlow.
Qed.

(** A change of a request that is in nobody's hands. *)
Lemma CInv_request_count D HD K X w w' r q q' :
  CInv D HD K X w → cw_reqs w !! r = Some q →
  cw_clients w' = cw_clients w → cw_reqs w' = <[r := q']> (cw_reqs w) →
  cw_pools w' = cw_pools w → env_of w' = env_of w → quiet_log (cw_log w) (cw_log w') →
  rq_client q' = rq_client q → rq_pool q' = rq_pool q → (listeners_ok w q → listeners_ok w q') →
  (good w q → good w q') → (∀ n, shape w q n → shape w q' n) →
  (rq_client q = None → netloc_of w q' = netloc_of w q) →
  rq_redirection_limit q' = rq_redirection_limit q → 0 ≤ rq_redirection_counter q' →
  (limited q → rq_redirection_counter q ≤ rq_redirection_counter q') →
  (rq_redirection_counter q' = rq_redirection_counter q ∨ is_Some (rq_client q) ∧ excused X q') →
  CInv D HD K X w'.
Proof.
  intros [I1 I2 I3 I4 I5 I6 I7] Hq Ec Er Ep Eu El S1 S2 S3 S4 S5 S6 S7 S8 S9 S10. pose proof (env_uris _ _ Eu) as Eu'. split.
  - intros c k. rewrite Ec. intros Hk. destruct (I1 c k Hk) as [O1 O2 O3 O4 O5 O6 O8 O7]. split; try done.
    + intros r0 Hr0. destruct (O1 r0 Hr0) as (HH & q0 & Hq0 & Hc & Hs). split; [done|].
      rewrite Er. destruct (decide (r0 = r)) as [->|].
      * exists q'. rewrite lookup_insert_eq. simplify_eq. split_and!; [done|congruence|].
        intros Hp. eapply shape_uris; [done|]. by apply S5, Hs.
      * exists q0. rewrite lookup_insert_ne by done. split_and!; [done..|].
        intros Hp. eapply shape_uris; [done|]. by apply Hs.
    + intros p Hp. rewrite (list_at_pools w w') by done. by apply O7.
  - intros r0 q0. rewrite Er. intros [[<- <-]|[Hne Hq0]]%lookup_insert_Some Hr0.
    + destruct (I2 r q Hq Hr0) as [R1 R2 R3]. split.
      * intros c. rewrite S1, Ec. apply R1.
      * intros p. rewrite S1, S2. intros Hc Hp. destruct (R2 p Hc Hp) as (n & l & Hn & Hl & Hin).
        exists n, l. rewrite (netloc_of_uris w w'), S6, (list_at_pools w w') by done. done.
      * unfold busy_rq. rewrite S1, S2. intros Hb. eapply good_uris; [done|]. by apply S4, R3.
    + eapply (req_ok_frame w); [by apply (I2 r0)|apply same_request_refl|done| |].
      * intros c k. rewrite Ec. eauto.
      * intros p n l. rewrite (list_at_pools w w') by done. eauto.
  - intros p pq n l. rewrite Ep. intros Hpq Hl. destruct (I3 p pq n l Hpq Hl) as [L1 L2 L3 L4 L5 L6].
    split; try done.
    + intros c h. rewrite Ec. apply L1.
    + intros r0 Hin. destruct (L2 r0 Hin) as (HH & q0 & Hq0 & Hc & Hp & Hn & Hs). split; [done|].
      rewrite Er. destruct (decide (r0 = r)) as [->|].
      * exists q'. rewrite lookup_insert_eq. simplify_eq. split_and!; [done|congruence..| |].
        -- rewrite (netloc_of_uris w w'), S6; done.
        -- eapply shape_uris; [done|]. by apply S5.
      * exists q0. rewrite lookup_insert_ne by done. split_and!; [done..| |].
        -- by rewrite (netloc_of_uris w w').
        -- by eapply shape_uris.
  - intros p pq. rewrite Ep. apply I4.
  - eapply env_ok_request; [done|done|by rewrite Ep|done|done|done].
  - intros r0. destruct (El r0) as (-> & -> & _). rewrite I6. do 2 f_equal.
    destruct (decide (r0 = r)) as [->|]; [|by rewrite (busy_at_eq w w') by by rewrite Er, lookup_insert_ne].
    rewrite (busy_at_lookup w' r q'), (busy_at_lookup w r q); [|done|by rewrite Er, lookup_insert_eq].
    unfold busy_rq. by rewrite S1, S2.
  - intros r0. destruct (decide (r0 = r)) as [->|]; [|eapply hops_quiet; [apply I7|by rewrite Er, lookup_insert_ne|done]].
    eapply (hops_change w); [apply I7|done|by rewrite Er, lookup_insert_eq|by apply quiet_redirected|by apply quiet_rounds|done..| |].
    all: pose proof (I7 r) as Hh; unfold hops in Hh; rewrite Hq in Hh; destruct Hh as [_ H2 H3 _].
    + unfold busy_rq in *. rewrite S1, S2. destruct S10 as [->|[[c Hc] _]]; [done|]. by rewrite Hc.
    + destruct S10 as [E|[_ Hx]]; [|auto]. unfold excused in *. rewrite S1.
      destruct H3 as [|[|Hlow]]; [auto..|]. right. right. by eapply low_same.
Qed.

Lemma CInv_request D HD K X w w' r q q' :
  CInv D HD K X w → cw_reqs w !! r = Some q →
  cw_clients w' = cw_clients w → cw_reqs w' = <[r := q']> (cw_reqs w) →
  cw_pools w' = cw_pools w → env_of w' = env_of w → quiet_log (cw_log w) (cw_log w') →
  rq_client q' = rq_client q → rq_pool q' = rq_pool q → (listeners_ok w q → listeners_ok w q') →
  (good w q → good w q') → (∀ n, shape w q n → shape w q' n) →
  (rq_client q = None → netloc_of w q' = netloc_of w q) →
  rq_redirection_limit q' = rq_redirection_limit q → rq_redirection_counter q' = rq_redirection_counter q →
  CInv D HD K X w'.
Proof.
  intros Hi Hq Ec Er Ep Eu El S1 S2 S3 S4 S5 S6 S7 S8.
  eapply (CInv_request_count _ _ _ _ w w' r q q'); try done; [|intros _; by rewrite S8|by left].
  rewrite S8. pose proof (ci_hops _ _ _ _ _ Hi r) as Hh. unfold hops in Hh. rewrite Hq in Hh. apply Hh.
Qed.

(** A request that is idle may be taken up, and is put down idle. *)
Lemma CInv_hold D HD K X w r q :
  CInv D HD K X w → cw_reqs w !! r = Some q → busy_rq q = false → r ∉ HD →
  CInv (due r 1 D) ({[ r ]} ∪ HD) K X (w <| cw_log ::= cons (CSubmit r) |>).
Proof.
  intros [I1 I2 I3 I4 I5 I6 I7] Hq Hb Hr.
  assert (rq_client q = None ∧ rq_pool q = None) as [Hc Hp].
  { unfold busy_rq in Hb. by destruct (rq_client q), (rq_pool q). }
  split; try done.
  - intros c k Hk. destruct (I1 c k Hk) as [O1 O2 O3 O4 O5 O6 O8 O7]. split; try done.
    intros r0 Hr0. destruct (O1 r0 Hr0) as (HH & q0 & Hq0 & Hc0 & Hs). split; [|by exists q0].
    intros [->%elem_of_singleton|]%elem_of_union; [|done]. congruence.
  - intros r0 q0 Hq0 Hr0. eapply (req_ok_frame w); [apply I2; [done|set_solver]|apply same_request_refl|done|eauto..].
  - intros p pq n l Hpq Hl. destruct (I3 p pq n l Hpq Hl) as [L1 L2 L3 L4 L5 L6]. split; try done.
    intros r0 Hin. destruct (L2 r0 Hin) as (HH & q0 & Hq0 & Hc0 & Hp0 & Hrest). split; [|by exists q0].
    intros [->%elem_of_singleton|]%elem_of_union; [|done]. congruence.
  - eapply env_ok_same; [exact I5|done..].
  - intros r0. specialize (I6 r0). unfold submitted, answered in *. cbn. rewrite ledger_due.
    change (busy_at (w <| cw_log ::= cons (CSubmit r) |>) r0) with (busy_at w r0).
    destruct (decide (r0 = r)) as [->|].
    + rewrite !(bool_decide_true (r = r)), (bool_decide_true (r ∈ _)) by set_solver.
      rewrite bool_decide_false, (busy_at_lookup w r q), Hb in I6 by done. cbn in *. lia.
    + rewrite !bool_decide_false by congruence.
      rewrite (bool_decide_ext (r0 ∈ {[r]} ∪ HD) (r0 ∈ HD)) by set_solver. cbn. lia.
  - intros r0. eapply (hops_same w); [apply I7|done|done|by apply (taken_rounds D HD w w)|set_solver|auto].
Qed.

Lemma CInv_put_down D HD K X w w' r q q' :
  CInv D HD K X w → cw_reqs w !! r = Some q → r ∈ HD →
  cw_clients w' = cw_clients w → cw_reqs w' = <[r := q']> (cw_reqs w) →
  cw_pools w' = cw_pools w → env_of w' = env_of w → quiet_log (cw_log w) (cw_log w') →
  rq_client q' = None → rq_pool q' = None → (listeners_ok w q → listeners_ok w q') →
  rq_redirection_limit q' = rq_redirection_limit q → rq_redirection_counter q' = 0 →
  CInv D (HD ∖ {[ r ]}) K X w'.
Proof.
  intros [I1 I2 I3 I4 I5 I6 I7] Hq Hr Ec Er Ep Eu El S1 S2 S3 S4 S5. pose proof (env_uris _ _ Eu) as Eu'. split.
  - intros c k. rewrite Ec. intros Hk. eapply (client_ok_frame w); [by apply I1|done| |done|done|].
    + intros r0 q0 Hr0 HH Hq0 Hc0. assert (r ≠ r0) by by intros ->.
      rewrite Er, lookup_insert_ne by done. split; [set_solver|].
      exists q0. split; [done|apply same_request_refl].
    + intros p l n h. rewrite (list_at_pools w w') by done. eauto.
  - intros r0 q0. rewrite Er. intros [[<- <-]|[Hne Hq0]]%lookup_insert_Some Hr0.
    + split; [congruence..|]. unfold busy_rq. by rewrite S1, S2.
    + eapply (req_ok_frame w); [apply (I2 r0); [done|set_solver]|apply same_request_refl|done| |].
      * intros c k. rewrite Ec. eauto.
      * intros p n l. rewrite (list_at_pools w w') by done. eauto.
  - intros p pq n l. rewrite Ep. intros Hpq Hl. eapply (list_ok_frame w); [by eapply I3|done| |].
    + intros c h k. rewrite Ec. eauto.
    + intros r0 q0 Hin HH Hq0 Hc0. assert (r ≠ r0) by by intros ->.
      rewrite Er, lookup_insert_ne by done. split; [set_solver|].
      exists q0. split; [done|apply same_request_refl].
  - intros p pq. rewrite Ep. apply I4.
  - eapply env_ok_request; [done|done|by rewrite Ep|done|done|done].
  - intros r0. destruct (El r0) as (-> & -> & _). rewrite I6. destruct (decide (r0 = r)) as [->|].
    + rewrite bool_decide_true, bool_decide_false by set_solver.
      rewrite (busy_at_lookup w' r q'); [|by rewrite Er, lookup_insert_eq].
      unfold busy_rq. rewrite S1, S2. done.
    + rewrite (busy_at_eq w w'); [|by rewrite Er, lookup_insert_ne].
      by rewrite (bool_decide_ext (r0 ∈ HD ∖ {[r]}) (r0 ∈ HD)) by set_solver.
  - intros r0. pose proof (I7 r0) as Hh. destruct (decide (r0 = r)) as [->|Hne].
    + unfold hops, rounds in *. rewrite Er, lookup_insert_eq. rewrite Hq in Hh. destruct (El r) as (_ & -> & ->).
      rewrite bool_decide_true in Hh by done. rewrite bool_decide_false by set_solver.
      destruct Hh as [H1 _ _ H4]. unfold low, limited in *. split; rewrite ?S4, ?S5; [done|by right| |].
      * right. right. unfold low, limited. rewrite S4, S5. lia.
      * unfold limited. rewrite S4. intros Hl. specialize (H4 Hl). cbn in *. lia.
    + eapply (hops_same w); [done|by rewrite Er, lookup_insert_ne|by apply quiet_redirected| |set_solver|auto].
      unfold rounds. destruct (El r0) as (_ & -> & _).
      by rewrite (bool_decide_ext (r0 ∈ HD ∖ {[r]}) (r0 ∈ HD)) by set_solver.
Qed.

Lemma good_netloc w q : good w q → ∃ n, netloc_of w q = Some n.
Proof.
  intros [(i & u & Hi & Hu & _) _ _ _]. unfold netloc_of. destruct (http_proxy w q) as [v|]; [by eexists|].
  rewrite Hi. cbn. rewrite Hu. by eexists.
Qed.

(** ** A new URI *)

Definition uri_added w w' : Prop :=
  ∃ i u, cw_uris w !! i = None ∧ cw_uris w' = <[i := u]> (cw_uris w).

Lemma http_proxy_added w w' q : uri_added w w' → good w q → http_proxy w' q = http_proxy w q.
Proof.
  intros (i & u & Hi & E) Hg. unfold http_proxy. destruct (rq_proxy q) as [x|] eqn:Hx; [|done]. cbn.
  destruct (g_proxy _ _ Hg x Hx) as (v & Hv & _). rewrite E, lookup_insert_ne; [done|congruence].
Qed.

Lemma netloc_of_added w w' q : uri_added w w' → good w q → netloc_of w' q = netloc_of w q.
Proof.
  intros Ha Hg. unfold netloc_of. rewrite (http_proxy_added w w') by done. case_match; [done|].
  destruct Ha as (i & u & Hi & E). destruct (g_uri _ _ Hg) as (j & v & -> & Hv & _). cbn.
  rewrite E, lookup_insert_ne; [done|congruence].
Qed.

Lemma shape_added w w' q n : uri_added w w' → good w q → shape w q n → shape w' q n.
Proof. intros Ha Hg. unfold shape. by rewrite (http_proxy_added w w'). Qed.

Lemma good_added w w' q : uri_added w w' → good w q → good w' q.
Proof.
  intros (i & u & Hi & E) [(j & v & Hj & Hv & ?) Hp ??]. split; [|intros x Hx|done|done].
  - exists j, v. rewrite E, lookup_insert_ne by congruence. done.
  - destruct (Hp x Hx) as (y & Hy & ?). exists y. rewrite E, lookup_insert_ne by congruence. done.
Qed.

Lemma CInv_uri D HD K X w w' :
  CInv D HD K X w → uri_added w w' → cw_clients w' = cw_clients w → cw_reqs w' = cw_reqs w →
  cw_pools w' = cw_pools w → cw_agents w' = cw_agents w → cw_jars w' = cw_jars w →
  quiet_log (cw_log w) (cw_log w') → CInv D HD K X w'.
Proof.
  intros [I1 I2 I3 I4 I5 I6 I7] Ha Ec Er Ep Ea Ej El.
  assert (∀ r q, cw_reqs w !! r = Some q → r ∉ HD → busy_rq q = true → good w q) as Hgood.
  { intros r q Hq Hr. apply (ro_good _ _ _ (I2 r q Hq Hr)). }
  split.
  - intros c k. rewrite Ec. intros Hk. destruct (I1 c k Hk) as [O1 O2 O3 O4 O5 O6 O8 O7]. split; try done.
    + intros r Hr. rewrite Er. destruct (O1 r Hr) as (HH & q & Hq & Hc & Hs). split; [done|].
      exists q. split_and!; [done..|]. intros Hp. eapply shape_added; [done| |by apply Hs].
      eapply Hgood; [done..|]. unfold busy_rq. by rewrite Hc.
    + intros p Hp. rewrite (list_at_pools w w') by done. by apply O7.
  - intros r q. rewrite Er. intros Hq Hr. destruct (I2 r q Hq Hr) as [R1 R2 R3]. split.
    + intros c. rewrite Ec. apply R1.
    + intros p Hc Hp. destruct (R2 p Hc Hp) as (n & l & Hn & Hl & Hin). exists n, l.
      rewrite (list_at_pools w w') by done. split_and!; [|done..].
      rewrite (netloc_of_added w w'); [done..|]. apply R3. unfold busy_rq. by rewrite Hp, orb_true_r.
    + intros Hb. eapply good_added; [done|]. by apply R3.
  - intros p pq n l. rewrite Ep. intros Hpq Hl. destruct (I3 p pq n l Hpq Hl) as [L1 L2 L3 L4 L5 L6].
    split; try done.
    + intros c h. rewrite Ec. apply L1.
    + intros r Hin. rewrite Er. destruct (L2 r Hin) as (HH & q & Hq & Hc & Hp & Hn & Hs). split; [done|].
      assert (good w q) as Hg by (eapply Hgood; [done..|]; unfold busy_rq; by rewrite Hp, orb_true_r).
      exists q. split_and!; [done..| |].
      * by rewrite (netloc_of_added w w').
      * by eapply shape_added.
  - intros p pq. rewrite Ep. apply I4.
  - eapply env_ok_grown; [done| |done]. split; rewrite ?Ea, ?Ej, ?Ep; auto.
    destruct Ha as (j & v & Hj & ->). intros i u Hi. rewrite lookup_insert_ne; [done|congruence].
  - intros r. destruct (El r) as (-> & -> & _). rewrite (busy_at_eq w w') by by rewrite Er. apply I6.
  - intros r. eapply hops_quiet; [apply I7|by rewrite Er|done].
Qed.

(** A request in the library's hands may change. *)
Lemma CInv_held D HD K X w w' r q q' :
  CInv D HD K X w → cw_reqs w !! r = Some q → r ∈ HD →
  cw_clients w' = cw_clients w → cw_reqs w' = <[r := q']> (cw_reqs w) →
  cw_pools w' = cw_pools w → env_of w' = env_of w → quiet_log (cw_log w) (cw_log w') →
  (listeners_ok w q → listeners_ok w q') →
  rq_redirection_limit q' = rq_redirection_limit q → rq_redirection_counter q' = rq_redirection_counter q →
  CInv D HD K X w'.
Proof.
  intros [I1 I2 I3 I4 I5 I6 I7] Hq Hr Ec Er Ep Eu El S3 S4 S5. pose proof (env_uris _ _ Eu) as Eu'. split.
  - intros c k. rewrite Ec. intros Hk. eapply (client_ok_frame w); [by apply I1|done| |done|done|].
    + intros r0 q0 Hr0 HH Hq0 Hc0. assert (r ≠ r0) by by intros ->.
      rewrite Er, lookup_insert_ne by done. split; [done|].
      exists q0. split; [done|apply same_request_refl].
    + intros p l n h. rewrite (list_at_pools w w') by done. eauto.
  - intros r0 q0. rewrite Er. intros [[<- <-]|[Hne Hq0]]%lookup_insert_Some Hr0; [done|].
    eapply (req_ok_frame w); [by apply (I2 r0)|apply same_request_refl|done| |].
    + intros c k. rewrite Ec. eauto.
    + intros p n l. rewrite (list_at_pools w w') by done. eauto.
  - intros p pq n l. rewrite Ep. intros Hpq Hl. eapply (list_ok_frame w); [by eapply I3|done| |].
    + intros c h k. rewrite Ec. eauto.
    + intros r0 q0 Hin HH Hq0 Hc0. assert (r ≠ r0) by by intros ->.
      rewrite Er, lookup_insert_ne by done. split; [done|].
      exists q0. split; [done|apply same_request_refl].
  - intros p pq. rewrite Ep. apply I4.
  - eapply env_ok_request; [done|done|by rewrite Ep|done|done|done].
  - intros r0. destruct (El r0) as (-> & -> & _). rewrite I6. destruct (decide (r0 = r)) as [->|].
    + by rewrite bool_decide_true.
    + by rewrite (busy_at_eq w w') by by rewrite Er, lookup_insert_ne.
  - intros r0. destruct (decide (r0 = r)) as [->|]; [|eapply hops_quiet; [apply I7|by rewrite Er, lookup_insert_ne|done]].
    eapply (hops_change w); [apply I7|done|by rewrite Er, lookup_insert_eq|by apply quiet_redirected
      |by apply quiet_rounds|done| |intros _; by rewrite S5|by left|by left].
    pose proof (I7 r) as Hh. unfold hops in Hh. rewrite Hq in Hh. rewrite S5. apply Hh.
Qed.

(** ** The lists of a pool *)

(** [w'] is [w] with a new list for one location of one pool. *)
Record put_at w p (pq : Pool) n l w' : Prop := {
  pa_pool : cw_pools w !! p = Some pq;
  pa_pools : ∃ pq', cw_pools w' = <[p := pq']> (cw_pools w) ∧
    pl_clients pq' = <[n := l]> (pl_clients pq) ∧
    pl_max_connections pq' = pl_max_connections pq ∧ pl_factory pq' = pl_factory pq;
  pa_uris : env_of w' = env_of w;
  pa_log : quiet_log (cw_log w) (cw_log w')
}.

Lemma put_at_list w p pq n l w' p0 n0 :
  put_at w p pq n l w' →
  list_at w' p0 n0 = if decide (p0 = p ∧ n0 = n) then Some l else list_at w p0 n0.
Proof.
  intros [Hpq (pq' & E & El & _) _ _]. unfold list_at. rewrite E.
  destruct (decide (p0 = p)) as [->|Hp].
  - rewrite lookup_insert_eq, Hpq. cbn. rewrite El. destruct (decide (n0 = n)) as [->|Hn].
    + by rewrite lookup_insert_eq, decide_True.
    + rewrite lookup_insert_ne, decide_False by naive_solver. done.
  - rewrite lookup_insert_ne, decide_False by naive_solver. done.
Qed.

Lemma put_at_env w p pq n l w' :
  put_at w p pq n l w' → cw_reqs w' = cw_reqs w → env_ok w → env_ok w'.
Proof.
  intros [Hpq (pq' & E & _) Eu _] Er He. eapply env_ok_same; [done|done| |done].
  intros p0 Hp0. rewrite E. destruct (decide (p0 = p)) as [->|];
    [rewrite lookup_insert_eq; by eexists|by rewrite lookup_insert_ne].
Qed.

(** The obligations of such a change: on the clients and requests of the list, and
    on the new list itself. *)
Lemma CInv_put D D' HD HD' K K' X w w' p pq n l' :
  CInv D HD K X w → put_at w p pq n l' w' →
  (∀ c k, cw_clients w' !! c = Some k → client_ok w' HD' K' X c k) →
  (∀ r q, cw_reqs w' !! r = Some q → r ∉ HD' → req_ok w' r q) →
  (∀ p0 pq0 n0 l, cw_pools w !! p0 = Some pq0 → pl_clients pq0 !! n0 = Some l → (p0, n0) ≠ (p, n) →
    list_ok w' HD' K' p0 (pl_max_connections pq0) n0 l) →
  list_ok w' HD' K' p (pl_max_connections pq) n l' →
  cw_reqs w' = cw_reqs w →
  (∀ r, D r + (if bool_decide (r ∈ HD) then 0 else b2z (busy_at w r)) =
        D' r + (if bool_decide (r ∈ HD') then 0 else b2z (busy_at w' r))) →
  (∀ r, rounds D' HD' w' r = rounds D HD w r) →
  (∀ r q, cw_reqs w !! r = Some q → r ∈ HD → r ∉ HD' → low q ∧ busy_rq q = true) →
  CInv D' HD' K' X w'.
Proof.
  intros [I1 I2 I3 I4 I5 I6 I7] Hput Hc Hr Hl Hn Hlis HD6 HD7 HD8. pose proof Hput as [Hpq (pq' & E & El & Em & Ef) Eu Elog].
  split; [done|done| | |by eapply put_at_env| | ].
  - intros p0 pq0 n0 l. rewrite E. intros [[<- <-]|[Hne Hp0]]%lookup_insert_Some.
    + rewrite El, Em. intros [[<- <-]|[Hne Hn0]]%lookup_insert_Some; [done|].
      apply Hl; [done|done|congruence].
    + intros Hl0. apply Hl; [done|done|congruence].
  - intros p0 pq0. rewrite E. intros [[<- <-]|[Hne Hp0]]%lookup_insert_Some; [|by eapply I4].
    rewrite Ef. by apply (I4 p).
  - intros r. destruct (Elog r) as (-> & -> & _). rewrite I6. specialize (HD6 r). lia.
  - intros r. pose proof (I7 r) as Hh. unfold hops in *. rewrite HD7, (quiet_redirected w w') by done. rewrite Hlis.
    destruct (cw_reqs w !! r) as [q|] eqn:Hq; [|done]. destruct Hh as [H1 H2 H3 H4].
    destruct (decide (r ∈ HD')) as [|HrD']; [by split; auto|].
    destruct (decide (r ∈ HD)) as [HrD|HrD]; [|split; naive_solver].
    destruct (HD8 r q Hq HrD HrD') as [Hlow Hb]. split; [done|by rewrite Hb|auto|done].
Qed.

(** A list keeps its clients, all but [c]. *)
Lemma put_at_in w p pq n l l' w' c p0 n0 l0 h c0 :
  put_at w p pq n l' w' → pl_clients pq !! n = Some l →
  (∀ h c0, c0 ≠ c → in_list h l c0 → in_list h l' c0) → c0 ≠ c →
  list_at w p0 n0 = Some l0 → in_list h l0 c0 →
  ∃ l1, list_at w' p0 n0 = Some l1 ∧ in_list h l1 c0.
Proof.
  intros Hput Hl Hin Hne Hl0 Hin0. rewrite (put_at_list _ _ _ _ _ _ _ _ Hput).
  destruct (decide _) as [[-> ->]|]; [|by exists l0].
  rewrite (list_at_lookup _ _ _ _ (pa_pool _ _ _ _ _ _ Hput)) in Hl0. simplify_eq.
  exists l'. split; [done|]. by apply Hin.
Qed.

Lemma put_at_queue w p pq n l l' w' r p0 n0 l0 :
  put_at w p pq n l' w' → pl_clients pq !! n = Some l →
  (r ∈ nl_queue l → r ∈ nl_queue l') → list_at w p0 n0 = Some l0 → r ∈ nl_queue l0 →
  ∃ l1, list_at w' p0 n0 = Some l1 ∧ r ∈ nl_queue l1.
Proof.
  intros Hput Hl Hq Hl0 Hin0. rewrite (put_at_list _ _ _ _ _ _ _ _ Hput).
  destruct (decide _) as [[-> ->]|]; [|by exists l0].
  rewrite (list_at_lookup _ _ _ _ (pa_pool _ _ _ _ _ _ Hput)) in Hl0. simplify_eq. eauto.
Qed.

(** [putback] without a waiting request: the client becomes free. *)
Lemma CInv_free D HD w w' c k p pq n l :
  CInv D HD (Some (c, n)) None w → cw_clients w !! c = Some k → cl_pool k = Some p →
  cl_netloc k = n → pl_clients pq !! n = Some l → nl_queue l = [] →
  put_at w p pq n (l <| nl_busy ::= λ Y, Y ∖ {[ c ]} |> <| nl_free ::= λ Y, Y ∪ {[ c ]} |>) w' →
  cw_clients w' = cw_clients w → cw_reqs w' = cw_reqs w →
  CInv D HD None None w'.
Proof.
  intros Hi Hk Hp Hn Hl Hq Hput Ec Er. pose proof Hi as [I1 I2 I3 I4 I5 I6 I7].
  set (l' := l <| nl_busy ::= λ Y, Y ∖ {[ c ]} |> <| nl_free ::= λ Y, Y ∪ {[ c ]} |>) in *.
  pose proof (pa_uris _ _ _ _ _ _ Hput) as Eu. pose proof (env_uris _ _ Eu) as Eu'. pose proof (pa_pool _ _ _ _ _ _ Hput) as Hpq.
  destruct (co_hand _ _ _ _ _ _ (I1 c k Hk) n eq_refl) as [Hr _].
  assert (home None c k = (n, false)) as Hh by by unfold home; rewrite Hr, Hn.
  assert (∀ h c0, c0 ≠ c → in_list h l c0 ↔ in_list h l' c0) as Hin.
  { intros [] c0 Hne; subst l'; cbn; set_solver. }
  assert (in_list false l' c) as Hself by (subst l'; cbn; set_solver).
  pose proof (I3 p pq n l Hpq Hl) as [L1 L2 L3 L4 L5 L6].
  assert (c ∈ nl_busy l) as Hc.
  { destruct (co_pool _ _ _ _ _ _ (I1 c k Hk) p Hp) as (l0 & Hl0 & Hin0). rewrite home_hand in *.
    rewrite (list_at_lookup _ _ _ _ Hpq) in Hl0. by simplify_eq/=. }
  eapply (CInv_put D D HD HD (Some (c, n)) None); [done|done| | | | | | | |].
  - intros c0 k0. rewrite Ec. intros Hk0. destruct (decide (c0 = c)) as [->|Hne].
    + assert (k0 = k) as -> by congruence. destruct (I1 c k Hk) as [O1 O2 O3 O4 O5 O6 O8 O7]. split; try done.
      * intros r0 Hr0. congruence.
      * intros p0 Hp0. assert (p0 = p) as -> by congruence. rewrite Hh. exists l'.
        rewrite (put_at_list _ _ _ _ _ _ _ _ Hput), decide_True by done. done.
    + eapply (client_ok_frame w); [by apply I1|done| |by rewrite home_other|done|].
      * intros r q. rewrite Er. intros. split; [done|]. exists q. split; [done|apply same_request_refl].
      * intros p0 l0 n0 h. eapply put_at_in; [done|done| |done]. intros h0 c1 Hne1. by apply Hin.
  - intros r q. rewrite Er. intros Hrq Hnot.
    eapply (req_ok_frame w); [by apply (I2 r)|apply same_request_refl|done| |].
    + intros c0 k0. rewrite Ec. eauto.
    + intros p0 n0 l0. by eapply put_at_queue.
  - intros p0 pq0 n0 l0 Hp0 Hl0 Hne. eapply (list_ok_frame w); [by eapply I3|done| |].
    + intros c0 h k0 Hin0 Hk0 Hp1 Hh0. rewrite Ec. exists k0. split_and!; [done..|].
      destruct (decide (c0 = c)) as [->|]; [|by rewrite <-Hh0, home_other].
      rewrite home_hand in Hh0. congruence.
    + intros r q. rewrite Er. intros. split; [done|]. exists q. split; [done|apply same_request_refl].
  - split; [| |done| | |].
    + intros c0 h Hin0. rewrite Ec. destruct (decide (c0 = c)) as [->|Hne].
      * exists k. split_and!; [done..|]. rewrite Hh. destruct h; [|done]. subst l'. cbn in Hin0. set_solver.
      * apply Hin in Hin0; [|done]. destruct (L1 c0 h Hin0) as (k0 & Hk0 & Hp0 & Hh0). exists k0.
        split_and!; [done..|]. by rewrite <-Hh0, home_other.
    + intros r Hr0. cbn in Hr0. rewrite Hq in Hr0. by apply elem_of_nil in Hr0.
    + intros Hne. by cbn in Hne.
    + intros Hf. change (c ∈ nl_free l') in Hself. by rewrite Hf in Hself; apply elem_of_empty in Hself.
    + assert (c ∉ nl_free l) as Hcf.
      { intros Hcf. destruct (L1 c false Hcf) as (k0 & _ & _ & Hh0). by rewrite home_hand in Hh0. }
      subst l'. cbn. rewrite size_union, size_singleton by set_solver.
      rewrite size_difference, size_singleton by set_solver.
      assert (size (nl_busy l) ≠ 0%nat); [|lia]. rewrite size_empty_iff. set_solver.
  - done.
  - intros r. by rewrite (busy_at_eq w w') by by rewrite Er.
  - intros r. apply quiet_rounds, (pa_log _ _ _ _ _ _ Hput).
  - done.
Qed.

(** A free client becomes busy, and is in the pool's hands. *)
Lemma CInv_grab D HD w w' c p pq n l :
  CInv D HD None None w → pl_clients pq !! n = Some l → c ∈ nl_free l →
  put_at w p pq n (l <| nl_free ::= λ Y, Y ∖ {[ c ]} |> <| nl_busy ::= λ Y, Y ∪ {[ c ]} |>) w' →
  cw_clients w' = cw_clients w → cw_reqs w' = cw_reqs w →
  ∃ k, cw_clients w !! c = Some k ∧ cl_pool k = Some p ∧ cl_request k = None ∧
    CInv D HD (Some (c, n)) None w'.
Proof.
  intros Hi Hl Hc Hput Ec Er. pose proof Hi as [I1 I2 I3 I4 I5 I6 I7].
  set (l' := l <| nl_free ::= λ Y, Y ∖ {[ c ]} |> <| nl_busy ::= λ Y, Y ∪ {[ c ]} |>) in *.
  pose proof (pa_uris _ _ _ _ _ _ Hput) as Eu. pose proof (env_uris _ _ Eu) as Eu'. pose proof (pa_pool _ _ _ _ _ _ Hput) as Hpq.
  pose proof (I3 p pq n l Hpq Hl) as [L1 L2 L3 L4 L5 L6].
  destruct (L1 c false Hc) as (k & Hk & Hp & Hh).
  assert (cl_request k = None ∧ cl_netloc k = n) as [Hr Hn].
  { unfold home in Hh. by destruct (cl_request k); simplify_eq/=. }
  exists k. split_and!; [done..|].
  assert (nl_queue l = []) as Hq.
  { destruct (nl_queue l) eqn:Hq; [done|]. destruct L4 as [L4 _]; [done|]. set_solver. }
  assert (∀ h c0, c0 ≠ c → in_list h l c0 ↔ in_list h l' c0) as Hin.
  { intros [] c0 Hne; subst l'; cbn; set_solver. }
  assert (in_list true l' c) as Hself by (subst l'; cbn; set_solver).
  assert (c ∉ nl_busy l) as Hcb.
  { intros Hcb. destruct (L1 c true Hcb) as (k0 & Hk0 & _ & Hh0). congruence. }
  eapply (CInv_put D D HD HD None (Some (c, n))); [done|done| | | | | | | |].
  - intros c0 k0. rewrite Ec. intros Hk0. destruct (decide (c0 = c)) as [->|Hne].
    + assert (k0 = k) as -> by congruence. destruct (I1 c k Hk) as [O1 O2 O3 O4 O5 O6 O8 O7]. split; try done.
      * intros r0 Hr0. congruence.
      * intros n0 _. by rewrite Hr, Hp.
      * intros p0 Hp0. assert (p0 = p) as -> by congruence. rewrite home_hand. exists l'.
        by rewrite (put_at_list _ _ _ _ _ _ _ _ Hput), decide_True.
    + eapply (client_ok_frame w); [by apply I1|done| |by rewrite home_other|congruence|].
      * intros r q. rewrite Er. intros. split; [done|]. exists q. split; [done|apply same_request_refl].
      * intros p0 l0 n0 h. eapply put_at_in; [done|done| |done]. intros h0 c1 Hne1. by apply Hin.
  - intros r q. rewrite Er. intros Hrq Hnot.
    eapply (req_ok_frame w); [by apply (I2 r)|apply same_request_refl|done| |].
    + intros c0 k0. rewrite Ec. eauto.
    + intros p0 n0 l0. by eapply put_at_queue.
  - intros p0 pq0 n0 l0 Hp0 Hl0 Hne. eapply (list_ok_frame w); [by eapply I3|done| |].
    + intros c0 h k0 Hin0 Hk0 Hp1 Hh0. rewrite Ec. exists k0. split_and!; [done..|].
      destruct (decide (c0 = c)) as [->|]; [|by rewrite <-Hh0, home_other]. congruence.
    + intros r q. rewrite Er. intros. split; [done|]. exists q. split; [done|apply same_request_refl].
  - split; [| |done| | |].
    + intros c0 h Hin0. rewrite Ec. destruct (decide (c0 = c)) as [->|Hne].
      * exists k. split_and!; [done..|]. rewrite home_hand. destruct h; [done|]. subst l'. cbn in Hin0. set_solver.
      * apply Hin in Hin0; [|done]. destruct (L1 c0 h Hin0) as (k0 & Hk0 & Hp0 & Hh0). exists k0.
        split_and!; [done..|]. by rewrite <-Hh0, home_other.
    + intros r Hr0. cbn in Hr0. rewrite Hq in Hr0. by apply elem_of_nil in Hr0.
    + intros Hne. by cbn in Hne.
    + intros _. change (c ∈ nl_busy l') in Hself. set_solver.
    + subst l'. cbn. rewrite (size_union (nl_busy l)), size_singleton by set_solver.
      rewrite size_difference, size_singleton by set_solver.
      assert (size (nl_free l) ≠ 0%nat); [|lia]. rewrite size_empty_iff. set_solver.
  - done.
  - intros r. by rewrite (busy_at_eq w w') by by rewrite Er.
  - intros r. apply quiet_rounds, (pa_log _ _ _ _ _ _ Hput).
  - done.
Qed.

(** A new client starts busy in a list without free clients, or in a new list. *)
Lemma CInv_new D HD w w' c k p pq n (ol : option NetLocList) l' :
  CInv D HD None None w → cw_clients w !! c = None → cl_pool k = Some p →
  cl_request k = None → cl_context k = None → cl_form_field k = -1 →
  cl_redirect_canceled k = false → cl_in_redirect k = false →
  pl_clients pq !! n = ol →
  match ol with
  | None => l' = mkNLL ∅ {[ c ]} [] 0
  | Some l => nl_free l = ∅ ∧ Z.of_nat (size (nl_busy l)) < pl_max_connections pq ∧
      l' = l <| nl_busy ::= λ Y, Y ∪ {[ c ]} |>
  end →
  put_at w p pq n l' w' →
  cw_clients w' = <[c := k]> (cw_clients w) → cw_reqs w' = cw_reqs w →
  CInv D HD (Some (c, n)) None w'.
Proof.
  intros Hi Hc Hp Hr Hctx Hff Hcan Hinr Hl Hl' Hput Ec Er. pose proof Hi as [I1 I2 I3 I4 I5 I6 I7].
  pose proof (pa_uris _ _ _ _ _ _ Hput) as Eu. pose proof (env_uris _ _ Eu) as Eu'. pose proof (pa_pool _ _ _ _ _ _ Hput) as Hpq.
  assert (∀ p0 pq0 n0 l0 h, cw_pools w !! p0 = Some pq0 → pl_clients pq0 !! n0 = Some l0 →
    in_list h l0 c → False) as Hnew.
  { intros p0 pq0 n0 l0 h Hp0 Hl0 Hin. destruct (lo_in _ _ _ _ _ _ _ (I3 _ _ _ _ Hp0 Hl0) c h Hin) as (k0 & Hk0 & _).
    congruence. }
  assert (nl_queue l' = [] ∧ nl_free l' = ∅ ∧ c ∈ nl_busy l' ∧
    Z.of_nat (size (nl_busy l')) ≤ Z.max 1 (pl_max_connections pq) ∧
    (∀ l0, ol = Some l0 → nl_queue l0 = [] ∧ nl_free l0 = ∅ ∧ nl_busy l' = nl_busy l0 ∪ {[ c ]}) ∧
    (ol = None → nl_busy l' = {[ c ]})) as (Hq & Hf & Hself & Hmax & Hold & Hnone).
  { destruct ol as [l|].
    - destruct Hl' as (Hf & Hb & ->). destruct (I3 p pq n l Hpq Hl) as [L1 L2 L3 L4 L5 L6].
      assert (nl_queue l = []) as Hq.
      { destruct (nl_queue l) eqn:Hq; [done|]. destruct L4 as [_ L4]; [done|]. lia. }
      cbn. split_and!; [done|done|set_solver| |by intros ? [= <-]|done].
      rewrite size_union, size_singleton; [lia|].
      intros c0 Hc0 ->%elem_of_singleton. by eapply (Hnew p pq n l true).
    - subst l'. cbn. split_and!; [done|done|set_solver|rewrite size_singleton; lia|done|done]. }
  eapply (CInv_put D D HD HD None (Some (c, n))); [done|done| | | | | | | |].
  - intros c0 k0. rewrite Ec. intros [[<- <-]|[Hne Hk0]]%lookup_insert_Some.
    + split; try congruence.
      * intros n0 _. by rewrite Hr, Hp.
      * intros p0 Hp0. assert (p0 = p) as -> by congruence. rewrite home_hand. exists l'.
        by rewrite (put_at_list _ _ _ _ _ _ _ _ Hput), decide_True.
    + eapply (client_ok_frame w); [by apply I1|done| |by rewrite home_other|congruence|].
      * intros r q. rewrite Er. intros. split; [done|]. exists q. split; [done|apply same_request_refl].
      * intros p0 l0 n0 h Hl0 Hin0. rewrite (put_at_list _ _ _ _ _ _ _ _ Hput).
        destruct (decide _) as [[-> ->]|]; [|by exists l0]. exists l'. split; [done|].
        rewrite (list_at_lookup _ _ _ _ Hpq) in Hl0. destruct (Hold l0) as (_ & Hf0 & Hb0); [congruence|].
        destruct h; cbn in *; set_solver.
  - intros r q. rewrite Er. intros Hrq Hnot.
    eapply (req_ok_frame w); [by apply (I2 r)|apply same_request_refl|done| |].
    + intros c0 k0 Hk0 Hr0. exists k0. rewrite Ec, lookup_insert_ne; [done|congruence].
    + intros p0 n0 l0 Hl0 Hin0. rewrite (put_at_list _ _ _ _ _ _ _ _ Hput).
      destruct (decide _) as [[-> ->]|]; [|by exists l0].
      rewrite (list_at_lookup _ _ _ _ Hpq) in Hl0. destruct (Hold l0) as (Hq0 & _); [congruence|].
      rewrite Hq0 in Hin0. by apply elem_of_nil in Hin0.
  - intros p0 pq0 n0 l0 Hp0 Hl0 Hne. eapply (list_ok_frame w); [by eapply I3|done| |].
    + intros c0 h k0 Hin0 Hk0 Hp1 Hh0. rewrite Ec. assert (c0 ≠ c) as Hcc by congruence.
      exists k0. rewrite lookup_insert_ne by done. split_and!; [done..|]. by rewrite <-Hh0, home_other.
    + intros r q. rewrite Er. intros. split; [done|]. exists q. split; [done|apply same_request_refl].
  - split; [| | | | |].
    + intros c0 h Hin0. rewrite Ec. destruct (decide (c0 = c)) as [->|Hne].
      * exists k. rewrite lookup_insert_eq, home_hand. split_and!; [done..|].
        destruct h; [done|]. cbn in Hin0. set_solver.
      * rewrite lookup_insert_ne by done. destruct h; cbn in Hin0; [|set_solver]. destruct ol as [l|].
        -- destruct (Hold l) as (_ & _ & Hb); [done|]. rewrite Hb in Hin0.
           apply elem_of_union in Hin0 as [Hin0|Hin0%elem_of_singleton]; [|done].
           destruct (lo_in _ _ _ _ _ _ _ (I3 p pq n l Hpq Hl) c0 true Hin0) as (k0 & Hk0 & Hp0 & Hh0).
           exists k0. split_and!; [done..|]. by rewrite <-Hh0, home_other.
        -- rewrite Hnone in Hin0 by done. set_solver.
    + intros r Hr0. rewrite Hq in Hr0. by apply elem_of_nil in Hr0.
    + rewrite Hq. constructor.
    + by rewrite Hq.
    + intros _. set_solver.
    + rewrite Hf, size_empty. lia.
  - done.
  - intros r. by rewrite (busy_at_eq w w') by by rewrite Er.
  - intros r. apply quiet_rounds, (pa_log _ _ _ _ _ _ Hput).
  - done.
Qed.

(** What a waiting request is like. *)
Lemma queue_request D HD K X w p pq n l r :
  CInv D HD K X w → cw_pools w !! p = Some pq → pl_clients pq !! n = Some l → r ∈ nl_queue l →
  r ∉ HD ∧ (∃ q, cw_reqs w !! r = Some q ∧ rq_client q = None ∧ rq_pool q = Some p ∧
    netloc_of w q = Some n ∧ shape w q n ∧ good w q ∧ low q).
Proof.
  intros [I1 I2 I3 I4 I5 I6 I7] Hpq Hl Hr.
  destruct (lo_queue _ _ _ _ _ _ _ (I3 p pq n l Hpq Hl) r Hr) as (HH & q & Hq & Hc & Hp & Hn & Hs).
  split; [done|]. exists q. split_and!; [done..| |].
  - apply (ro_good _ _ _ (I2 r q Hq HH)). unfold busy_rq. by rewrite Hp, orb_true_r.
  - eapply hops_low; [apply (I7 r)|done|done|]. by rewrite Hc.
Qed.

(** A request leaves a queue. *)
Lemma CInv_unqueue D HD K X w w' p pq n l i r :
  CInv D HD K X w → pl_clients pq !! n = Some l → nl_queue l !! i = Some r →
  put_at w p pq n (set_queue l (delete i (nl_queue l))) w' →
  cw_clients w' = cw_clients w → cw_reqs w' = cw_reqs w →
  CInv (due r 1 D) ({[ r ]} ∪ HD) K X w'.
Proof.
  intros Hi Hl Hri Hput Ec Er. pose proof Hi as [I1 I2 I3 I4 I5 I6 I7].
  set (l' := set_queue l (delete i (nl_queue l))) in *.
  pose proof (pa_uris _ _ _ _ _ _ Hput) as Eu. pose proof (env_uris _ _ Eu) as Eu'. pose proof (pa_pool _ _ _ _ _ _ Hput) as Hpq.
  pose proof (list_elem_of_lookup_2 _ _ _ Hri) as Hr.
  destruct (queue_request _ _ _ _ _ _ _ _ _ _ Hi Hpq Hl Hr) as (HrD & q & Hq & Hc & Hp & Hn & _).
  pose proof (I3 p pq n l Hpq Hl) as [L1 L2 L3 L4 L5 L6].
  assert (nl_queue l ≡ₚ r :: nl_queue l') as Hperm by by apply delete_Permutation.
  assert (∀ r0, r0 ∈ nl_queue l ↔ r0 = r ∨ r0 ∈ nl_queue l') as Hin.
  { intros r0. by rewrite Hperm, elem_of_cons. }
  assert (r ∉ nl_queue l' ∧ NoDup (nl_queue l')) as [Hr' Hnd].
  { rewrite Hperm in L3. by apply NoDup_cons in L3. }
  assert (∀ h, in_list h l' = in_list h l) as Hil by by intros [].
  eapply (CInv_put D (due r 1 D) HD ({[ r ]} ∪ HD) K K X); [done|done| | | | | | | |].
  - intros c0 k0. rewrite Ec. intros Hk0.
    eapply (client_ok_frame w); [by apply I1|done| |done|done|].
    + intros r0 q0 Hr0 HH Hq0 Hc0. rewrite Er. split; [|by exists q0; split; [|apply same_request_refl]].
      intros [->%elem_of_singleton|]%elem_of_union; [|done]. congruence.
    + intros p0 l0 n0 h Hl0 Hin0. rewrite (put_at_list _ _ _ _ _ _ _ _ Hput).
      destruct (decide _) as [[-> ->]|]; [|by exists l0]. exists l'. split; [done|].
      rewrite (list_at_lookup _ _ _ _ Hpq) in Hl0. simplify_eq. by rewrite Hil.
  - intros r0 q0. rewrite Er. intros Hq0 Hnot.
    eapply (req_ok_frame w); [apply (I2 r0); [done|set_solver]|apply same_request_refl|done| |].
    + intros c0 k0. rewrite Ec. eauto.
    + intros p0 n0 l0. eapply put_at_queue; [done|done|]. rewrite Hin. set_solver.
  - intros p0 pq0 n0 l0 Hp0 Hl0 Hne. eapply (list_ok_frame w); [by eapply I3|done| |].
    + intros c0 h k0. rewrite Ec. eauto.
    + intros r0 q0 Hr0 HH Hq0 Hc0. rewrite Er. split; [|by exists q0; split; [|apply same_request_refl]].
      intros [->%elem_of_singleton|]%elem_of_union; [|done].
      destruct (queue_request _ _ _ _ _ _ _ _ _ _ Hi Hp0 Hl0 Hr0) as (_ & q1 & Hq1 & _ & Hp1 & Hn1 & _).
      congruence.
  - split; [| |done| |done|done].
    + intros c0 h. rewrite Hil, Ec. apply L1.
    + intros r0 Hr0. destruct (L2 r0) as (HH & q0 & Hq0 & Hc0 & Hp0 & Hn0 & Hs0); [rewrite Hin; by right|].
      split; [intros [->%elem_of_singleton|]%elem_of_union; done|]. exists q0. rewrite Er.
      split_and!; [done..| |]; [by rewrite (netloc_of_uris w w')|by eapply shape_uris].
    + intros Hne. apply L4. intros Hnil. rewrite Hnil in Hr. by apply elem_of_nil in Hr.
  - done.
  - intros r0. rewrite ledger_due, (busy_at_eq w w') by by rewrite Er. destruct (decide (r0 = r)) as [->|].
    + rewrite (bool_decide_true (r = r)), bool_decide_false, bool_decide_true by set_solver.
      rewrite (busy_at_lookup _ _ _ Hq). unfold busy_rq. rewrite Hp, orb_true_r. cbn. lia.
    + rewrite (bool_decide_false (r0 = r)) by done.
      rewrite (bool_decide_ext (r0 ∈ {[r]} ∪ HD) (r0 ∈ HD)) by set_solver. lia.
  - intros r0. apply taken_rounds; [apply (pa_log _ _ _ _ _ _ Hput)|done].
  - set_solver.
Qed.

(** A request in the library's hands goes to the end of a queue. *)
Lemma CInv_enqueue D HD X w w' p pq n l r q :
  CInv D HD None X w → pl_clients pq !! n = Some l → cw_reqs w !! r = Some q → r ∈ HD →
  rq_client q = None → rq_pool q = Some p → netloc_of w q = Some n → shape w q n → good w q → low q →
  nl_free l = ∅ → pl_max_connections pq ≤ Z.of_nat (size (nl_busy l)) →
  put_at w p pq n (set_queue l (nl_queue l ++ [r])) w' →
  cw_clients w' = cw_clients w → cw_reqs w' = cw_reqs w →
  CInv (due r (-1) D) (HD ∖ {[ r ]}) None X w'.
Proof.
  intros Hi Hl Hq Hr Hc Hp Hn Hs Hg Hlow Hf Hb Hput Ec Er. pose proof Hi as [I1 I2 I3 I4 I5 I6 I7].
  set (l' := set_queue l (nl_queue l ++ [r])) in *.
  pose proof (pa_uris _ _ _ _ _ _ Hput) as Eu. pose proof (env_uris _ _ Eu) as Eu'. pose proof (pa_pool _ _ _ _ _ _ Hput) as Hpq.
  pose proof (I3 p pq n l Hpq Hl) as [L1 L2 L3 L4 L5 L6].
  assert (∀ h, in_list h l' = in_list h l) as Hil by by intros [].
  assert (∀ r0, r0 ∈ nl_queue l' ↔ r0 ∈ nl_queue l ∨ r0 = r) as Hin.
  { intros r0. subst l'. cbn. rewrite elem_of_app, list_elem_of_singleton. done. }
  assert (r ∉ nl_queue l) as Hnew by by intros Hin0; destruct (L2 r Hin0).
  eapply (CInv_put D (due r (-1) D) HD (HD ∖ {[ r ]}) None None X); [done|done| | | | | | | |].
  - intros c0 k0. rewrite Ec. intros Hk0.
    eapply (client_ok_frame w); [by apply I1|done| |done|done|].
    + intros r0 q0 Hr0 HH Hq0 Hc0. rewrite Er. split; [set_solver|].
      exists q0. split; [done|apply same_request_refl].
    + intros p0 l0 n0 h Hl0 Hin0. rewrite (put_at_list _ _ _ _ _ _ _ _ Hput).
      destruct (decide _) as [[-> ->]|]; [|by exists l0]. exists l'. split; [done|].
      rewrite (list_at_lookup _ _ _ _ Hpq) in Hl0. simplify_eq. by rewrite Hil.
  - intros r0 q0. rewrite Er. intros Hq0 Hnot. destruct (decide (r0 = r)) as [->|Hne].
    + assert (q0 = q) as -> by congruence. split; [congruence| |intros _; by eapply good_uris].
      intros p0 _ Hp0. assert (p0 = p) as -> by congruence. exists n, l'.
      rewrite (netloc_of_uris w w'), (put_at_list _ _ _ _ _ _ _ _ Hput), decide_True by done.
      split_and!; [done..|]. rewrite Hin. by right.
    + eapply (req_ok_frame w); [apply (I2 r0); [done|set_solver]|apply same_request_refl|done| |].
      * intros c0 k0. rewrite Ec. eauto.
      * intros p0 n0 l0. eapply put_at_queue; [done|done|]. rewrite Hin. by left.
  - intros p0 pq0 n0 l0 Hp0 Hl0 Hne. eapply (list_ok_frame w); [by eapply I3|done| |].
    + intros c0 h k0. rewrite Ec. eauto.
    + intros r0 q0 Hr0 HH Hq0 Hc0. rewrite Er. split; [set_solver|].
      exists q0. split; [done|apply same_request_refl].
  - split; [| | | |done|done].
    + intros c0 h. rewrite Hil, Ec. apply L1.
    + intros r0 [Hr0| ->]%Hin.
      * destruct (L2 r0 Hr0) as (HH & q0 & Hq0 & Hc0 & Hp0 & Hn0 & Hs0). split; [set_solver|].
        exists q0. rewrite Er. split_and!; [done..| |]; [by rewrite (netloc_of_uris w w')|by eapply shape_uris].
      * split; [set_solver|]. exists q. rewrite Er.
        split_and!; [done..| |]; [by rewrite (netloc_of_uris w w')|by eapply shape_uris].
    + subst l'. cbn. apply NoDup_app. split_and!; [done| |apply NoDup_singleton].
      intros r0 Hr0 ->%list_elem_of_singleton. done.
    + intros _. done.
  - done.
  - intros r0. rewrite ledger_due, (busy_at_eq w w') by by rewrite Er. destruct (decide (r0 = r)) as [->|].
    + rewrite (bool_decide_true (r = r)), bool_decide_true, bool_decide_false by set_solver.
      rewrite (busy_at_lookup _ _ _ Hq). unfold busy_rq. rewrite Hp, orb_true_r. cbn. lia.
    + rewrite (bool_decide_false (r0 = r)) by done.
      rewrite (bool_decide_ext (r0 ∈ HD ∖ {[r]}) (r0 ∈ HD)) by set_solver. lia.
  - intros r0. by apply given_rounds; [destruct Hput|].
  - intros r0 q0 Hq0 Hin0 Hout. destruct (decide (r0 = r)) as [->|]; [|by destruct Hout; apply elem_of_difference; rewrite elem_of_singleton].
    assert (q0 = q) as -> by congruence. split; [done|]. unfold busy_rq. by rewrite Hp, orb_true_r.
Qed.

End Moves.
