(* ===== verification/PoolSpecs.v ===== *)
(** * What a pool's operations promise

    [request] and [putback] keep the invariant, whatever the depth at which a reset
    could come back to [cancel]. *)
From S2P Require Import Prelude Errors Proto ClientProto ClientState ClientOps Form Client Pool UserAgent ClientStep ClientInv ClientSpecs ClientMoves.
Local Open Scope Z_scope.

Section Lookups.
Context `{ClientProto} {T : fault → Prop}.
Local Abbreviation wp := (wpf T).
Implicit Types (w : CWorld) (E : exn → CWorld → Prop).

Lemma wp_get_pool w p pq Q E : cw_pools w !! p = Some pq → Q pq w → wp (get_pool p) Q E w.
Proof. intros Hq HQ. apply wp_bind, wp_gets. by eapply wp_deref. Qed.

Lemma wp_find_list w p pq n Q E :
  cw_pools w !! p = Some pq → Q (pl_clients pq !! n) w → wp (find_list p n) Q E w.
Proof. intros Hq HQ. apply wp_bind. eapply wp_get_pool; [done|]. by apply wp_ret. Qed.

Lemma quiet_log_refl l : quiet_log l l.
Proof. done. Qed.

Lemma quiet_log_trans l1 l2 l3 : quiet_log l1 l2 → quiet_log l2 l3 → quiet_log l1 l3.
Proof. intros H1 H2 r. by destruct (H1 r) as (<- & <- & <-), (H2 r) as (<- & <- & <-). Qed.

Lemma wp_put_list w p pq n l Q E :
  cw_pools w !! p = Some pq →
  (∀ w', put_at w p pq n l w' → cw_clients w' = cw_clients w → cw_reqs w' = cw_reqs w →
    Q tt w') →
  wp (put_list p n l) Q E w.
Proof.
  intros Hpq HQ. apply wp_modify, HQ; [|done..]. split; try done.
  exists (pq <| pl_clients ::= <[n := l]> |>). cbn. split_and!; try done.
  by apply alter_alt_Some.
Qed.

Lemma CInv_ext D D' HD K X w : CInv D HD K X w → (∀ r, D' r = D r) → CInv D' HD K X w.
Proof.
  intros [I1 I2 I3 I4 I5 I6 I7] HDD. split; try done; intros r; [by rewrite HDD|].
  eapply (hops_same w); [apply I7|done|done| |done|auto]. unfold rounds. by rewrite HDD.
Qed.
End Lookups.

(** ** Rules that hold whatever is tolerated *)

Section Quiet.
Context `{ClientProto} `{!ClientProtoLaws} `{!ClientEnv} `{!ClientEnvLaws} `{!CCallbacks} {T : fault → Prop}.
Local Abbreviation wp := (wpf T).
Implicit Types (w : CWorld) (E : exn → CWorld → Prop) (k : Client) (q : CRequest).

Lemma ckept_at w c r k k' q q' w' :
  cw_clients w !! c = Some k → cw_reqs w !! r = Some q → At w c r k' q' w' →
  (rq_ssl_ctx q = None → rq_ssl_ctx q' = None) →
  cl_in_redirect k' = cl_in_redirect k →
  (cl_redirect_canceled k = true → cl_redirect_canceled k' = true) →
  (cl_in_redirect k = true → cl_redirect_canceled k' = false →
    cl_request k' = cl_request k ∧ cl_response k' = cl_response k ∧
    cl_context k' = cl_context k) →
  ckept w w'.
Proof.
  intros Hk Hq [Ec Er Ep Eu El] Hssl Hi Hc Hs. split.
  - intros c0 Hc0. rewrite Ec. destruct (decide (c0 = c)) as [->|];
      [rewrite lookup_insert_eq; by eexists|by rewrite lookup_insert_ne].
  - intros r0 q0 Hq0. rewrite Er. destruct (decide (r0 = r)) as [->|].
    + rewrite lookup_insert_eq. exists q'. simplify_eq. done.
    + rewrite lookup_insert_ne by done. by exists q0.
  - by rewrite (env_uris _ _ Eu).
  - by rewrite Ep.
  - intros c0. unfold of_client. rewrite Ec. destruct (decide (c0 = c)) as [->|];
      [by rewrite lookup_insert_eq, Hk|by rewrite lookup_insert_ne].
  - intros c0. unfold of_client. rewrite Ec. destruct (decide (c0 = c)) as [->|];
      [rewrite lookup_insert_eq, Hk; apply Hc|by rewrite lookup_insert_ne].
  - intros c0. unfold of_client. rewrite Ec. destruct (decide (c0 = c)) as [->|];
      [rewrite lookup_insert_eq, Hk; apply Hs|by rewrite lookup_insert_ne].
Qed.

Lemma ckept_same w w' :
  cw_clients w' = cw_clients w →
  (∀ r q, cw_reqs w !! r = Some q →
    ∃ q', cw_reqs w' !! r = Some q' ∧ (rq_ssl_ctx q = None → rq_ssl_ctx q' = None)) →
  (∀ i, is_Some (cw_uris w !! i) → is_Some (cw_uris w' !! i)) →
  (∀ p, is_Some (cw_pools w !! p) → is_Some (cw_pools w' !! p)) → ckept w w'.
Proof. intros Ec Er Eu Ep. split; unfold of_client; rewrite ?Ec; auto. Qed.

Lemma ckept_put w p pq n l w' :
  put_at w p pq n l w' → cw_clients w' = cw_clients w → cw_reqs w' = cw_reqs w → ckept w w'.
Proof.
  intros [Hpq (pq' & Ep & _) Eu _] Ec Er. apply ckept_same; [done|rewrite Er; by eauto|by rewrite (env_uris _ _ Eu)|].
  intros p0 Hp0. rewrite Ep. destruct (decide (p0 = p)) as [->|];
    [rewrite lookup_insert_eq; by eexists|by rewrite lookup_insert_ne].
Qed.

Lemma wp_mod_rq w r q f Q E :
  cw_reqs w !! r = Some q →
  (∀ w', cw_clients w' = cw_clients w → cw_reqs w' = <[r := f q]> (cw_reqs w) →
    cw_pools w' = cw_pools w → env_of w' = env_of w → cw_log w' = cw_log w → Q tt w') →
  wp (mod_rq r f) Q E w.
Proof. intros Hq HQ. apply wp_modify, HQ; try done. cbn. by apply alter_alt_Some. Qed.

Lemma ckept_reqs w w' r q q' :
  cw_clients w' = cw_clients w → cw_reqs w !! r = Some q → cw_reqs w' = <[r := q']> (cw_reqs w) →
  cw_pools w' = cw_pools w → env_of w' = env_of w →
  (rq_ssl_ctx q = None → rq_ssl_ctx q' = None) → ckept w w'.
Proof.
  intros Ec Hq Er Ep Eu Hssl. apply ckept_same; [done| |by rewrite (env_uris _ _ Eu)|by rewrite Ep].
  intros r0 q0 Hq0. rewrite Er. destruct (decide (r0 = r)) as [->|].
  - rewrite lookup_insert_eq. exists q'. simplify_eq. done.
  - rewrite lookup_insert_ne by done. by exists q0.
Qed.

Lemma wp_ensure_timer w r q Q E :
  cw_reqs w !! r = Some q →
  (∀ w' q', cw_clients w' = cw_clients w → cw_reqs w' = <[r := q']> (cw_reqs w) →
    cw_pools w' = cw_pools w → env_of w' = env_of w → quiet_log (cw_log w) (cw_log w') →
    same_request q q' → Q tt w') →
  wp (ensure_timer_active r) Q E w.
Proof.
  intros Hq HQ. apply wp_bind. eapply wp_get_rq; [done|]. case_match.
  - apply wp_ret, (HQ w q); try done. by rewrite insert_id.
  - apply wp_bind. case_match.
    + apply wp_ret. eapply wp_mod_rq; [done|]. intros w' Ec Er Ep Eu El.
      eapply HQ; try done. by rewrite El.
    + apply wp_modify. eapply wp_mod_rq; [done|]. intros w' Ec Er Ep Eu El.
      eapply HQ; try done. rewrite El. by apply quiet_cons.
Qed.

Lemma good_same_request w q q' : same_request q q' → good w q → good w q'.
Proof. apply good_same. Qed.

(** The choice of a client: one that the pool then holds, or a place in the queue. *)
Lemma wp_choose_client D HD w p pq r q n E :
  CInv D HD None None w → cw_pools w !! p = Some pq → cw_reqs w !! r = Some q → r ∈ HD →
  rq_client q = None → rq_pool q = Some p → good w q → low q → netloc_of w q = Some n → shape w q n →
  wp (choose_client p r n)
    (λ o w', ckept w w' ∧ match o with
      | Some c => CInv D HD (Some (c, n)) None w' ∧ cw_reqs w' = cw_reqs w ∧ env_of w' = env_of w ∧
          ∃ k, cw_clients w' !! c = Some k ∧ cl_pool k = Some p ∧ cl_request k = None
      | None => CInv (due r (-1) D) (HD ∖ {[ r ]}) None None w'
      end) E w.
Proof.
  intros Hi Hpq Hq HrD Hc Hp Hg Hlow Hn Hs.
  assert (∀ ol l', pl_clients pq !! n = ol →
    match ol with
    | None => l' = (λ c, mkNLL ∅ {[ c ]} [] 0)
    | Some l => nl_free l = ∅ ∧ Z.of_nat (size (nl_busy l)) < pl_max_connections pq ∧
        l' = (λ c, l <| nl_busy ::= λ Y, Y ∪ {[ c ]} |>)
    end →
    wp (c ← new_client p; put_list p n (l' c) ;; mret (Some c))
      (λ o w', ckept w w' ∧ match o with
        | Some c => CInv D HD (Some (c, n)) None w' ∧ cw_reqs w' = cw_reqs w ∧ env_of w' = env_of w ∧
            ∃ k, cw_clients w' !! c = Some k ∧ cl_pool k = Some p ∧ cl_request k = None
        | None => CInv (due r (-1) D) (HD ∖ {[ r ]}) None None w'
        end) E w) as Hnew.
  { intros ol l' Hol Hl'. apply wp_bind. unfold new_client. apply wp_bind. eapply wp_get_pool; [done|].
    rewrite (ci_factory _ _ _ _ _ Hi p pq Hpq). apply wp_bind, wp_gets, wp_bind, wp_modify, wp_ret.
    set (c := fresh (dom (cw_clients w))).
    assert (cw_clients w !! c = None) as Hfresh by apply not_elem_of_dom, is_fresh.
    apply wp_bind. eapply wp_put_list; [done|]. intros w' [P1 P2 P3 P4] Ec Er. apply wp_ret.
    split; [|split_and!; [|done|done|]].
    - split.
      + intros c0 [k0 Hk0]. rewrite Ec. cbn. rewrite lookup_insert_ne by congruence. by exists k0.
      + rewrite Er. cbn. by eauto.
      + by rewrite (env_uris _ _ P3).
      + intros p0. destruct P2 as (pq' & -> & _). cbn. destruct (decide (p0 = p)) as [->|];
          [rewrite lookup_insert_eq; by eexists|by rewrite lookup_insert_ne].
      + intros c0. unfold of_client. rewrite Ec. cbn. destruct (decide (c0 = c)) as [->|];
          [by rewrite lookup_insert_eq, Hfresh|by rewrite lookup_insert_ne].
      + intros c0. unfold of_client. rewrite Ec. cbn. destruct (decide (c0 = c)) as [->|];
          [by rewrite lookup_insert_eq, Hfresh|by rewrite lookup_insert_ne].
      + intros c0. unfold of_client. rewrite Ec. cbn. destruct (decide (c0 = c)) as [->|];
          [by rewrite lookup_insert_eq, Hfresh|by rewrite lookup_insert_ne].
    - eapply (CInv_new D HD w w' c _ p pq n ol (l' c)); [done|done|..|exact Ec|done]; try done.
      destruct ol as [l|]; [destruct Hl' as (? & ? & ->)|rewrite Hl']; done.
    - rewrite Ec. cbn. rewrite lookup_insert_eq. by eexists. }
  apply wp_bind. eapply wp_find_list; [done|].
  destruct (pl_clients pq !! n) as [l|] eqn:Hl; [|by eapply (Hnew None (λ c, mkNLL ∅ {[ c ]} [] 0))].
  destruct (set_begin (nl_free l)) as [c|] eqn:Hb.
  - apply set_begin_in in Hb. apply wp_bind. eapply wp_put_list; [done|]. intros w' Hput Ec Er. apply wp_ret.
    split; [by eapply ckept_put|].
    destruct (CInv_grab _ _ _ _ _ _ _ _ _ Hi Hl Hb Hput Ec Er) as (k & Hk & Hkp & Hkr & Hi').
    split_and!; [done|done|apply (pa_uris _ _ _ _ _ _ Hput)|]. exists k. by rewrite Ec.
  - apply set_begin_none in Hb. apply wp_bind. eapply wp_get_pool; [done|].
    destruct (Z.ltb_spec (Z.of_nat (size (nl_busy l))) (pl_max_connections pq)) as [Hlt|Hge].
    + by eapply (Hnew (Some l) (λ c, l <| nl_busy ::= λ Y, Y ∪ {[ c ]} |>)).
    + apply wp_bind. eapply wp_put_list; [done|]. intros w1 Hput Ec Er.
      assert (CInv (due r (-1) D) (HD ∖ {[ r ]}) None None w1) as Hi1 by by eapply CInv_enqueue.
      assert (ckept w w1) as Hk1 by by eapply ckept_put.
      apply wp_bind. eapply wp_get_rq; [by rewrite Er|]. apply wp_bind.
      destruct (negb _); [|by apply wp_ret, wp_ret].
      eapply wp_ensure_timer; [by rewrite Er|]. intros w2 q2 Ec2 Er2 Ep2 Eu2 El2 Hq2. apply wp_ret.
      split; [eapply ckept_trans; [done|]|].
      { eapply ckept_reqs; [done|by rewrite Er|done..|]. by rewrite (sm_ssl_ctx _ _ Hq2). }
      eapply (CInv_request _ _ _ _ w1 w2 r q q2); try done; [by rewrite Er|apply (sm_client _ _ Hq2)
        |apply (sm_pool _ _ Hq2)|by apply listeners_ok_same| | | |apply (sm_limit _ _ Hq2)|apply (sm_counter _ _ Hq2)].
      * by apply good_same.
      * intros n0. by apply shape_same.
      * intros _. by apply netloc_of_same.
Qed.

End Quiet.

(** ** The calls that start a client *)

Section PoolSpecs.
Context `{ClientProto} `{!ClientProtoLaws} `{!ClientEnv} `{!ClientEnvLaws} `{!CCallbacks} {Nz : Noisy}.
Local Abbreviation wp := (wpf tolerated).
Context (cancel_ : ClientId → option ErrorCode → M CWorld unit).
Local Instance pool_client_ops : ClientOps := client_ops_over cancel_.
Implicit Types (w : CWorld) (E : exn → CWorld → Prop) (k : Client) (q : CRequest).

(** [Client::request] on a client that a pool holds, or that belongs to no pool. *)
Lemma wp_client_start D HD K w c r k q n :
  CInv D HD K None w → cw_clients w !! c = Some k → cw_reqs w !! r = Some q →
  cl_request k = None → r ∈ HD → K = (_ ← cl_pool k; Some (c, n)) →
  rq_client q = None → good w q → low q → netloc_of w q = Some n → (cl_pool k ≠ None → shape w q n) →
  wp (client_request cancel_ c r)
    (λ _ w', CInv (due r (-1) D) (HD ∖ {[ r ]}) None None w' ∧ ckept w w' ∧
      cw_pools w' = cw_pools w ∧ env_of w' = env_of w ∧
      (∀ r', r' ≠ r → cw_reqs w' !! r' = cw_reqs w !! r') ∧
      (∀ c', c' ≠ c → cw_clients w' !! c' = cw_clients w !! c') ∧
      ∃ k', cw_clients w' !! c = Some k' ∧ cl_request k' = Some r)
    escapes w.
Proof.
  intros Hi Hk Hq Hr HrD HK Hc Hg Hlow Hn Hs.
  pose proof (ci_client _ _ _ _ _ Hi c k Hk) as Ho.
  eapply (at_client_request w); [by apply At_start|done|done|apply (co_form _ _ _ _ _ _ Ho)|done|done|].
  intros w' k' q' HA Hk' Hq'. split_and!.
  - by eapply CInv_give; [exact Hi|..]; try done; apply (co_form _ _ _ _ _ _ Ho).
  - eapply ckept_at; [done|done|exact HA| |apply (so_in_redirect _ _ Hk')| |].
    + by rewrite (sm_ssl_ctx _ _ Hq').
    + by rewrite (so_canceled _ _ Hk').
    + intros Hin. rewrite (so_canceled _ _ Hk'). cbn. intros Hcan.
      destruct (co_redirect _ _ _ _ _ _ Ho Hin) as [|[]]; congruence.
  - apply (at_pools _ _ _ _ _ _ HA).
  - apply (at_env _ _ _ _ _ _ HA).
  - intros r' Hne. by rewrite (at_reqs _ _ _ _ _ _ HA), lookup_insert_ne.
  - intros c' Hne. by rewrite (at_clients _ _ _ _ _ _ HA), lookup_insert_ne.
  - exists k'. rewrite (at_clients _ _ _ _ _ _ HA), lookup_insert_eq. split; [done|].
    apply (so_request _ _ Hk').
Qed.

(** Requests in the library's hands, and the URIs, stay as they are. *)
Definition held_kept (HD : gset RqId) w w' : Prop :=
  env_of w' = env_of w ∧ ∀ r, r ∈ HD → cw_reqs w' !! r = cw_reqs w !! r.

(** [Pool::putback]. *)
Lemma wp_putback D HD w p c k :
  CInv D HD (Some (c, cl_netloc k)) None w → cw_clients w !! c = Some k → cl_pool k = Some p →
  wp (pool_do_putback p c) (λ _ w', CInv D HD None None w' ∧ ckept w w' ∧ held_kept HD w w') escapes w.
Proof.
  intros Hi Hk Hp. destruct (client_listed _ _ _ _ _ _ _ _ Hi Hk Hp) as (pq & l & Hpq & Hl & Hin & Hlo).
  rewrite home_hand in *. cbn in Hl, Hin.
  apply wp_bind. eapply wp_get_client; [done|]. apply wp_bind. eapply wp_find_list; [done|].
  rewrite Hl. apply wp_bind, wp_assert; [done|]. apply wp_bind. eapply wp_deref; [done|].
  destruct (co_hand _ _ _ _ _ _ (ci_client _ _ _ _ _ Hi c k Hk) _ eq_refl) as [Hr _].
  destruct (nl_queue l) as [|r rest] eqn:Hq.
  - apply wp_bind, wp_assert; [by apply bool_decide_eq_true|].
    eapply wp_put_list; [done|]. intros w' Hput Ec Er.
    split_and!; [by eapply CInv_free|by eapply ckept_put|]. split; [apply (pa_uris _ _ _ _ _ _ Hput)|by rewrite Er].
  - apply wp_bind. eapply wp_put_list; [done|]. intros w1 Hput Ec Er.
    assert (r ∈ nl_queue l) as Hrin by (rewrite Hq; by left).
    destruct (queue_request _ _ _ _ _ _ _ _ _ _ Hi Hpq Hl Hrin) as (HrD & q & Hq' & Hc & Hqp & Hn & Hs & Hg & Hlow).
    assert (CInv (due r 1 D) ({[ r ]} ∪ HD) (Some (c, cl_netloc k)) None w1) as Hi1.
    { eapply (CInv_unqueue _ _ _ _ w w1 p pq _ l 0 r); [done|done|by rewrite Hq| |done|done]. by rewrite Hq. }
    pose proof (pa_uris _ _ _ _ _ _ Hput) as Eu.
    eapply wp_mono; [eapply wp_client_start with (k := k) (q := q); [exact Hi1|by rewrite Ec|by rewrite Er|done|set_solver|by rewrite Hp|done| |done| |]| |].
    + by eapply good_uris.
    + by rewrite (netloc_of_uris w).
    + intros _. by eapply shape_uris.
    + intros _ w2 (Hi2 & Hk2 & _ & Eu2 & Hr2 & _). split_and!.
      * replace HD with (({[ r ]} ∪ HD) ∖ {[ r ]}) by set_solver.
        eapply CInv_ext; [exact Hi2|]. intros x. rewrite !ledger_due. case_bool_decide; lia.
      * eapply ckept_trans; [by eapply ckept_put|done].
      * split; [congruence|]. intros r0 Hr0. rewrite Hr2, Er; [done|]. by intros ->.
    + done.
Qed.

(** [Pool::request]. *)
Lemma wp_pool_request D HD w p pq r q n :
  CInv D HD None None w → cw_pools w !! p = Some pq → cw_reqs w !! r = Some q → r ∈ HD →
  rq_client q = None → good w q → low q → netloc_of w q = Some n → shape w q n →
  wp (pool_do_request p r)
    (λ _ w', CInv (due r (-1) D) (HD ∖ {[ r ]}) None None w' ∧ ckept w w') escapes w.
Proof.
  intros Hi Hpq Hq HrD Hc Hg Hlow Hn Hs.
  apply wp_bind. eapply wp_request_check; [done|done|]. apply wp_bind.
  eapply wp_mod_rq; [done|]. intros w1 Ec Er Ep Eu El.
  set (q1 := q <| rq_pool := Some p |>) in *.
  assert (cw_reqs w1 !! r = Some q1) as Hq1 by by rewrite Er, lookup_insert_eq.
  assert (good w1 q1) as Hg1 by (eapply good_uris; [done|]; by destruct Hg).
  assert (CInv D HD None None w1) as Hi1 by (eapply CInv_held; [exact Hi|..]; try done; by rewrite El).
  apply wp_bind. eapply (wp_request_netloc _ _ q1 n); [done| | |].
  { by rewrite (netloc_of_uris w). }
  { intros x. by apply good_proxy. }
  apply wp_bind. eapply wp_mono; [eapply (wp_choose_client D HD w1 p pq r q1 n escapes); try done;
    [by rewrite Ep|by rewrite (netloc_of_uris w)|by eapply (shape_uris w)]| |done].
  intros [c|] w2 [Hk2 Hi2].
  - destruct Hi2 as (Hi2 & Er2 & Eu2 & k & Hk & Hkp & Hkr). apply wp_bind.
    eapply wp_mono; [eapply (wp_client_start D HD (Some (c, n)) w2 c r k q1 n); try done| |done].
    + by rewrite Er2.
    + by rewrite Hkp.
    + by eapply good_uris.
    + rewrite (netloc_of_uris w1), (netloc_of_uris w) by done. done.
    + intros _. eapply shape_uris; [exact Eu2|]. by eapply (shape_uris w).
    + intros _ w3 (Hi3 & Hk3 & _). apply wp_ret. split; [done|].
      eapply ckept_trans; [by eapply (ckept_reqs w w1 r q q1)|]. by eapply ckept_trans.
  - apply wp_bind, wp_ret, wp_ret. split; [done|]. eapply ckept_trans; [by eapply (ckept_reqs w w1 r q q1)|done].
Qed.

End PoolSpecs.
