(* ===== verification/ClientFinish.v ===== *)
(** * Finishing a request: the client against the interface of its pool

    [PoolLaws] is what a client relies on of its pool, [CallbackLaws] what the
    library relies on of the user's code. Against these two, finishing a request
    and cancelling keep the invariant. *)
From S2P Require Import Prelude Errors Proto ClientProto ClientState ClientOps Form Client Pool UserAgent ClientStep ClientInv ClientSpecs ClientMoves PoolSpecs.
Local Open Scope Z_scope.

Section Laws.
Context `{ClientProto} `{!ClientEnv} {Nz : Noisy}.
Local Abbreviation wp := (wpf tolerated).
Implicit Types (w : CWorld).

(** What a client relies on of its pool: neither call throws but for OpenSSL; [putback] finds work
    for the client or a place among the free ones; [request] accepts. *)
Class PoolLaws {PO : PoolOps} := {
  putback_ok : ∀ D HD w p c k,
    CInv D HD (Some (c, cl_netloc k)) None w → cw_clients w !! c = Some k → cl_pool k = Some p →
    wp (pool_putback p c) (λ _ w', CInv D HD None None w' ∧ ckept w w' ∧ held_kept HD w w') escapes w;
  pool_request_ok : ∀ D HD w p r q n,
    CInv D HD None None w → is_Some (cw_pools w !! p) → cw_reqs w !! r = Some q → r ∈ HD →
    rq_client q = None → good w q → low q → netloc_of w q = Some n → shape w q n →
    wp (pool_request p r)
      (λ _ w', CInv (due r (-1) D) (HD ∖ {[ r ]}) None None w' ∧ ckept w w') escapes w
}.

(** The final events of a request that is being cancelled out of a queue, which it
    has not left yet. *)
Definition is_agent (l : ReqListener) : Prop :=
  match l with LAgent _ _ _ => True | LSync _ => False end.
Definition unqueuing w (ev : CEvent) : Prop :=
  ∃ r q p n l, (∃ res e, ev = CEvPartial r res (Some e) ∨ ev = CEvResponse r res (Some e)) ∧
    cw_reqs w !! r = Some q ∧ rq_pool q = None ∧ Forall is_agent (rq_listeners q) ∧
    list_at w p n = Some l ∧ r ∈ nl_queue l.

Lemma listeners_agents w q : listeners_ok w q → Forall is_agent (rq_listeners q).
Proof. intros [L _]. eapply Forall_impl; [exact L|]. by intros []. Qed.

(** The objects an event is about exist. *)
Definition event_ok w (ev : CEvent) : Prop :=
  is_Some (cw_reqs w !! event_request ev) ∧
  match ev with CEvRedirect _ _ ctx => is_Some (cw_uris w !! rc_uri ctx) | _ => True end.

(** What the library relies on of the user's code: an event's listeners keep the
    invariant and throw nothing but for OpenSSL; they do nothing while a request is being cancelled
    out of a queue. *)
Class CallbackLaws {CB : CCallbacks} := {
  cfire_ok : ∀ D ev w, CInv D ∅ None None w → event_ok w ev →
    wp (cfire ev) (λ _ w', CInv D ∅ None None w' ∧ ckept w w') (event_escapes ev) w;
  cfire_unqueuing : ∀ ev w, unqueuing w ev → cfire ev w = Ok tt w
}.
End Laws.

Section PoolImplementation.
Context `{ClientProto} `{!ClientProtoLaws} `{!ClientEnv} `{!ClientEnvLaws} `{!CCallbacks} {Nz : Noisy}.

(** The pool keeps its promise. *)
Lemma pool_laws cancel_ :
  PoolLaws (PO := pool_ops_over_client (CO := client_ops_over cancel_)).
Proof.
  split.
  - intros D HD w p c k Hi Hk Hp. by eapply wp_putback.
  - intros D HD w p r q n Hi [pq Hpq] Hq Hr Hc Hg Hlow Hn Hs. by eapply wp_pool_request.
Qed.
End PoolImplementation.

Section Finish.
Context `{ClientProto} `{!ClientProtoLaws} `{!ClientEnv} `{!ClientEnvLaws} {Nz : Noisy}.
Local Abbreviation wp := (wpf tolerated).
Context {CB : CCallbacks} `{!CallbackLaws}.
Implicit Types (w : CWorld) (k : Client) (q : CRequest).
Local Abbreviation inv D w := (CInv D ∅ None None w).

Lemma CInv_clients_same D HD K X w w' :
  CInv D HD K X w → cw_clients w' = cw_clients w → cw_reqs w' = cw_reqs w →
  cw_pools w' = cw_pools w → env_of w' = env_of w → cw_log w' = cw_log w → CInv D HD K X w'.
Proof. intros Hi Ec Er Ep Eu El. eapply CInv_log; try done. by rewrite El. Qed.

(** [Request::finish_and_notify] on a request in the library's hands. *)
Lemma wp_finish_and_notify D w r q res err :
  CInv D {[ r ]} None None w → cw_reqs w !! r = Some q →
  wp (finish_and_notify r res err)
    (λ _ w', inv (due r (-1) D) w' ∧ ckept w w') escapes w.
Proof.
  intros Hi Hq. unfold finish_and_notify, cleanup_after_redirect, clear_timer, emit_event.
  apply wp_bind. eapply wp_mod_rq; [done|]. intros w1 Ec1 Er1 Ep1 Eu1 El1.
  apply wp_bind. eapply wp_mod_rq; [by rewrite Er1, lookup_insert_eq|]. intros w2 Ec2 Er2 Ep2 Eu2 El2.
  apply wp_bind. eapply wp_mod_rq; [by rewrite Er2, lookup_insert_eq|]. intros w3 Ec3 Er3 Ep3 Eu3 El3.
  rewrite Er2, Er1, !insert_insert_eq in Er3.
  match type of Er3 with _ = <[_ := ?q']> _ => set (q3 := q') in Er3 end.
  assert (CInv D ∅ None None w3) as Hi3.
  { replace ∅ with ({[r]} ∖ {[r]} : gset RqId) by set_solver.
    eapply (CInv_put_down _ _ _ _ w w3 r q q3); try done; [set_solver|congruence..|].
    by rewrite El3, El2, El1. }
  assert (ckept w w3) as Hk3.
  { eapply (ckept_reqs w w3 r q q3); [congruence|done|done|congruence|congruence|done]. }
  apply wp_bind, wp_bind, wp_modify. set (w4 := w3 <| cw_log ::= _ |>).
  assert (CInv D ∅ None None w4) as Hi4 by (eapply CInv_log; try done; by apply quiet_cons).
  assert (is_Some (cw_reqs w4 !! r)) as Hr4 by (cbn; rewrite Er3, lookup_insert_eq; by eexists).
  eapply wp_mono; [by apply cfire_ok| |by intros ? ? []]. intros [] w5 [Hi5 Hk5].
  apply wp_bind, wp_modify. set (w6 := w5 <| cw_log ::= _ |>).
  assert (CInv (due r (-1) D) ∅ None None w6) as Hi6.
  { eapply CInv_same; [exact Hi5|done..|]. intros r0. rewrite ledger_due. split_and!; [done..|]. unfold answered. cbn.
    destruct (decide (r = r0)) as [->|];
      [rewrite !bool_decide_true by done|rewrite !bool_decide_false by done]; cbn; lia. }
  assert (is_Some (cw_reqs w6 !! r)) as Hr6.
  { destruct Hr4 as [q4 Hq4]. destruct (ck_reqs _ _ Hk5 r q4 Hq4) as (q5 & Hq5 & _). by exists q5. }
  eapply wp_mono; [by apply cfire_ok| |by intros ? ? []]. intros [] w7 [Hi7 Hk7]. split; [done|].
  eapply ckept_trans; [exact Hk3|]. eapply ckept_trans; [by apply (ckept_same w3 w4); eauto|].
  eapply ckept_trans; [exact Hk5|]. eapply ckept_trans; [by apply (ckept_same w5 w6); eauto|done].
Qed.

(** ** Cancelling a queued request *)

Lemma queue_index_in r l : r ∈ l → ∃ i, queue_index r l = Some i ∧ l !! i = Some r.
Proof.
  induction l as [|x l IH]; [by intros ?%elem_of_nil|]. intros Hr. cbn.
  case_bool_decide as Hx; [subst; by exists 0%nat|].
  apply elem_of_cons in Hr as [->|Hr]; [done|]. destruct (IH Hr) as (i & -> & Hi). by exists (S i).
Qed.

Lemma queue_index_none r l : r ∉ l → queue_index r l = None.
Proof.
  induction l as [|x l IH]; intros Hr; [done|]. cbn. rewrite not_elem_of_cons in Hr. destruct Hr as [Hx Hr].
  rewrite bool_decide_false by done. by rewrite IH.
Qed.

(** The notifications of a request that is still in its queue change nothing else. *)
Lemma wp_notify_queued w r q p n l res e (Q : unit → CWorld → Prop) :
  cw_reqs w !! r = Some q → listeners_ok w q → list_at w p n = Some l → r ∈ nl_queue l →
  (∀ w' q', cw_clients w' = cw_clients w → cw_reqs w' = <[r := q']> (cw_reqs w) →
    cw_pools w' = cw_pools w → env_of w' = env_of w →
    (∀ x, submitted x (cw_log w') = submitted x (cw_log w) ∧ redirected x (cw_log w') = redirected x (cw_log w) ∧
          answered x (cw_log w') = answered x (cw_log w) + (if bool_decide (x = r) then 1 else 0)) →
    rq_client q' = None → rq_pool q' = None → listeners_ok w q' →
    rq_ssl_ctx q' = rq_ssl_ctx q → rq_redirection_limit q' = rq_redirection_limit q →
    rq_redirection_counter q' = 0 → Q tt w') →
  wp (finish_and_notify r res (Some e)) Q escapes w.
Proof.
  intros Hq Hlis Hl Hr HQ. unfold finish_and_notify, cleanup_after_redirect, clear_timer, emit_event.
  apply wp_bind. eapply wp_mod_rq; [done|]. intros w1 Ec1 Er1 Ep1 Eu1 El1.
  apply wp_bind. eapply wp_mod_rq; [by rewrite Er1, lookup_insert_eq|]. intros w2 Ec2 Er2 Ep2 Eu2 El2.
  apply wp_bind. eapply wp_mod_rq; [by rewrite Er2, lookup_insert_eq|]. intros w3 Ec3 Er3 Ep3 Eu3 El3.
  rewrite Er2, Er1, !insert_insert_eq in Er3.
  match type of Er3 with _ = <[_ := ?q']> _ => set (q3 := q') in Er3 end.
  assert (∀ w', cw_reqs w' = cw_reqs w3 → cw_pools w' = cw_pools w3 →
    ∀ ev, (∃ x y, ev = CEvPartial r x (Some y) ∨ ev = CEvResponse r x (Some y)) → unqueuing w' ev) as Hun.
  { intros w' Er' Ep' ev Hev. exists r, q3, p, n, l. split_and!; [done|by rewrite Er', Er3, lookup_insert_eq|done|by eapply listeners_agents| |done].
    rewrite <-Hl. apply list_at_pools. congruence. }
  apply wp_bind, wp_bind, wp_modify. set (w4 := w3 <| cw_log ::= _ |>).
  unfold wpf at 1. rewrite (cfire_unqueuing _ w4); [|apply Hun; eauto].
  apply wp_bind, wp_modify. set (w5 := w4 <| cw_log ::= _ |>).
  unfold wpf. rewrite (cfire_unqueuing _ w5); [|apply Hun; eauto].
  apply (HQ w5 q3); try done; [cbn; congruence..|change (env_of w3 = env_of w); congruence|].
  intros x. unfold submitted, answered, redirected. subst w5 w4. cbn. rewrite El3, El2, El1.
  destruct (decide (r = x)) as [->|]; [rewrite !bool_decide_true by done|rewrite !bool_decide_false by done];
    cbn; lia.
Qed.

(** [Pool::cancel_request]. *)
Lemma wp_pool_cancel D w p r q e :
  inv D w → cw_reqs w !! r = Some q → rq_client q = None → rq_pool q = Some p →
  wp (pool_cancel_request p r (Some e)) (λ _ w', inv D w' ∧ ckept w w') escapes w.
Proof.
  intros Hi Hq Hc Hp.
  destruct (ro_queued _ _ _ (ci_req _ _ _ _ _ Hi r q Hq ltac:(set_solver)) p Hc Hp) as (n & l & Hn & Hl & Hr).
  assert (good w q) as Hg.
  { apply (ro_good _ _ _ (ci_req _ _ _ _ _ Hi r q Hq ltac:(set_solver))). unfold busy_rq. by rewrite Hp, orb_true_r. }
  destruct (cw_pools w !! p) as [pq|] eqn:Hpq; [|by unfold list_at in Hl; rewrite Hpq in Hl].
  rewrite (list_at_lookup _ _ _ _ Hpq) in Hl.
  destruct (queue_index_in r (nl_queue l) Hr) as (i & Hidx & Hri).
  apply wp_bind. eapply wp_request_netloc; [done|done|intros x; by apply good_proxy|].
  apply wp_bind. eapply wp_find_list; [done|]. rewrite Hl.
  apply wp_bind, wp_assert; [done|]. apply wp_bind. eapply wp_deref; [done|]. rewrite Hidx.
  apply wp_bind. eapply (wp_notify_queued w r q p n l); [done|by apply (eo_listeners _ (ci_env _ _ _ _ _ Hi) r)
    |by rewrite (list_at_lookup _ _ _ _ Hpq)|done|].
  intros w1 q1 Ec1 Er1 Ep1 Eu1 El1 Hc1 Hp1 Hlis1 Hssl1 Hlim1 Hcnt1.
  apply wp_bind. eapply wp_find_list; [by rewrite Ep1|]. rewrite Hl, bool_decide_true by done.
  eapply wp_put_list; [by rewrite Ep1|]. intros w2 [P1 (pq' & P2 & P3 & P4 & P5) P6 P7] Ec2 Er2.
  set (l' := set_queue l (delete i (nl_queue l))) in *.
  set (wa := w <| cw_pools := <[p := pq']> (cw_pools w) |>).
  set (wb := wa <| cw_reqs := <[r := q1]> (cw_reqs wa) |>).
  assert (put_at w p pq n l' wa) as Hput.
  { split; [done| |done|done]. exists pq'. split_and!; try done. }
  pose proof (CInv_unqueue _ _ _ _ w wa p pq n l i r Hi Hl Hri Hput eq_refl eq_refl) as Hia.
  assert (CInv (due r 1 D) ∅ None None wb) as Hib.
  { replace ∅ with (({[r]} ∪ ∅) ∖ {[r]} : gset RqId) by set_solver.
    eapply (CInv_put_down _ _ _ _ wa wb r q q1); [exact Hia|done|set_solver|try done..].
    intros _. by apply (listeners_ok_env w). }
  split.
  - eapply CInv_same; [exact Hib|cbn; congruence|cbn; congruence|cbn; congruence|change (env_of w2 = env_of w); congruence|].
    intros x. destruct (P7 x) as (-> & -> & ->), (El1 x) as (-> & -> & ->). rewrite ledger_due.
    change (cw_log wb) with (cw_log w). split_and!; [done..|]. lia.
  - eapply ckept_same; [congruence| | |].
    + intros r0 q0 Hq0. rewrite Er2, Er1. destruct (decide (r0 = r)) as [->|].
      * exists q1. rewrite lookup_insert_eq. split; [done|]. simplify_eq. congruence.
      * exists q0. by rewrite lookup_insert_ne.
    + rewrite (env_uris _ _ P6), (env_uris _ _ Eu1). done.
    + intros p0 Hp0. rewrite P2, Ep1. destruct (decide (p0 = p)) as [->|];
        [rewrite lookup_insert_eq; by eexists|by rewrite lookup_insert_ne].
Qed.

(** ** Finishing an active request *)

Context {PO : PoolOps} `{!PoolLaws}.
Context (cancel_ : ClientId → option ErrorCode → M CWorld unit).

(** A world like [w] but for one client and one request, reached through the world
    in which only the client has changed. *)
Definition client_changed w c k' : CWorld := w <| cw_clients ::= <[c := k']> |>.

(** The request is taken from its client, which goes back to its pool. *)
Lemma take_at D X w0 c k r q k1 q1 w1 :
  CInv D ∅ None X w0 → cw_clients w0 !! c = Some k → cl_request k = Some r →
  cw_reqs w0 !! r = Some q → (X = None ∨ X = Some c) → At w0 c r k1 q1 w1 →
  cl_request k1 = None → cl_context k1 = None → cl_pool k1 = cl_pool k →
  cl_netloc k1 = cl_netloc k → cl_form_field k1 = -1 →
  cl_in_redirect k1 = cl_redirect_canceled k1 → (listeners_ok w0 q → listeners_ok w0 q1) →
  rq_redirection_limit q1 = rq_redirection_limit q → rq_redirection_counter q1 = rq_redirection_counter q →
  CInv (due r 1 D) {[ r ]} (_ ← cl_pool k1; Some (c, cl_netloc k1)) None w1.
Proof.
  intros Hi Hk Hr Hq HX [Ec Er Ep Eu El] R1 R2 R3 R4 R5 R6 R7 R8 R9.
  pose proof (CInv_take _ _ _ w0 (client_changed w0 c k1) c k k1 r Hi Hk Hr HX eq_refl eq_refl eq_refl
    eq_refl (quiet_log_refl _) R1 R2 R3 R4 R5 R6) as Hi1.
  rewrite <-R3, <-R4, (right_id_L ∅ (∪)) in Hi1.
  eapply (CInv_held _ _ _ _ (client_changed w0 c k1) w1 r q q1); [exact Hi1|done|set_solver|try done..].
  intros Hl. apply (listeners_ok_env w0); [done|]. apply R7. by apply (listeners_ok_env (client_changed w0 c k1)).
Qed.

Lemma wp_client_now w c k Q E :
  cw_clients w !! c = Some k → (∀ t, Q t w) → wp (client_now c) Q E w.
Proof. intros Hk HQ. apply wp_bind. eapply wp_get_client; [done|]. by apply wp_gets. Qed.

(** Back to the pool, if there is one. *)
Lemma wp_back D HD w c k :
  CInv D HD (_ ← cl_pool k; Some (c, cl_netloc k)) None w → cw_clients w !! c = Some k →
  wp (match cl_pool k with Some p => pool_putback p c | None => mret tt end)
    (λ _ w', CInv D HD None None w' ∧ ckept w w' ∧ held_kept HD w w') escapes w.
Proof.
  intros Hi Hk. destruct (cl_pool k) as [p|] eqn:Hp; [by eapply putback_ok|].
  apply wp_ret. split_and!; [done|apply ckept_refl|done].
Qed.

(** [Client::finish_request]. *)
Lemma wp_finish D X w0 c k r q k1 w1 err :
  CInv D ∅ None X w0 → cw_clients w0 !! c = Some k → cl_request k = Some r →
  cw_reqs w0 !! r = Some q → (X = None ∨ X = Some c) → At w0 c r k1 q w1 →
  cl_request k1 = Some r → cl_context k1 = None → cl_pool k1 = cl_pool k →
  cl_netloc k1 = cl_netloc k → cl_form_field k1 = -1 →
  cl_in_redirect k1 = cl_in_redirect k → cl_redirect_canceled k1 = cl_in_redirect k →
  (err ≠ None ∨ is_Some (cl_response k1)) →
  wp (client_finish_request cancel_ c err) (λ _ w', inv D w' ∧ ckept w0 w') escapes w1.
Proof.
  intros Hi Hk Hr Hq HX HA R1 R2 R3 R4 R5 R6 R7 Herr. unfold client_finish_request.
  at_steps. at_deref R1. at_steps.
  set (err' := match err with Some _ => _ | None => _ end).
  assert (∃ keep, wp (match err' with
    | Some _ => mret false
    | None => x ← deref (cl_response k1); mret (resp_keep_alive (rp_msg x) && cm_keep_alive (rq_msg q))
    end) (λ b w', b = keep ∧ w' = w) escapes w) as [keep Hkeep].
  { destruct err' as [e|] eqn:He; [by exists false|].
    destruct Herr as [Herr|[x Hx]]; [by destruct err|]. rewrite Hx. eexists. by cbn. }
  eapply wp_mono; [exact Hkeep| |done]. intros b ? [-> ->]. at_steps.
  set (k2 := k1 <| cl_request := None |> <| cl_response := None |>) in HA.
  assert (∀ wa ka, At w0 c r ka q wa → stream_only k2 ka → wp
    (k ← get_client c;
     (if 0 <=? cl_form_field k then form_item_stop r (cl_form_field k) ;;
        mod_client c (λ k, k <| cl_form_field := -1 |>) else mret tt) ;;
     now ← client_now c;
     mod_client c (λ k, k <| cl_last_activity_time := now |>) ;;
     match cl_pool k with Some p => pool_putback p c | None => mret tt end ;;
     finish_and_notify r (cl_response k1) err')
    (λ _ w', inv D w' ∧ ckept w0 w') escapes wa) as Hrest.
  { clear HA. intros wa ka HA [S1 S2 S3 S4 S5 S6 S7 S8]. cbn in S1, S2, S3, S4, S5, S6, S7, S8.
    at_steps. rewrite S8, R5. cbn [Z.leb Z.compare]. at_steps.
    eapply wp_client_now; [by rewrite (at_clients _ _ _ _ _ _ HA), lookup_insert_eq|]. intros t. at_steps.
    set (k3 := ka <| cl_last_activity_time := t |>) in HA.
    assert (CInv (due r 1 D) {[ r ]} (_ ← cl_pool k3; Some (c, cl_netloc k3)) None w2) as Hi2.
    { eapply (take_at D X w0 c k r q k3 q w2); try done; cbn; congruence. }
    change (cl_pool ka) with (cl_pool k3).
    assert (cw_clients w2 !! c = Some k3) as Hk3 by by rewrite (at_clients _ _ _ _ _ _ HA), lookup_insert_eq.
    assert (ckept w0 w2) as Hck.
    { eapply ckept_at; [done|done|exact HA|done|cbn; congruence|..]; cbn; rewrite S7; cbn; rewrite R7; [|congruence].
      intros Hcan. destruct (co_canceled _ _ _ _ _ _ (ci_client _ _ _ _ _ Hi c k Hk) Hcan). done. }
    eapply wp_mono; [by eapply wp_back|intros [] w3 (Hi3 & Hk3' & Hh)|done].
    assert (cw_reqs w3 !! r = Some q) as Hq3.
    { destruct Hh as [_ ->]; [|set_solver]. by rewrite (at_reqs _ _ _ _ _ _ HA), lookup_insert_eq. }
    eapply wp_mono; [by eapply wp_finish_and_notify|intros [] w4 [Hi4 Hk4]|done]. split.
    - eapply CInv_ext; [exact Hi4|]. intros x. rewrite !ledger_due. case_bool_decide; lia.
    - eapply ckept_trans; [exact Hck|]. by eapply ckept_trans. }
  destruct keep.
  - unfold set_weak. at_step. by eapply Hrest.
  - eapply at_drop_connection; [exact HA|]. intros wa ka HA' Hka _. by eapply Hrest.
Qed.

(** [Client::cancel] with an error. *)
Lemma wp_cancel_with D X w c k e :
  CInv D ∅ None X w → cw_clients w !! c = Some k → (X = None ∨ X = Some c) →
  wp (client_cancel_with cancel_ c (Some e)) (λ _ w', inv D w' ∧ ckept w w') escapes w.
Proof.
  intros Hi Hk HX. apply wp_bind. eapply wp_get_client; [done|].
  pose proof (ci_client _ _ _ _ _ Hi c k Hk) as Ho.
  destruct (cl_request k) as [r|] eqn:Hr.
  - destruct (co_request _ _ _ _ _ _ Ho r Hr) as (_ & q & Hq & _).
    pose proof (At_start w c r k q Hk Hq) as HA. at_steps.
    set (k1 := k <| cl_parser := rparser_init |> <| cl_context := None |>) in HA.
    pose proof (co_form _ _ _ _ _ _ Ho) as Hf.
    destruct (cl_in_redirect k) eqn:Hin.
    + at_steps. eapply wp_finish; [exact Hi|done|done|done|done|exact HA|..]; try done; by left.
    + at_steps. eapply wp_finish; [exact Hi|done|done|done|done|exact HA|..]; try done; [|by left].
      cbn. destruct (cl_redirect_canceled k) eqn:Hcan; [|done].
      by rewrite (co_canceled _ _ _ _ _ _ Ho Hcan) in Hin.
  - apply wp_ret. split; [|apply ckept_refl].
    eapply (CInv_client _ _ _ X None w w c k k); try done; try apply Ho; [right; right; congruence|by rewrite insert_id|congruence].
Qed.

End Finish.
