(* ===== verification/ClientRead.v ===== *)
(** * Reading responses and following redirects

    The client's input operations keep the invariant, against the interfaces of the
    pool and of the user's code, and against what cancelling promises. *)
From S2P Require Import Prelude Errors Proto ClientProto ClientState ClientOps Form Client Pool UserAgent ClientStep ClientInv ClientSpecs ClientMoves PoolSpecs ClientFinish.
Local Open Scope Z_scope.

Section Read.
Context `{ClientProto} `{!ClientProtoLaws} `{!ClientEnv} `{!ClientEnvLaws} {Nz : Noisy}.
Local Abbreviation wp := (wpf tolerated).
Context {CB : CCallbacks} `{!CallbackLaws} {PO : PoolOps} `{!PoolLaws}.
Context (cancel_ : ClientId → option ErrorCode → M CWorld unit).
Local Abbreviation inv D w := (CInv D ∅ None None w).
Hypothesis cancel_ok : ∀ D X w c e,
  CInv D ∅ None X w → is_Some (cw_clients w !! c) → (X = None ∨ X = Some c) →
  wp (cancel_ c (Some e)) (λ _ w', inv D w' ∧ ckept w w') escapes w.
Implicit Types (w : CWorld) (k : Client) (q : CRequest).

Lemma CInv_weaken D HD K X w : CInv D HD K None w → CInv D HD K X w.
Proof.
  intros [I1 I2 I3 I4 I5 I6 I7]. split; try done.
  - intros c k Hk. destruct (I1 c k Hk) as [O1 O2 O3 O4 O5 O6 O8 O7]. split; try done.
    intros r Hr. destruct (O4 r Hr) as [|[|[=]]]; auto.
  - intros r. eapply hops_same; [apply I7|done..|]. by intros q _ ?%not_excused.
Qed.

Lemma wp_mod_client w c k f Q E :
  cw_clients w !! c = Some k →
  (∀ w', cw_clients w' = <[c := f k]> (cw_clients w) → cw_reqs w' = cw_reqs w →
    cw_pools w' = cw_pools w → env_of w' = env_of w → cw_log w' = cw_log w → Q tt w') →
  wp (mod_client c f) Q E w.
Proof. intros Hk HQ. apply wp_modify, HQ; try done. cbn. by apply alter_alt_Some. Qed.

(** A change of a client that keeps it out of redirects. *)
Lemma ckept_client w w' c k k' :
  cw_clients w !! c = Some k → cw_clients w' = <[c := k']> (cw_clients w) →
  cw_reqs w' = cw_reqs w → cw_pools w' = cw_pools w → env_of w' = env_of w →
  cl_in_redirect k = false → cl_in_redirect k' = false → cl_redirect_canceled k = false →
  ckept w w'.
Proof.
  intros Hk Ec Er Ep Eu Hi Hi' Hc. split; unfold of_client.
  - intros c0 Hc0. rewrite Ec. destruct (decide (c0 = c)) as [->|];
      [rewrite lookup_insert_eq; by eexists|by rewrite lookup_insert_ne].
  - rewrite Er. by eauto.
  - by rewrite (env_uris _ _ Eu).
  - by rewrite Ep.
  - intros c0. rewrite Ec. destruct (decide (c0 = c)) as [->|];
      [rewrite lookup_insert_eq, Hk; cbn; congruence|by rewrite lookup_insert_ne].
  - intros c0. rewrite Ec. destruct (decide (c0 = c)) as [->|];
      [rewrite lookup_insert_eq, Hk; cbn; congruence|by rewrite lookup_insert_ne].
  - intros c0. rewrite Ec. destruct (decide (c0 = c)) as [->|];
      [rewrite lookup_insert_eq, Hk; cbn; congruence|by rewrite lookup_insert_ne].
Qed.

(** A client enters its redirect's event and has left it in the end. *)
Lemma ckept_detour w w1 w2 w' c k k' :
  cw_clients w !! c = Some k → cl_in_redirect k = false → cl_redirect_canceled k = false →
  cw_clients w1 = <[c := k <| cl_in_redirect := true |>]> (cw_clients w) →
  cw_reqs w1 = cw_reqs w → cw_pools w1 = cw_pools w → env_of w1 = env_of w → ckept w1 w2 →
  cw_clients w' = <[c := k']> (cw_clients w2) → cl_in_redirect k' = false →
  cw_reqs w' = cw_reqs w2 → cw_pools w' = cw_pools w2 → env_of w' = env_of w2 → ckept w w'.
Proof.
  intros Hk Hin Hcan Ec1 Er1 Ep1 Eu1 [K1 K2 KU K3 K4 K5 K6] Ec Hin' Er Ep Eu.
  assert (∀ c0, c0 ≠ c → cw_clients w1 !! c0 = cw_clients w !! c0) as HA.
  { intros c0 Hne. by rewrite Ec1, lookup_insert_ne. }
  assert (∀ c0, c0 ≠ c → cw_clients w' !! c0 = cw_clients w2 !! c0) as HB.
  { intros c0 Hne. by rewrite Ec, lookup_insert_ne. }
  assert (cw_clients w' !! c = Some k') as HC by by rewrite Ec, lookup_insert_eq.
  split; unfold of_client in *.
  - intros c0 Hc0. destruct (decide (c0 = c)) as [->|Hne]; [rewrite HC; by eexists|].
    rewrite HB by done. apply K1. by rewrite HA.
  - intros r q Hq. rewrite Er. apply K2. by rewrite Er1.
  - intros i Hi. rewrite (env_uris _ _ Eu). apply KU. by rewrite (env_uris _ _ Eu1).
  - intros p Hp. rewrite Ep. apply K3. by rewrite Ep1.
  - intros c0. destruct (decide (c0 = c)) as [->|Hne]; [by rewrite HC, Hk; cbn; congruence|].
    rewrite HB, K4, HA; done.
  - intros c0. destruct (decide (c0 = c)) as [->|Hne]; [rewrite HC, Hk; cbn; congruence|].
    rewrite HB by done. intros Hc0. apply K5. by rewrite HA.
  - intros c0. destruct (decide (c0 = c)) as [->|Hne]; [rewrite HC, Hk; cbn; congruence|].
    rewrite HB by done. rewrite <-(HA c0 Hne). apply K6.
Qed.

(** The redirect's event: it is either followed, with the request as it was, or was
    cancelled from inside. *)
Lemma wp_notify_redirect D w c k r q res ctx :
  CInv D ∅ None (Some c) w → cw_clients w !! c = Some k → cl_request k = Some r →
  cl_response k = Some res → cl_in_redirect k = false → cl_context k = None →
  cw_reqs w !! r = Some q → rq_ssl_ctx q = None → is_Some (cw_uris w !! rc_uri ctx) → low q →
  (limited q → redirected r (cw_log w) + 1 ≤ rq_redirection_limit q * rounds D ∅ w r +
     Z.min (rq_redirection_counter q) (rq_redirection_limit q)) →
  wp (notify_redirect cancel_ c r res ctx)
    (λ go w', ckept w w' ∧ ∃ k', cw_clients w' !! c = Some k' ∧ cl_in_redirect k' = false ∧
      if go then CInv D ∅ None (Some c) w' ∧ cl_redirect_canceled k' = false ∧
        cl_request k' = Some r ∧ cl_response k' = Some res ∧ cl_context k' = None ∧
        ∃ q', cw_reqs w' !! r = Some q' ∧ rq_ssl_ctx q' = None ∧ low q'
      else inv D w') escapes w.
Proof.
  intros Hi Hk Hr Hres Hin Hctx Hq Hssl Hprev Hlow Hroom.
  pose proof (ci_client _ _ _ _ _ Hi c k Hk) as Ho.
  assert (cl_redirect_canceled k = false) as Hcan.
  { destruct (cl_redirect_canceled k) eqn:Hcan; [|done]. by rewrite (co_canceled _ _ _ _ _ _ Ho Hcan) in Hin. }
  unfold notify_redirect, emit_event. apply wp_bind. eapply wp_mod_client; [done|].
  intros w1 Ec1 Er1 Ep1 Eu1 El1. set (k1 := k <| cl_in_redirect := true |>) in Ec1.
  assert (inv D w1) as Hi1.
  { eapply (CInv_client _ _ _ (Some c) None w w1 c k k1); try done.
    - by right.
    - right. right. intros r0 q0 Hr0 Hq0. by simplify_eq.
    - by rewrite El1.
    - intros r0. cbn. by rewrite Hctx.
    - intros r0 _. right. by left.
    - intros _. right. cbn. by eexists. }
  assert (cw_clients w1 !! c = Some k1) as Hk1 by by rewrite Ec1, lookup_insert_eq.
  apply wp_bind, wp_try_catch, wp_bind, wp_bind, wp_modify.
  set (w2 := w1 <| cw_log ::= _ |>).
  assert (inv D w2) as Hi2.
  { eapply (CInv_redirect_event _ _ _ _ w1 r q); [done|by rewrite Er1|]. unfold rounds. by rewrite El1. }
  assert (event_ok w2 (CEvRedirect r res ctx)) as Hr2.
  { split; cbn; [rewrite Er1; by eexists|by rewrite (env_uris _ _ Eu1)]. }
  eapply wp_mono; [by apply cfire_ok| |].
  2: { intros e w3 [[Hfail _] Hnoisy]. by apply wp_bind, wp_modify, wp_pass_on; [|apply Hnoisy]. }
  intros [] w3 [Hi3 Hk3].
  assert (ckept w1 w3) as Hk13 by (eapply ckept_trans; [|exact Hk3]; apply ckept_same; eauto).
  destruct (ck_dom _ _ Hk13 c) as [k3 Hk3c]; [by rewrite Hk1|].
  pose proof (ck_inr _ _ Hk13 c) as Hin3. unfold of_client in Hin3. rewrite Hk3c, Hk1 in Hin3. cbn in Hin3.
  eapply wp_mod_client; [done|]. intros w4 Ec4 Er4 Ep4 Eu4 El4.
  apply wp_bind. eapply wp_get_client; [by rewrite Ec4, lookup_insert_eq|]. cbn [cl_redirect_canceled].
  pose proof (ci_client _ _ _ _ _ Hi3 c k3 Hk3c) as Ho3.
  change (cl_redirect_canceled (k3 <| cl_in_redirect := false |>)) with (cl_redirect_canceled k3).
  destruct (cl_redirect_canceled k3) eqn:Hcan3.
  - apply wp_bind. eapply wp_mod_client; [by rewrite Ec4, lookup_insert_eq|]. intros w5 Ec5 Er5 Ep5 Eu5 El5.
    rewrite Ec4, insert_insert_eq in Ec5.
    match type of Ec5 with _ = <[_ := ?k']> _ => set (k5 := k') in Ec5 end.
    apply wp_ret. split.
    + by eapply (ckept_detour w w1 w3 w5 c k k5); try done; congruence.
    + exists k5. split_and!; [by rewrite Ec5, lookup_insert_eq|done|].
      eapply (CInv_client _ _ _ None None w3 w5 c k3 k5); try done; try congruence.
      * by left.
      * by left.
      * rewrite El5, El4. done.
      * apply Ho3.
      * intros r0 Hr0. cbn in Hr0. destruct (co_has_context _ _ _ _ _ _ Ho3 r0 Hr0) as [|[[_ ?]|[=]]]; [by left|congruence].
  - apply wp_ret.
    assert (of_client cl_redirect_canceled false w3 c = false) as Hcan' by by unfold of_client; rewrite Hk3c.
    destruct (ck_serving _ _ Hk13 c) as (Es1 & Es2 & Es3); [by unfold of_client; rewrite Hk1|done|].
    unfold of_client in Es1, Es2, Es3. rewrite Hk3c, Hk1 in Es1, Es2, Es3. cbn in Es1, Es2, Es3.
    set (k4 := k3 <| cl_in_redirect := false |>) in Ec4.
    split.
    + by eapply (ckept_detour w w1 w3 w4 c k k4).
    + exists k4. split_and!; [by rewrite Ec4, lookup_insert_eq|done| |done|cbn; congruence|cbn; congruence|cbn; congruence|].
      * eapply (CInv_client _ _ _ None (Some c) w3 w4 c k3 k4); try done.
        -- by left.
        -- by left.
        -- by rewrite El4.
        -- apply Ho3.
        -- intros r0 _. right. by right.
        -- intros Hcan4. cbn in Hcan4. congruence.
      * rewrite Er4. destruct (ck_reqs _ _ Hk13 r q) as (q' & Hq' & Hssl'); [by rewrite Er1|].
        exists q'. split_and!; [done|auto|].
        assert (cl_request k3 = Some r) as Hr3 by congruence.
        destruct (co_request _ _ _ _ _ _ Ho3 r Hr3) as (Hnot & _).
        by eapply hops_low; [apply (ci_hops _ _ _ _ _ Hi3 r)|done|done|].
Qed.

(** A redirect to the same host and port does not change the location. *)
Lemma netloc_stays w q q1 n n1 :
  shape w q n → rq_ssl_ctx q = None → rq_proxy q1 = rq_proxy q → rq_ssl_ctx q1 = rq_ssl_ctx q →
  rq_ssl_check_cert q1 = rq_ssl_check_cert q →
  netloc_of w q1 = Some n1 → nl_host n1 = nl_host n → nl_port n1 = nl_port n → n1 = n.
Proof.
  intros Hs Hssl Ep Es Ek Hn Hh Hport. unfold netloc_of, shape in *.
  assert (http_proxy w q1 = http_proxy w q) as Eh by by unfold http_proxy; rewrite Ep.
  rewrite Eh in Hn. destruct (http_proxy w q) as [u|]; [congruence|].
  apply bind_Some in Hn as (i & _ & (u & _ & [= <-])%bind_Some).
  destruct n as [h p s x ck], Hs as (H1' & H2' & H3'). cbn in *. unfold uri_netloc. f_equal; congruence.
Qed.

Lemma shape_redirected w q n :
  rq_ssl_ctx q = None → netloc_of w q = Some n → shape w q n.
Proof.
  intros Hssl Hn. unfold netloc_of, shape in *. destruct (http_proxy w q) as [u|]; [congruence|].
  apply bind_Some in Hn as (i & _ & (u & _ & [= <-])%bind_Some). done.
Qed.

(** Handing the request on: to the pool, or to the same client again. *)
Lemma wp_hand_on D w c k r q netloc :
  CInv (due r 1 D) {[ r ]} (_ ← cl_pool k; Some (c, cl_netloc k)) None w →
  cw_clients w !! c = Some k → cw_reqs w !! r = Some q → cl_request k = None →
  cl_in_redirect k = false → cl_redirect_canceled k = false →
  rq_client q = None → good w q → low q → netloc_of w q = Some netloc → rq_ssl_ctx q = None →
  (cl_pool k ≠ None → nl_host netloc = nl_host (cl_netloc k) → nl_port netloc = nl_port (cl_netloc k) →
     netloc = cl_netloc k) →
  wp (match cl_pool k with
      | Some p =>
          if negb (String.eqb (nl_host netloc) (nl_host (cl_netloc k))) ||
             negb (nl_port netloc =? nl_port (cl_netloc k)) then
            now ← client_now c;
            mod_client c (λ k, k <| cl_last_activity_time := now |>) ;;
            pool_putback p c ;;
            set_weak c true ;;
            pool_request p r ;; mret tt
          else client_request cancel_ c r
      | None => client_request cancel_ c r
      end) (λ _ w', inv D w' ∧ ckept w w') escapes w.
Proof.
  intros Hi Hk Hq Hr Hin Hcan Hc Hg Hlow Hn Hssl Hsame.
  assert (∀ K, CInv (due r 1 D) {[ r ]} K None w → K = (_ ← cl_pool k; Some (c, netloc)) →
    wp (client_request cancel_ c r) (λ _ w', inv D w' ∧ ckept w w') escapes w) as Hself.
  { intros K HiK HK. eapply wp_mono; [eapply (wp_client_start cancel_ (due r 1 D) {[ r ]} K w c r k q netloc); try done| |done].
    - set_solver.
    - intros _. by apply shape_redirected.
    - intros [] w' (Hi' & Hk' & _). split; [|done].
      replace ({[r]} ∖ {[r]} : gset RqId) with (∅ : gset RqId) in Hi' by set_solver.
      eapply CInv_ext; [exact Hi'|]. intros x. rewrite !ledger_due. case_bool_decide; lia. }
  destruct (cl_pool k) as [p|] eqn:Hp; [|by eapply Hself].
  destruct (_ || _) eqn:Hcond.
  - apply wp_bind. eapply wp_client_now; [done|]. intros t.
    apply wp_bind. eapply wp_mod_client; [done|]. intros w1 Ec1 Er1 Ep1 Eu1 El1.
    set (k1 := k <| cl_last_activity_time := t |>) in Ec1.
    pose proof (ci_client _ _ _ _ _ Hi c k Hk) as Ho.
    assert (CInv (due r 1 D) {[ r ]} (Some (c, cl_netloc k1)) None w1) as Hi1.
    { eapply (CInv_client _ _ _ None None w w1 c k k1); try done; try apply Ho; [by left|by left|by rewrite El1]. }
    assert (ckept w w1) as Hk1 by by eapply (ckept_client w w1 c k k1).
    assert (cw_clients w1 !! c = Some k1) as Hkc by by rewrite Ec1, lookup_insert_eq.
    apply wp_bind. eapply wp_mono; [by eapply putback_ok| |done]. intros [] w2 (Hi2 & Hk2 & Eu2 & Hr2).
    destruct (ck_dom _ _ Hk2 c) as [k2 Hk2c]; [by eexists|].
    pose proof (ck_inr _ _ Hk2 c) as Hin2. unfold of_client in Hin2. rewrite Hk2c, Hkc in Hin2. cbn in Hin2.
    rewrite Hin in Hin2. pose proof (ci_client _ _ _ _ _ Hi2 c k2 Hk2c) as Ho2.
    assert (cl_redirect_canceled k2 = false) as Hcan2.
    { destruct (cl_redirect_canceled k2) eqn:Hcan2; [|done]. by rewrite (co_canceled _ _ _ _ _ _ Ho2 Hcan2) in Hin2. }
    apply wp_bind. eapply wp_mod_client; [done|]. intros w3 Ec3 Er3 Ep3 Eu3 El3.
    set (k3 := k2 <| cl_weak := true |>) in Ec3.
    assert (CInv (due r 1 D) {[ r ]} None None w3) as Hi3.
    { eapply (CInv_client _ _ _ None None w2 w3 c k2 k3); try done; try apply Ho2; [by left|by left|by rewrite El3]. }
    assert (ckept w2 w3) as Hk3 by by eapply (ckept_client w2 w3 c k2 k3).
    assert (cw_reqs w3 !! r = Some q) as Hq3 by by rewrite Er3, Hr2, Er1 by set_solver.
    assert (env_of w3 = env_of w) as Eu by congruence.
    destruct (client_listed _ _ _ _ _ _ _ _ Hi Hk Hp) as (pq & _ & Hpq & _).
    apply wp_bind. eapply wp_mono; [eapply (pool_request_ok (due r 1 D) {[ r ]} w3 p r q netloc); try done| |done].
    + rewrite Ep3. apply (ck_pools _ _ Hk2). rewrite Ep1. by eexists.
    + set_solver.
    + by eapply good_uris.
    + by rewrite (netloc_of_uris w).
    + eapply (shape_uris w); [done|]. by apply shape_redirected.
    + intros _ w4 [Hi4 Hk4]. apply wp_ret. split.
      * replace ({[r]} ∖ {[r]} : gset RqId) with (∅ : gset RqId) in Hi4 by set_solver.
        eapply CInv_ext; [exact Hi4|]. intros x. rewrite !ledger_due. case_bool_decide; lia.
      * eapply ckept_trans; [exact Hk1|]. eapply ckept_trans; [exact Hk2|]. by eapply ckept_trans.
  - apply orb_false_iff in Hcond as [Hh Hport].
    apply negb_false_iff, String.eqb_eq in Hh. apply negb_false_iff, Z.eqb_eq in Hport.
    eapply Hself; [exact Hi|]. cbn. by rewrite Hsame.
Qed.

(** [Client::analyze_request], from the status code 303 on. *)
Lemma wp_follow_redirect D w c k r q res :
  CInv D ∅ None (Some c) w → cw_clients w !! c = Some k → cl_request k = Some r →
  cl_response k = Some res → cl_in_redirect k = false → cl_redirect_canceled k = false →
  cl_context k = None → cw_reqs w !! r = Some q → rq_ssl_ctx q = None → low q →
  wp (follow_redirect cancel_ c) (λ _ w', inv D w' ∧ ckept w w') escapes w.
Proof.
  intros Hi Hk Hr Hres Hin Hcan Hctx Hq Hssl Hlow.
  pose proof (ci_client _ _ _ _ _ Hi c k Hk) as Ho.
  destruct (co_request _ _ _ _ _ _ Ho r Hr) as (_ & q0 & Hq0 & Hqc & Hshape).
  assert (q0 = q) as -> by congruence.
  assert (good w q) as Hg.
  { apply (ro_good _ _ _ (ci_req _ _ _ _ _ Hi r q Hq ltac:(set_solver))). unfold busy_rq. by rewrite Hqc. }
  pose proof (At_start w c r k q Hk Hq) as HA. unfold follow_redirect.
  at_steps. at_deref Hres. at_steps. at_deref Hr. at_steps.
  match goal with |- wp ?m ?Q' ?E' w =>
    assert (Hnext : ∀ w1 q1, At w c r k q1 w1 → same_request q q1 → Q' tt w1);
      [|destruct (_ =? 303); [at_step; by eapply Hnext|at_step; by eapply Hnext]] end.
  clear HA. intros w1 q1 HA Hq1. at_steps.
  assert (good w q1) as Hg1 by by eapply good_same.
  destruct (good_netloc w q1 Hg1) as [n Hn].
  eapply at_request_netloc; [exact HA|done|intros x; by apply good_proxy|]. at_steps.
  set (k2 := k <| cl_request := None |> <| cl_response := None |>) in HA.
  match goal with |- wp ?m ?Q' ?E' ?w2 =>
    assert (Hnext : ∀ w3 k3, At w c r k3 (q1 <| rq_client := None |>) w3 → stream_only k2 k3 → Q' tt w3);
      [|destruct (resp_keep_alive _); [at_step; by eapply Hnext
        |eapply at_tcp_reset; [exact HA|done|]; intros w3 HA3; by eapply Hnext]] end.
  clear HA. intros w3 k3 HA [S1 S2 S3 S4 S5 S6 S7 S8]. cbn in S1, S2, S3, S4, S5, S6, S7, S8.
  unfold cleanup_after_redirect. at_steps.
  match type of HA with At _ _ _ _ ?q' _ => set (q3 := q') in HA end.
  pose proof Hq1 as [M1 M2 M3 M4 M5 M6 M7 M8].
  assert (CInv (due r 1 D) {[ r ]} (_ ← cl_pool k3; Some (c, cl_netloc k3)) None w4) as Hi3.
  { eapply (take_at D (Some c) w c k r q k3 q3 w4); try done; try congruence; [by right|rewrite S8; apply Ho|].
    intros Hl. by apply (listeners_ok_same w q q1). }
  assert (netloc_of w q3 = Some n) as Hn3 by done.
  assert (good w q3) as Hg3 by (destruct Hg1; by split).
  eapply wp_mono; [eapply (wp_hand_on D w4 c k3 r q3 n Hi3)| |done].
  - by rewrite (at_clients _ _ _ _ _ _ HA), lookup_insert_eq.
  - by rewrite (at_reqs _ _ _ _ _ _ HA), lookup_insert_eq.
  - done.
  - congruence.
  - congruence.
  - done.
  - eapply good_uris; [apply (at_env _ _ _ _ _ _ HA)|done].
  - by eapply (low_same q).
  - rewrite (netloc_of_uris w); [done|apply (at_env _ _ _ _ _ _ HA)].
  - cbn. congruence.
  - rewrite S1, S2. intros Hp Hh Hport.
    by eapply (netloc_stays w q q3 (cl_netloc k) n (Hshape Hp)).
  - intros [] w5 [Hi4 Hk4]. split; [done|]. eapply ckept_trans; [|exact Hk4].
    eapply ckept_at; [done|done|exact HA|cbn; congruence|congruence|congruence|congruence].
Qed.

(** The target of a redirect has a scheme and a host when the request's URI has. *)
Lemma redirect_target_complete location u :
  uri_host u ≠ EmptyString → uri_scheme u ≠ EmptyString →
  uri_host (redirect_target location u) ≠ EmptyString ∧
  uri_scheme (redirect_target location u) ≠ EmptyString.
Proof.
  intros Hh Hs. unfold redirect_target. cbv zeta.
  set (v := if String.eqb (uri_scheme (uri_parse location)) EmptyString
            then uri_set_scheme (uri_scheme u) (uri_parse location) else uri_parse location).
  assert (uri_scheme v ≠ EmptyString) as Hv.
  { subst v. destruct (String.eqb_spec (uri_scheme (uri_parse location)) EmptyString); [|done].
    by rewrite uri_scheme_set. }
  destruct (String.eqb_spec (uri_host v) EmptyString); [|done].
  destruct (uri_explicit_port u);
    by rewrite ?uri_host_set_port, ?uri_scheme_set_port, uri_host_set, uri_scheme_set_host.
Qed.

(** The redirect's change of the request keeps what the invariant says of it. *)
Lemma CInv_redirected D X w0 w i u w' c r q loc :
  CInv D ∅ None X w0 → cw_reqs w0 !! r = Some q → rq_client q = Some c →
  rq_uri q = Some i → cw_uris w0 !! i = Some u →
  cw_uris w = <[fresh (dom (cw_uris w0)) := redirect_target loc u]> (cw_uris w0) →
  cw_clients w = cw_clients w0 → cw_reqs w = cw_reqs w0 → cw_pools w = cw_pools w0 →
  cw_agents w = cw_agents w0 → cw_jars w = cw_jars w0 → cw_log w = cw_log w0 →
  cw_reqs w' = <[r := redirected_request (fresh (dom (cw_uris w0))) q]> (cw_reqs w) →
  cw_clients w' = cw_clients w → cw_pools w' = cw_pools w → env_of w' = env_of w →
  cw_log w' = cw_log w → CInv D ∅ None X w'.
Proof.
  intros Hi Hq Hqc Hri Hui Eu Ec Er Ep Ea Ej El Er' Ec' Ep' Eu' El'.
  set (j := fresh (dom (cw_uris w0))) in *.
  assert (cw_uris w0 !! j = None) as Hj by apply not_elem_of_dom, is_fresh.
  assert (good w0 q) as Hg.
  { apply (ro_good _ _ _ (ci_req _ _ _ _ _ Hi r q Hq ltac:(set_solver))). unfold busy_rq. by rewrite Hqc. }
  assert (uri_added w0 w) as Ha by (by exists j, (redirect_target loc u)).
  assert (CInv D ∅ None X w) as Hiw by (eapply CInv_uri; try done; by rewrite El).
  pose proof (good_added _ _ _ Ha Hg) as Hgw.
  eapply (CInv_request _ _ _ _ w w' r q (redirected_request j q)); try done.
  - by rewrite Er.
  - by rewrite El'.
  - intros [L1 _]. split; [done|]. intros _. exists j. rewrite Eu, lookup_insert_eq. eauto.
  - intros _. destruct Hgw as [_ G2 G3 G4]. split; try done.
    exists j, (redirect_target loc u). rewrite Eu, lookup_insert_eq. split_and!; [done|done|..];
      destruct (g_uri _ _ Hg) as (i0 & u0 & ? & ? & ? & ?); simplify_eq; by apply redirect_target_complete.
  - by rewrite Hqc.
Qed.

(** [redirect], the part of [Client::analyze_request] for redirects. *)
Lemma wp_redirect D w c k r q res :
  CInv D ∅ None (Some c) w → cw_clients w !! c = Some k → cl_request k = Some r →
  cl_response k = Some res → cl_in_redirect k = false → cl_context k = None →
  cw_reqs w !! r = Some q → rq_client q = Some c → low q →
  wp (redirect cancel_ c r res) (λ _ w', inv D w' ∧ ckept w w') escapes w.
Proof.
  intros Hi Hk Hr Hres Hin Hctx Hq Hqc Hlow. unfold redirect.
  assert (good w q) as Hg.
  { apply (ro_good _ _ _ (ci_req _ _ _ _ _ Hi r q Hq ltac:(set_solver))). unfold busy_rq. by rewrite Hqc. }
  destruct (g_uri _ _ Hg) as (i & u & Hri & Hui & _).
  assert (∀ e w', CInv D ∅ None (Some c) w' → cw_clients w' = cw_clients w → ckept w w' →
    wp (cancel_ c (Some e)) (λ _ w', inv D w' ∧ ckept w w') escapes w') as Hcancel.
  { intros e w' Hi' Ec' Hk'. eapply wp_mono; [eapply cancel_ok; [exact Hi'|rewrite Ec'; by eexists|by right]| |done].
    intros [] w'' [Hi'' Hk'']. split; [done|by eapply ckept_trans]. }
  apply wp_bind. eapply wp_get_rq; [done|].
  destruct (_ =? 0); [by apply Hcancel, ckept_refl|].
  apply wp_bind. eapply wp_mod_rq; [done|]. intros w1 Ec1 Er1 Ep1 Eu1 El1.
  set (q1 := q <| rq_redirection_counter := _ |>) in Er1.
  assert (CInv D ∅ None (Some c) w1) as Hi1.
  { eapply (CInv_request_count _ _ _ _ w w1 r q q1); try done; [by rewrite El1| |by apply wrap_range| |].
    - intros [G1 G2 G3 G4]. by split.
    - intros Hlim. destruct (hops_raise _ _ _ _ _ _ (ci_hops _ _ _ _ _ Hi r) Hq Hlow Hlim) as [E _]. cbn. lia.
    - right. rewrite Hqc. split; [by eexists|]. by exists c. }
  assert (ckept w w1) as Hk1 by by eapply (ckept_reqs w w1 r q q1).
  assert (cw_reqs w1 !! r = Some q1) as Hq1 by by rewrite Er1, lookup_insert_eq.
  destruct (Z.ltb_spec (rq_redirection_limit q) (u16 (rq_redirection_counter q + 1))) as [|Hle]; [by eapply Hcancel|].
  destruct (String.eqb _ _); [by apply Hcancel|].
  apply wp_bind. eapply wp_deref; [exact Hri|]. apply wp_bind. eapply wp_get_uri; [by rewrite (env_uris _ _ Eu1)|].
  apply wp_bind. unfold alloc_uri. apply wp_bind, wp_gets, wp_bind, wp_modify, wp_ret.
  set (w2 := w1 <| cw_uris ::= _ |>).
  apply wp_bind. eapply (wp_get_rq w2 r q1); [done|].
  apply wp_bind. eapply (wp_mod_rq w2 r q1); [done|]. intros w3 Ec3 Er3 Ep3 Eu3 El3.
  assert (CInv D ∅ None (Some c) w3) as Hi3.
  { eapply (CInv_redirected D (Some c) w1 w2 i u w3 c r q1 (resp_location (rp_msg res)));
      [exact Hi1|exact Hq1|exact Hqc|exact Hri|by rewrite (env_uris _ _ Eu1)|done..]. }
  assert (∀ i, is_Some (cw_uris w1 !! i) → is_Some (cw_uris w2 !! i)) as Hu2.
  { intros i0 Hi0. cbn. destruct (decide (i0 = fresh (dom (cw_uris w1)))) as [->|];
      [rewrite lookup_insert_eq; by eexists|by rewrite lookup_insert_ne]. }
  assert (ckept w w3) as Hk3.
  { eapply ckept_trans; [exact Hk1|]. eapply ckept_trans; [by apply (ckept_same w1 w2); eauto|].
    by eapply (ckept_reqs w2 w3 r q1). }
  assert (cw_log w3 = cw_log w) as El by by rewrite El3.
  set (q3 := redirected_request (fresh (dom (cw_uris w1))) q1) in *.
  assert (low q3) as Hlow3 by by intros _.
  apply wp_bind. eapply wp_mono; [eapply (wp_notify_redirect D w3 c k r q3 res); try done| |done].
  - rewrite Ec3. change (cw_clients w2) with (cw_clients w1). by rewrite Ec1.
  - by rewrite Er3, lookup_insert_eq.
  - rewrite (env_uris _ _ Eu3). apply Hu2. rewrite (env_uris _ _ Eu1). by eexists.
  - intros Hlim. destruct (hops_raise _ _ _ _ _ _ (ci_hops _ _ _ _ _ Hi r) Hq Hlow Hlim) as [E HR].
    unfold rounds in *. rewrite El. cbn. rewrite E in *. by apply HR.
  - intros [] w4 (Hk4 & k4 & Hk4c & Hin4 & Hrest); [|apply wp_ret; split; [done|by eapply ckept_trans]].
    destruct Hrest as (Hi4 & Hcan4 & Hr4 & Hres4 & Hctx4 & q4 & Hq4 & Hssl4 & Hlow4).
    eapply wp_mono; [by eapply wp_follow_redirect|intros [] w5 [Hi5 Hk5]|done].
    split; [done|]. eapply ckept_trans; [exact Hk3|]. by eapply ckept_trans.
Qed.

(** The context request is the client's: nothing is out of place. *)
Lemma CInv_in_context D X w c k r :
  CInv D ∅ None X w → cw_clients w !! c = Some k → (X = None ∨ X = Some c) →
  cl_context k = Some r → (∀ q, cw_reqs w !! r = Some q → low q) → CInv D ∅ None None w.
Proof.
  intros Hi Hk HX Hctx Hlow. pose proof (ci_client _ _ _ _ _ Hi c k Hk) as Ho.
  pose proof (co_context _ _ _ _ _ _ Ho r Hctx) as Hr.
  eapply (CInv_client _ _ _ X None w w c k k); try done; try apply Ho; [|by rewrite insert_id|].
  - right. right. intros r0 q Hr0. rewrite Hr in Hr0. simplify_eq. apply Hlow.
  - intros r0 Hr0. left. congruence.
Qed.

(** [emit_event] between two operations. *)
Lemma wp_emit D w ev :
  inv D w → event_ok w ev → quiet_obs (CFire ev) = true →
  wp (emit_event ev) (λ _ w', inv D w' ∧ ckept w w') escapes w.
Proof.
  intros Hi Hr Hq. apply wp_bind, wp_modify. set (w1 := w <| cw_log ::= _ |>).
  assert (inv D w1) as Hi1 by (eapply CInv_log; try done; by apply quiet_cons).
  eapply wp_mono; [by apply cfire_ok| |by intros ? ? []]. intros [] w2 [Hi2 Hk2]. split; [done|].
  eapply ckept_trans; [|exact Hk2]. apply ckept_same; eauto.
Qed.

(** A change of what a client that is not in a redirect has received. *)
Lemma CInv_received D X' w w' c k k' :
  inv D w → cw_clients w !! c = Some k →
  cl_in_redirect k = false → cl_redirect_canceled k = false →
  cw_clients w' = <[c := k']> (cw_clients w) → cw_reqs w' = cw_reqs w →
  cw_pools w' = cw_pools w → env_of w' = env_of w → cw_log w' = cw_log w →
  cl_pool k' = cl_pool k → cl_netloc k' = cl_netloc k → cl_request k' = cl_request k →
  cl_form_field k' = cl_form_field k → cl_in_redirect k' = false →
  cl_redirect_canceled k' = false →
  (∀ r, cl_context k' = Some r → cl_request k = Some r) →
  (∀ r, cl_request k = Some r → cl_context k' = Some r ∨ X' = Some c) →
  CInv D ∅ None X' w' ∧ ckept w w' ∧ cw_clients w' !! c = Some k'.
Proof.
  intros Hi Hk Hin Hcan Ec Er Ep Eu El S1 S2 S3 S4 S5 S6 Hctx Hhas. split_and!.
  - eapply (CInv_client _ _ _ None X' w w' c k k'); try done; try congruence; [by left|by left|by rewrite El|..].
    + intros r Hr. rewrite S3. by apply Hctx.
    + intros r Hr. rewrite S3 in Hr. destruct (Hhas r Hr); auto.
  - by eapply (ckept_client w w' c k k').
  - by rewrite Ec, lookup_insert_eq.
Qed.

Lemma not_canceled D HD K X w c k :
  CInv D HD K X w → cw_clients w !! c = Some k → cl_in_redirect k = false →
  cl_redirect_canceled k = false.
Proof.
  intros Hi Hk Hin. destruct (cl_redirect_canceled k) eqn:Hcan; [|done].
  by rewrite (co_canceled _ _ _ _ _ _ (ci_client _ _ _ _ _ Hi c k Hk) Hcan) in Hin.
Qed.

Lemma ckept_client_at w w' c k :
  ckept w w' → cw_clients w !! c = Some k → cl_in_redirect k = false →
  ∃ k', cw_clients w' !! c = Some k' ∧ cl_in_redirect k' = false.
Proof.
  intros Hk Hc Hin. destruct (ck_dom _ _ Hk c) as [k' Hk']; [by eexists|]. exists k'. split; [done|].
  pose proof (ck_inr _ _ Hk c) as E. unfold of_client in E. rewrite Hk', Hc in E. cbn in E. congruence.
Qed.

(** [Client::analyze_request]: a response whose head made the context request be
    given up, unless it is a 100. *)
Lemma wp_analyze_request D w c k r res :
  CInv D ∅ None (Some c) w → cw_clients w !! c = Some k → cl_request k = Some r →
  cl_response k = Some res → cl_in_redirect k = false →
  cl_context k = (if resp_code (rp_msg res) =? 100 then Some r else None) →
  (∀ q, cw_reqs w !! r = Some q → low q) →
  wp (analyze_request cancel_ c) (λ _ w', inv D w' ∧ ckept w w') escapes w.
Proof.
  intros Hi Hk Hr Hres Hin Hctx Hlow. unfold analyze_request.
  pose proof (ci_client _ _ _ _ _ Hi c k Hk) as Ho.
  destruct (co_request _ _ _ _ _ _ Ho r Hr) as (_ & q & Hq & Hqc & _).
  apply wp_bind. eapply wp_get_client; [done|]. apply wp_bind. eapply wp_deref; [done|].
  apply wp_bind. eapply wp_deref; [done|]. apply wp_bind. eapply wp_get_rq; [done|].
  destruct (resp_code (rp_msg res) =? 100).
  - assert (inv D w) as Hi0 by (eapply CInv_in_context; [done|done|by right|done|done]).
    apply wp_bind. eapply wp_mono; [apply wp_emit; [done|by eexists|done]| |done]. intros [] w1 [Hi1 Hk1].
    destruct (ckept_client_at w w1 c k Hk1 Hk Hin) as (k1 & Hk1c & Hin1).
    pose proof (not_canceled _ _ _ _ _ _ _ Hi1 Hk1c Hin1) as Hcan1.
    pose proof (ci_client _ _ _ _ _ Hi1 c k1 Hk1c) as Ho1.
    eapply wp_mod_client; [done|]. intros w2 Ec2 Er2 Ep2 Eu2 El2.
    destruct (CInv_received D None w1 w2 c k1 (k1 <| cl_response := None |>)) as (Hi2 & Hk2 & _);
      try done; [apply Ho1| |split; [done|by eapply ckept_trans]].
    intros r0 Hr0. destruct (co_has_context _ _ _ _ _ _ Ho1 r0 Hr0) as [|[[? _]|[=]]]; [by left|congruence].
  - destruct (rq_follow_redirect q && _); [by eapply wp_redirect; eauto|].
    eapply (wp_finish cancel_ D (Some c) w c k r q k w None); try done.
    + by right.
    + by apply At_start.
    + apply Ho.
    + by rewrite Hin, (not_canceled _ _ _ _ _ _ _ Hi Hk Hin).
    + right. by rewrite Hres; eexists.
Qed.

(** The stream of a client without a request is reset silently. *)
Lemma wp_idle_reset w c k Q E :
  cw_clients w !! c = Some k → cl_request k = None →
  (∀ w', cw_clients w' =
      <[c := k <| cl_connected := false |> <| cl_connecting := false |> <| cl_pending := [] |>]> (cw_clients w) →
    cw_reqs w' = cw_reqs w → cw_pools w' = cw_pools w → env_of w' = env_of w →
    quiet_log (cw_log w) (cw_log w') → Q tt w') →
  wp (tcp_reset cancel_ c) Q E w.
Proof.
  intros Hk Hr HQ. unfold tcp_reset. apply wp_bind. eapply wp_get_client; [done|].
  apply wp_bind, wp_modify, wp_bind. set (w1 := w <| cw_log ::= _ |>).
  eapply wp_mod_client; [done|]. intros w2 Ec2 Er2 Ep2 Eu2 El2.
  eapply wp_mono; [apply (wp_for_each _ _ (λ w', w' = w2)); [done|]| |done].
  - intros x w' _ ->. destruct x; (apply wp_bind; eapply wp_get_client; [by rewrite Ec2, lookup_insert_eq|]);
      change (cl_request _) with (cl_request k); rewrite Hr; by apply wp_ret.
  - intros [] w' ->. apply HQ; try done. rewrite El2. by apply quiet_cons.
Qed.

(** A client without a request may change what concerns its stream. *)
Lemma CInv_idle D w w' c k k' :
  inv D w → cw_clients w !! c = Some k → cl_request k = None → cl_in_redirect k = false →
  stream_only k k' → cw_clients w' = <[c := k']> (cw_clients w) →
  cw_reqs w' = cw_reqs w → cw_pools w' = cw_pools w → env_of w' = env_of w →
  quiet_log (cw_log w) (cw_log w') → inv D w' ∧ ckept w w'.
Proof.
  intros Hi Hk Hr Hin [S1 S2 S3 S4 S5 S6 S7 S8] Ec Er Ep Eu El.
  pose proof (not_canceled _ _ _ _ _ _ _ Hi Hk Hin) as Hcan.
  pose proof (ci_client _ _ _ _ _ Hi c k Hk) as Ho. split.
  - eapply (CInv_client _ _ _ None None w w' c k k'); try done; try congruence; [by left|by left|..].
    intros r Hctx. rewrite S5 in Hctx. by rewrite (co_context _ _ _ _ _ _ Ho r Hctx) in Hr.
  - eapply (ckept_client w w' c k k'); try done; congruence.
Qed.

Lemma wp_idle_tcp_reset D w c k :
  inv D w → cw_clients w !! c = Some k → cl_request k = None → cl_in_redirect k = false →
  wp (tcp_reset cancel_ c) (λ _ w', inv D w' ∧ ckept w w') escapes w.
Proof.
  intros Hi Hk Hr Hin. eapply wp_idle_reset; [done|done|]. intros w' Ec Er Ep Eu El.
  eapply (CInv_idle D w w' c k); [done|done|done|done| |exact Ec|done..]. by split.
Qed.

Lemma wp_idle_drop D w c k :
  inv D w → cw_clients w !! c = Some k → cl_request k = None → cl_in_redirect k = false →
  wp (drop_connection cancel_ c) (λ _ w', inv D w' ∧ ckept w w') escapes w.
Proof.
  intros Hi Hk Hr Hin. unfold drop_connection. apply wp_bind. eapply wp_get_client; [done|].
  apply wp_bind. eapply wp_mod_client; [done|]. intros w1 Ec1 Er1 Ep1 Eu1 El1.
  apply wp_bind. eapply wp_idle_reset; [by rewrite Ec1, lookup_insert_eq|done|].
  intros w2 Ec2 Er2 Ep2 Eu2 El2. rewrite Ec1, insert_insert_eq in Ec2.
  eapply wp_mod_client; [by rewrite Ec2, lookup_insert_eq|]. intros w3 Ec3 Er3 Ep3 Eu3 El3.
  rewrite Ec2, insert_insert_eq in Ec3.
  eapply (CInv_idle D w w3 c k); [done|done|done|done| |exact Ec3|congruence|congruence|congruence|].
  - by split.
  - by rewrite El3, <-El1.
Qed.

(** [_parser.parse_shift] and the response it leaves. *)
Definition parsed D w c r q k buf (x : CResponse * proto_state * option ErrorCode * string) w' : Prop :=
  ∃ p' keep msg st err rest k', x = (mkCResp msg (state_ge_done st), st, err, rest) ∧
    rparse_shift (rq_msg q) (cl_parser k) buf = (p', (keep, msg, st, err, rest)) ∧
    CInv D ∅ None (if keep : bool then None else Some c) w' ∧ ckept w w' ∧ cw_clients w' !! c = Some k' ∧
    cl_request k' = Some r ∧ cl_response k' = Some (mkCResp msg (state_ge_done st)) ∧
    cl_in_redirect k' = false ∧ cl_context k' = (if keep : bool then Some r else None) ∧
    (∀ q, cw_reqs w' !! r = Some q → low q).

Lemma wp_client_parse D w c k r q buf :
  inv D w → cw_clients w !! c = Some k → cl_request k = Some r → cl_context k = Some r →
  cw_reqs w !! r = Some q → cl_in_redirect k = false →
  wp (client_parse c r buf)
    (λ x, wp (mod_client c (λ k, k <| cl_response := Some x.1.1.1 |>))
      (λ _, parsed D w c r q k buf x) escapes) escapes w.
Proof.
  intros Hi Hk Hr Hctx Hq Hin. pose proof (not_canceled _ _ _ _ _ _ _ Hi Hk Hin) as Hcan.
  unfold client_parse. apply wp_bind. eapply wp_get_client; [done|].
  apply wp_bind. eapply wp_get_rq; [done|].
  destruct (rparse_shift (rq_msg q) (cl_parser k) buf) as [p' [[[[keep msg] st] err] rest]] eqn:Hparse.
  apply wp_bind. eapply wp_mod_client; [done|]. intros w1 Ec1 Er1 Ep1 Eu1 El1. apply wp_ret.
  eapply wp_mod_client; [by rewrite Ec1, lookup_insert_eq|]. intros w2 Ec2 Er2 Ep2 Eu2 El2.
  rewrite Ec1, insert_insert_eq in Ec2.
  match type of Ec2 with _ = <[_ := ?k']> _ => set (k2 := k') in Ec2 end.
  destruct (CInv_received D (if keep then None else Some c) w w2 c k k2)
    as (Hi2 & Hk2 & Hk2c); try done; try congruence.
  - intros r0. subst k2. cbn. destruct keep; [congruence|done].
  - intros r0 Hr0. subst k2. cbn. destruct keep; [left; congruence|by right].
  - exists p', keep, msg, st, err, rest, k2. split_and!; try done. rewrite Er2, Er1. intros q0. by eapply CInv_low.
Qed.

(** [Client::on_read] on data: the loop ends, within as many rounds as there are
    bytes. *)
Lemma wp_client_on_read_loop n D w c k buf :
  inv D w → cw_clients w !! c = Some k → cl_in_redirect k = false →
  (String.length buf ≤ n)%nat →
  wp (client_on_read_loop cancel_ n c buf) (λ _ w', inv D w' ∧ ckept w w') escapes w.
Proof.
  revert w k buf. induction n as [|n IH]; intros w k buf Hi Hk Hin Hn; cbn [client_on_read_loop];
    destruct (String.eqb_spec buf EmptyString) as [->|Hne];
    try (apply wp_ret; split; [done|apply ckept_refl]).
  { destruct buf; [done|cbn in Hn; lia]. }
  pose proof (ci_client _ _ _ _ _ Hi c k Hk) as Ho.
  apply wp_bind. eapply wp_get_client; [done|].
  destruct (cl_context k) as [r|] eqn:Hctx.
  2: { apply (wp_idle_drop D w c k); try done. destruct (cl_request k) as [r|] eqn:Hr; [|done].
       destruct (co_has_context _ _ _ _ _ _ Ho r Hr) as [|[[? _]|[=]]]; congruence. }
  pose proof (co_context _ _ _ _ _ _ Ho r Hctx) as Hr.
  destruct (co_request _ _ _ _ _ _ Ho r Hr) as (_ & q & Hq & Hqc & _).
  apply wp_bind. eapply wp_mono; [by eapply (wp_client_parse D w c k r q buf)| |done].
  intros [[[res st'] err'] rest'] w0 Hx. apply wp_bind. eapply wp_mono; [exact Hx| |done]. clear w0 Hx.
  intros [] w1 (p' & keep & msg & st & err & rest & k1 & [= -> -> -> ->] & Hparse & Hi1 & Hk1 & Hk1c & Hr1 & Hres1 & Hin1 & Hctx1 & Hlow1).
  destruct err as [e|].
  { eapply wp_mono; [eapply (cancel_ok D); [exact Hi1|by eexists|destruct keep; auto]| |done].
    intros [] w2 [Hi2 Hk2]. split; [done|by eapply ckept_trans]. }
  assert (st ≠ PsError) as Hst by (intros Hst; by apply (rparse_error _ _ _ _ _ _ _ _ _ Hparse) in Hst).
  destruct (rparse_shrinks _ _ _ _ _ _ _ _ Hne Hparse) as [Hlt Hrest].
  pose proof (rparse_keeps _ _ _ _ _ _ _ _ Hparse) as Hkeep.
  assert (∀ w', inv D w' → ckept w w' →
    wp (client_on_read_loop cancel_ n c rest) (λ _ w', inv D w' ∧ ckept w w') escapes w') as Hnext.
  { intros w' Hi' Hk'. destruct (ckept_client_at w w' c k Hk' Hk Hin) as (k' & Hk'c & Hin').
    eapply wp_mono; [eapply (IH w' k' rest); [done|done|done|lia]| |done].
    intros [] w'' [Hi'' Hk'']. split; [done|by eapply ckept_trans]. }
  cbn [rp_msg]. destruct (state_le_headers st) eqn:Hh.
  { destruct st; try done. subst keep. by apply wp_ret. }
  destruct (state_is_done st) eqn:Hd; cbn [negb].
  - apply wp_bind. eapply wp_mono; [eapply (wp_analyze_request D w1 c k1 r); [|done|done|exact Hres1|done| |done]| |done].
    + subst keep. destruct (_ =? 100); [by apply CInv_weaken|done].
    + cbn [rp_msg]. rewrite Hctx1, Hkeep. by destruct (_ =? 100).
    + intros [] w2 [Hi2 Hk2]. apply Hnext; [done|by eapply ckept_trans].
  - cbn in Hkeep. subst keep. destruct (resp_code msg =? 100); [by apply Hnext|].
    apply wp_bind. eapply wp_get_client; [done|]. apply wp_bind. eapply wp_deref; [done|].
    destruct (ck_reqs _ _ Hk1 r q Hq) as (q1 & Hq1 & _).
    apply wp_bind. eapply wp_get_rq; [done|]. destruct (_ && _); [by apply Hnext|].
    apply wp_bind. eapply wp_mono; [apply (wp_emit D); [done|by eexists|done]| |done].
    intros [] w2 [Hi2 Hk2]. apply Hnext; [done|by eapply ckept_trans].
Qed.

Lemma wp_cancel_now D w c k e :
  inv D w → cw_clients w !! c = Some k →
  wp (cancel_ c (Some e)) (λ _ w', inv D w' ∧ ckept w w') escapes w.
Proof. intros Hi Hk. eapply cancel_ok; [exact Hi|by eexists|by left]. Qed.

(** [Client::on_read]. *)
Lemma wp_client_on_read D w c k buf err :
  inv D w → cw_clients w !! c = Some k → cl_in_redirect k = false →
  wp (client_on_read cancel_ c buf err) (λ _ w', inv D w' ∧ ckept w w') escapes w.
Proof.
  intros Hi Hk Hin. destruct err as [e|]; [by eapply wp_cancel_now|]. by eapply wp_client_on_read_loop.
Qed.

(** [Client::on_eof]. *)
Lemma wp_client_on_eof D w c k :
  inv D w → cw_clients w !! c = Some k → cl_in_redirect k = false →
  wp (client_on_eof cancel_ c) (λ _ w', inv D w' ∧ ckept w w') escapes w.
Proof.
  intros Hi Hk Hin. unfold client_on_eof. apply wp_bind. eapply wp_get_client; [done|].
  destruct (cl_request k) as [r|] eqn:Hr; [|by eapply wp_idle_tcp_reset].
  pose proof (ci_client _ _ _ _ _ Hi c k Hk) as Ho.
  pose proof (not_canceled _ _ _ _ _ _ _ Hi Hk Hin) as Hcan.
  destruct (co_request _ _ _ _ _ _ Ho r Hr) as (_ & q & Hq & Hqc & _).
  assert (cl_context k = Some r) as Hctx.
  { destruct (co_has_context _ _ _ _ _ _ Ho r Hr) as [|[[? _]|[=]]]; congruence. }
  unfold client_parse_eof. apply wp_bind, wp_bind. eapply wp_get_client; [done|].
  rewrite Hctx. apply wp_bind, wp_bind. eapply wp_get_rq; [done|]. apply wp_ret.
  destruct (rparser_eof (Some (rq_msg q)) (cl_parser k)) as [p' [res err]] eqn:Heof.
  apply wp_bind. eapply wp_mod_client; [done|]. intros w1 Ec1 Er1 Ep1 Eu1 El1. apply wp_ret.
  pose proof (rparser_eof_some _ _ _ _ _ Heof) as Hres. destruct res as [msg|]; [|done].
  apply wp_bind. eapply wp_deref; [done|]. apply wp_bind.
  eapply wp_mod_client; [by rewrite Ec1, lookup_insert_eq|]. intros w2 Ec2 Er2 Ep2 Eu2 El2.
  rewrite Ec1, insert_insert_eq in Ec2.
  match type of Ec2 with _ = <[_ := ?k']> _ => set (k2 := k') in Ec2 end.
  destruct (CInv_received D (Some c) w w2 c k k2) as (Hi2 & Hk2 & Hk2c);
    try done; try congruence; [by right|].
  assert (wp (match err with Some _ => cancel_ c err | None => analyze_request cancel_ c end)
    (λ _ w', inv D w' ∧ ckept w2 w') escapes w2) as Hrest.
  { destruct err as [e|]; [eapply cancel_ok; [exact Hi2|by eexists|by right]|].
    eapply (wp_analyze_request D w2 c k2 r (mkCResp msg true)); try done.
    - apply rparser_eof_final, Z.eqb_neq in Heof. cbn [rp_msg]. by rewrite Heof.
    - rewrite Er2, Er1. intros q0. by eapply CInv_low. }
  eapply wp_mono; [exact Hrest| |done]. intros [] w3 [Hi3 Hk3]. split; [done|by eapply ckept_trans].
Qed.

(** [Client::on_connect], [Client::on_write], [Client::timed_out]. *)
Lemma wp_client_on_connect D w c k err :
  inv D w → cw_clients w !! c = Some k →
  wp (client_on_connect cancel_ c err) (λ _ w', inv D w' ∧ ckept w w') escapes w.
Proof.
  intros Hi Hk. apply wp_bind. eapply wp_get_client; [done|].
  destruct (cl_request k), err; try (apply wp_ret; split; [done|apply ckept_refl]).
  by eapply wp_cancel_now.
Qed.

Lemma wp_client_on_write D w c k err :
  inv D w → cw_clients w !! c = Some k →
  wp (client_on_write cancel_ c err) (λ _ w', inv D w' ∧ ckept w w') escapes w.
Proof.
  intros Hi Hk. apply wp_bind. eapply wp_get_client; [done|].
  destruct (cl_request k), err; try (apply wp_ret; split; [done|apply ckept_refl]).
  by eapply wp_cancel_now.
Qed.

Lemma wp_timed_out_client D w c k :
  inv D w → cw_clients w !! c = Some k →
  wp (timed_out_client cancel_ c) (λ _ w', inv D w' ∧ ckept w w') escapes w.
Proof.
  intros Hi Hk. apply wp_bind. eapply wp_get_client; [done|]. by eapply wp_cancel_now.
Qed.

End Read.
