(* ===== verification/ClientGrow.v ===== *)
(** * New objects, and clients that a pool lets go

    Allocating objects keeps the invariant, and so does the sweep over a pool's
    free clients. *)
From S2P Require Import Prelude Errors Proto ClientProto ClientState ClientOps Form Client Pool UserAgent ClientStep ClientInv ClientSpecs ClientMoves PoolSpecs ClientFinish.
Local Open Scope Z_scope.

Section Grow.
Context `{ClientProto} {T : fault → Prop}.
Local Abbreviation wp := (wpf T).
Implicit Types (w : CWorld) (k : Client) (q : CRequest) (l : NetLocList).
Local Abbreviation inv D w := (CInv D ∅ None None w).

(** [w'] has the objects of [w], some pools differently configured, and new objects
    that nobody uses. *)
Record grown w w' : Prop := {
  gr_client : ∀ c k, cw_clients w !! c = Some k → cw_clients w' !! c = Some k;
  gr_new_client : ∀ c k, cw_clients w' !! c = Some k → cw_clients w !! c = None →
    cl_pool k = None ∧ cl_request k = None ∧ cl_context k = None ∧ cl_form_field k = -1 ∧
    cl_in_redirect k = false ∧ cl_redirect_canceled k = false;
  gr_req : ∀ r q, cw_reqs w !! r = Some q → cw_reqs w' !! r = Some q;
  gr_new_req : ∀ r q, cw_reqs w' !! r = Some q → cw_reqs w !! r = None →
    rq_client q = None ∧ rq_pool q = None ∧ rq_listeners q = [] ∧ rq_redirection_counter q = 0;
  gr_pool : ∀ p pq, cw_pools w !! p = Some pq → ∃ pq', cw_pools w' !! p = Some pq' ∧
    pl_clients pq' = pl_clients pq ∧ pl_factory pq' = pl_factory pq ∧
    (pl_max_connections pq' = pl_max_connections pq ∨ pl_clients pq = ∅);
  gr_new_pool : ∀ p pq, cw_pools w' !! p = Some pq → cw_pools w !! p = None →
    pl_clients pq = ∅ ∧ pl_factory pq = false;
  gr_uris : cw_uris w' = cw_uris w;
  gr_agent : ∀ a ua, cw_agents w !! a = Some ua → cw_agents w' !! a = Some ua;
  gr_new_agent : ∀ a ua, cw_agents w' !! a = Some ua → cw_agents w !! a = Some ua ∨ agent_ok w' ua;
  gr_jars : ∀ j, is_Some (cw_jars w !! j) → is_Some (cw_jars w' !! j);
  gr_log : quiet_log (cw_log w) (cw_log w')
}.

Lemma grown_list w w' p n : grown w w' → list_at w' p n = list_at w p n.
Proof.
  intros Hg. unfold list_at. destruct (cw_pools w !! p) as [pq|] eqn:Hp.
  - destruct (gr_pool _ _ Hg p pq Hp) as (pq' & -> & Ec & _). cbn. by rewrite Ec.
  - destruct (cw_pools w' !! p) as [pq|] eqn:Hp'; [|done]. cbn.
    destruct (gr_new_pool _ _ Hg p pq Hp' Hp) as [-> _]. by rewrite lookup_empty.
Qed.

Lemma grown_pools w w' p pq' n l :
  grown w w' → cw_pools w' !! p = Some pq' → pl_clients pq' !! n = Some l →
  ∃ pq, cw_pools w !! p = Some pq ∧ pl_clients pq !! n = Some l ∧
    pl_max_connections pq' = pl_max_connections pq.
Proof.
  intros Hg Hp' Hl. destruct (cw_pools w !! p) as [pq|] eqn:Hp.
  - destruct (gr_pool _ _ Hg p pq Hp) as (pq1 & Hq1 & Ec & _ & Em).
    rewrite Hp' in Hq1. injection Hq1 as <-. exists pq. rewrite <-Ec. split_and!; [done..|].
    destruct Em as [?|Em]; [done|]. by rewrite Ec, Em, lookup_empty in Hl.
  - destruct (gr_new_pool _ _ Hg p pq' Hp' Hp) as [E _]. by rewrite E, lookup_empty in Hl.
Qed.

Lemma grown_env w w' : grown w w' → env_grown w w'.
Proof.
  intros Hg. split; [by rewrite (gr_uris _ _ Hg)|apply Hg..|].
  intros p [pq Hp]. destruct (gr_pool _ _ Hg p pq Hp) as (pq' & -> & _). by eexists.
Qed.

(** The requests in the library's hands exist. *)
Definition in_hand w (HD : gset RqId) : Prop := ∀ r, r ∈ HD → is_Some (cw_reqs w !! r).

Lemma in_hand_none w : in_hand w ∅.
Proof. intros r. by rewrite elem_of_empty. Qed.

Lemma CInv_grow D HD w w' :
  CInv D HD None None w → in_hand w HD → grown w w' → CInv D HD None None w'.
Proof.
  intros [I1 I2 I3 I4 I5 I6 I7] Hh Hg. pose proof (gr_uris _ _ Hg) as Eu. split.
  - intros c k Hk. destruct (cw_clients w !! c) as [k0|] eqn:Hk0.
    + rewrite (gr_client _ _ Hg c k0 Hk0) in Hk. injection Hk as <-.
      eapply (client_ok_frame w); [by apply I1|done| |done|done|].
      * intros r q _ ? Hq _. split; [done|]. exists q. split; [by apply (gr_req _ _ Hg)|apply same_request_refl].
      * intros p l n h. rewrite (grown_list w w') by done. eauto.
    + destruct (gr_new_client _ _ Hg c k Hk Hk0) as (E1 & E2 & E3 & E4 & E5 & E6). split; try congruence.
  - intros r q Hq Hr. destruct (cw_reqs w !! r) as [q0|] eqn:Hq0.
    + rewrite (gr_req _ _ Hg r q0 Hq0) in Hq. injection Hq as <-.
      eapply (req_ok_frame w); [by apply I2|apply same_request_refl|done| |].
      * intros c k Hk Hkr. exists k. split; [by apply (gr_client _ _ Hg)|done].
      * intros p n l. rewrite (grown_list w w') by done. eauto.
    + destruct (gr_new_req _ _ Hg r q Hq Hq0) as (E1 & E2 & E3 & _). split; try congruence.
      unfold busy_rq. by rewrite E1, E2.
  - intros p pq' n l Hp' Hl. destruct (grown_pools w w' p pq' n l Hg Hp' Hl) as (pq & Hp & Hl0 & ->).
    eapply (list_ok_frame w); [by eapply I3|done| |].
    + intros c h k _ Hk. exists k. split; [by apply (gr_client _ _ Hg)|done].
    + intros r q _ ? Hq _. split; [done|]. exists q. split; [by apply (gr_req _ _ Hg)|apply same_request_refl].
  - intros p pq' Hp'. destruct (cw_pools w !! p) as [pq|] eqn:Hp.
    + destruct (gr_pool _ _ Hg p pq Hp) as (pq1 & Hq1 & _ & Ef & _). rewrite Hp' in Hq1. injection Hq1 as <-.
      rewrite Ef. by eapply I4.
    + by destruct (gr_new_pool _ _ Hg p pq' Hp' Hp).
  - eapply env_ok_frame; [done|by apply grown_env|]. intros r q Hq. destruct (cw_reqs w !! r) as [q0|] eqn:Hq0.
    + rewrite (gr_req _ _ Hg r q0 Hq0) in Hq. injection Hq as <-. right. by exists r, q0.
    + left. destruct (gr_new_req _ _ Hg r q Hq Hq0) as (_ & _ & Hl & _). by split; rewrite Hl.
  - intros r. destruct (gr_log _ _ Hg r) as (-> & -> & _). rewrite (I6 r).
    assert (busy_at w' r = busy_at w r) as ->; [|done]. unfold busy_at.
    destruct (cw_reqs w !! r) as [q|] eqn:Hq; [by rewrite (gr_req _ _ Hg r q Hq)|].
    destruct (cw_reqs w' !! r) as [q|] eqn:Hq'; [|done].
    destruct (gr_new_req _ _ Hg r q Hq' Hq) as (E1 & E2 & _). cbn. unfold busy_rq. by rewrite E1, E2.
  - intros r. destruct (cw_reqs w !! r) as [q|] eqn:Hq.
    + eapply (hops_quiet _ _ _ w); [apply I7| |apply Hg]. by rewrite Hq, (gr_req _ _ Hg r q Hq).
    + specialize (I6 r). specialize (I7 r). unfold hops, rounds, busy_at in *. rewrite Hq in I6, I7.
      destruct (gr_log _ _ Hg r) as (_ & -> & ->). rewrite I7.
      destruct (cw_reqs w' !! r) as [q|] eqn:Hq'; [|done].
      destruct (gr_new_req _ _ Hg r q Hq' Hq) as (_ & _ & _ & E). pose proof (count_nonneg (is_submit r) (cw_log w)) as Hpos.
      change (count _ _) with (submitted r (cw_log w)) in Hpos. assert (r ∉ HD) as Hr by (intros Hr; destruct (Hh r Hr); congruence).
      rewrite bool_decide_false in I6 |- * by done. cbn in I6 |- *.
      split; [lia|by right| |]; unfold low, limited; [|nia]. right. right. lia.
Qed.

Lemma ckept_grow w w' : grown w w' → ckept w w'.
Proof.
  intros Hg. assert (∀ A (f : Client → A) d c, (∀ k, cw_clients w' !! c = Some k → cw_clients w !! c = None → f k = d) →
    of_client f d w' c = of_client f d w c) as Hof.
  { intros A f d c Hf. unfold of_client. destruct (cw_clients w !! c) as [k|] eqn:Hk.
    - by rewrite (gr_client _ _ Hg c k Hk).
    - destruct (cw_clients w' !! c) eqn:Hk'; [|done]. cbn. by apply Hf. }
  assert (∀ c, of_client cl_in_redirect false w' c = of_client cl_in_redirect false w c) as Hin.
  { intros c. apply Hof. intros k Hk Hk0. apply (gr_new_client _ _ Hg c k Hk Hk0). }
  split; try done.
  - intros c [k Hk]. exists k. by apply (gr_client _ _ Hg).
  - intros r q Hq. exists q. split; [by apply (gr_req _ _ Hg)|done].
  - by rewrite (gr_uris _ _ Hg).
  - apply grown_env, Hg.
  - intros c. rewrite Hof; [done|]. intros k Hk Hk0. apply (gr_new_client _ _ Hg c k Hk Hk0).
  - intros c Hc _. unfold of_client in *. destruct (cw_clients w !! c) as [k|] eqn:Hk; [|done].
    by rewrite (gr_client _ _ Hg c k Hk).
Qed.

Lemma wp_grow {A} (m : M CWorld A) D w x w' E :
  m w = Ok x w' → inv D w → grown w w' → wp m (λ _ w', inv D w' ∧ ckept w w') E w.
Proof. intros Hm Hi Hg. unfold wpf. rewrite Hm. split; [by eapply CInv_grow; [|apply in_hand_none|]|by apply ckept_grow]. Qed.

Lemma grown_refl w w' :
  cw_clients w' = cw_clients w → cw_reqs w' = cw_reqs w → cw_pools w' = cw_pools w →
  env_of w' = env_of w → quiet_log (cw_log w) (cw_log w') → grown w w'.
Proof.
  intros Ec Er Ep (Eu & Ea & Ej)%env_parts El.
  split; rewrite ?Ec, ?Er, ?Ep, ?Ea, ?Ej; try done; try congruence; auto. intros p pq ?. exists pq. auto.
Qed.

Lemma grown_request w r q :
  cw_reqs w !! r = None → rq_client q = None → rq_pool q = None → rq_listeners q = [] →
  rq_redirection_counter q = 0 → grown w (w <| cw_reqs ::= <[r := q]> |>).
Proof.
  intros Hr E1 E2 E3 E4. split; try done; cbn; try congruence; try by auto.
  - intros r0 q0 Hq0. rewrite lookup_insert_ne; [done|congruence].
  - intros r0 q0. rewrite lookup_insert_Some. intros [[<- <-]|[_ ?]] ?; [done|congruence].
  - intros p pq ?. exists pq. auto.
Qed.

Lemma grown_client w c k :
  cw_clients w !! c = None → cl_pool k = None → cl_request k = None → cl_context k = None →
  cl_form_field k = -1 → cl_in_redirect k = false → cl_redirect_canceled k = false →
  grown w (w <| cw_clients ::= <[c := k]> |>).
Proof.
  intros Hc **. split; try done; cbn; try congruence; try by auto.
  - intros c0 k0 Hk0. rewrite lookup_insert_ne; [done|congruence].
  - intros c0 k0. rewrite lookup_insert_Some. intros [[<- <-]|[_ ?]] ?; [done|congruence].
  - intros p pq ?. exists pq. auto.
Qed.

Lemma grown_pool w p pq :
  cw_pools w !! p = None → pl_clients pq = ∅ → pl_factory pq = false →
  grown w (w <| cw_pools ::= <[p := pq]> |>).
Proof.
  intros Hp E1 E2. split; try done; cbn; try congruence; try by auto.
  - intros p0 pq0 Hp0. exists pq0. rewrite lookup_insert_ne by congruence. auto.
  - intros p0 pq0. rewrite lookup_insert_Some. intros [[<- <-]|[_ ?]] ?; [done|congruence].
Qed.

Lemma grown_mod_pool w p pq f :
  cw_pools w !! p = Some pq → pl_clients (f pq) = pl_clients pq → pl_factory (f pq) = pl_factory pq →
  (pl_max_connections (f pq) = pl_max_connections pq ∨ pl_clients pq = ∅) →
  grown w (w <| cw_pools ::= alter f p |>).
Proof.
  intros Hp E1 E2 E3. split; try done; cbn; try congruence; try by auto.
  - intros p0 pq0 Hp0. destruct (decide (p0 = p)) as [->|].
    + rewrite lookup_alter_eq, Hp0. exists (f pq0). simplify_eq. auto.
    + rewrite lookup_alter_ne by done. exists pq0. auto.
  - intros p0 pq0. rewrite lookup_alter_Some. intros [(<- & x & Hx & _)|[_ ?]]; congruence.
Qed.
Lemma grown_jar w j x : grown w (w <| cw_jars ::= <[j := x]> |>).
Proof.
  split; try done; cbn; try congruence; try by auto.
  - intros p pq ?. exists pq. auto.
  - intros j0 Hj0. destruct (decide (j0 = j)) as [->|];
      [rewrite lookup_insert_eq; by eexists|by rewrite lookup_insert_ne].
Qed.

Lemma grown_agent w a ua :
  cw_agents w !! a = None → agent_ok w ua → grown w (w <| cw_agents ::= <[a := ua]> |>).
Proof.
  intros Ha [A1 A2 A3 A4]. split; try done; cbn; try congruence; try by auto.
  - intros p pq ?. exists pq. auto.
  - intros a0 ua0 Ha0. rewrite lookup_insert_ne; [done|congruence].
  - intros a0 ua0 [[<- <-]|[_ ?]]%lookup_insert_Some; [right|by left]. by split.
Qed.
End Grow.

(** ** The allocating calls *)

Section Allocate.
Context `{ClientProto} `{!ClientProtoLaws} `{!ClientEnv} `{!ClientEnvLaws} `{!CCallbacks} {T : fault → Prop}.
Local Abbreviation wp := (wpf T).
Implicit Types (w : CWorld) (k : Client) (q : CRequest).
Local Abbreviation inv D w := (CInv D ∅ None None w).

(** The result of a call that allocates, and leaves the requests and URIs alone. *)
Record grew D HD w w' : Prop := {
  gw_inv : CInv D HD None None w';
  gw_hand : in_hand w' HD;
  gw_kept : ckept w w';
  gw_reqs : cw_reqs w' = cw_reqs w;
  gw_uris : cw_uris w' = cw_uris w
}.

Lemma grew_refl D HD w : CInv D HD None None w → in_hand w HD → grew D HD w w.
Proof. intros Hi Hh. split; [done|done|apply ckept_refl|done..]. Qed.

Lemma grew_trans D HD w1 w2 w3 : grew D HD w1 w2 → grew D HD w2 w3 → grew D HD w1 w3.
Proof. intros [_ _ K1 R1 U1] [I2 Hh2 K2 R2 U2]. split; [done|done|by eapply ckept_trans|congruence..]. Qed.

Lemma grew_grown D HD w w' :
  CInv D HD None None w → in_hand w HD → grown w w' → cw_reqs w' = cw_reqs w → grew D HD w w'.
Proof.
  intros Hi Hh Hg Er. split; [by eapply CInv_grow| |by apply ckept_grow|done|apply (gr_uris _ _ Hg)].
  intros r. rewrite Er. apply Hh.
Qed.

Lemma fresh_none {A} (m : gmap nat A) : m !! fresh (dom m) = None.
Proof. apply not_elem_of_dom, is_fresh. Qed.

Lemma wp_new_uri D w u E :
  inv D w → wp (alloc_uri u) (λ _ w', inv D w' ∧ ckept w w') E w.
Proof.
  intros Hi. apply wp_bind, wp_gets, wp_bind, wp_modify, wp_ret. split.
  - eapply CInv_uri; [done| |done..]. eexists _, _. split; [apply fresh_none|done].
  - apply ckept_same; eauto. intros i Hi'. cbn. destruct (decide (i = fresh (dom (cw_uris w)))) as [->|];
      [rewrite lookup_insert_eq; by eexists|by rewrite lookup_insert_ne].
Qed.

(** A request that was never handed over. *)
Definition idle_request (q : CRequest) : Prop :=
  rq_client q = None ∧ rq_pool q = None ∧ rq_listeners q = [] ∧ rq_redirection_counter q = 0.

Lemma build_idle verify l :
  idle_request (build verify l).
Proof.
  unfold build. assert (∀ q, idle_request q → idle_request (fold_left (λ q b, builder_call b q) l q)) as Hall; [|by apply Hall].
  induction l as [|b l IH]; intros q Hq; [done|]. apply IH. by destruct b.
Qed.

Lemma wp_fresh_request D w verify l E :
  inv D w → wp (alloc_request (build verify l)) (λ _ w', inv D w' ∧ ckept w w') E w.
Proof.
  intros Hi. destruct (build_idle verify l) as (E1 & E2 & E3 & E4).
  eapply wp_grow; [done|done|]. by apply grown_request; [apply fresh_none|..].
Qed.

Lemma wp_new_client_at D w loop E :
  inv D w → wp (new_client_at loop None) (λ _ w', inv D w' ∧ ckept w w') E w.
Proof. intros Hi. eapply wp_grow; [done|done|]. by apply grown_client; [apply fresh_none|..]. Qed.

Section Pools.
Context (D : RqId → Z) (HD : gset RqId).

Lemma wp_set_idle_timeout w p pq val E :
  CInv D HD None None w → in_hand w HD → cw_pools w !! p = Some pq →
  wp (set_idle_timeout p val) (λ _ w', grew D HD w w') E w.
Proof.
  intros Hi Hh Hp. apply wp_modify, grew_grown; [done|done| |done]. by eapply grown_mod_pool; [..|left].
Qed.

Lemma wp_set_max_connections w p pq val E :
  CInv D HD None None w → in_hand w HD → cw_pools w !! p = Some pq → pl_clients pq = ∅ →
  wp (set_max_connections p val) (λ _ w', grew D HD w w') E w.
Proof.
  intros Hi Hh Hp Hc. apply wp_modify, grew_grown; [done|done| |done]. by eapply grown_mod_pool; [..|right].
Qed.

Lemma wp_new_pool w cfg loop E :
  CInv D HD None None w → in_hand w HD → pc_factory cfg = false →
  wp (new_pool cfg loop) (λ p w', grew D HD w w' ∧ is_Some (cw_pools w' !! p)) E w.
Proof.
  intros Hi Hh Hf. apply wp_bind, wp_bind, wp_gets, wp_bind, wp_modify, wp_ret.
  match goal with |- wp _ _ _ ?w' => set (w1 := w'); assert (grew D HD w w1) as Hg1 end.
  { apply grew_grown; [done|done| |done]. by apply grown_pool; [apply fresh_none|..]. }
  pose proof Hg1 as [Hi1 Hh1 Hk1 R1 U1].
  apply wp_bind. eapply wp_mono; [eapply (wp_set_idle_timeout w1); [done|done|apply lookup_insert_eq]| |done].
  intros [] w2 Hg2. apply wp_ret. split; [by eapply grew_trans; [|exact Hg2]|].
  apply (ck_pools _ _ (gw_kept _ _ _ _ Hg2)). cbn. rewrite lookup_insert_eq. by eexists.
Qed.

Lemma wp_instance w loop E :
  CInv D HD None None w → in_hand w HD →
  wp (instance loop) (λ p w', grew D HD w w' ∧ is_Some (cw_pools w' !! p)) E w.
Proof.
  intros Hi Hh. apply wp_bind, wp_gets. destruct (find_instance w loop) as [p|] eqn:Hf.
  - apply wp_ret. split; [by apply grew_refl|].
    apply List.find_some in Hf as [_ Hf]. destruct (cw_pools w !! p); [by eexists|done].
  - apply wp_bind. eapply wp_mono; [by apply (wp_new_pool w default_pool_config)| |done].
    intros p w1 (Hg1 & Hp). apply wp_bind, wp_modify, wp_ret. split; [|done].
    eapply grew_trans; [exact Hg1|]. apply grew_grown; [apply Hg1|apply Hg1| |done]. by apply grown_refl.
Qed.
End Pools.

(** An agent's settings that leave redirects alone: see [agent_ok]. *)
Definition agent_config_ok w (cfg : AgentConfig) : Prop :=
  ac_ssl_ctx cfg = None ∧ ∀ x, ac_proxy cfg = Some x → known_proxy w x.

Lemma wp_new_agent D w loop s cfg E :
  inv D w → agent_config_ok w cfg → wp (new_agent loop s cfg) (λ _ w', inv D w' ∧ ckept w w') E w.
Proof.
  intros Hi [Hssl Hproxy]. apply wp_bind. eapply wp_mono; [by apply (wp_instance D ∅); [|apply in_hand_none]| |done].
  intros p w1 ([Hi1 _ Hk1 _ Eu1] & Hp).
  apply wp_bind, wp_gets, wp_bind, wp_modify, wp_bind, wp_gets, wp_bind, wp_modify, wp_ret.
  set (j := fresh (dom (cw_jars w1))). set (w2 := w1 <| cw_jars ::= _ |>).
  pose proof (grown_jar w1 j (jar_parse s)) as Hg2. change (w1 <| cw_jars ::= _ |>) with w2 in Hg2.
  assert (grown w2 (w2 <| cw_agents ::= <[fresh (dom (cw_agents w2)) :=
    mkAgent p j (ac_identity cfg) (ac_ssl_ctx cfg) (ac_proxy cfg)]> |>)) as Hg3.
  { apply grown_agent; [apply fresh_none|]. split; [done| |done|].
    - cbn. rewrite lookup_insert_eq. by eexists.
    - intros x Hx. unfold known_proxy. cbn. rewrite Eu1. by apply Hproxy. }
  split.
  { eapply CInv_grow; [|apply in_hand_none|exact Hg3]. by eapply CInv_grow; [|apply in_hand_none|]. }
  eapply ckept_trans; [exact Hk1|]. eapply ckept_trans; by apply ckept_grow.
Qed.
End Allocate.

(** ** The sweep *)

Section Sweep.
Context `{ClientProto} {T : fault → Prop}.
Local Abbreviation wp := (wpf T).
Implicit Types (w : CWorld) (k : Client) (q : CRequest) (l : NetLocList).
Local Abbreviation inv D w := (CInv D ∅ None None w).

(** The free clients of a pool that are let go. *)
Definition gone w t p c : Prop :=
  ∃ pq n l, cw_pools w !! p = Some pq ∧ pl_clients pq !! n = Some l ∧ c ∈ nl_free l ∧
    inactive w t c = true.

(** A world after the sweep of the pool [p]. *)
Record swept w t p (pq : Pool) w' : Prop := {
  sw_pool : cw_pools w !! p = Some pq;
  sw_gone : ∀ c, gone w t p c → cw_clients w' !! c = None;
  sw_stay : ∀ c, ¬ gone w t p c → cw_clients w' !! c = cw_clients w !! c;
  sw_reqs : cw_reqs w' = cw_reqs w;
  sw_pools : ∃ pq', cw_pools w' = <[p := pq']> (cw_pools w) ∧
    pl_clients pq' = omap (sweep_list w t) (pl_clients pq) ∧
    pl_max_connections pq' = pl_max_connections pq ∧ pl_factory pq' = pl_factory pq;
  sw_uris : env_of w' = env_of w;
  sw_log : quiet_log (cw_log w) (cw_log w')
}.

Lemma gone_free D w t p c :
  inv D w → gone w t p c → ∃ k, cw_clients w !! c = Some k ∧ cl_pool k = Some p ∧ cl_request k = None.
Proof.
  intros Hi (pq & n & l & Hp & Hl & Hc & _).
  destruct (lo_in _ _ _ _ _ _ _ (ci_list _ _ _ _ _ Hi p pq n l Hp Hl) c false Hc) as (k & Hk & Hkp & Hh).
  exists k. split_and!; [done..|]. unfold home in Hh. by destruct (cl_request k).
Qed.

(** What stays in a list: the busy clients, and the free ones that are not let go. *)
Lemma sweep_list_in D w t p pq n l l' h c :
  inv D w → cw_pools w !! p = Some pq → pl_clients pq !! n = Some l → sweep_list w t l = Some l' →
  in_list h l' c ↔ in_list h l c ∧ ¬ gone w t p c.
Proof.
  intros Hi Hp Hl Hs. unfold sweep_list in Hs. destruct (_ && _); [done|]. injection Hs as <-.
  pose proof (ci_list _ _ _ _ _ Hi p pq n l Hp Hl) as Hlo.
  assert (∀ n' l', pl_clients pq !! n' = Some l' → ∀ h h', in_list h l c → in_list h' l' c → n' = n ∧ h' = h) as Huniq.
  { intros n' l' Hl' h1 h2 Hin1 Hin2.
    destruct (lo_in _ _ _ _ _ _ _ Hlo c h1 Hin1) as (k1 & Hk1 & _ & Hh1).
    destruct (lo_in _ _ _ _ _ _ _ (ci_list _ _ _ _ _ Hi p pq n' l' Hp Hl') c h2 Hin2) as (k2 & Hk2 & _ & Hh2).
    simplify_eq. rewrite Hh1 in Hh2. by simplify_eq. }
  destruct h; cbn; [|rewrite elem_of_filter]; split.
  - intros Hc. split; [done|]. intros (pq' & n' & l' & Hp' & Hl' & Hc' & _). simplify_eq.
    by destruct (Huniq n' l' Hl' true false Hc Hc').
  - by intros [? _].
  - intros [Ha Hc]. split; [done|]. intros (pq' & n' & l' & Hp' & Hl' & Hc' & Hina). congruence.
  - intros [Hc Hg]. split; [|done]. destruct (inactive w t c) eqn:Hina; [|done].
    destruct Hg. by exists pq, n, l.
Qed.

(** A list with a client that stays, or with a queue, stays. *)
Lemma sweep_list_stays D w t p pq n l :
  inv D w → cw_pools w !! p = Some pq → pl_clients pq !! n = Some l →
  nl_queue l ≠ [] ∨ (∃ h c, in_list h l c ∧ ¬ gone w t p c) → ∃ l', sweep_list w t l = Some l'.
Proof.
  intros Hi Hp Hl Hst. unfold sweep_list. destruct (_ && _) eqn:Hb; [|by eexists].
  apply andb_true_iff in Hb as [Hf%bool_decide_eq_true Hb%bool_decide_eq_true].
  pose proof (ci_list _ _ _ _ _ Hi p pq n l Hp Hl) as Hlo. destruct Hst as [Hq|([|] & c & Hc & Hg)]; cbn in *.
  - destruct (lo_full _ _ _ _ _ _ _ Hlo Hq) as [He _]. by destruct (lo_some _ _ _ _ _ _ _ Hlo He).
  - set_solver.
  - assert (c ∈ filter (λ c, inactive w t c = false) (nl_free l)) as Hin; [|set_solver].
    apply elem_of_filter. split; [|done]. destruct (inactive w t c) eqn:Hina; [|done].
    destruct Hg. by exists pq, n, l.
Qed.
Lemma swept_list w t p pq w' p0 n :
  swept w t p pq w' →
  list_at w' p0 n = if decide (p0 = p) then pl_clients pq !! n ≫= sweep_list w t else list_at w p0 n.
Proof.
  intros Hs. destruct (sw_pools _ _ _ _ _ Hs) as (pq' & Ep & Ec & _). unfold list_at. rewrite Ep.
  case_decide as Hp; [subst; rewrite lookup_insert_eq; cbn; by rewrite Ec, lookup_omap|].
  by rewrite lookup_insert_ne.
Qed.

Lemma list_ok_sweep D w t p pq w' n l l' :
  inv D w → swept w t p pq w' → pl_clients pq !! n = Some l → sweep_list w t l = Some l' →
  list_ok w' ∅ None p (pl_max_connections pq) n l'.
Proof.
  intros Hi Hs Hl Hl'. pose proof (sw_pool _ _ _ _ _ Hs) as Hp. pose proof (sw_uris _ _ _ _ _ Hs) as Eu.
  pose proof (ci_list _ _ _ _ _ Hi p pq n l Hp Hl) as [L1 L2 L3 L4 L5 L6].
  assert (∀ h c, in_list h l' c ↔ in_list h l c ∧ ¬ gone w t p c) as Hin.
  { intros h c. by eapply sweep_list_in. }
  unfold sweep_list in Hl'. destruct (_ && _) eqn:Hb; [done|]. injection Hl' as <-.
  apply andb_false_iff in Hb. rewrite !bool_decide_eq_false in Hb. split; cbn; try done.
  - intros c h [Hc Hg]%Hin. destruct (L1 c h Hc) as (k & Hk & Hkp & Hh). exists k.
    by rewrite (sw_stay _ _ _ _ _ Hs c Hg).
  - intros r Hr. destruct (L2 r Hr) as (_ & q & Hq & Hc & Hpl & Hn & Hsh). split; [done|].
    exists q. rewrite (sw_reqs _ _ _ _ _ Hs), (netloc_of_uris w) by done. split_and!; [done..|]. by eapply shape_uris.
  - intros Hq. destruct (L4 Hq) as [-> ?]. split; [|done].
    apply set_eq. intros c. rewrite elem_of_filter. set_solver.
  - intros Hf. by destruct Hb.
  - assert (size (filter (λ c, inactive w t c = false) (nl_free l)) ≤ size (nl_free l))%nat; [|lia].
    apply subseteq_size. intros c. rewrite elem_of_filter. by intros [_ ?].
Qed.

(** [Pool::check_inactivity] keeps the invariant. *)
Lemma CInv_sweep D w t p pq w' : inv D w → swept w t p pq w' → inv D w'.
Proof.
  intros Hi Hs. pose proof (sw_pool _ _ _ _ _ Hs) as Hp. pose proof (sw_uris _ _ _ _ _ Hs) as Eu.
  pose proof (env_uris _ _ Eu) as Eu'.
  pose proof (sw_reqs _ _ _ _ _ Hs) as Er. pose proof Hi as [I1 I2 I3 I4 I5 I6 I7].
  destruct (sw_pools _ _ _ _ _ Hs) as (pq' & Ep & Ec & Em & Ef).
  assert (∀ c k, cw_clients w' !! c = Some k → ¬ gone w t p c ∧ cw_clients w !! c = Some k) as Hleft.
  { intros c k Hk. assert (¬ gone w t p c) as Hg.
    { intros Hg. by rewrite (sw_gone _ _ _ _ _ Hs c Hg) in Hk. }
    split; [done|]. by rewrite <-(sw_stay _ _ _ _ _ Hs c Hg). }
  assert (∀ c k r, cw_clients w !! c = Some k → cl_request k = Some r → ¬ gone w t p c) as Hserving.
  { intros c k r Hk Hr Hg. destruct (gone_free D w t p c Hi Hg) as (k' & ? & _ & ?). congruence. }
  assert (∀ p0 n l, list_at w p0 n = Some l →
    nl_queue l ≠ [] ∨ (∃ h c, in_list h l c ∧ ¬ gone w t p c) →
    ∃ l', list_at w' p0 n = Some l' ∧ nl_queue l' = nl_queue l ∧
      ∀ h c, in_list h l c → ¬ gone w t p c → in_list h l' c) as Hlist.
  { intros p0 n l Hl Hst. rewrite (swept_list w t p pq w') by done. case_decide as Hp0; [subst p0|by eauto].
    rewrite (list_at_lookup _ _ _ _ Hp) in Hl. destruct (sweep_list_stays D w t p pq n l Hi Hp Hl Hst) as [l' Hl'].
    exists l'. rewrite Hl. split_and!; [done| |].
    - unfold sweep_list in Hl'. destruct (_ && _); [done|]. by injection Hl' as <-.
    - intros h c Hc Hg. by apply (sweep_list_in D w t p pq n l l' h c Hi Hp Hl Hl'). }
  split.
  - intros c k Hk. destruct (Hleft c k Hk) as [Hg Hk0].
    eapply (client_ok_frame w); [by apply I1|done| |done|done|].
    + intros r q _ _ Hq _. split; [done|]. exists q. split; [by rewrite Er|apply same_request_refl].
    + intros p0 l n h Hl Hin. destruct (Hlist p0 n l Hl) as (l' & Hl' & _ & Hin'); [right; by exists h, c|].
      exists l'. auto.
  - intros r q. rewrite Er. intros Hq _.
    eapply (req_ok_frame w); [by apply I2; [|set_solver]|apply same_request_refl|done| |].
    + intros c k Hk Hr. exists k. split; [|done]. rewrite (sw_stay _ _ _ _ _ Hs); [done|]. by eapply Hserving.
    + intros p0 n l Hl Hin. destruct (Hlist p0 n l Hl) as (l' & Hl' & Eq & _);
        [left; intros E; rewrite E in Hin; by apply elem_of_nil in Hin|]. exists l'. by rewrite Eq.
  - intros p0 pq0 n l. rewrite Ep, lookup_insert_Some. intros [[<- <-]|[Hne Hp0]] Hl.
    + rewrite Ec, lookup_omap in Hl. apply bind_Some in Hl as (l0 & Hl0 & Hl). rewrite Em. by eapply list_ok_sweep.
    + eapply (list_ok_frame w); [by eapply I3|done| |].
      * intros c h k Hin Hk Hkp Hh. exists k. split; [|done]. rewrite (sw_stay _ _ _ _ _ Hs); [done|].
        intros Hg. destruct (gone_free D w t p c Hi Hg) as (k' & ? & ? & _). congruence.
      * intros r q _ _ Hq _. split; [done|]. exists q. split; [by rewrite Er|apply same_request_refl].
  - intros p0 pq0. rewrite Ep, lookup_insert_Some. intros [[<- <-]|[_ Hp0]]; [rewrite Ef|]; by eapply I4.
  - eapply env_ok_same; [done|done| |done]. intros p0 Hp0. rewrite Ep.
    destruct (decide (p0 = p)) as [->|]; [rewrite lookup_insert_eq; by eexists|by rewrite lookup_insert_ne].
  - intros r. destruct (sw_log _ _ _ _ _ Hs r) as (-> & -> & _). rewrite (I6 r).
    by rewrite (busy_at_eq w w') by by rewrite Er.
  - intros r. eapply (hops_quiet _ _ _ w); [apply I7|by rewrite Er|apply Hs].
Qed.

(** The clients that are let go have no request: the assertion of [~Client] holds. *)
Lemma wp_destroy_all w (cs : list ClientId) E (Q : unit → CWorld → Prop) :
  NoDup cs → (∀ c, c ∈ cs → ∃ k, cw_clients w !! c = Some k ∧ cl_request k = None) →
  (∀ w', (∀ c, c ∈ cs → cw_clients w' !! c = None) → (∀ c, c ∉ cs → cw_clients w' !! c = cw_clients w !! c) →
    cw_reqs w' = cw_reqs w → cw_pools w' = cw_pools w → env_of w' = env_of w →
    quiet_log (cw_log w) (cw_log w') → Q tt w') →
  wp (for_each destroy_client cs) Q E w.
Proof.
  intros Hnd Hidle HQ. revert w Hidle HQ. induction Hnd as [|c cs Hc Hnd IH]; intros w Hidle HQ.
  { apply wp_ret, HQ; try done. by intros c ?%elem_of_nil. }
  cbn [for_each]. apply wp_bind. destruct (Hidle c) as (k & Hk & Hr); [by left|].
  unfold destroy_client. apply wp_bind. eapply wp_get_client; [done|]. apply wp_bind, wp_assert; [by apply bool_decide_eq_true|].
  apply wp_bind, wp_modify, wp_modify. apply IH.
  - intros c' Hc'. cbn. rewrite lookup_delete_ne by (intros ->; done). apply Hidle. by right.
  - intros w' Hg Hs Er Ep Eu El. cbn in Hs, El. apply HQ; [| |done|done|done|].
    + intros c' [->|Hc']%elem_of_cons; [rewrite Hs by done; apply lookup_delete_eq|by apply Hg].
    + intros c' [Hne Hc']%not_elem_of_cons. rewrite Hs by done. by apply lookup_delete_ne.
    + eapply quiet_log_trans; [|exact El]. by apply quiet_cons.
Qed.

Lemma elem_of_swept w t p pq c :
  cw_pools w !! p = Some pq → c ∈ swept_clients w t (pl_clients pq) ↔ gone w t p c.
Proof.
  intros Hp. unfold swept_clients, gone. rewrite list_elem_of_bind. split.
  - intros ([n l] & Hc & Hl%elem_of_map_to_list). apply elem_of_elements, elem_of_filter in Hc as [Hi Hc].
    by exists pq, n, l.
  - intros (pq' & n & l & Hp' & Hl & Hc & Hi). simplify_eq. exists (n, l).
    split; [by apply elem_of_elements, elem_of_filter|by apply elem_of_map_to_list].
Qed.

(** A client is in one list of its pool only. *)
Lemma NoDup_swept D w t p pq :
  inv D w → cw_pools w !! p = Some pq → NoDup (swept_clients w t (pl_clients pq)).
Proof.
  intros Hi Hp. unfold swept_clients.
  assert (∀ n l c, (n, l) ∈ map_to_list (pl_clients pq) → c ∈ nl_free l →
    ∃ k, cw_clients w !! c = Some k ∧ home None c k = (n, false)) as Hhome.
  { intros n l c Hl%elem_of_map_to_list Hc.
    destruct (lo_in _ _ _ _ _ _ _ (ci_list _ _ _ _ _ Hi p pq n l Hp Hl) c false Hc) as (k & ? & _ & ?). eauto. }
  pose proof (NoDup_fst_map_to_list (pl_clients pq)) as Hnd. revert Hnd Hhome.
  induction (map_to_list (pl_clients pq)) as [|[n l] L IH]; intros Hnd Hhome; [constructor|].
  cbn in Hnd |- *. apply NoDup_cons in Hnd as [Hn Hnd]. apply NoDup_app. split_and!.
  - apply NoDup_elements.
  - intros c [_ Hc]%elem_of_elements%elem_of_filter Hc'.
    apply list_elem_of_bind in Hc' as ([n' l'] & Hc' & Hl'). apply elem_of_elements, elem_of_filter in Hc' as [_ Hc'].
    destruct (Hhome n l c) as (k & Hk & Hh); [by left|done|].
    destruct (Hhome n' l' c) as (k' & Hk' & Hh'); [by right|done|]. simplify_eq. rewrite Hh in Hh'. simplify_eq.
    apply Hn, list_elem_of_fmap. by exists (n', l').
  - apply IH; [done|]. intros n' l' c Hl'. apply Hhome. by right.
Qed.

(** [Pool::check_inactivity]. *)
Lemma wp_check_inactivity D w p pq E :
  inv D w → cw_pools w !! p = Some pq →
  wp (check_inactivity p)
    (λ _ w', inv D w' ∧ swept w (remove_time (cw_now w (pl_loop pq)) (pl_idle_timeout pq)) p pq w') E w.
Proof.
  intros Hi Hp. apply wp_bind. eapply wp_get_pool; [done|].
  apply wp_bind, wp_gets. cbv zeta. set (t := remove_time _ _).
  apply wp_bind, wp_gets, wp_bind, wp_gets, wp_bind. eapply wp_destroy_all.
  - by eapply NoDup_swept.
  - intros c Hc. apply (elem_of_swept w t p pq c Hp) in Hc.
    destruct (gone_free D w t p c Hi Hc) as (k & ? & _ & ?). eauto.
  - intros w1 Hg Hs Er Ep Eu El. apply wp_modify.
    match goal with |- _ ∧ swept _ _ _ _ ?w' => assert (swept w t p pq w') as Hsw end; [|split; [by eapply CInv_sweep|done]].
    split; try done.
    + intros c Hc. apply Hg. by apply (elem_of_swept w t p pq c Hp).
    + intros c Hc. apply Hs. by rewrite (elem_of_swept w t p pq c Hp).
    + eexists. cbn. rewrite Ep. split; [by apply alter_alt_Some|done].
Qed.
End Sweep.
