(* ===== verification/AgentSpecs.v ===== *)
(** * User agents keep the invariant

    What an agent does to a request that is handed over through it, and what its
    listeners do for the events of that request: cookies go into its jar and into
    the request's message, and nothing that a location depends on changes. *)
From S2P Require Import Prelude Errors Proto ClientProto ClientState ClientOps Form Client Pool UserAgent ClientStep ClientInv ClientSpecs ClientMoves PoolSpecs ClientFinish ClientRead ClientGrow.
Local Open Scope Z_scope.

Section Agent.
Context `{ClientProto} `{!ClientEnv} `{!CCallbacks} {T : fault → Prop}.
Local Abbreviation wp := (wpf T).
Implicit Types (w : CWorld) (q : CRequest) (ua : UserAgent) (E : exn → CWorld → Prop).

(** A request with its message as [jar] makes it for the URI [u] in the context [cu] (what
    becomes of the cookies it has is the jar's business), and with the agent's identity,
    SSL context and proxy where it has none of its own. *)
Definition equipped ua (jar : CookieJar) q (u cu : Uri) (top : bool) (now : Z) : CRequest :=
  let m := jar_populate jar (rq_msg q) u cu top now in
  q <| rq_msg := match ua_identity ua with
                 | Some v => if fields_has (cm_headers m) "User-Agent" then m
                             else m <| cm_headers := fields_add (cm_headers m) "User-Agent" v |>
                 | None => m
                 end |>
    <| rq_ssl_ctx := match rq_ssl_ctx q with Some x => Some x | None => ua_ssl_ctx ua end |>
    <| rq_proxy := match rq_proxy q with Some x => Some x | None => ua_proxy ua end |>.

(** The agent [a], its pool and its jar, and the request [r] with its URI. *)
Record agent_at w (a : AgentId) ua (pq : Pool) (jar : CookieJar) : Prop := {
  ag_agent : cw_agents w !! a = Some ua;
  ag_pool : cw_pools w !! ua_pool ua = Some pq;
  ag_jar : cw_jars w !! ua_cookie_jar ua = Some jar
}.
Definition goes_to w q (u : Uri) : Prop := ∃ i, rq_uri q = Some i ∧ cw_uris w !! i = Some u.

Lemma equipped_eq ua jar q u cu top now :
  inject_config ua (inject_identity ua (q <| rq_msg ::= λ m, jar_populate jar m u cu top now |>)) =
  equipped ua jar q u cu top now.
Proof.
  unfold equipped, inject_config, inject_identity. destruct ua as [p j [v|] [x|] [y|]], q; cbn;
    destruct rq_ssl_ctx, rq_proxy; cbn; try (by destruct (fields_has _ _)); done.
Qed.

Lemma wp_agent_now w a ua pq jar (Q : Z → CWorld → Prop) E :
  agent_at w a ua pq jar → Q (cw_now w (pl_loop pq)) w → wp (agent_now a) Q E w.
Proof.
  intros [Ha Hp Hj] HQ. apply wp_bind, wp_bind, wp_gets. eapply wp_deref; [done|].
  apply wp_bind, wp_bind, wp_gets. eapply wp_deref; [done|]. by apply wp_gets.
Qed.

Lemma wp_inject w a ua pq jar r q u ci cu top now (Q : unit → CWorld → Prop) E :
  agent_at w a ua pq jar → cw_reqs w !! r = Some q → goes_to w q u → cw_uris w !! ci = Some cu →
  Q tt (w <| cw_reqs := <[r := equipped ua jar q u cu top now]> (cw_reqs w) |>) →
  wp (inject a r ci top now) Q E w.
Proof.
  intros [Ha Hp Hj] Hq (i & Hi & Hu) Hc HQ. unfold inject.
  apply wp_bind, wp_bind, wp_gets. eapply wp_deref; [done|].
  apply wp_bind, wp_bind, wp_gets. eapply wp_deref; [done|].
  apply wp_bind, wp_bind, wp_gets. eapply wp_deref; [done|].
  apply wp_bind. eapply wp_deref; [done|]. apply wp_bind, wp_bind, wp_gets. eapply wp_deref; [done|].
  apply wp_bind, wp_bind, wp_gets. eapply wp_deref; [done|].
  apply wp_bind, wp_modify, wp_modify.
  match goal with |- Q tt ?w' => replace w' with (w <| cw_reqs := <[r := equipped ua jar q u cu top now]> (cw_reqs w) |>) end; [done|].
  rewrite <-equipped_eq. unfold setter, set_cw_reqs. cbn. f_equal. apply map_eq. intros r'.
  destruct (decide (r' = r)) as [->|].
  - by rewrite lookup_insert_eq, !lookup_alter_eq, Hq.
  - by rewrite lookup_insert_ne, !lookup_alter_ne.
Qed.

Lemma wp_collect w a ua pq jar res i u now (Q : unit → CWorld → Prop) E :
  agent_at w a ua pq jar → cw_uris w !! i = Some u →
  Q tt (w <| cw_jars := <[ua_cookie_jar ua := jar_collect jar (rp_msg res) u now]> (cw_jars w) |>) →
  wp (collect a res i now) Q E w.
Proof.
  intros [Ha Hp Hj] Hu HQ. unfold collect. apply wp_bind, wp_bind, wp_gets. eapply wp_deref; [done|].
  apply wp_bind, wp_bind, wp_gets. eapply wp_deref; [done|].
  apply wp_bind, wp_bind, wp_gets. eapply wp_deref; [done|]. by apply wp_modify.
Qed.

End Agent.

Section Request.
Context `{ClientProto} `{!ClientEnv} `{!CCallbacks}.
Implicit Types (w : CWorld) (q : CRequest) (ua : UserAgent).

(** [UserAgent::request], up to the call of the pool. *)
Lemma agent_request_eq w a ua pq jar r q u ci cu top :
  agent_at w a ua pq jar → cw_reqs w !! r = Some q → goes_to w q u → cw_uris w !! ci = Some cu →
  let q' := equipped ua jar (q <| rq_listeners ::= λ ls, ls ++ [LAgent a ci top] |>) u cu top (cw_now w (pl_loop pq)) in
  agent_request a r ci top w = pool_request (ua_pool ua) r (w <| cw_reqs := <[r := q']> (cw_reqs w) |>).
Proof.
  intros Hag Hq (i & Hi & Hu) Hci q'. set (q1 := q <| rq_listeners ::= _ |>) in q'.
  set (w1 := w <| cw_reqs ::= alter (λ q, q <| rq_listeners ::= λ ls, ls ++ [LAgent a ci top] |>) r |>).
  assert (agent_at w1 a ua pq jar) as Hag1 by by destruct Hag.
  assert (cw_reqs w1 !! r = Some q1) as Hq1 by (unfold w1; cbn; by rewrite lookup_alter_eq, Hq).
  unfold agent_request. rewrite (bind_ok (m := add_listener _ _) (s' := w1) (a := tt)) by done.
  assert (agent_now a w1 = Ok (cw_now w (pl_loop pq)) w1) as En.
  { destruct Hag1 as [Ha Hp Hj]. unfold agent_now, get_agent, get_pool, gets, mbind, M_bind. rewrite Ha. cbn [deref].
    unfold mret, M_ret. by rewrite Hp. }
  rewrite (bind_ok En).
  set (w2 := w1 <| cw_reqs := <[r := q']> (cw_reqs w1) |>).
  rewrite (bind_ok (s' := w2) (a := tt)).
  2: { apply wp_equals. eapply wp_inject; [done|done|by exists i|done|done]. }
  rewrite (bind_ok (a := ua) (s' := w2)).
  2: { unfold get_agent, gets, mbind, M_bind. unfold w2, w1. cbn. by rewrite (ag_agent _ _ _ _ _ Hag). }
  f_equal. unfold w2, w1. unfold setter, set_cw_reqs. cbn. f_equal. apply map_eq. intros r'.
  destruct (decide (r' = r)) as [->|]; [by rewrite !lookup_insert_eq|].
  by rewrite !lookup_insert_ne, lookup_alter_ne.
Qed.
End Request.

Section Heeding.
Context `{ClientProto} `{!ClientProtoLaws} `{!ClientEnv} `{!ClientEnvLaws} `{!CCallbacks} {T : fault → Prop}.
Local Abbreviation wp := (wpf T).
Implicit Types (w : CWorld) (q : CRequest) (ua : UserAgent) (E : exn → CWorld → Prop).
Local Abbreviation inv D w := (CInv D ∅ None None w).

(** A change of a request that leaves what it asks for and who has it. *)
Lemma CInv_same_request D HD K X w w' r q q' :
  CInv D HD K X w → cw_reqs w !! r = Some q →
  cw_clients w' = cw_clients w → cw_reqs w' = <[r := q']> (cw_reqs w) →
  cw_pools w' = cw_pools w → env_of w' = env_of w → quiet_log (cw_log w) (cw_log w') →
  same_request q q' → CInv D HD K X w'.
Proof.
  intros Hi Hq Ec Er Ep Eu El Hs. eapply (CInv_request _ _ _ _ w w' r q q'); try done; try apply Hs.
  - by apply listeners_ok_same.
  - by apply good_same.
  - intros n. by apply shape_same.
  - intros _. by apply netloc_of_same.
Qed.

(** An agent of a sound world, with its pool and its jar. *)
Lemma agent_there D HD K X w a ua :
  CInv D HD K X w → cw_agents w !! a = Some ua → ∃ pq jar, agent_at w a ua pq jar.
Proof.
  intros Hi Ha. destruct (eo_agents _ (ci_env _ _ _ _ _ Hi) a ua Ha) as [[pq Hp] [jar Hj] _ _].
  exists pq, jar. by split.
Qed.

(** Equipping a request that has a proxy if its agent has one. *)
Lemma equipped_same w ua jar q u cu top now :
  agent_ok w ua → (is_Some (ua_proxy ua) → is_Some (rq_proxy q)) →
  same_request q (equipped ua jar q u cu top now).
Proof.
  intros [_ _ Hssl _] Hp. unfold equipped. rewrite Hssl. split; try done; cbn; [|by destruct (rq_ssl_ctx q)].
  destruct (rq_proxy q) eqn:E; [done|]. destruct (ua_proxy ua); [|done]. by destruct Hp.
Qed.

(** A request that may be handed over still may be when it is equipped. *)
Lemma equipped_ready w ua jar q u cu top now :
  agent_ok w ua → good w q → stable w q →
  let q' := equipped ua jar q u cu top now in
  good w q' ∧ stable w q' ∧ rq_ssl_ctx q' = rq_ssl_ctx q.
Proof.
  intros Hok Hg Hs q'. pose proof Hok as [_ _ Hssl Hpx].
  assert (rq_ssl_ctx q' = rq_ssl_ctx q) as Es by (subst q'; cbn; rewrite Hssl; by destruct (rq_ssl_ctx q)).
  destruct (decide (is_Some (rq_proxy q))) as [Hp|Hp].
  - assert (same_request q q') as Hsame by by apply (equipped_same w).
    split_and!; [by eapply good_same| |done]. intros n Hn. rewrite (netloc_of_same _ _ _ Hsame) in Hn.
    by eapply shape_same, Hs.
  - apply eq_None_not_Some in Hp. assert (rq_proxy q' = ua_proxy ua) as Ep by (subst q'; cbn; by rewrite Hp).
    split_and!; [|intros n; apply shape_redirected|done].
    + destruct Hg as [G1 _ G3 G4]. split; try done. rewrite Ep. apply Hpx.
    + destruct (good_netloc w q Hg) as [m Hm]. pose proof (Hs m Hm) as Hsm. unfold shape, netloc_of in *.
      assert (http_proxy w q = None) as Eh by (unfold http_proxy; by rewrite Hp). rewrite Eh in Hm, Hsm.
      apply bind_Some in Hm as (i & _ & (v & _ & [= <-])%bind_Some). destruct Hsm as (Hsm & _). cbn in Hsm. congruence.
Qed.

Lemma equipped_heeded w a ua jar q u v cu top now :
  cw_agents w !! a = Some ua → is_Some (cw_uris w !! u) → is_Some (rq_uri q) →
  (∀ i, rq_uri q = Some i → is_Some (cw_uris w !! i)) → listeners_ok w q →
  listeners_ok w (equipped ua jar (q <| rq_listeners ::= λ ls, ls ++ [LAgent a u top] |>) v cu top now).
Proof.
  intros Ha Hu [i Hri] Hi [L1 L2]. split; [|intros _; exists i; split; [done|by apply Hi]]. cbn.
  apply Forall_app. split.
  - eapply Forall_impl; [exact L1|]. intros [a' u' t|]; cbn; [|done]. intros (ua' & ? & ? & Hp). exists ua'.
    split_and!; [done..|]. intros Hp'. by destruct (Hp Hp') as [x ->].
  - constructor; [|constructor]. exists ua. split_and!; [done..|]. intros Hp. by destruct (rq_proxy q).
Qed.

(** What a listener leaves: the invariant, the agents, and the listeners of [r]. *)
Definition heard D r w w' : Prop :=
  inv D w' ∧ ckept w w' ∧
  ∀ q, cw_reqs w !! r = Some q → ∃ q', cw_reqs w' !! r = Some q' ∧ rq_listeners q' = rq_listeners q.

Lemma heard_refl D r w : inv D w → heard D r w w.
Proof. intros Hi. split_and!; [done|apply ckept_refl|eauto]. Qed.

Lemma heard_trans D r w1 w2 w3 : heard D r w1 w2 → heard D r w2 w3 → heard D r w1 w3.
Proof.
  intros (_ & K1 & R1) (I2 & K2 & R2). split_and!; [done|by eapply ckept_trans|].
  intros q Hq. destruct (R1 q Hq) as (q' & Hq' & <-). by apply R2.
Qed.

Lemma event_ok_kept w w' ev : ckept w w' → event_ok w ev → event_ok w' ev.
Proof.
  intros Hk [[q Hq] Hu]. split.
  - destruct (ck_reqs _ _ Hk _ q Hq) as (q' & ? & _). by exists q'.
  - destruct ev; try done. by apply (ck_uris _ _ Hk).
Qed.

(** New cookies in a jar. *)
Lemma heard_jar D r w j x : inv D w → heard D r w (w <| cw_jars := <[j := x]> (cw_jars w) |>).
Proof.
  intros Hi. pose proof (grown_jar w j x) as Hg. split_and!; [by eapply CInv_grow; [|apply in_hand_none|]|by apply ckept_grow|eauto].
Qed.
(** [inject] on a request whose agent has been listening to it. *)
Lemma wp_reinject D w a ua r q ci top now :
  inv D w → cw_agents w !! a = Some ua → cw_reqs w !! r = Some q →
  (∃ i, rq_uri q = Some i ∧ is_Some (cw_uris w !! i)) → is_Some (cw_uris w !! ci) →
  (is_Some (ua_proxy ua) → is_Some (rq_proxy q)) →
  wp (inject a r ci top now) (λ _, heard D r w) no_throw w.
Proof.
  intros Hi Ha Hq (i & Hri & [u Hu]) [cu Hcu] Hp.
  destruct (agent_there _ _ _ _ _ _ _ Hi Ha) as (pq & jar & Hag).
  eapply wp_inject; [done|done|by exists i|done|]. set (w1 := w <| cw_reqs := _ |>).
  assert (same_request q (equipped ua jar q u cu top now)) as Hs.
  { apply (equipped_same w); [|done]. by apply (eo_agents _ (ci_env _ _ _ _ _ Hi) a). }
  split_and!.
  - by eapply (CInv_same_request _ _ _ _ w w1 r q).
  - eapply (ckept_reqs w w1 r q); try done. by rewrite (sm_ssl_ctx _ _ Hs).
  - intros q0 Hq0. simplify_eq. eexists. cbn. rewrite lookup_insert_eq. split; [done|]. apply Hs.
Qed.

(** What the agent's listener relies on of the request it is on. *)
Lemma listening D w r q a ci top :
  inv D w → cw_reqs w !! r = Some q → LAgent a ci top ∈ rq_listeners q →
  ∃ ua i u, cw_agents w !! a = Some ua ∧ is_Some (cw_uris w !! ci) ∧
    (is_Some (ua_proxy ua) → is_Some (rq_proxy q)) ∧ rq_uri q = Some i ∧ cw_uris w !! i = Some u.
Proof.
  intros Hi Hq Hl. destruct (eo_listeners _ (ci_env _ _ _ _ _ Hi) r q Hq) as [L1 L2].
  rewrite Forall_forall in L1. destruct (L1 _ Hl) as (ua & Ha & Hc & Hp).
  destruct L2 as (i & Hri & [u Hu]); [intros E; rewrite E in Hl; by apply elem_of_nil in Hl|].
  by exists ua, i, u.
Qed.

Lemma wp_run_listener D w ev q l :
  inv D w → event_ok w ev → cw_reqs w !! event_request ev = Some q → l ∈ rq_listeners q →
  wp (run_listener ev l) (λ _, heard D (event_request ev) w) no_throw w.
Proof.
  intros Hi Hev Hq Hl.
  assert (wp (mret tt) (λ _, heard D (event_request ev) w) no_throw w) as Hnone by by apply wp_ret, heard_refl.
  destruct l as [a ci top|f].
  2: { destruct (eo_listeners _ (ci_env _ _ _ _ _ Hi) _ q Hq) as [L1 _]. rewrite Forall_forall in L1. by destruct (L1 _ Hl). }
  destruct (listening D w _ q a ci top Hi Hq Hl) as (ua & i & u & Ha & Hci & Hp & Hri & Hu).
  destruct (agent_there _ _ _ _ _ _ _ Hi Ha) as (pq & jar & Hag).
  destruct ev as [r res err|r res [e|]|r res ctx|r]; try done; cbn [run_listener event_request] in *.
  - apply wp_bind. eapply wp_agent_now; [done|]. apply wp_bind, wp_bind, wp_gets. eapply wp_deref; [done|].
    apply wp_bind. eapply wp_deref; [done|]. eapply wp_collect; [done|done|]. by apply heard_jar.
  - destruct Hev as [_ [v Hv]]. cbn in Hv. apply wp_bind. eapply wp_agent_now; [done|].
    apply wp_bind. eapply wp_collect; [done|done|]. set (w1 := w <| cw_jars := _ |>).
    pose proof (heard_jar D r w (ua_cookie_jar ua) (jar_collect jar (rp_msg res) v (cw_now w (pl_loop pq))) Hi) as Hh1.
    eapply wp_mono; [eapply (wp_reinject D w1 a ua r q)|intros [] w2; by apply heard_trans|done];
      [apply Hh1|done|done| |done|done]. exists i. split; [done|]. by exists u.
Qed.

(** The library's own listeners. *)
Lemma wp_run_listeners D w ev :
  inv D w → event_ok w ev → wp (run_listeners ev) (λ _ w', inv D w' ∧ ckept w w') no_throw w.
Proof.
  intros Hi Hev. pose proof Hev as [[q Hq] _]. apply wp_bind. eapply wp_get_rq; [done|].
  eapply wp_mono; [apply (wp_for_each _ _ (heard D (event_request ev) w)); [by apply heard_refl|]| |done].
  - intros l w1 Hl Hh. pose proof Hh as (Hi1 & Hk1 & Hr1). destruct (Hr1 q Hq) as (q1 & Hq1 & El).
    eapply wp_mono; [eapply (wp_run_listener D w1 ev q1)| |done]; [done|by eapply event_ok_kept|done|by rewrite El|].
    intros [] w2. by apply heard_trans.
  - by intros [] w' (? & ? & _).
Qed.

(** They have nothing to do while a request is cancelled out of a queue. *)
Lemma run_listeners_unqueuing w ev : unqueuing w ev → run_listeners ev w = Ok tt w.
Proof.
  intros (r & q & p & n & l & (res & e & Hev) & Hq & _ & Hl & _).
  assert (event_request ev = r) as Er by by destruct Hev as [-> | ->].
  unfold run_listeners. rewrite Er. rewrite (bind_ok (a := q) (s' := w)).
  2: { unfold get_rq, gets, mbind, M_bind. by rewrite Hq. }
  induction Hl as [|l' ls Hx _ IH]; [done|]. cbn [for_each]. rewrite (bind_ok (a := tt) (s' := w)); [done|].
  destruct l'; [|done]. by destruct Hev as [-> | ->].
Qed.
End Heeding.
