(* ===== verification/ClientProgram.v ===== *)
(** * The user's calls, and programs that keep to them

    [caction_ok] says which calls the safety theorems are about: requests are
    handed over, to a pool, a client or through a user agent, while they are idle,
    with a complete URI, a known proxy and no streamed files, and are cancelled with
    an error; agents have no SSL context of their own and a known proxy if any. A
    program is well-behaved when
    its listeners make such calls only, none of them while a request is being
    cancelled out of a queue, and cancel only where callbacks may still nest. *)
From S2P Require Import Prelude Errors Proto ClientProto ClientState ClientOps Form Client Pool UserAgent ClientStep ClientInv ClientSpecs ClientMoves PoolSpecs ClientFinish ClientRead ClientGrow AgentSpecs.
Local Open Scope Z_scope.

Section Calls.
Context `{ClientProto} `{!ClientEnv}.
Implicit Types (w : CWorld) (q : CRequest).

(** A request that may be handed over. *)
Record ready w r : Prop := {
  rd_request : ∃ q, cw_reqs w !! r = Some q ∧ busy_rq q = false ∧ good w q ∧ stable w q
}.

Definition caction_ok w (a : CAction) : Prop :=
  match a with
  | UNewUri _ | UNewRequest _ _ | UNewClient _ => True
  | UNewAgent _ _ cfg => agent_config_ok w cfg
  | UNewPool cfg _ => pc_factory cfg = false
  | UPoolRequest p r => is_Some (cw_pools w !! p) ∧ ready w r
  | UHttpRequest r _ => ready w r
  | UAgentRequest a r u _ => is_Some (cw_agents w !! a) ∧ is_Some (cw_uris w !! u) ∧ ready w r
  | UClientRequest c r =>
      (∃ k, cw_clients w !! c = Some k ∧ cl_pool k = None ∧ cl_request k = None) ∧ ready w r
  | UCancel r err => is_Some (cw_reqs w !! r) ∧ is_Some err
  | UClientCancel c err => is_Some (cw_clients w !! c) ∧ is_Some err
  | USendChunk r _ | USendFinalChunk r _ =>
      ∃ q c, cw_reqs w !! r = Some q ∧ rq_transfer_completed q = false ∧ rq_client q = Some c
  | UIdleTimeout p _ => is_Some (cw_pools w !! p)
  | UMaxConnections p _ => ∃ pq, cw_pools w !! p = Some pq ∧ pl_clients pq = ∅
  | _ => False
  end.

Definition is_cancel (a : CAction) : bool :=
  match a with UCancel _ _ | UClientCancel _ _ => true | _ => false end.

Record well_behaved (P : CProgram) : Prop := {
  wb_ok : ∀ level ev i w a, pr_event P level ev i w = Some a → caction_ok w a;
  wb_cancel : ∀ ev i w a, pr_event P 0 ev i w = Some a → is_cancel a = false;
  wb_unqueuing : ∀ level ev i w, unqueuing w ev → pr_event P level ev i w = None
}.

(** A listener of a redirect's event makes calls. *)
Definition noisy_redirects (P : CProgram) : Noisy :=
  ∃ level ev i w a, is_redirect_event ev = true ∧ pr_event P level ev i w = Some a.
End Calls.

Section CallSpecs.
Context `{ClientProto} `{!ClientProtoLaws} `{!ClientEnv} `{!ClientEnvLaws} {CB : CCallbacks} {Nz : Noisy}.
Local Abbreviation wp := (wpf tolerated).
Implicit Types (w : CWorld) (k : Client) (q : CRequest).
Local Abbreviation inv D w := (CInv D ∅ None None w).

Lemma idle_client q : busy_rq q = false → rq_client q = None.
Proof. unfold busy_rq. by destruct (rq_client q). Qed.

(** A request that is handed over is in the library's hands, with one answer due. *)
Record handed D w r : Prop := {
  hd_inv : CInv (due r 1 D) {[ r ]} None None w;
  hd_request : ∃ q, cw_reqs w !! r = Some q ∧ rq_client q = None ∧ good w q ∧ stable w q ∧ low q
}.
(** What becomes of it. *)
Definition taken D w r w' : Prop :=
  CInv (due r (-1) (due r 1 D)) ({[ r ]} ∖ {[ r ]}) None None w' ∧ ckept w w'.

Lemma stable_at_uris w w' q : cw_uris w' = cw_uris w → stable w q → stable w' q.
Proof.
  intros E Hs n. rewrite (netloc_at_uris w) by done. intros Hn. eapply shape_at_uris; [done|]. by apply Hs.
Qed.

Lemma wp_submit {A} D w r (m : M CWorld A) :
  inv D w → ready w r →
  (∀ w1, handed D w1 r → cw_clients w1 = cw_clients w → cw_pools w1 = cw_pools w → env_of w1 = env_of w →
    wp m (λ _, taken D w1 r) escapes w1) →
  wp (submit r m) (λ _ w', inv D w' ∧ ckept w w') escapes w.
Proof.
  intros Hi [(q & Hq & Hb & Hg & Hs)] Hm. apply wp_bind, wp_modify. set (w1 := w <| cw_log ::= _ |>).
  assert (handed D w1 r) as Hd.
  { split.
    - rewrite <-(right_id_L ∅ (∪) {[ r ]}). by apply (CInv_hold D ∅ None None w r q); [..|apply not_elem_of_empty].
    - exists q. split_and!; [done|by apply idle_client|by apply (good_uris w)|by apply (stable_at_uris w)|].
      by eapply (CInv_low D None w r). }
  apply wp_bind. eapply wp_mono; [by apply Hm| |done]. intros x w2 [Hi2 Hk2]. apply wp_ret. split.
  - replace ({[r]} ∖ {[r]} : gset RqId) with (∅ : gset RqId) in Hi2 by set_solver.
    eapply CInv_ext; [exact Hi2|]. intros y. rewrite !ledger_due. case_bool_decide; lia.
  - eapply ckept_trans; [|exact Hk2]. apply ckept_same; eauto.
Qed.

Lemma wp_hand_to_pool D w p r :
  handed D w r → is_Some (cw_pools w !! p) → wp (pool_request p r) (λ _, taken D w r) escapes w.
Proof.
  intros [Hi (q & Hq & Hc & Hg & Hs & Hlow)] [pq Hp]. destruct (good_netloc w q Hg) as [n Hn].
  unfold pool_request, pool_ops, pool_ops_over_client, client_ops.
  apply (wp_pool_request client_cancel (due r 1 D) {[ r ]} w p pq r q n);
    [exact Hi|exact Hp|exact Hq|set_solver|exact Hc|exact Hg|exact Hlow|exact Hn|by apply Hs].
Qed.

Lemma wp_hand_to_client D w c r k :
  handed D w r → cw_clients w !! c = Some k → cl_pool k = None → cl_request k = None →
  wp (client_request client_cancel c r) (λ _, taken D w r) escapes w.
Proof.
  intros [Hi (q & Hq & Hc & Hg & Hs & Hlow)] Hk Hkp Hkr. destruct (good_netloc w q Hg) as [n Hn].
  eapply wp_mono; [apply (wp_client_start client_cancel (due r 1 D) {[ r ]} None w c r k q n)| |done].
  - exact Hi.
  - exact Hk.
  - exact Hq.
  - exact Hkr.
  - set_solver.
  - by rewrite Hkp.
  - exact Hc.
  - exact Hg.
  - exact Hlow.
  - exact Hn.
  - by rewrite Hkp.
  - by intros [] w' (? & ? & _).
Qed.

(** A request that is handed over through a user agent. *)
Lemma wp_agent_request D w a ua r u top :
  handed D w r → cw_agents w !! a = Some ua → is_Some (cw_uris w !! u) →
  wp (agent_request a r u top) (λ _, taken D w r) escapes w.
Proof.
  intros [Hi (q & Hq & Hc & Hg & Hs & Hlow)] Hag [cu Hu].
  destruct (agent_there _ _ _ _ _ _ _ Hi Hag) as (pq & jar & Hat).
  pose proof (eo_agents _ (ci_env _ _ _ _ _ Hi) a ua Hag) as Hok.
  destruct (g_uri _ _ Hg) as (i & v & Hri & Hv & Hhost & Hscheme).
  set (q0 := q <| rq_listeners ::= λ ls, ls ++ [LAgent a u top] |>).
  unfold wpf. rewrite (agent_request_eq w a ua pq jar r q v u cu top) by (try done; by exists i). cbv zeta.
  destruct (equipped_ready w ua jar q0 v cu top (cw_now w (pl_loop pq)) Hok) as (Hg1 & Hs1 & Hssl); [by destruct Hg|done|].
  set (q1 := equipped _ _ _ _ _ _ _) in *. set (w1 := w <| cw_reqs := _ |>).
  assert (handed D w1 r) as Hd1.
  { split.
    - eapply (CInv_held _ _ _ _ w w1 r q q1); [done|done|set_solver|try done..].
      apply equipped_heeded; [done|by eexists|by eexists|]. intros i' Hi'. simplify_eq. by eexists.
    - exists q1. split_and!; [apply lookup_insert_eq|done|by apply (good_uris w)|by apply (stable_at_uris w)|done]. }
  assert (ckept w w1) as Hk1 by (eapply (ckept_reqs w w1 r q q1); try done; by rewrite Hssl).
  eapply wp_mono; [apply (wp_hand_to_pool D w1 (ua_pool ua) r Hd1)| |done].
  - eexists. apply Hat.
  - intros o w2 [Hi2 Hk2]. split; [done|by eapply ckept_trans].
Qed.

(** Chunks of a request that its client is sending. *)
Lemma wp_chunk D w c k r q x E :
  inv D w → cw_clients w !! c = Some k → cw_reqs w !! r = Some q →
  wp (tcp_write c x) (λ _ w', inv D w' ∧ ckept w w') E w.
Proof.
  intros Hi Hk Hq. apply wp_bind, wp_modify. set (w1 := w <| cw_log ::= _ |>).
  assert (inv D w1) as Hi1 by (eapply CInv_log; try done; by apply quiet_cons).
  pose proof (ci_client _ _ _ _ _ Hi1 c k Hk) as Ho.
  eapply (wp_mod_client w1 c k); [done|]. intros w2 Ec2 Er2 Ep2 Eu2 El2. split.
  - eapply (CInv_client _ _ _ None None w1 w2 c k (k <| cl_pending ::= λ l, l ++ [PWrite] |>));
      try done; try apply Ho; [by left|by left|by rewrite El2].
  - destruct Ho. split; unfold of_client; rewrite ?Ec2, ?Er2, ?Ep2, ?(env_uris _ _ Eu2); eauto; intros c0.
    all: destruct (decide (c0 = c)) as [->|]; [rewrite lookup_insert_eq|by rewrite lookup_insert_ne].
    all: change (cw_clients w1) with (cw_clients w); rewrite ?Hk; eauto.
Qed.

Lemma serving_request D w r q c :
  inv D w → cw_reqs w !! r = Some q → rq_client q = Some c →
  ∃ k, cw_clients w !! c = Some k ∧ cl_request k = Some r.
Proof. intros Hi Hq Hc. apply (ro_client _ _ _ (ci_req _ _ _ _ _ Hi r q Hq ltac:(set_solver)) c Hc). Qed.

Lemma wp_check_send_chunk w r q c Q E :
  cw_reqs w !! r = Some q → rq_transfer_completed q = false → rq_client q = Some c → Q c w →
  wp (check_send_chunk r) Q E w.
Proof.
  intros Hq Ht Hc HQ. apply wp_bind. eapply wp_get_rq; [done|]. rewrite Ht, Hc. by apply wp_bind, wp_ret, wp_ret.
Qed.

Lemma wp_send_chunk D w r q c chunk E :
  inv D w → cw_reqs w !! r = Some q → rq_transfer_completed q = false → rq_client q = Some c →
  wp (request_send_chunk r chunk) (λ _ w', inv D w' ∧ ckept w w') E w.
Proof.
  intros Hi Hq Ht Hc. destruct (serving_request D w r q c Hi Hq Hc) as (k & Hk & Hr).
  apply wp_bind. eapply wp_check_send_chunk; [done..|].
  apply wp_bind. eapply wp_get_client; [done|]. apply wp_bind, wp_assert; [by apply bool_decide_eq_true|].
  destruct (String.eqb _ _); [apply wp_ret; split; [done|apply ckept_refl]|].
  apply wp_bind. eapply wp_get_rq; [done|]. by eapply wp_chunk.
Qed.

Lemma wp_send_final_chunk D w r q c chunk E :
  inv D w → cw_reqs w !! r = Some q → rq_transfer_completed q = false → rq_client q = Some c →
  wp (request_send_final_chunk r chunk) (λ _ w', inv D w' ∧ ckept w w') E w.
Proof.
  intros Hi Hq Ht Hc. destruct (serving_request D w r q c Hi Hq Hc) as (k & Hk & Hr).
  apply wp_bind. eapply wp_check_send_chunk; [done..|].
  apply wp_bind. eapply wp_get_client; [done|]. apply wp_bind, wp_assert; [by apply bool_decide_eq_true|].
  apply wp_bind. eapply wp_mod_rq; [done|]. intros w1 Ec1 Er1 Ep1 Eu1 El1.
  set (q1 := q <| rq_transfer_completed := true |>) in Er1.
  assert (inv D w1) as Hi1.
  { eapply (CInv_request _ _ _ _ w w1 r q q1); try done; [by rewrite El1|]. intros [G1 G2 G3 G4]. by split. }
  assert (ckept w w1) as Hk1 by by eapply (ckept_reqs w w1 r q q1).
  apply wp_bind. eapply wp_get_rq; [by rewrite Er1, lookup_insert_eq|].
  eapply wp_mono; [eapply (wp_chunk D w1 c k r q1); [done|by rewrite Ec1|by rewrite Er1, lookup_insert_eq]| |done].
  intros [] w2 [Hi2 Hk2]. split; [done|by eapply ckept_trans].
Qed.

(** The calls that do not cancel: no event is fired. *)
Lemma wp_quiet_caction D w a :
  inv D w → caction_ok w a → is_cancel a = false →
  wp (exec_caction a) (λ _ w', inv D w' ∧ ckept w w') escapes w.
Proof.
  intros Hi Ha Hc. destruct a; try done; cbn [exec_caction caction_ok] in *.
  - apply wp_bind. eapply wp_mono; [by apply (wp_new_uri D)|done|done].
  - apply wp_bind. eapply wp_mono; [by apply (wp_fresh_request D)|done|done].
  - apply wp_bind. eapply wp_mono; [by apply (wp_new_client_at D)|done|done].
  - apply wp_bind. eapply wp_mono; [by apply (wp_new_pool D ∅); [|apply in_hand_none|]| |done]. by intros p w' ([] & _).
  - apply wp_bind. eapply wp_mono; [by apply (wp_new_agent D)|done|done].
  - destruct Ha as [Hp Hr]. apply wp_submit; [done..|]. intros w1 Hd _ Ep _. apply wp_hand_to_pool; [done|by rewrite Ep].
  - destruct Ha as [(k & Hk & Hkp & Hkr) Hr]. apply wp_submit; [done..|]. intros w1 Hd Ec _ _.
    by apply (wp_hand_to_client D w1 c r k); [|rewrite Ec|..].
  - destruct Ha as ([ua Hag] & Hu & Hr). apply wp_submit; [done..|]. intros w1 Hd _ _ (Eu & Ea & _)%env_parts.
    by apply (wp_agent_request D w1 a ua); [|rewrite Ea|rewrite Eu].
  - apply wp_submit; [done..|]. intros w1 [Hi1 (q & Hq & Hcl & Hg & Hs & Hlow)] _ _ _.
    apply wp_bind. eapply wp_mono; [apply (wp_instance (due r 1 D) {[ r ]}); [done|]| |done].
    { intros r0 ->%elem_of_singleton. by eexists. }
    intros p w2 ([Hi2 _ Hk2 R2 U2] & Hp).
    apply wp_bind. eapply wp_mono; [apply (wp_hand_to_pool D w2 p r); [|done]| |done].
    + split; [done|]. exists q. rewrite R2. split_and!; [done..|by apply (good_at_uris w1)|by apply (stable_at_uris w1)|done].
    + intros o w3 [Hi3 Hk3]. apply wp_ret. split; [done|by eapply ckept_trans].
  - destruct Ha as (q & c & Hq & Ht & Hcl). by eapply wp_send_chunk.
  - destruct Ha as (q & c & Hq & Ht & Hcl). by eapply wp_send_final_chunk.
  - destruct Ha as [pq Hp]. eapply wp_mono; [eapply (wp_set_idle_timeout D ∅); [done|apply in_hand_none|done]| |done]. by intros [] w' [].
  - destruct Ha as (pq & Hp & He). eapply wp_mono; [eapply (wp_set_max_connections D ∅); [done|apply in_hand_none|done..]| |done].
    by intros [] w' [].
Qed.

(** ** Cancelling *)
Context `{!CallbackLaws}.

Lemma cancel_ok D X w c e :
  CInv D ∅ None X w → is_Some (cw_clients w !! c) → (X = None ∨ X = Some c) →
  wp (client_cancel c (Some e)) (λ _ w', inv D w' ∧ ckept w w') escapes w.
Proof.
  intros Hi [k Hk] HX. pose proof (pool_laws (cancel_n 0)) as HP.
  by eapply (wp_cancel_with (PO := pool_ops_over_client (CO := client_ops_over (cancel_n 0)))).
Qed.

Lemma wp_request_cancel D w r q e :
  inv D w → cw_reqs w !! r = Some q →
  wp (request_cancel r (Some e)) (λ _ w', inv D w' ∧ ckept w w') escapes w.
Proof.
  intros Hi Hq. apply wp_bind. eapply wp_get_rq; [done|]. destruct (rq_client q) as [c|] eqn:Hc.
  - destruct (serving_request D w r q c Hi Hq Hc) as (k & Hk & _).
    eapply cancel_ok; [exact Hi|by eexists|by left].
  - destruct (rq_pool q) as [p|] eqn:Hp; [by eapply wp_pool_cancel|].
    apply wp_ret. split; [done|apply ckept_refl].
Qed.

(** [Request::on_timer]. *)
Lemma wp_request_on_timer D w r q :
  inv D w → cw_reqs w !! r = Some q →
  wp (request_on_timer r) (λ _ w', inv D w' ∧ ckept w w') escapes w.
Proof.
  intros Hi Hq. apply wp_bind. eapply wp_get_rq; [done|]. destruct (rq_client q) as [c|] eqn:Hc.
  - destruct (serving_request D w r q c Hi Hq Hc) as (k & Hk & _).
    by eapply (wp_timed_out_client client_cancel cancel_ok).
  - destruct (rq_pool q) as [p|] eqn:Hp; [by eapply wp_pool_cancel|].
    apply wp_ret. split; [done|apply ckept_refl].
Qed.

(** Every call that is allowed. *)
Lemma wp_caction D w a :
  inv D w → caction_ok w a → wp (exec_caction a) (λ _ w', inv D w' ∧ ckept w w') escapes w.
Proof.
  intros Hi Ha. destruct (is_cancel a) eqn:Hc; [|by apply wp_quiet_caction].
  destruct a; try done; cbn [exec_caction caction_ok] in *; destruct Ha as [Ho [e ->]].
  - destruct Ho as [q Hq]. by eapply wp_request_cancel.
  - eapply cancel_ok; [exact Hi|done|by left].
Qed.
End CallSpecs.

(** ** The callbacks of a well-behaved program *)

Section Programs.
Context `{ClientProto} `{!ClientProtoLaws} `{!ClientEnv} `{!ClientEnvLaws}.
Context (P : CProgram).
Hypothesis HP : well_behaved P.
Implicit Types (w : CWorld).
Local Instance program_noisy : Noisy := noisy_redirects P.
Local Abbreviation wp := (wpf tolerated).
Local Abbreviation inv D w := (CInv D ∅ None None w).

Lemma wp_listen CB level D ev :
  (∀ w a, inv D w → caction_ok w a → (level = 0%nat → is_cancel a = false) →
    wp (exec_caction (CB := CB) a) (λ _ w', inv D w' ∧ ckept w w') escapes w) →
  ∀ calls i w, inv D w →
    wp (listen P CB level ev i calls) (λ _ w', inv D w' ∧ ckept w w') (event_escapes ev) w.
Proof.
  intros Hcall. induction calls as [|calls IH]; intros i w Hi; unfold wpf; cbn [listen].
  { split; [done|apply ckept_refl]. }
  destruct (pr_event P level ev i w) as [a|] eqn:Ha; [|by split; [|apply ckept_refl]].
  apply (wp_bind (exec_caction (CB := CB) a) (λ _, listen P CB level ev (S i) calls)).
  eapply wp_mono; [eapply Hcall; [done|by eapply wb_ok|]| |].
  - intros ->. by eapply wb_cancel.
  - intros [] w1 [Hi1 Hk1]. eapply wp_mono; [by apply IH| |done].
    intros [] w2 [Hi2 Hk2]. split; [done|by eapply ckept_trans].
  - intros e w1 He. split; [done|]. intros Hev. by exists level, ev, i, w, a.
Qed.

Lemma callback_laws n : CallbackLaws (CB := client_callbacks P (S n)).
Proof.
  assert (∀ CB k ev w, unqueuing w ev → fire_with P CB k ev w = Ok tt w) as Hun.
  { intros CB k ev w Hev. unfold fire_with.
    assert (∀ calls, listen P CB k ev 0 calls w = Ok tt w) as Hls
      by (intros []; cbn [listen]; [done|by rewrite (wb_unqueuing _ HP)]).
    rewrite (bind_ok (a := tt) (s' := w)) by done. by apply run_listeners_unqueuing. }
  assert (∀ CB k D ev w, event_ok w ev →
    wp (listen P CB k ev 0 (pr_calls P)) (λ _ w', inv D w' ∧ ckept w w') (event_escapes ev) w →
    wp (fire_with P CB k ev) (λ _ w', inv D w' ∧ ckept w w') (event_escapes ev) w) as Hfire.
  { intros CB k D ev w Hev Hls. apply wp_bind. eapply wp_mono; [exact Hls| |done]. intros [] w1 [Hi1 Hk1].
    eapply wp_mono; [apply wp_run_listeners; [done|by eapply event_ok_kept]| |done].
    intros [] w2 [Hi2 Hk2]. split; [done|by eapply ckept_trans]. }
  induction n as [|n IH]; split; [| by intros; apply Hun | | by intros; apply Hun];
    intros D ev w Hi Hev; apply Hfire, wp_listen; try done; intros w1 a Hi1 Ha Hc.
  - apply wp_quiet_caction; auto.
  - by apply wp_caction.
Qed.
End Programs.
