(* ===== verification/ClientSafety.v ===== *)
(** * Safety of clients and pools

    Runs of clients and pools under a well-behaved user program and what a loop may
    deliver, and what the invariant says about them. *)
From S2P Require Import Prelude Errors Proto ClientProto ClientState ClientOps Form Client Pool UserAgent ClientStep ClientInv ClientSpecs ClientMoves PoolSpecs ClientFinish ClientRead ClientGrow ClientProgram.
Local Open Scope Z_scope.

Section Reach.
Context `{ClientProto} `{!ClientEnv}.
Implicit Types (w : CWorld).

(** What a loop may deliver in a state: reports of operations that are in flight,
    data and the end of a client's stream, timers that run, a file's data to a
    client that is sending a form. *)
Definition cinput_ok w (i : CInput) : Prop :=
  match i with
  | CInConnect c _ => ∃ k, cw_clients w !! c = Some k ∧ PConnect ∈ cl_pending k
  | CInWrite c _ => ∃ k, cw_clients w !! c = Some k ∧ PWrite ∈ cl_pending k
  | CInRead c _ _ | CInEof c => is_Some (cw_clients w !! c)
  | CInTimer r => ∃ q t, cw_reqs w !! r = Some q ∧ rq_timer q = Some t ∧
      tm_active t = true ∧ tm_listener t = true
  | CInIdleTimer p => ∃ q, cw_pools w !! p = Some q ∧ is_Some (pl_idle_timer q)
  | CInFileData c _ | CInFileEnd c _ => ∃ k, cw_clients w !! c = Some k ∧ 0 ≤ cl_form_field k
  | CInTick _ _ => True
  | CInUser a => caction_ok w a
  end.

(** The states of a run; [n] bounds how deep callbacks nest. *)
Inductive creach (P : CProgram) (n : nat) : CWorld → Prop :=
  | creach_init : creach P n init_cworld
  | creach_step w i w' :
      creach P n w → cinput_ok w i →
      exec_cinput (CB := client_callbacks P (S n)) i w = Ok tt w' → creach P n w'.

(** Between inputs: nothing is out of place, and no client is in a redirect. *)
Record CSettled w : Prop := {
  cs_inv : CInv (λ _, 0) ∅ None None w;
  cs_redirect : ∀ c k, cw_clients w !! c = Some k → cl_in_redirect k = false
}.
End Reach.

Section Inputs.
Context `{ClientProto} `{!ClientProtoLaws} `{!ClientEnv} `{!ClientEnvLaws} {CB : CCallbacks} {Nz : Noisy} `{!CallbackLaws}.
Local Abbreviation wp := (wpf tolerated).
Implicit Types (w : CWorld).
Local Abbreviation inv w := (CInv (λ _, 0) ∅ None None w).

Lemma settled_kept w w' : CSettled w → inv w' → ckept w w' → CSettled w'.
Proof.
  intros [_ Hr] Hi Hk. split; [done|]. intros c k Hc.
  pose proof (ck_inr _ _ Hk c) as E. unfold of_client in E. rewrite Hc in E. cbn in E. rewrite E.
  destruct (cw_clients w !! c) as [k0|] eqn:Hk0; [by eapply Hr|done].
Qed.

Lemma wp_settled {A} (m : M CWorld A) w w1 :
  CSettled w → ckept w w1 →
  wp m (λ _ w', inv w' ∧ ckept w1 w') escapes w1 → wp m (λ _, CSettled) escapes w1.
Proof.
  intros Hs Hk Hm. eapply wp_mono; [exact Hm| |done]. intros x w2 [Hi2 Hk2].
  eapply settled_kept; [exact Hs|exact Hi2|by eapply ckept_trans].
Qed.

(** The stream of a client reports an operation. *)
Lemma settled_stream w w' c k f :
  CSettled w → cw_clients w !! c = Some k → stream_only k (f k) →
  w' = w <| cw_clients ::= alter f c |> → inv w' ∧ ckept w w' ∧ cw_clients w' !! c = Some (f k).
Proof.
  intros [Hi Hr] Hk [S1 S2 S3 S4 S5 S6 S7 S8] ->. pose proof (Hr c k Hk) as Hin.
  pose proof (not_canceled _ _ _ _ _ _ _ Hi Hk Hin) as Hcan.
  pose proof (ci_client _ _ _ _ _ Hi c k Hk) as Ho.
  destruct (CInv_received (λ _, 0) None w (w <| cw_clients ::= alter f c |>) c k (f k)) as (? & ? & ?);
    try done; try congruence; [cbn; by apply alter_alt_Some| |].
  - intros r Hc. rewrite S5 in Hc. by apply Ho.
  - intros r Hq. left. rewrite S5. destruct (co_has_context _ _ _ _ _ _ Ho r Hq) as [|[[? _]|[=]]]; congruence.
Qed.

Lemma wp_cinput w i :
  CSettled w → cinput_ok w i → wp (exec_cinput i) (λ _, CSettled) escapes w.
Proof.
  intros Hs Hok. pose proof Hs as [Hi Hr]. pose proof (cancel_ok) as Hcancel.
  pose proof (pool_laws client_cancel) as HPL.
  destruct i as [c err|c err|c buf err|c|r|p|c data|c err|loop now|a]; cbn [exec_cinput cinput_ok] in *.
  - destruct Hok as (k & Hk & _). apply wp_bind, wp_modify.
    match goal with |- wp _ _ _ (w <| cw_clients ::= alter ?f c |>) =>
      destruct (settled_stream w _ c k f Hs Hk ltac:(by split) eq_refl) as (Hi1 & Hk1 & Hc1) end.
    eapply (wp_settled _ w); [done|done|]. by eapply (wp_client_on_connect client_cancel Hcancel).
  - destruct Hok as (k & Hk & _). apply wp_bind, wp_modify.
    match goal with |- wp _ _ _ (w <| cw_clients ::= alter ?f c |>) =>
      destruct (settled_stream w _ c k f Hs Hk ltac:(by split) eq_refl) as (Hi1 & Hk1 & Hc1) end.
    eapply (wp_settled _ w); [done|done|]. by eapply (wp_client_on_write client_cancel Hcancel).
  - destruct Hok as [k Hk]. eapply (wp_settled _ w); [done|apply ckept_refl|].
    eapply (wp_client_on_read client_cancel Hcancel); [done|done|by eapply Hr].
  - destruct Hok as [k Hk]. eapply (wp_settled _ w); [done|apply ckept_refl|].
    eapply (wp_client_on_eof client_cancel Hcancel); [done|done|by eapply Hr].
  - destruct Hok as (q & t & Hq & _). apply wp_bind. eapply wp_mod_rq; [done|]. intros w1 Ec1 Er1 Ep1 Eu1 El1.
    match type of Er1 with _ = <[_ := ?q']> _ => set (q1 := q') in Er1 end.
    assert (inv w1) as Hi1.
    { eapply (CInv_request _ _ _ _ w w1 r q q1); try done; [by rewrite El1|]. intros [G1 G2 G3 G4]. by split. }
    eapply (wp_settled _ w); [done|by eapply (ckept_reqs w w1 r q q1)|].
    eapply (wp_request_on_timer); [done|by rewrite Er1, lookup_insert_eq].
  - destruct Hok as (pq & Hp & _). eapply wp_mono; [by eapply wp_check_inactivity| |done].
    intros [] w1 (Hi1 & Hsw). set (t := remove_time _ _) in Hsw. split; [done|]. intros c k Hk.
    destruct (cw_clients w !! c) as [k0|] eqn:Hk0.
    + assert (¬ gone w t p c) as Hg by (intros Hg; by rewrite (sw_gone _ _ _ _ _ Hsw c Hg) in Hk).
      rewrite (sw_stay _ _ _ _ _ Hsw c Hg) in Hk. by eapply Hr.
    + assert (¬ gone w t p c) as Hg.
      { intros Hg. destruct (gone_free _ _ _ _ _ Hi Hg) as (k' & ? & _). congruence. }
      rewrite (sw_stay _ _ _ _ _ Hsw c Hg) in Hk. congruence.
  - destruct Hok as (k & Hk & Hf). pose proof (co_form _ _ _ _ _ _ (ci_client _ _ _ _ _ Hi c k Hk)). lia.
  - destruct Hok as (k & Hk & Hf). pose proof (co_form _ _ _ _ _ _ (ci_client _ _ _ _ _ Hi c k Hk)). lia.
  - apply wp_modify. split; [by eapply CInv_log|done].
  - eapply (wp_settled _ w); [done|apply ckept_refl|]. by eapply wp_caction.
Qed.
End Inputs.

Section Safety.
Context `{ClientProto} `{!ClientProtoLaws} `{!ClientEnv} `{!ClientEnvLaws}.
Context (P : CProgram) (n : nat).
Implicit Types (w : CWorld).
Local Abbreviation CBS := (client_callbacks P (S n)).

Lemma settled_init : CSettled init_cworld.
Proof. split; [split|]; intros *; unfold hops; cbn; rewrite ?lookup_empty; done. Qed.

Lemma creach_settled w : well_behaved P → creach P n w → CSettled w.
Proof.
  intros HP Hr. pose proof (callback_laws P HP n) as HCB.
  induction Hr as [|w i w' Hr IH Hok Hex]; [apply settled_init|].
  pose proof (wp_cinput (CB := CBS) (Nz := noisy_redirects P) w i IH Hok) as Hwp. unfold wpf in Hwp. by rewrite Hex in Hwp.
Qed.

(** C2: whatever a loop delivers and whatever call is allowed, the library comes to
    an end with it: no null or dangling object is dereferenced, no [assert] fails,
    no iterator is used after it was invalidated, no loop runs out of its bound and
    no exception escapes. The one exception there is is OpenSSL's failure to find its
    default verify paths: it passes through the library as it was thrown, and nothing
    else goes wrong, unless a listener of a redirect was making calls. *)
Theorem client_always_returns w i :
  well_behaved P → creach P n w → cinput_ok w i →
  (∃ w', exec_cinput (CB := CBS) i w = Ok tt w') ∨
  (paths_fail ∧ ((∃ w', exec_cinput (CB := CBS) i w = Throw verify_error w') ∨ noisy_redirects P)).
Proof.
  intros HP Hr Hok. pose proof (callback_laws P HP n) as HCB.
  pose proof (wp_cinput (CB := CBS) (Nz := noisy_redirects P) w i (creach_settled w HP Hr) Hok) as Hwp. unfold wpf in Hwp.
  destruct (exec_cinput i w) as [[] w'|e w'|f].
  - left. by exists w'.
  - destruct Hwp as [Hf [->|Hn]]; right; (split; [done|]); [left; by exists w'|by right].
  - destruct Hwp as [Hf Hn]. right. split; [done|by right].
Qed.

(** C3: a request is answered once: its response event was fired once for every
    time it was handed over, but for the time it is still being carried out. *)
Theorem answered_once w r :
  well_behaved P → creach P n w →
  submitted r (cw_log w) = answered r (cw_log w) + b2z (busy_at w r).
Proof.
  intros HP Hr. pose proof (ci_ledger _ _ _ _ _ (cs_inv _ (creach_settled w HP Hr)) r) as HL.
  rewrite bool_decide_false in HL by set_solver. lia.
Qed.

(** C4: a request that is being carried out is not lost: its client is there and
    serves it, or it waits, once, in the queue of the location it asks for. *)
Theorem no_lost_request w r q :
  well_behaved P → creach P n w → cw_reqs w !! r = Some q → busy_at w r = true →
  (∃ c k, rq_client q = Some c ∧ cw_clients w !! c = Some k ∧ cl_request k = Some r ∧
     cl_context k = Some r) ∨
  (∃ p loc l, rq_client q = None ∧ rq_pool q = Some p ∧ netloc_of w q = Some loc ∧
     list_at w p loc = Some l ∧ r ∈ nl_queue l ∧ NoDup (nl_queue l)).
Proof.
  intros HP Hr Hq Hb. destruct (creach_settled w HP Hr) as [Hi Hred].
  pose proof (ci_req _ _ _ _ _ Hi r q Hq ltac:(set_solver)) as [R1 R2 R3].
  rewrite (busy_at_lookup w r q Hq) in Hb. unfold busy_rq in Hb.
  destruct (rq_client q) as [c|] eqn:Hc.
  - left. destruct (R1 c eq_refl) as (k & Hk & Hkr). exists c, k. split_and!; [done..|].
    destruct (co_has_context _ _ _ _ _ _ (ci_client _ _ _ _ _ Hi c k Hk) r Hkr) as [|[[E _]|[=]]]; [done|].
    by rewrite (Hred c k Hk) in E.
  - right. destruct (rq_pool q) as [p|] eqn:Hp; [|done].
    destruct (R2 p eq_refl eq_refl) as (loc & l & Hn & Hl & Hin). exists p, loc, l. split_and!; [done..|].
    unfold list_at in Hl. destruct (cw_pools w !! p) as [pq|] eqn:Hpq; [|done].
    apply (lo_nodup _ _ _ _ _ _ _ (ci_list _ _ _ _ _ Hi p pq loc l Hpq Hl)).
Qed.

(** C20: a client and the request it carries out point to each other, and a client that
    was destroyed is pointed to by no request; the context of the response's parser
    is that request, and the flags of a redirect are down between two inputs. *)
Theorem serving_agrees w :
  well_behaved P → creach P n w →
  (∀ r q c, cw_reqs w !! r = Some q →
     (rq_client q = Some c ↔ ∃ k, cw_clients w !! c = Some k ∧ cl_request k = Some r)) ∧
  (∀ c k, cw_clients w !! c = Some k →
     cl_context k = cl_request k ∧ cl_in_redirect k = false ∧ cl_redirect_canceled k = false ∧
     (∀ r, cl_request k = Some r → ∃ q, cw_reqs w !! r = Some q ∧ rq_client q = Some c)).
Proof.
  intros HP Hr. destruct (creach_settled w HP Hr) as [Hi Hred]. split.
  - intros r q c Hq. split.
    + apply (ro_client _ _ _ (ci_req _ _ _ _ _ Hi r q Hq ltac:(set_solver))).
    + intros (k & Hk & Hkr).
      destruct (co_request _ _ _ _ _ _ (ci_client _ _ _ _ _ Hi c k Hk) r Hkr) as (_ & q' & Hq' & ? & _). by simplify_eq.
  - intros c k Hk. pose proof (ci_client _ _ _ _ _ Hi c k Hk) as Ho. pose proof (Hred c k Hk) as Hin. split_and!.
    + destruct (cl_request k) as [r|] eqn:Hkr.
      * destruct (co_has_context _ _ _ _ _ _ Ho r Hkr) as [|[[? _]|[=]]]; [done|congruence].
      * destruct (cl_context k) as [r|] eqn:Hc; [|done]. pose proof (co_context _ _ _ _ _ _ Ho r Hc). congruence.
    + done.
    + destruct (cl_redirect_canceled k) eqn:Hcan; [|done]. by rewrite (co_canceled _ _ _ _ _ _ Ho Hcan) in Hin.
    + intros r Hkr. destruct (co_request _ _ _ _ _ _ Ho r Hkr) as (_ & q & Hq & Hqc & _). by exists q.
Qed.

(** C5: the clients of a pool are where they belong: a client is among the busy
    ones of its location when it serves a request, and among the free ones when it
    does not; the lists hold no other clients. *)
Theorem pool_partition w p pq loc l c h :
  well_behaved P → creach P n w → cw_pools w !! p = Some pq → pl_clients pq !! loc = Some l →
  in_list h l c ↔ ∃ k, cw_clients w !! c = Some k ∧ cl_pool k = Some p ∧ cl_netloc k = loc ∧
    bool_decide (is_Some (cl_request k)) = h.
Proof.
  intros HP Hr Hp Hl. destruct (creach_settled w HP Hr) as [Hi _]. split.
  - intros Hin. destruct (lo_in _ _ _ _ _ _ _ (ci_list _ _ _ _ _ Hi p pq loc l Hp Hl) c h Hin) as (k & Hk & Hkp & Hh).
    exists k. unfold home in Hh. by simplify_eq.
  - intros (k & Hk & Hkp & Hn & Hh).
    destruct (co_pool _ _ _ _ _ _ (ci_client _ _ _ _ _ Hi c k Hk) p Hkp) as (l' & Hl' & Hin).
    unfold home in *. cbn in *. rewrite (list_at_lookup w p pq) in Hl' by done. by simplify_eq.
Qed.

(** C6: a pool keeps to its bound: at most [max_connections] clients per location
    (and one when the bound is 0), and requests wait only while every client of the
    location is busy and the bound is reached. *)
Theorem pool_within_bound w p pq loc l :
  well_behaved P → creach P n w → cw_pools w !! p = Some pq → pl_clients pq !! loc = Some l →
  Z.of_nat (size (nl_free l)) + Z.of_nat (size (nl_busy l)) ≤ Z.max 1 (pl_max_connections pq) ∧
  (nl_queue l ≠ [] → nl_free l = ∅ ∧ pl_max_connections pq ≤ Z.of_nat (size (nl_busy l))) ∧
  nl_free l ## nl_busy l.
Proof.
  intros HP Hr Hp Hl. destruct (creach_settled w HP Hr) as [Hi _].
  pose proof (ci_list _ _ _ _ _ Hi p pq loc l Hp Hl) as Hlo. split_and!; [apply Hlo|apply Hlo|].
  intros c Hf Hb. destruct (lo_in _ _ _ _ _ _ _ Hlo c false Hf) as (k & Hk & _ & Hh).
  destruct (lo_in _ _ _ _ _ _ _ Hlo c true Hb) as (k' & Hk' & _ & Hh'). congruence.
Qed.

(** C7: redirects are bounded: a request with a limit below 65535 has been
    redirected at most as often as the limit allows for each time it was answered,
    and for the time it is still being carried out as often as its counter says,
    which never exceeds the limit; so never more often than the limit times the
    number of times it was handed over. *)
Theorem redirects_bounded w r q :
  well_behaved P → creach P n w → cw_reqs w !! r = Some q →
  0 ≤ rq_redirection_limit q < 2 ^ 16 - 1 →
  0 ≤ rq_redirection_counter q ≤ rq_redirection_limit q ∧
  (busy_at w r = false → rq_redirection_counter q = 0) ∧
  redirected r (cw_log w) ≤ rq_redirection_limit q * answered r (cw_log w) + rq_redirection_counter q ∧
  redirected r (cw_log w) ≤ rq_redirection_limit q * submitted r (cw_log w).
Proof.
  intros HP Hr Hq Hlim. pose proof (cs_inv _ (creach_settled w HP Hr)) as Hi.
  pose proof (CInv_low _ _ w r q Hi Hq Hlim) as Hlow.
  pose proof (ci_ledger _ _ _ _ _ Hi r) as HL. pose proof (ci_hops _ _ _ _ _ Hi r) as HH.
  unfold hops in HH. rewrite Hq in HH. destruct HH as [H1' H2' _ H4']. specialize (H4' Hlim).
  unfold rounds in H4'. rewrite bool_decide_false in HL, H4' by apply not_elem_of_empty. cbn in H4'.
  rewrite (busy_at_lookup w r q Hq) in *.
  assert (busy_rq q = false → rq_redirection_counter q = 0) as Hidle.
  { intros Hb. by destruct (H2' Hb) as [?%not_elem_of_empty|]. }
  split_and!; [lia|lia|done|lia|]. destruct (busy_rq q); cbn in HL; [nia|]. rewrite Hidle in H4' by done. nia.
Qed.
End Safety.
