(* ===== verification/ClientRuns.v ===== *)
(** * Concrete runs of clients and pools

    The library of [ClientSample] with a user program that hands over one request
    after another: the states used to show that the hypotheses of the safety
    theorems can hold. *)
From S2P Require Import Prelude Errors Proto ClientProto ClientState ClientOps Form Client Pool UserAgent ClientStep ClientSample ClientInv ClientSpecs ClientMoves PoolSpecs ClientFinish ClientRead ClientGrow AgentSpecs ClientProgram ClientSafety.
Local Open Scope Z_scope.

(** ** Deciding that a call or an input is allowed *)

Section Check.
Context `{ClientProto} `{!ClientEnv}.
Implicit Types (w : CWorld).

(** A plain request: a complete URI, and neither proxy nor form nor SSL context. *)
Definition plain w (q : CRequest) : bool :=
  negb (busy_rq q) && bool_decide (rq_proxy q = None) && bool_decide (rq_ssl_ctx q = None) &&
  match rq_form q with [] => true | _ => false end &&
  match rq_uri q with
  | Some i => match cw_uris w !! i with
              | Some u => negb (String.eqb (uri_host u) EmptyString) && negb (String.eqb (uri_scheme u) EmptyString)
              | None => false
              end
  | None => false
  end.

Definition readyb w r : bool :=
  match cw_reqs w !! r with Some q => plain w q | None => false end.

Lemma plain_sound w q : plain w q = true → busy_rq q = false ∧ good w q ∧ stable w q.
Proof.
  unfold plain. rewrite !andb_true_iff, negb_true_iff, !bool_decide_eq_true.
  intros ((((Hb & Hp) & Hs) & Hf) & Hu). split_and!; [done..| |].
  - split.
    + destruct (rq_uri q) as [i|]; [|done]. destruct (cw_uris w !! i) as [u|] eqn:Hi; [|done].
      apply andb_true_iff in Hu as [Hh%negb_true_iff%String.eqb_neq Hc%negb_true_iff%String.eqb_neq].
      by exists i, u.
    + by rewrite Hp.
    + by destruct (rq_form q).
    + by destruct (rq_form q).
  - intros n Hn. unfold netloc_of, shape, http_proxy in *. rewrite Hp in *. cbn in *.
    apply bind_Some in Hn as (i & _ & (u & _ & [= <-])%bind_Some). unfold uri_netloc. cbn. by rewrite ?Hs, ?Hp.
Qed.

Lemma readyb_sound w r : readyb w r = true → ready w r.
Proof.
  unfold readyb. destruct (cw_reqs w !! r) as [q|] eqn:Hq; [|done].
  intros (? & ? & ?)%plain_sound. split. by exists q.
Qed.

Definition cinput_okb w (i : CInput) : bool :=
  match i with
  | CInConnect c _ => match cw_clients w !! c with Some k => existsb is_connect (cl_pending k) | None => false end
  | CInWrite c _ => match cw_clients w !! c with Some k => existsb (λ x, negb (is_connect x)) (cl_pending k) | None => false end
  | CInRead c _ _ | CInEof c => bool_decide (is_Some (cw_clients w !! c))
  | CInIdleTimer p => match cw_pools w !! p with Some q => bool_decide (is_Some (pl_idle_timer q)) | None => false end
  | CInTick _ _ => true
  | CInUser (UNewUri _) | CInUser (UNewRequest _ _) => true
  | CInUser (UNewPool cfg _) => negb (pc_factory cfg)
  | CInUser (UNewAgent _ _ cfg) => bool_decide (ac_ssl_ctx cfg = None) && bool_decide (ac_proxy cfg = None)
  | CInUser (UAgentRequest a r u _) =>
      bool_decide (is_Some (cw_agents w !! a)) && bool_decide (is_Some (cw_uris w !! u)) && readyb w r
  | CInUser (UPoolRequest p r) => bool_decide (is_Some (cw_pools w !! p)) && readyb w r
  | CInUser (UCancel r (Some _)) => bool_decide (is_Some (cw_reqs w !! r))
  | _ => false
  end.

Lemma cinput_okb_sound w i : cinput_okb w i = true → cinput_ok w i.
Proof.
  destruct i as [c e|c e|c b e|c|r|p|c d|c e|l t|[]]; cbn [cinput_okb cinput_ok caction_ok]; try done.
  - destruct (cw_clients w !! c) as [k|]; [|done]. intros (x & Hx%list_elem_of_In & Hc)%existsb_exists.
    destruct x; [eauto|done].
  - destruct (cw_clients w !! c) as [k|]; [|done]. intros (x & Hx%list_elem_of_In & Hc)%existsb_exists.
    destruct x; [done|eauto].
  - by intros ?%bool_decide_eq_true.
  - by intros ?%bool_decide_eq_true.
  - destruct (cw_pools w !! p) as [q|]; [|done]. intros ?%bool_decide_eq_true. eauto.
  - by intros ?%negb_true_iff.
  - intros [?%bool_decide_eq_true Hp%bool_decide_eq_true]%andb_true_iff. split; [done|]. by rewrite Hp.
  - intros [?%bool_decide_eq_true ?%readyb_sound]%andb_true_iff. done.
  - rewrite !andb_true_iff. intros [[?%bool_decide_eq_true ?%bool_decide_eq_true] ?%readyb_sound]. done.
  - destruct err; [|done]. intros ?%bool_decide_eq_true. split; [done|by eexists].
Qed.

(** Running inputs and checking them on the way. *)
Fixpoint crun_checked (P : CProgram) (n : nat) (w : CWorld) (l : list CInput) : option CWorld :=
  match l with
  | [] => Some w
  | i :: l' =>
      if cinput_okb w i then
        match exec_cinput (CB := client_callbacks P (S n)) i w with
        | Ok _ w' => crun_checked P n w' l'
        | _ => None
        end
      else None
  end.

Lemma crun_checked_reach P n l : ∀ w w',
  creach P n w → crun_checked P n w l = Some w' → creach P n w'.
Proof.
  induction l as [|i l IH]; intros w w' Hr; cbn [crun_checked]; [by intros [= <-]|].
  destruct (cinput_okb w i) eqn:Hok; [|done].
  destruct (exec_cinput i w) as [[] w1| |] eqn:Hex; [|done..].
  apply IH. by eapply creach_step; [|apply cinput_okb_sound|].
Qed.
End Check.

(** ** A program that hands over a further request when one was answered *)

Definition chaining : CProgram := {|
  pr_event _ ev i w :=
    match ev, i with
    | CEvResponse r _ None, O =>
        if cinput_okb w (CInUser (UPoolRequest 0 (S (S r)))) then Some (UPoolRequest 0 (S (S r))) else None
    | _, _ => None
    end;
  pr_calls := 1;
  pr_loop _ _ _ := None |}.

Lemma chaining_well_behaved : well_behaved chaining.
Proof.
  split; cbn [pr_event chaining].
  - intros level ev i w a. repeat (case_match; try done). intros [= <-].
    by apply (cinput_okb_sound w (CInUser _)).
  - intros ev i w a. repeat (case_match; try done). by intros [= <-].
  - by intros level ev i w (r & q & p & n & l & (res & e & [-> | ->]) & _).
Qed.

(** Three requests to one location with one connection: the first and the second
    are handed over at once, the third when the first was answered. *)
Definition setup_inputs : list CInput :=
  [CInUser (UNewUri "pa8"); CInUser (UNewPool (mkPoolConfig 1 60000 false) 0);
   CInUser (UNewRequest true [BUri (Some 0%nat)]);
   CInUser (UNewRequest true [BUri (Some 0%nat)]);
   CInUser (UNewRequest true [BUri (Some 0%nat)]);
   CInUser (UPoolRequest 0 0); CInUser (UPoolRequest 0 1)].

Definition run_chaining (l : list CInput) : CWorld := default init_cworld (crun_checked chaining 1 init_cworld l).

Definition waiting_world : CWorld := run_chaining setup_inputs.

(** The first request is answered: its client serves the second one, and the third
    one waits. *)
Definition answered_inputs : list CInput := setup_inputs ++ [CInConnect 0 None; CInRead 0 "O" None].
Definition answered_world : CWorld := run_chaining answered_inputs.

Definition runs (l : list CInput) : bool :=
  match crun_checked chaining 1 init_cworld l with Some _ => true | None => false end.

Lemma run_chaining_reach l : runs l = true → creach chaining 1 (run_chaining l).
Proof.
  unfold runs, run_chaining. destruct (crun_checked _ _ _ l) as [w|] eqn:Hw; [intros _|done]. cbn. eapply crun_checked_reach; [apply creach_init|exact Hw].
Qed.

Lemma answered_reach : creach chaining 1 answered_world.
Proof. apply run_chaining_reach. vm_compute. reflexivity. Qed.

Lemma sample_paths : ∀ l, default_verify_paths_ok l = true.
Proof. done. Qed.

(** A request through a user agent, on its way; its answer is a redirect to another
    host, for which the agent's listener collects cookies and equips it again. *)
Definition heeded_inputs : list CInput := answered_inputs ++
  [CInUser (UNewAgent 0 "" default_agent_config); CInUser (UNewRequest true [BUri (Some 0%nat)]);
   CInUser (UAgentRequest 0 3 0 true); CInConnect 1 None].
Definition heeded_world : CWorld := run_chaining heeded_inputs.
Definition heeded_input : CInput := CInRead 1%nat "Rpb8" None.

Lemma heeded_reach : creach chaining 1 heeded_world.
Proof. apply run_chaining_reach. vm_compute. reflexivity. Qed.

(** That request after it was redirected. *)
Definition redirected_world : CWorld := run_chaining (heeded_inputs ++ [heeded_input]).

Lemma redirected_reach : creach chaining 1 redirected_world.
Proof. apply run_chaining_reach. vm_compute. reflexivity. Qed.

(** ** The safety theorems apply to these runs *)

Lemma client_always_returns_witness :
  cinput_ok heeded_world heeded_input ∧
  (∃ w', exec_cinput (CB := client_callbacks chaining 2) heeded_input heeded_world = Ok tt w') ∧
  (λ q, length (rq_listeners q)) <$> cw_reqs heeded_world !! 3%nat = Some 1%nat.
Proof.
  assert (cinput_ok heeded_world heeded_input) as Hok by (apply cinput_okb_sound; vm_compute; reflexivity).
  split; [exact Hok|]. split; [|vm_compute; reflexivity].
  destruct (client_always_returns chaining 1 heeded_world heeded_input chaining_well_behaved heeded_reach Hok)
    as [Hret|[[l Hl] _]]; [exact Hret|]. discriminate Hl.
Defined.

Lemma answered_once_witness :
  submitted 0%nat (cw_log answered_world) = 1 ∧ submitted 2%nat (cw_log answered_world) = 1 ∧
  submitted 0%nat (cw_log answered_world) =
    answered 0%nat (cw_log answered_world) + b2z (busy_at answered_world 0%nat).
Proof.
  split; [vm_compute; reflexivity|]. split; [vm_compute; reflexivity|].
  exact (answered_once chaining 1 answered_world 0%nat chaining_well_behaved answered_reach).
Defined.

Definition rq_at (w : CWorld) (r : nat) : CRequest :=
  default (default_request true) (cw_reqs w !! r).

Lemma serving_agrees_witness :
  rq_client (rq_at heeded_world 3) = Some 1%nat ∧
  (∃ k, cw_clients heeded_world !! 1%nat = Some k ∧ cl_request k = Some 3%nat ∧ cl_context k = Some 3%nat).
Proof.
  split; [vm_compute; reflexivity|].
  assert (cw_reqs heeded_world !! 3%nat = Some (rq_at heeded_world 3)) as Hq by (vm_compute; reflexivity).
  assert (rq_client (rq_at heeded_world 3) = Some 1%nat) as Hc by (vm_compute; reflexivity).
  destruct (serving_agrees chaining 1 heeded_world chaining_well_behaved heeded_reach) as [H1 H2].
  destruct (proj1 (H1 3%nat (rq_at heeded_world 3) 1%nat Hq) Hc) as (k & Hk & Hr).
  destruct (H2 1%nat k Hk) as [Hctx _]. exists k. split; [exact Hk|]. split; [exact Hr|]. rewrite Hctx. exact Hr.
Defined.

Lemma no_lost_request_witness :
  rq_client (rq_at answered_world 2) = None ∧
  ((∃ c k, rq_client (rq_at answered_world 2) = Some c ∧ cw_clients answered_world !! c = Some k ∧
      cl_request k = Some 2%nat ∧ cl_context k = Some 2%nat) ∨
   (∃ p loc l, rq_client (rq_at answered_world 2) = None ∧ rq_pool (rq_at answered_world 2) = Some p ∧
      netloc_of answered_world (rq_at answered_world 2) = Some loc ∧
      list_at answered_world p loc = Some l ∧ 2%nat ∈ nl_queue l ∧ NoDup (nl_queue l))).
Proof.
  split; [vm_compute; reflexivity|].
  assert (cw_reqs answered_world !! 2%nat = Some (rq_at answered_world 2)) as Hq by (vm_compute; reflexivity).
  assert (busy_at answered_world 2%nat = true) as Hb by (vm_compute; reflexivity).
  exact (no_lost_request chaining 1 answered_world 2 (rq_at answered_world 2)
    chaining_well_behaved answered_reach Hq Hb).
Defined.

Definition sample_loc : NetLoc := mkNetLoc "a" 8 None None true.
Definition pool_at (w : CWorld) (p : nat) : Pool :=
  default (mkPool 0 None 0 0 ∅ false) (cw_pools w !! p).
Definition sample_list (w : CWorld) : NetLocList :=
  default (mkNLL ∅ ∅ [] 0) (pl_clients (pool_at w 0) !! sample_loc).

Lemma pool_partition_witness :
  in_list true (sample_list answered_world) 0%nat ↔
  ∃ k, cw_clients answered_world !! 0%nat = Some k ∧ cl_pool k = Some 0%nat ∧ cl_netloc k = sample_loc ∧
    bool_decide (is_Some (cl_request k)) = true.
Proof.
  assert (cw_pools answered_world !! 0%nat = Some (pool_at answered_world 0)) as Hp by (vm_compute; reflexivity).
  assert (pl_clients (pool_at answered_world 0) !! sample_loc = Some (sample_list answered_world)) as Hl
    by (vm_compute; reflexivity).
  exact (pool_partition chaining 1 answered_world 0 (pool_at answered_world 0) sample_loc
    (sample_list answered_world) 0%nat true chaining_well_behaved answered_reach Hp Hl).
Defined.

Lemma pool_within_bound_witness :
  pl_max_connections (pool_at answered_world 0) = 1 ∧ nl_queue (sample_list answered_world) = [2%nat] ∧
  Z.of_nat (size (nl_free (sample_list answered_world))) +
    Z.of_nat (size (nl_busy (sample_list answered_world))) ≤
    Z.max 1 (pl_max_connections (pool_at answered_world 0)).
Proof.
  split; [vm_compute; reflexivity|]. split; [vm_compute; reflexivity|].
  assert (cw_pools answered_world !! 0%nat = Some (pool_at answered_world 0)) as Hp by (vm_compute; reflexivity).
  assert (pl_clients (pool_at answered_world 0) !! sample_loc = Some (sample_list answered_world)) as Hl
    by (vm_compute; reflexivity).
  exact (proj1 (pool_within_bound chaining 1 answered_world 0 (pool_at answered_world 0) sample_loc
    (sample_list answered_world) chaining_well_behaved answered_reach Hp Hl)).
Defined.

Lemma redirects_bounded_witness :
  redirected 3%nat (cw_log redirected_world) = 1 ∧ submitted 3%nat (cw_log redirected_world) = 1 ∧
  rq_redirection_counter (rq_at redirected_world 3) = 1 ∧
  redirected 3%nat (cw_log redirected_world) ≤
    rq_redirection_limit (rq_at redirected_world 3) * submitted 3%nat (cw_log redirected_world).
Proof.
  split; [vm_compute; reflexivity|]. split; [vm_compute; reflexivity|]. split; [vm_compute; reflexivity|].
  assert (cw_reqs redirected_world !! 3%nat = Some (rq_at redirected_world 3)) as Hq by (vm_compute; reflexivity).
  assert (0 ≤ rq_redirection_limit (rq_at redirected_world 3) < 2 ^ 16 - 1) as Hlim by (vm_compute; split; [discriminate|reflexivity]).
  exact (proj2 (proj2 (proj2 (redirects_bounded chaining 1 redirected_world 3 (rq_at redirected_world 3)
    chaining_well_behaved redirected_reach Hq Hlim)))).
Defined.
