(* ===== verification/ClientTrace.v ===== *)
(** * What a client does, step by step

    The exact sequence of stream operations and events of [Client::request] and
    [Client::finish_request]: [Tr] is the framework of [ClientSpecs] with the log
    in full. *)
From S2P Require Import Prelude Errors Proto ClientProto ClientState ClientOps Form Client Pool UserAgent ClientStep ClientInv ClientSpecs ClientMoves PoolSpecs ClientFinish ClientRead.
Local Open Scope Z_scope.

Section Tr.
Context `{ClientProto} {T : fault → Prop}.
Local Abbreviation wp := (wpf T).
Implicit Types (w : CWorld) (k : Client) (q : CRequest) (E : exn → CWorld → Prop).

Lemma wp_run {A} (m : M CWorld A) x w w' Q E : m w = Ok x w' → Q x w' → wp m Q E w.
Proof. unfold wpf. by intros ->. Qed.

(** The client, the request and the log of a world; the pools, URIs and clocks are those of
    [w0], and so are the other clients and requests. *)
Record Tr w0 c r k q (L : list CObs) w : Prop := {
  tr_clients : cw_clients w = <[c := k]> (cw_clients w0);
  tr_reqs : cw_reqs w = <[r := q]> (cw_reqs w0);
  tr_pools : cw_pools w = cw_pools w0;
  tr_uris : cw_uris w = cw_uris w0;
  tr_now : cw_now w = cw_now w0;
  tr_log : cw_log w = L
}.

Lemma Tr_start w c r k q :
  cw_clients w !! c = Some k → cw_reqs w !! r = Some q → Tr w c r k q (cw_log w) w.
Proof. intros Hk Hq. split; try done; by rewrite insert_id. Qed.

Context (w0 : CWorld) (c : ClientId) (r : RqId).
Local Abbreviation tr := (Tr w0 c r).

Lemma tr_get_client k q L Q E w : tr k q L w → Q k w → wp (get_client c) Q E w.
Proof.
  intros HT HQ. apply wp_bind, wp_gets. eapply wp_deref; [|done].
  by rewrite (tr_clients _ _ _ _ _ _ _ HT), lookup_insert_eq.
Qed.

Lemma tr_get_rq k q L Q E w : tr k q L w → Q q w → wp (get_rq r) Q E w.
Proof.
  intros HT HQ. apply wp_bind, wp_gets. eapply wp_deref; [|done].
  by rewrite (tr_reqs _ _ _ _ _ _ _ HT), lookup_insert_eq.
Qed.

Lemma tr_get_uri k q L i u Q E w :
  tr k q L w → cw_uris w0 !! i = Some u → Q u w → wp (get_uri i) Q E w.
Proof.
  intros HT Hu HQ. apply wp_bind, wp_gets. eapply wp_deref; [|done].
  by rewrite (tr_uris _ _ _ _ _ _ _ HT).
Qed.

Lemma tr_mod_client k q L f Q E w :
  tr k q L w → (∀ w', tr (f k) q L w' → Q tt w') → wp (mod_client c f) Q E w.
Proof. intros [H1 H2 H3 H4 H6 H5] HQ. apply wp_modify, HQ. split; try done; cbn. by rewrite H1, alter_insert_eq. Qed.

Lemma tr_mod_rq k q L f Q E w :
  tr k q L w → (∀ w', tr k (f q) L w' → Q tt w') → wp (mod_rq r f) Q E w.
Proof. intros [H1 H2 H3 H4 H6 H5] HQ. apply wp_modify, HQ. split; try done; cbn. by rewrite H2, alter_insert_eq. Qed.

Lemma tr_clog k q L o Q E w :
  tr k q L w → (∀ w', tr k q (o :: L) w' → Q tt w') → wp (clog o) Q E w.
Proof. intros [H1 H2 H3 H4 H6 H5] HQ. apply wp_modify, HQ. split; try done. cbn. by rewrite H5. Qed.

Lemma tr_modify k q L (f : CWorld → CWorld) Q E w :
  tr k q L w → cw_clients (f w) = cw_clients w → cw_reqs (f w) = cw_reqs w →
  cw_pools (f w) = cw_pools w → cw_uris (f w) = cw_uris w → cw_now (f w) = cw_now w →
  cw_log (f w) = cw_log w → (∀ w', tr k q L w' → Q tt w') → wp (modify f) Q E w.
Proof.
  intros [H1 H2 H3 H4 H6 H5] E1 E2 E3 E4 E6 E5 HQ. apply wp_modify, HQ.
  split; by rewrite ?E1, ?E2, ?E3, ?E4, ?E5, ?E6.
Qed.

Lemma tr_write k q L x Q E w :
  tr k q L w →
  (∀ w', tr (k <| cl_pending ::= λ l, l ++ [PWrite] |>) q (CWrite c x :: L) w' → Q tt w') →
  wp (tcp_write c x) Q E w.
Proof. intros HT HQ. apply wp_bind. eapply tr_clog; [done|]. intros w' HT'. by eapply tr_mod_client. Qed.
End Tr.

Ltac tr_next HT :=
  let w' := fresh "w" in let HT' := fresh "HT'" in
  intros w' HT'; clear HT; rename HT' into HT.
Ltac tr_step :=
  match goal with
  | |- wpf _ (mbind _ _) _ _ _ => apply wp_bind
  | |- wpf _ (mret _) _ _ _ => apply wp_ret
  | |- wpf _ (gets _) _ _ _ => apply wp_gets
  | HT : Tr _ _ _ _ _ _ ?w |- wpf _ (get_client _) _ _ ?w => eapply tr_get_client; [exact HT|]
  | HT : Tr _ _ _ _ _ _ ?w |- wpf _ (get_rq _) _ _ ?w => eapply tr_get_rq; [exact HT|]
  | HT : Tr _ _ _ _ _ _ ?w |- wpf _ (get_uri _) _ _ ?w => eapply tr_get_uri; [exact HT|eassumption|]
  | HT : Tr _ _ _ _ _ _ ?w |- wpf _ (mod_client _ _) _ _ ?w => eapply tr_mod_client; [exact HT|tr_next HT]
  | HT : Tr _ _ _ _ _ _ ?w |- wpf _ (mod_rq _ _) _ _ ?w => eapply tr_mod_rq; [exact HT|tr_next HT]
  | HT : Tr _ _ _ _ _ _ ?w |- wpf _ (clog _) _ _ ?w => eapply tr_clog; [exact HT|tr_next HT]
  | HT : Tr _ _ _ _ _ _ ?w |- wpf _ (tcp_write _ _) _ _ ?w => eapply tr_write; [exact HT|tr_next HT]
  | HT : Tr _ _ _ _ _ _ ?w |- wpf _ (modify _) _ _ ?w =>
      eapply tr_modify; [exact HT|reflexivity|reflexivity|reflexivity|reflexivity|reflexivity|reflexivity|tr_next HT]
  end; cbv beta.
Ltac tr_steps := repeat tr_step.
Ltac tr_deref H := eapply wp_deref; [cbn; exact H|]; cbv beta.

Section Client.
Context `{ClientProto} `{!ClientProtoLaws} `{!ClientEnv}.
Context (cancel_ : ClientId → option ErrorCode → M CWorld unit).
Implicit Types (w : CWorld) (k : Client) (q : CRequest) (E : exn → CWorld → Prop).

Section Steps.
Context {T : fault → Prop} (w0 : CWorld) (c : ClientId) (r : RqId).
Local Abbreviation wp := (wpf T).
Local Abbreviation tr := (Tr w0 c r).

Lemma tr_tcp_reset k q L Q E w :
  tr k q L w → cl_request k = None →
  (∀ w', tr (k <| cl_connected := false |> <| cl_connecting := false |> <| cl_pending := [] |>) q
      (CReset c :: L) w' → Q tt w') →
  wp (tcp_reset cancel_ c) Q E w.
Proof.
  intros HT Hr HQ. unfold tcp_reset. do 6 tr_step.
  revert HT HQ. generalize (cl_pending k) as l.
  set (k1 := k <| cl_connected := false |> <| cl_connecting := false |> <| cl_pending := [] |>).
  assert (cl_request k1 = None) as Hk1 by done. clearbody k1.
  intros l HT HQ. induction l as [|x l IH]; [by apply wp_ret, HQ|].
  cbn [for_each]. apply wp_bind.
  destruct x; (eapply wp_bind, tr_get_client; [exact HT|]); rewrite Hk1; apply wp_ret, IH.
Qed.

(** What drops of a client when its connection does. *)
Definition dropped k : Client :=
  k <| cl_connected := false |> <| cl_connecting := false |> <| cl_pending := [] |>.

Lemma tr_drop_connection k q L Q E w :
  tr k q L w → (∀ w', tr (dropped k) q (CReset c :: L) w' → Q tt w') →
  wp (drop_connection cancel_ c) Q E w.
Proof.
  intros HT HQ. unfold drop_connection. do 5 tr_step.
  eapply tr_tcp_reset; [exact HT|done|]. intros wb HT2. tr_step. eapply HQ. by destruct k.
Qed.

(** ** A new connection *)

Definition ssl_obs (ctx : CtxId) q (u : Uri) : list CObs :=
  if uri_secure u
  then [CUseSsl c (default ctx (rq_ssl_ctx q)) (uri_host u)
          (if rq_ssl_check_cert q then Some (uri_host u) else None)]
  else [].

Definition proxy_obs w q : list CObs :=
  match rq_proxy q with
  | Some x => match cw_uris w !! x with
              | Some v => if String.eqb (uri_scheme v) "socks5"
                          then [CUseSocks c (uri_host v) (uri_port v) (uri_user v) (uri_password v) (rq_proxy_resolve q)]
                          else []
              | None => []
              end
  | None => []
  end.

Definition connect_timeout q : Z :=
  if rq_connect_timeout q =? 0 then rq_timeout q else rq_connect_timeout q.

(** Last first: the old connection is dropped, the filters are removed, TLS is put on
    the stream, then the proxy; the stream connects to the location. *)
Definition connection_obs w (ctx : CtxId) k q (u : Uri) (n : NetLoc) : list CObs :=
  [CConnect c (nl_host n) (nl_port n) (connect_timeout q)] ++
  (if rq_tcp_nodelay q then [CNoDelay c] else []) ++ proxy_obs w q ++ ssl_obs ctx q u ++
  [CClearFilters c] ++ (if cl_connected k then [CReset c] else []).

Lemma tr_default_ssl b k q L Q E w :
  tr k q L w → (∀ l, default_verify_paths_ok l = true) →
  (∀ x w', tr k q L w' → Q x w') → wp (get_default_ssl_context b) Q E w.
Proof.
  intros HT Hpaths HQ. unfold get_default_ssl_context, verify_ssl_context, default_ssl_context, alloc_ctx.
  destruct b; tr_steps; (case_match; [tr_step; by apply HQ|]); tr_steps.
  - rewrite Hpaths. tr_steps. by apply HQ.
  - by apply HQ.
Qed.

Lemma tr_ssl k q L u Q E w :
  tr k q L w → (∀ l, default_verify_paths_ok l = true) →
  (∀ x w', tr k q (ssl_obs x q u ++ L) w' → Q tt w') →
  wp (if uri_secure u then setup_ssl c r u else mret tt) Q E w.
Proof.
  intros HT Hpaths HQ. unfold ssl_obs in HQ. destruct (uri_secure u); [|tr_step; by eapply (HQ 0%nat)].
  unfold setup_ssl. tr_steps. destruct (rq_ssl_ctx q) as [x|].
  - tr_steps. by eapply (HQ x).
  - eapply tr_default_ssl; [exact HT|done|]. intros x wa HTa. tr_step. by eapply (HQ x).
Qed.

Lemma tr_proxy k q L Q E w :
  tr k q L w → good w0 q → (∀ w', tr k q (proxy_obs w0 q ++ L) w' → Q tt w') →
  wp (setup_proxy c r) Q E w.
Proof.
  intros HT Hg HQ. unfold setup_proxy, proxy_obs in *. tr_steps.
  destruct (rq_proxy q) as [x|] eqn:Hx; [|tr_step; by apply HQ].
  destruct (g_proxy _ _ Hg x Hx) as (v & Hv & Hs). tr_steps. rewrite Hv in HQ.
  destruct Hs as [Hs|Hs]; rewrite Hs in *.
  - change (String.eqb "socks5" "socks5") with true in *. cbv iota in *. tr_step. by apply HQ.
  - change (String.eqb "http" "socks5") with false in *. change (String.eqb "http" "http") with true in *.
    cbv iota in *. tr_step. by apply HQ.
Qed.

Definition connecting k (n : NetLoc) : Client :=
  (if cl_connected k then dropped k else k) <| cl_netloc := n |> <| cl_connecting := true |>
    <| cl_pending ::= λ l, l ++ [PConnect] |>.

Lemma tr_start_connection k q L i u n Q E w :
  tr k q L w → good w0 q → (∀ l, default_verify_paths_ok l = true) →
  rq_uri q = Some i → cw_uris w0 !! i = Some u →
  (∀ x w', tr (connecting k n) q (connection_obs w0 x k q u n ++ L) w' → Q tt w') →
  wp (start_connection cancel_ c r n) Q E w.
Proof.
  intros HT Hg Hpaths Hi Hu HQ. unfold start_connection. tr_steps.
  match goal with |- wpf _ _ ?Q' ?E' _ => assert (∀ wa, tr (if cl_connected k then dropped k else k) q
    ((if cl_connected k then [CReset c] else []) ++ L) wa → Q' tt wa) as Hnext end.
  2: { destruct (cl_connected k); [by eapply tr_drop_connection|by apply wp_ret, Hnext]. }
  clear HT. intros wa HT. tr_steps. tr_deref Hi. tr_steps.
  eapply tr_ssl; [exact HT|done|]. intros x wb HTb. clear HT. tr_step.
  eapply tr_proxy; [exact HTb|done|]. intros wc HT. clear HTb. tr_steps.
  match goal with |- wpf _ _ ?Q' ?E' _ => assert (∀ wd, tr (if cl_connected k then dropped k else k) q
    ((if rq_tcp_nodelay q then [CNoDelay c] else []) ++ proxy_obs w0 q ++ ssl_obs x q u ++
      CClearFilters c :: (if cl_connected k then [CReset c] else []) ++ L) wd → Q' tt wd) as Hnext end.
  2: { destruct (rq_tcp_nodelay q); [tr_step|tr_step]; by apply Hnext. }
  clear HT. intros wd HT. tr_steps. unfold tcp_connect. tr_steps.
  eapply (HQ x). unfold connection_obs, connect_timeout. rewrite <-!app_assoc.
  by destruct (_ =? 0).
Qed.

(** ** [Client::request] *)

Definition timer_obs q : list CObs :=
  if negb (rq_timeout q =? 0) && negb (match rq_timer q with Some t => tm_active t | None => false end)
  then [CTimerOnce r (rq_timeout q)] else [].

Lemma tr_timer k q L Q E w :
  tr k q L w →
  (∀ w' t, tr k (q <| rq_timer := t |>) (timer_obs q ++ L) w' → Q tt w') →
  wp (if negb (rq_timeout q =? 0) then ensure_timer_active r else mret tt) Q E w.
Proof.
  intros HT HQ. unfold timer_obs in HQ. destruct (rq_timeout q =? 0) eqn:Ht; cbn [negb andb] in *.
  - tr_step. eapply (HQ _ (rq_timer q)). by destruct q.
  - unfold ensure_timer_active. tr_steps. rewrite Ht. tr_steps.
    destruct (match rq_timer q with Some t => tm_active t | None => false end); cbn [negb] in *; tr_steps; by eapply HQ.
Qed.

(** Whether a client keeps the connection it has. *)
Definition reuses k q (n : NetLoc) : bool :=
  cl_connected k && NetLoc_eqb (cl_netloc k) n && cm_keep_alive (rq_msg q).

(** Last first: a new connection unless the old one will do, the request's timer,
    the head; then the client reads. *)
Definition request_obs w (ctx : CtxId) k q (u : Uri) (n : NetLoc) : list CObs :=
  [CReadStart c; CWrite c (CHead r (cm_to_vector (default_compression (rq_msg q)) u))] ++
  timer_obs q ++ (if reuses k q n then [] else connection_obs w ctx k q u n).

(** What [Client::request] leaves of the client. *)
Record serving k q (n : NetLoc) k' : Prop := {
  sv_request : cl_request k' = Some r;
  sv_context : cl_context k' = Some r;
  sv_netloc : cl_netloc k' = n;
  sv_connecting : cl_connecting k' = (if reuses k q n then cl_connecting k else true)
}.

Lemma tr_send_request k q L i u Q E w :
  tr k q L w → rq_uri q = Some i → cw_uris w0 !! i = Some u → cm_form_streaming (rq_msg q) = false →
  (∀ q' w', tr (k <| cl_context := Some r |> <| cl_pending ::= λ l, l ++ [PWrite] |>) q'
     (CReadStart c :: CWrite c (CHead r (cm_to_vector (default_compression (rq_msg q)) u)) :: L) w' → Q tt w') →
  wp (send_request c r) Q E w.
Proof.
  intros HT Hi Hu Hform HQ. unfold send_request. tr_steps. tr_deref Hi. tr_steps.
  change (rq_msg (q <| rq_msg ::= default_compression |>)) with (default_compression (rq_msg q)) in *.
  assert (cm_form_streaming (default_compression (rq_msg q)) = false) as ->.
  { unfold default_compression. by destruct (_ && _). }
  tr_step. unfold read_start. destruct (_ || _); tr_step; tr_step; by eapply HQ.
Qed.

Lemma tr_client_request `{!CCallbacks} k q L i u n Q E w :
  tr k q L w → (∀ l, default_verify_paths_ok l = true) →
  cl_request k = None → rq_client q = None → good w0 q → cm_form_streaming (rq_msg q) = false →
  rq_uri q = Some i → cw_uris w0 !! i = Some u → netloc_of w0 q = Some n →
  (∀ x k' q' w', tr k' q' (request_obs w0 x k q u n ++ L) w' → serving k q n k' → Q tt w') →
  wp (client_request cancel_ c r) Q E w.
Proof.
  intros HT Hpaths Hr Hc Hg Hform Hi Hu Hn HQ. unfold client_request. tr_steps. rewrite Hr.
  apply wp_ret; cbv beta. tr_steps. rewrite Hc. apply wp_ret; cbv beta. tr_steps.
  eapply wp_request_check.
  { by rewrite (tr_reqs _ _ _ _ _ _ _ HT), lookup_insert_eq. }
  { eapply good_at_uris; [apply (tr_uris _ _ _ _ _ _ _ HT)|done]. }
  tr_steps. set (q1 := q <| rq_client := Some c |>) in *. assert (good w0 q1) as Hg1 by (by destruct Hg).
  pose proof Hg1 as [(i' & u' & Hi' & Hu' & Hhost & Hscheme) _ _ _].
  assert (i' = i) as -> by (cbn in Hi'; congruence). assert (u' = u) as -> by congruence.
  unfold default_scheme. tr_steps. tr_deref Hi'. tr_steps. apply String.eqb_neq in Hscheme. rewrite Hscheme.
  tr_steps. eapply (wp_request_netloc _ r q1 n).
  { by rewrite (tr_reqs _ _ _ _ _ _ _ HT), lookup_insert_eq. }
  { rewrite (netloc_at_uris w0); [done|apply (tr_uris _ _ _ _ _ _ _ HT)]. }
  { intros x Hx. rewrite (tr_uris _ _ _ _ _ _ _ HT). by eapply good_proxy. }
  tr_steps.
  match goal with |- wpf _ _ ?Q' ?E' _ => assert (∀ x wa, tr (if reuses k q n then k else connecting k n) q1
    ((if reuses k q n then [] else connection_obs w0 x k q u n) ++ L) wa → Q' tt wa) as Hnext end.
  2: { assert (negb (cl_connected k) || negb (NetLoc_eqb (cl_netloc k) n) || negb (cm_keep_alive (rq_msg q1)) =
         negb (reuses k q n)) as ->.
       { unfold reuses. cbn. by destruct (cl_connected k), (NetLoc_eqb (cl_netloc k) n), (cm_keep_alive (rq_msg q)). }
       destruct (reuses k q n); cbn [negb]; [tr_step; by eapply (Hnext 0%nat)|].
       eapply tr_start_connection; [exact HT|done|done|exact Hi'|done|]. intros x wa HTa. by apply (Hnext x). }
  clear HT. intros x wa HT. tr_step. eapply tr_timer; [exact HT|]. intros wb t HTb. clear HT.
  unfold set_weak. tr_steps. eapply tr_send_request; [exact HTb|exact Hi'|done|done|].
  intros q2 wc HT. eapply (HQ x); [unfold request_obs; rewrite <-!app_assoc; exact HT|].
  split; cbn; [done..| |by destruct (reuses k q n)].
  destruct (reuses k q n) eqn:Hre; [|done]. unfold reuses in Hre.
  apply andb_true_iff in Hre as [[_ Hre]%andb_true_iff _]. by apply NetLoc_eqb_spec in Hre.
Qed.
End Steps.

(** C10: [Client::request] on an idle client: the operations on the stream, in their
    order, and the state the client is left in. The connection is reused exactly
    when it is to the same location and the request keeps it alive. *)
Theorem request_trace `{!CCallbacks} w c k r q i u n :
  (∀ l, default_verify_paths_ok l = true) →
  cw_clients w !! c = Some k → cl_request k = None →
  cw_reqs w !! r = Some q → rq_client q = None → good w q →
  cm_form_streaming (rq_msg q) = false →
  rq_uri q = Some i → cw_uris w !! i = Some u → netloc_of w q = Some n →
  ∃ w', client_request cancel_ c r w = Ok tt w' ∧ ∃ x k',
    cw_log w' = request_obs c r w x k q u n ++ cw_log w ∧
    cw_clients w' !! c = Some k' ∧ serving r k q n k'.
Proof.
  intros Hpaths Hk Hr Hq Hc Hg Hform Hi Hu Hn. apply wp_no_throw.
  eapply tr_client_request; try done; [by apply Tr_start|].
  intros x k' q' w' HT Hs. exists x, k'.
  by rewrite (tr_log _ _ _ _ _ _ _ HT), (tr_clients _ _ _ _ _ _ _ HT), lookup_insert_eq.
Qed.

(** ** [Client::finish_request] *)

(** The error a finished request reports. *)
Definition final_error (err : option ErrorCode) q : option ErrorCode :=
  match err with
  | Some e => Some e
  | None => if rq_transfer_completed q then None else Some (HttpErr transfer_aborted)
  end.

(** Whether the connection outlives the request. *)
Definition survives (err : option ErrorCode) q (res : option CResponse) : bool :=
  match final_error err q, res with
  | None, Some x => resp_keep_alive (rp_msg x) && cm_keep_alive (rq_msg q)
  | _, _ => false
  end.

Definition reported (res : option CResponse) : CResponse := default (mkCResp resp_new false) res.

(** The request is answered and given up: what is left is to put the client back and to
    report. The connection was dropped unless it survives. *)
Record finishing w c k (q : CRequest) (err : option ErrorCode) w1 : Prop := {
  fi_log : cw_log w1 = (if survives err q (cl_response k) then [] else [CReset c]) ++ cw_log w;
  fi_client : ∃ k', cw_clients w1 = <[c := k']> (cw_clients w) ∧
    cl_request k' = None ∧ cl_response k' = None ∧ cl_pool k' = cl_pool k ∧ cl_netloc k' = cl_netloc k ∧
    cl_last_activity_time k' = cw_now w (cl_loop k) ∧
    cl_connected k' = (cl_connected k && survives err q (cl_response k));
  fi_reqs : cw_reqs w1 = cw_reqs w;
  fi_pools : cw_pools w1 = cw_pools w
}.

(** What reporting leaves, under silent listeners: an idle request. *)
Record notified w2 (r : RqId) (res : option CResponse) (err : option ErrorCode) w' : Prop := {
  no_log : cw_log w' = [CFire (CEvResponse r (reported res) err); CFire (CEvPartial r (reported res) err)] ++ cw_log w2;
  no_request : ∃ q', cw_reqs w' !! r = Some q' ∧ rq_client q' = None ∧ rq_pool q' = None ∧
    rq_redirection_counter q' = 0 ∧ rq_transfer_completed q' = false ∧
    (∀ t, rq_timer q' = Some t → tm_active t = false ∧ tm_listener t = false);
  no_others : ∀ r', r' ≠ r → cw_reqs w' !! r' = cw_reqs w2 !! r';
  no_clients : cw_clients w' = cw_clients w2 ∧ cw_pools w' = cw_pools w2
}.

Lemma notify_silent {CB : CCallbacks} w2 r q2 res err :
  (∀ ev w, cfire ev w = Ok tt w) → cw_reqs w2 !! r = Some q2 →
  ∃ w', finish_and_notify r res err w2 = Ok tt w' ∧ notified w2 r res err w'.
Proof.
  intros Hsilent Hq. apply wp_no_throw. unfold finish_and_notify, cleanup_after_redirect, clear_timer, emit_event.
  apply wp_bind, wp_modify, wp_bind, wp_modify, wp_bind, wp_modify.
  apply wp_bind, wp_bind, wp_modify. eapply wp_run; [apply Hsilent|].
  apply wp_bind, wp_modify. eapply wp_run; [apply Hsilent|].
  split; cbn; [done| |intros r' Hne; by rewrite !lookup_alter_ne|done].
  rewrite !lookup_alter_eq, Hq. cbn. eexists. split_and!; [done..|]. cbn. intros t.
  destruct (rq_timer q2); cbn; [|done]. by intros [= <-].
Qed.

(** Up to there, whatever follows. *)
Lemma wp_finish_traced {CB : CCallbacks} {PO : PoolOps} {T : fault → Prop} w c k r q err Q E :
  cw_clients w !! c = Some k → cl_request k = Some r → cl_form_field k = -1 →
  cw_reqs w !! r = Some q → (err = None → is_Some (cl_response k)) →
  (∀ w1, finishing w c k q err w1 →
    wpf T (match cl_pool k with Some p => pool_putback p c | None => mret tt end ;;
           finish_and_notify r (cl_response k) (final_error err q)) Q E w1) →
  wpf T (client_finish_request cancel_ c err) Q E w.
Proof.
  intros Hk Hr Hff Hq Hres HQ.
  pose proof (Tr_start w c r k q Hk Hq) as HT. unfold client_finish_request. tr_steps. tr_deref Hr. tr_steps.
  assert ((match err with Some _ => err | None => if negb (rq_transfer_completed q)
    then Some (HttpErr transfer_aborted) else None end) = final_error err q) as ->.
  { unfold final_error. destruct err; [done|]. by destruct (rq_transfer_completed q). }
  match goal with |- wpf _ _ ?Q' ?E' ?wa => assert (Q' (survives err q (cl_response k)) wa) as Hnext end.
  2: { unfold survives in *. destruct (final_error err q) eqn:Hfe; [by apply wp_ret|].
       destruct err; [done|]. destruct (Hres eq_refl) as [x Hx]. rewrite Hx in *. apply wp_bind. eapply wp_deref; [reflexivity|].
       by apply wp_ret. }
  set (L := (if survives err q (cl_response k) then [] else [CReset c]) ++ cw_log w).
  cbv beta.
  match goal with |- wpf _ (_ ≫= ?f) ?Q' ?E' _ => assert (∀ k2 wb, Tr w c r k2 q L wb → cl_form_field k2 = -1 →
    cl_request k2 = None → cl_response k2 = None → cl_pool k2 = cl_pool k → cl_netloc k2 = cl_netloc k → cl_loop k2 = cl_loop k →
    cl_connected k2 = (cl_connected k && survives err q (cl_response k)) → wpf T (f tt) Q' E' wb) as Hrest end.
  2: { apply wp_bind. subst L. destruct (survives err q (cl_response k)).
       - unfold set_weak. tr_step. eapply Hrest; [exact HT|done..|]. by cbn; rewrite andb_true_r.
       - eapply tr_drop_connection; [exact HT|]. intros wb HTb. eapply Hrest; [exact HTb|done..|].
         by cbn; rewrite andb_false_r. }
  clear HT. intros k2 wb HT Hf2 Hr2 Hres2 Hp2 Hn2 Hl2 Hc2. tr_steps. rewrite Hf2. cbn [Z.leb Z.compare]. tr_steps.
  pose proof (tr_now _ _ _ _ _ _ _ HT) as Hnow.
  unfold client_now. tr_steps. cbv beta. rewrite Hp2. apply wp_unbind, HQ. destruct HT as [T1 T2 T3 T4 T5 T6]. split; [exact T6| | |exact T3].
  - eexists. split; [exact T1|]. cbn. split_and!; try done. by rewrite Hl2, Hnow.
  - rewrite T2. by apply insert_id.
Qed.

(** C11: [Client::finish_request] of a client that is not in the middle of a form: the
    connection is kept exactly when nothing failed, the request was sent in full and
    both sides keep it alive; the client has no request any more; a pool gets it
    back, and may give it the next request, before the request that was finished is
    reported on. Under listeners that do nothing the report is its partial and its
    response event, in this order, and leaves it idle, whatever the pool has done. *)
Theorem finish_trace {CB : CCallbacks} {PO : PoolOps} w c k r q err :
  cw_clients w !! c = Some k → cl_request k = Some r → cl_form_field k = -1 →
  cw_reqs w !! r = Some q → (err = None → is_Some (cl_response k)) →
  ∃ w1, finishing w c k q err w1 ∧
    client_finish_request cancel_ c err w =
      (match cl_pool k with Some p => pool_putback p c | None => mret tt end ;;
       finish_and_notify r (cl_response k) (final_error err q)) w1 ∧
    ((∀ ev w, cfire ev w = Ok tt w) → ∀ w2 q2, cw_reqs w2 !! r = Some q2 →
     ∃ w', finish_and_notify r (cl_response k) (final_error err q) w2 = Ok tt w' ∧
       notified w2 r (cl_response k) (final_error err q) w').
Proof.
  intros Hk Hr Hff Hq Hres.
  cut (∃ w1, finishing w c k q err w1 ∧ client_finish_request cancel_ c err w =
      (match cl_pool k with Some p => pool_putback p c | None => mret tt end ;;
       finish_and_notify r (cl_response k) (final_error err q)) w1).
  { intros (w1 & Hf & E). exists w1. split_and!; [done..|]. intros Hsilent w2 q2 Hq2. by eapply notify_silent. }
  apply (wpf_outcome (client_finish_request cancel_ c err) w (λ o, ∃ w1, finishing w c k q err w1 ∧ o =
      (match cl_pool k with Some p => pool_putback p c | None => mret tt end ;;
       finish_and_notify r (cl_response k) (final_error err q)) w1)).
  eapply wp_finish_traced; [done..|]. intros w1 Hf. unfold wpf.
  match goal with |- match ?o with _ => _ end => destruct o eqn:Ho end; by exists w1.
Qed.

(** ** Redirects *)

(** The loop over the headers splits them: those that stay keep their order, the
    others are collected. *)
Lemma scrub_headers_spec h removed :
  scrub_headers h removed =
    (filter (λ p, is_private_header p.1 = false) h,
     fold_left (λ f p, fields_add f p.1 p.2) (filter (λ p, is_private_header p.1 = true) h) removed).
Proof.
  revert removed. induction h as [|[name value] h IH]; intros removed; [done|].
  cbn [scrub_headers]. rewrite !filter_cons. cbn [fst].
  destruct (is_private_header name) eqn:Hp; rewrite IH.
  - rewrite decide_False, decide_True by done. done.
  - rewrite decide_True, decide_False by done. done.
Qed.

(** The message that is sent to the target of a redirect. *)
Definition redirected_msg (res : CResponse) (m : QMsg) : QMsg :=
  let m := m <| cm_headers := filter (λ p, is_private_header p.1 = false) (cm_headers m) |>
             <| cm_cookies := cookies_empty |> in
  if resp_code (rp_msg res) =? 303 then m <| cm_method := "GET"%string |> <| cm_parts := [] |> else m.

(** The request that is carried out after a redirect to the URI [j]. *)
Definition redirected (j : UriId) (res : CResponse) q : CRequest :=
  q <| rq_redirection_counter := rq_redirection_counter q + 1 |>
    <| rq_msg ::= redirected_msg res |> <| rq_ssl_ctx := None |> <| rq_uri := Some j |>
    <| rq_client := None |> <| rq_transfer_completed := false |>
    <| rq_timer ::= fmap (λ t, mkTimer (tm_active t) false) |>.

(** What the listeners of the redirect learn about the request as it was. *)
Definition left_behind (i : UriId) q : RedirectContext := {|
  rc_uri := i; rc_ssl_ctx := rq_ssl_ctx q; rc_cookies := cm_cookies (rq_msg q);
  rc_removed_headers := fold_left (λ f p, fields_add f p.1 p.2)
    (filter (λ p, is_private_header p.1 = true) (cm_headers (rq_msg q))) [] |}.

(** What is left when the redirect was told: the target is an object of its own, the
    request asks for it, the client is free, its connection dropped unless the server
    keeps it. *)
Record following w c r k q i u res w1 : Prop := {
  fo_log : cw_log w1 = (if resp_keep_alive (rp_msg res) then [] else [CReset c]) ++
    CFire (CEvRedirect r res (left_behind i q)) :: cw_log w;
  fo_uris : cw_uris w1 = <[fresh (dom (cw_uris w)) := redirect_target (resp_location (rp_msg res)) u]> (cw_uris w);
  fo_reqs : cw_reqs w1 = <[r := redirected (fresh (dom (cw_uris w))) res q]> (cw_reqs w);
  fo_clients : cw_clients w1 = <[c := (if resp_keep_alive (rp_msg res) then k else dropped k)
    <| cl_request := None |> <| cl_response := None |>]> (cw_clients w);
  fo_pools : cw_pools w1 = cw_pools w;
  fo_now : cw_now w1 = cw_now w
}.

(** Where the request then goes: to the same client, when that has no pool or already
    serves the host and port of the new location [n]; otherwise to the pool, which
    gets the client back before, with the time of its last activity. *)
Definition hand_on {CB : CCallbacks} {PO : PoolOps} c r k (n : NetLoc) : M CWorld unit :=
  match cl_pool k with
  | Some p =>
      if String.eqb (nl_host n) (nl_host (cl_netloc k)) && (nl_port n =? nl_port (cl_netloc k))
      then client_request cancel_ c r
      else
        modify (λ w, w <| cw_clients ::= alter (λ k, k <| cl_last_activity_time := cw_now w (cl_loop k) |>) c |>) ;;
        pool_putback p c ;;
        set_weak c true ;;
        pool_request p r ;; mret tt
  | None => client_request cancel_ c r
  end.

(** [follow_redirect], up to there. *)
Lemma tr_follow {CB : CCallbacks} {PO : PoolOps} {T : fault → Prop} w0 w c r k q0 res n L Q E :
  Tr w0 c r k q0 L w → cl_request k = Some r → cl_response k = Some res →
  let q := (if resp_code (rp_msg res) =? 303 then
      q0 <| rq_msg ::= λ m, m <| cm_method := "GET"%string |> <| cm_parts := [] |> |> else q0) in
  netloc_of w0 q = Some n → (∀ x, rq_proxy q = Some x → is_Some (cw_uris w0 !! x)) →
  (∀ w1, Tr w0 c r ((if resp_keep_alive (rp_msg res) then k else dropped k) <| cl_request := None |> <| cl_response := None |>)
       (q <| rq_client := None |> <| rq_transfer_completed := false |>
          <| rq_timer ::= fmap (λ t, mkTimer (tm_active t) false) |>)
       ((if resp_keep_alive (rp_msg res) then [] else [CReset c]) ++ L) w1 →
     wpf T (hand_on c r k n) Q E w1) →
  wpf T (follow_redirect cancel_ c) Q E w.
Proof.
  intros HT Hr Hres q Hn Hproxy HQ. unfold follow_redirect. tr_steps. tr_deref Hres. tr_step. tr_deref Hr.
  match goal with |- wpf _ (_ ≫= ?f) ?Q' ?E' _ => assert (∀ wa, Tr w0 c r k q L wa → wpf T (f tt) Q' E' wa) as Hnext end.
  2: { apply wp_bind. subst q. destruct (_ =? 303); tr_step; by apply Hnext. }
  clear HT. intros wa HT. apply wp_bind. eapply (wp_request_netloc _ r q).
  { by rewrite (tr_reqs _ _ _ _ _ _ _ HT), lookup_insert_eq. }
  { rewrite (netloc_at_uris w0); [exact Hn|apply (tr_uris _ _ _ _ _ _ _ HT)]. }
  { intros x Hx. rewrite (tr_uris _ _ _ _ _ _ _ HT). by apply Hproxy. }
  tr_steps. set (k1 := if resp_keep_alive (rp_msg res) then k else dropped k) in *.
  match goal with |- wpf _ ?m ?Q' ?E' _ => assert (∀ wb, Tr w0 c r (k1 <| cl_request := None |> <| cl_response := None |>)
    (q <| rq_client := None |>) ((if resp_keep_alive (rp_msg res) then [] else [CReset c]) ++ L) wb → Q' tt wb) as Hnext end.
  2: { subst k1. destruct (resp_keep_alive (rp_msg res)); [tr_step; by apply Hnext|].
       eapply tr_tcp_reset; [exact HT|done|]. intros wb HTb. by apply Hnext. }
  clear HT. intros wb HT. unfold cleanup_after_redirect. tr_steps.
  assert (cl_pool (k1 <| cl_request := None |> <| cl_response := None |>) = cl_pool k ∧
    cl_netloc (k1 <| cl_request := None |> <| cl_response := None |>) = cl_netloc k) as [-> ->]
    by (subst k1; by destruct (resp_keep_alive _)).
  specialize (HQ _ HT). unfold hand_on in HQ. destruct (cl_pool k) as [p|]; [|exact HQ].
  rewrite <-negb_andb. destruct (_ && _); cbn [negb]; [exact HQ|].
  apply wp_bind. unfold client_now. tr_step. eapply tr_get_client; [exact HT|]. tr_step. apply wp_bind, wp_modify.
  apply wp_unbind in HQ. unfold wpf at 1 in HQ. cbn [modify] in HQ.
  match type of HQ with wpf _ _ _ _ ?a => match goal with |- wpf _ _ _ _ ?b => replace b with a; [exact HQ|] end end.
  pose proof (tr_clients _ _ _ _ _ _ _ HT) as Ec. destruct w1; cbn in *. unfold setter, set_cw_clients. cbn. f_equal.
  rewrite Ec, !alter_insert_eq. done.
Qed.
(** The request that is changed by the redirect, and then by a 303. *)
Lemma redirected_msg_eq j res q :
  let q0 := redirected_request j (q <| rq_redirection_counter := rq_redirection_counter q + 1 |>) in
  (if resp_code (rp_msg res) =? 303
   then q0 <| rq_msg ::= λ m, m <| cm_method := "GET"%string |> <| cm_parts := [] |> |> else q0) =
  q0 <| rq_msg := redirected_msg res (rq_msg q) |>.
Proof.
  intros q0. assert (rq_msg q0 = (rq_msg q) <| cm_headers :=
    filter (λ p, is_private_header p.1 = false) (cm_headers (rq_msg q)) |> <| cm_cookies := cookies_empty |>) as Hmsg.
  { unfold q0, redirected_request. cbn. by rewrite scrub_headers_spec. }
  unfold redirected_msg. cbv zeta. rewrite <-Hmsg. clearbody q0. by destruct (_ =? 303), q0.
Qed.

(** [redirect], under listeners that do nothing, up to where the request goes. *)
Lemma wp_redirect_trace {CB : CCallbacks} {PO : PoolOps} {T : fault → Prop} w c k r q i u res Q E :
  (∀ ev w, cfire ev w = Ok tt w) →
  cw_clients w !! c = Some k → cl_request k = Some r → cl_response k = Some res →
  cl_in_redirect k = false → cl_redirect_canceled k = false →
  cw_reqs w !! r = Some q → rq_uri q = Some i → cw_uris w !! i = Some u →
  (∀ x, rq_proxy q = Some x → is_Some (cw_uris w !! x)) →
  resp_location (rp_msg res) ≠ EmptyString →
  0 ≤ rq_redirection_counter q < rq_redirection_limit q → rq_redirection_limit q < 2 ^ 16 →
  (∀ w1 n, following w c r k q i u res w1 → netloc_of w1 (redirected (fresh (dom (cw_uris w))) res q) = Some n →
    wpf T (hand_on c r k n) Q E w1) →
  wpf T (redirect cancel_ c r res) Q E w.
Proof.
  intros Hsilent Hk Hr Hres Hin Hcan Hq Hi Hu Hproxy Hloc Hlim Hmax HQ.
  set (j := fresh (dom (cw_uris w))) in *. set (target := redirect_target (resp_location (rp_msg res)) u).
  set (w0 := w <| cw_uris ::= <[j := target]> |>).
  assert (cw_uris w !! j = None) as Hj by apply not_elem_of_dom, is_fresh.
  pose proof (Tr_start w c r k q Hk Hq) as HT. unfold redirect. tr_steps.
  rewrite (proj2 (Z.eqb_neq _ 0)) by lia. unfold u16. rewrite Z.mod_small by lia. tr_steps.
  rewrite (proj2 (Z.ltb_ge _ _)) by lia. apply String.eqb_neq in Hloc. rewrite Hloc.
  tr_step. tr_deref Hi. tr_steps. unfold alloc_uri. tr_steps. apply wp_modify. rewrite (tr_uris _ _ _ _ _ _ _ HT).
  fold j target. set (w2 := w1 <| cw_uris ::= _ |>).
  assert (Tr w0 c r k (q <| rq_redirection_counter := rq_redirection_counter q + 1 |>) (cw_log w) w2) as HT2.
  { destruct HT as [T1 T2 T3 T4 T5 T6]. split; try done. unfold w2, w0. cbn. by rewrite T4. }
  clear HT. rename HT2 into HT. tr_steps. unfold notify_redirect, emit_event. tr_steps.
  apply wp_try_catch. tr_steps. eapply wp_run; [apply Hsilent|]. tr_steps.
  replace (k <| cl_in_redirect := true |> <| cl_in_redirect := false |>) with k in HT
    by (destruct k; cbn in Hin; by subst).
  change (cl_redirect_canceled _) with (cl_redirect_canceled k). rewrite Hcan. tr_steps.
  set (q0 := redirected_request j _) in HT.
  assert (redirect_context i (q <| rq_redirection_counter := rq_redirection_counter q + 1 |>) = left_behind i q) as Hctx.
  { unfold redirect_context, left_behind. by rewrite scrub_headers_spec. }
  rewrite Hctx in HT. pose proof (redirected_msg_eq j res q) as Hmsg. cbv zeta in Hmsg. fold q0 in Hmsg.
  set (q2 := q0 <| rq_msg := redirected_msg res (rq_msg q) |>) in *.
  assert (∀ x, rq_proxy q2 = Some x → is_Some (cw_uris w0 !! x)) as Hproxy2.
  { intros x Hx. destruct (Hproxy x Hx) as [v Hv]. exists v. unfold w0. cbn. rewrite lookup_insert_ne; [done|congruence]. }
  assert (∃ n, netloc_of w0 q2 = Some n) as [n Hn].
  { unfold netloc_of. destruct (http_proxy w0 q2); [by eexists|]. cbn. rewrite lookup_insert_eq. by eexists. }
  eapply (tr_follow w0 _ c r k q0 res n _ Q E HT Hr Hres); [by rewrite Hmsg..|].
  intros w9 HT5. rewrite Hmsg in HT5. apply HQ.
  - destruct HT5 as [T1 T2 T3 T4 T5 T6]. split; try done.
  - rewrite <-Hn. change (netloc_of w9 (redirected j res q)) with (netloc_of w9 q2).
    apply netloc_at_uris. apply (tr_uris _ _ _ _ _ _ _ HT5).
Qed.

(** C9: a redirect that is followed, under listeners that do nothing: the event tells
    what the request leaves behind; the connection is dropped unless the server keeps
    it; the request asks for the target, in an object of its own, without the private
    headers, the cookies and the TLS context of the old one and, after a 303, as a
    GET without a body. Then the same client carries it out, or, when that belongs to a
    pool and the target is at another host or port, the client goes back to the pool,
    with the time of its last activity, and the pool takes the request. *)
Theorem redirect_trace {CB : CCallbacks} {PO : PoolOps} w c k r q i u res :
  (∀ ev w, cfire ev w = Ok tt w) →
  cw_clients w !! c = Some k → cl_request k = Some r → cl_response k = Some res →
  cl_in_redirect k = false → cl_redirect_canceled k = false →
  cw_reqs w !! r = Some q → rq_uri q = Some i → cw_uris w !! i = Some u →
  (∀ x, rq_proxy q = Some x → is_Some (cw_uris w !! x)) →
  resp_location (rp_msg res) ≠ EmptyString →
  0 ≤ rq_redirection_counter q < rq_redirection_limit q → rq_redirection_limit q < 2 ^ 16 →
  ∃ w1 n, following w c r k q i u res w1 ∧
    netloc_of w1 (redirected (fresh (dom (cw_uris w))) res q) = Some n ∧
    redirect cancel_ c r res w = hand_on c r k n w1.
Proof.
  intros Hsilent Hk Hr Hres Hin Hcan Hq Hi Hu Hproxy Hloc Hlim Hmax.
  apply (wpf_outcome (redirect cancel_ c r res) w (λ o, ∃ w1 n, following w c r k q i u res w1 ∧
    netloc_of w1 (redirected (fresh (dom (cw_uris w))) res q) = Some n ∧ o = hand_on c r k n w1)).
  eapply wp_redirect_trace; [done..|]. intros w1 n Hf Hn. unfold wpf.
  destruct (hand_on c r k n w1) eqn:Ho; by exists w1, n.
Qed.
End Client.
