(* ===== verification/FormFacts.v ===== *)
(** * Forms on the wire, and building them

    The items of a form are written in their order; a streamed file interrupts the
    loop, which goes on behind it when the file is complete. *)
From S2P Require Import Prelude Errors Proto ClientProto ClientState ClientOps Form Client Pool UserAgent ClientStep ClientInv ClientSpecs ClientMoves PoolSpecs ClientFinish ClientRead ClientTrace.
Local Open Scope Z_scope.

Section Forms.
Context `{ClientProto} `{!ClientProtoLaws} `{!ClientEnv}.
Context (w0 : CWorld) (c : ClientId) (r : RqId).
Implicit Types (w : CWorld) (k : Client) (q : CRequest) (E : exn → CWorld → Prop).
Local Abbreviation tr := (Tr w0 c r).

(** What an item that is no streamed file writes, first to last. *)
Definition item_obs (m : QMsg) (item : FormItem) : list CObs :=
  match item with
  | FormField name content => [CWrite c (CForm r (cm_form_field m name content))]
  | FormEmbeddedFile name content mime filename =>
      [CWrite c (CForm r (cm_form_file m name filename mime)); CWrite c (CForm r (cm_form_data m content))]
  | FormFile name mime filename _ _ _ =>
      [CStreamerStart r; CWrite c (CForm r (cm_form_file m name filename mime))]
  end.

Definition items_obs (m : QMsg) (l : list FormItem) : list CObs := rev (l ≫= item_obs m).

Lemma items_obs_cons m item l : items_obs m (item :: l) = items_obs m l ++ rev (item_obs m item).
Proof. unfold items_obs. cbn. by rewrite rev_app_distr. Qed.

(** Where the loop is after some items. *)
Definition at_item k (l : list Pending) (i : nat) : Client :=
  k <| cl_pending := l |> <| cl_form_field := Z.of_nat i |>.

(** The items before the next streamed file. *)
Lemma tr_send_items n k q L done_ before plain rest Q E w :
  tr k q L w → rq_form q = before ++ plain ++ rest → Forall (λ f, is_file f = false) plain →
  Z.of_nat (length (rq_form q)) < 2 ^ 31 → cl_form_field k = Z.of_nat done_ → length before = done_ →
  (∀ w' l, tr (at_item k l (done_ + length plain)) q (items_obs (rq_msg q) plain ++ L) w' →
     wp (send_form_loop n c r) Q E w') →
  wp (send_form_loop (length plain + n) c r) Q E w.
Proof.
  intros HT Hform Hplain Hsize Hff Hlen HQ. revert k w L done_ before HT Hform Hff Hlen HQ.
  induction Hplain as [|item plain Hitem Hplain IH]; intros k w L done_ before HT Hform Hff Hlen HQ.
  { cbn [length Nat.add] in *. rewrite Nat.add_0_r in HQ. apply (HQ w (cl_pending k)).
    unfold at_item. rewrite <-Hff. by destruct k. }
  cbn [length Nat.add send_form_loop]. tr_steps.
  assert (done_ < length (rq_form q))%nat as Hlt by (rewrite Hform, !length_app; cbn; lia).
  unfold i32. rewrite (Z.mod_small (_ + _)), Z.add_simpl_r, Hff by lia.
  rewrite (proj2 (Z.ltb_lt _ _)) by lia. apply wp_bind. unfold form_item_start, form_at. tr_steps.
  rewrite (proj2 (Z.leb_le _ _)), Nat2Z.id by lia.
  assert (rq_form q !! done_ = Some item) as ->.
  { rewrite Hform, lookup_app_r, Hlen, Nat.sub_diag by lia. done. }
  tr_steps.
  assert (∀ w' l, tr (k <| cl_pending := l |>) q (rev (item_obs (rq_msg q) item) ++ L) w' →
    wp (mod_client c (λ k, k <| cl_form_field ::= Z.succ |>) ;; send_form_loop (length plain + n) c r) Q E w') as Hnext.
  { intros wa l HT1. tr_steps. eapply (IH _ _ _ (S done_) (before ++ [item])); [exact HT1|by rewrite <-app_assoc| | |].
    - cbn. rewrite Hff. lia.
    - rewrite length_app. cbn. lia.
    - intros wb l2 HT2. apply (HQ wb l2).
      rewrite items_obs_cons, <-app_assoc.
      replace (done_ + length (item :: plain))%nat with (S done_ + length plain)%nat by (cbn; lia).
      exact HT2. }
  destruct item as [name content|name content mime filename|]; [| |done]; unfold produce.
  - do 3 tr_step. apply (Hnext _ (cl_pending k ++ [PWrite])). exact HT.
  - do 5 tr_step. apply (Hnext _ ((cl_pending k ++ [PWrite]) ++ [PWrite])). exact HT.
Qed.

(** Where a call of [send_form] stops: at a streamed file, or behind the last item. *)
Definition stops_at (rest : list FormItem) : Prop :=
  match rest with [] => True | FormFile _ _ _ in_ _ _ :: _ => in_ = true | _ :: _ => False end.

(** What it leaves behind, given the items it has written. *)
Definition form_left w q (i : nat) (L : list CObs) (rest : list FormItem) w' : Prop :=
  ∃ k' q', cw_clients w' !! c = Some k' ∧ cw_reqs w' !! r = Some q' ∧
    match rest with
    | FormFile name mime filename _ _ max_buf :: _ =>
        cw_log w' = CWrite c (CForm r (cm_form_file (rq_msg q) name filename mime)) :: CStreamerStart r :: L ∧
        cl_form_field k' = Z.of_nat i ∧ rq_transfer_completed q' = rq_transfer_completed q ∧
        rq_form q' = <[i := FormFile name mime filename false (Some true) max_buf]> (rq_form q)
    | _ =>
        cw_log w' = CReadStart c :: CWrite c (CForm r (cm_form_finish (rq_msg q))) :: L ∧
        cl_form_field k' = -1 ∧ rq_transfer_completed q' = true ∧ rq_form q' = rq_form q
    end.

Lemma tr_form_end n k q i L rest w :
  tr (at_item k (cl_pending k) i) q L w → cl_request k = Some r →
  (∃ before, rq_form q = before ++ rest ∧ length before = i) → Z.of_nat (length (rq_form q)) < 2 ^ 31 →
  stops_at rest → (length rest ≤ n)%nat →
  wp (send_form_loop n c r ;;
      k ← get_client c;
      req ← get_rq r;
      if cl_form_field k =? i32 (Z.of_nat (length (rq_form req))) then
        mod_client c (λ k, k <| cl_form_field := -1 |>) ;;
        tcp_write c (CForm r (cm_form_finish (rq_msg req))) ;;
        mod_rq r (λ q, q <| rq_transfer_completed := true |>) ;;
        read_start c
      else mret tt) (λ _, form_left w0 q i L rest) no_throw w.
Proof.
  intros HT Hr (before & Hform & Hlen) Hsize Hstop Hn.
  assert (i32 (Z.of_nat (length (rq_form q))) = Z.of_nat (length (rq_form q))) as Hi32.
  { unfold i32. rewrite Z.mod_small; lia. }
  destruct rest as [|item rest]; cbn [stops_at] in Hstop.
  - rewrite app_nil_r in Hform. assert (length (rq_form q) = i) as Hl by by rewrite Hform.
    apply wp_bind. destruct n as [|n]; cbn [send_form_loop]; tr_steps; rewrite Hi32, Hl;
      change (cl_form_field (at_item _ _ _)) with (Z.of_nat i); rewrite Z.ltb_irrefl; tr_steps;
      rewrite Hi32, Hl; change (cl_form_field (at_item _ _ _)) with (Z.of_nat i); rewrite Z.eqb_refl;
      unfold read_start; tr_steps; eexists _, _;
      rewrite (tr_clients _ _ _ _ _ _ _ HT), (tr_reqs _ _ _ _ _ _ _ HT), (tr_log _ _ _ _ _ _ _ HT), !lookup_insert_eq;
      by split_and!.
  - destruct item as [| |name mime filename in_ streamer max_buf]; [done..|]. subst in_.
    destruct n as [|n]; [cbn in Hn; lia|]. cbn [send_form_loop]. tr_steps.
    assert (i < length (rq_form q))%nat as Hlt by (rewrite Hform, length_app; cbn; lia).
    change (cl_form_field (at_item _ _ _)) with (Z.of_nat i). rewrite Hi32, (proj2 (Z.ltb_lt _ _)) by lia.
    apply wp_bind. unfold form_item_start, form_at, set_form_at, produce. tr_steps.
    rewrite (proj2 (Z.leb_le _ _)), Nat2Z.id by lia.
    assert (rq_form q !! i = Some (FormFile name mime filename true streamer max_buf)) as Hitem.
    { rewrite Hform, lookup_app_r, Hlen, Nat.sub_diag by lia. done. }
    rewrite Hitem. tr_steps.
    change (cl_form_field _) with (Z.of_nat i). 
    match goal with |- context [rq_form ?q'] => assert (length (rq_form q') = length (rq_form q)) as -> end.
    { cbn. by rewrite !length_insert. }
    rewrite Hi32, (proj2 (Z.eqb_neq _ _)) by lia. tr_steps. eexists _, _.
    rewrite (tr_clients _ _ _ _ _ _ _ HT), (tr_reqs _ _ _ _ _ _ _ HT), (tr_log _ _ _ _ _ _ _ HT), !lookup_insert_eq.
    split_and!; [done..|]. cbn. by rewrite list_insert_insert_eq.
Qed.
End Forms.

(** C24: [Client::send_form] writes the items of the form in their order, from the
    current one on, up to and including the header of the next streamed file; behind
    the last item it writes the end of the form, marks the request as sent and
    starts to read. *)
Theorem form_trace `{ClientProto} `{!ClientProtoLaws} `{!ClientEnv} w c r k q before plain rest :
  cw_clients w !! c = Some k → cl_request k = Some r → cw_reqs w !! r = Some q →
  rq_form q = before ++ plain ++ rest → cl_form_field k = Z.of_nat (length before) →
  Forall (λ f, is_file f = false) plain → stops_at rest → Z.of_nat (length (rq_form q)) < 2 ^ 31 →
  ∃ w', send_form c w = Ok tt w' ∧
    form_left c r w q (length before + length plain) (items_obs c r (rq_msg q) plain ++ cw_log w) rest w'.
Proof.
  intros Hk Hr Hq Hform Hff Hplain Hstop Hsize. apply wp_no_throw.
  pose proof (Tr_start w c r k q Hk Hq) as HT. unfold send_form. tr_steps. rewrite Hr.
  apply wp_assert; [done|]. cbv beta. apply wp_bind. eapply wp_deref; [done|]. tr_steps.
  assert (length (rq_form q) = length plain + (length before + length rest))%nat as ->.
  { rewrite Hform, !length_app. lia. }
  eapply (tr_send_items w c r _ k q); [exact HT|exact Hform|done|done|exact Hff|done|].
  intros w1 l HT1. apply wp_unbind.
  change (at_item k l (length before + length plain)) with
    (at_item (k <| cl_pending := l |>) (cl_pending (k <| cl_pending := l |>)) (length before + length plain)) in HT1.
  eapply (tr_form_end w c r); [exact HT1|done| |done|done|lia].
  exists (before ++ plain). split; [by rewrite <-app_assoc|apply length_app].
Qed.
