(* ===== verification/AgentFacts.v ===== *)
(** * What a user agent does for a request

    The agent's cookie jar follows a request through its redirects: what a response
    sets is collected for the location it came from, and the next request is given
    the cookies of the location it goes to. *)
From S2P Require Import Prelude Errors Proto ClientProto ClientState ClientOps Form Client Pool UserAgent ClientStep ClientInv ClientSpecs ClientMoves PoolSpecs ClientFinish ClientGrow AgentSpecs.
Local Open Scope Z_scope.

Section Agent.
Context `{ClientProto} `{!ClientEnv} `{!CCallbacks}.
Implicit Types (w : CWorld) (q : CRequest) (ua : UserAgent) (E : exn → CWorld → Prop).

(** C25: [UserAgent::request] records its listener, gives the request's message to the
    cookie jar, which makes of its cookies what it does, adds the agent's identity, TLS
    context and proxy where the request has none of its own, changes nothing else, and
    hands the request to the agent's pool. *)
Theorem agent_request_contract w a ua pq jar r q u ci cu top :
  agent_at w a ua pq jar → cw_reqs w !! r = Some q → goes_to w q u → cw_uris w !! ci = Some cu →
  let q' := equipped ua jar (q <| rq_listeners ::= λ ls, ls ++ [LAgent a ci top] |>) u cu top (cw_now w (pl_loop pq)) in
  agent_request a r ci top w = pool_request (ua_pool ua) r (w <| cw_reqs := <[r := q']> (cw_reqs w) |>).
Proof. intros. by apply agent_request_eq. Qed.

(** C26: what the agent's listener does for the events of its request: a response
    without an error leaves its cookies in the jar; a redirect leaves its cookies
    in the jar for the URI it came from, and then equips the request for the URI
    it goes to; nothing else happens, and other events are ignored. *)
Theorem agent_listener_contract w a ua pq jar r q u ci cu top :
  agent_at w a ua pq jar → cw_reqs w !! r = Some q → goes_to w q u → cw_uris w !! ci = Some cu →
  rq_listeners q = [LAgent a ci top] →
  let now := cw_now w (pl_loop pq) in
  (∀ res, run_listeners (CEvResponse r res None) w =
     Ok tt (w <| cw_jars := <[ua_cookie_jar ua := jar_collect jar (rp_msg res) u now]> (cw_jars w) |>)) ∧
  (∀ res ctx prev, cw_uris w !! rc_uri ctx = Some prev →
     let jar' := jar_collect jar (rp_msg res) prev now in
     run_listeners (CEvRedirect r res ctx) w =
     Ok tt (w <| cw_jars := <[ua_cookie_jar ua := jar']> (cw_jars w) |>
              <| cw_reqs := <[r := equipped ua jar' q u cu top now]> (cw_reqs w) |>)) ∧
  (∀ res err, run_listeners (CEvResponse r res (Some err)) w = Ok tt w) ∧
  (∀ res err, run_listeners (CEvPartial r res err) w = Ok tt w) ∧
  run_listeners (CEvContinue r) w = Ok tt w.
Proof.
  intros Hag Hq (i & Hi & Hu) Hci Hls now.
  assert (∀ ev, event_request ev = r → run_listeners ev w = run_listener ev (LAgent a ci top) w) as Hrun.
  { intros ev Hev. unfold run_listeners. rewrite Hev. rewrite (bind_ok (a := q) (s' := w)).
    2: { unfold get_rq, gets, mbind, M_bind. by rewrite Hq. }
    rewrite Hls. cbn [for_each]. unfold mbind, M_bind. by destruct (run_listener _ _ _) as [[] ?|?|]. }
  split_and!; intros; rewrite Hrun by done; try done.
  - apply wp_equals, wp_bind. eapply wp_agent_now; [done|]. apply wp_bind, wp_bind, wp_gets.
    eapply wp_deref; [done|]. apply wp_bind. eapply wp_deref; [done|]. by eapply wp_collect.
  - apply wp_equals, wp_bind. eapply wp_agent_now; [done|]. apply wp_bind. eapply wp_collect; [done|done|].
    eapply wp_inject; [|done|by exists i|done|done].
    destruct Hag as [Ha Hp Hj]. split; [done|done|]. cbn. by rewrite lookup_insert_eq.
Qed.
End Agent.
