(* ===== verification/PoolFacts.v ===== *)
(** * What a pool does: sharing out connections, and letting idle ones go

    A location of a pool behaves like a bounded resource with a waiting line
    ([Slots]); the sweep lets go exactly the clients that have been idle too long. *)
From S2P Require Import Prelude Errors Proto ClientProto ClientState ClientOps Form Client Pool UserAgent ClientStep ClientInv ClientSpecs ClientMoves PoolSpecs ClientFinish ClientRead ClientGrow ClientProgram ClientSafety ClientTrace.
Local Open Scope Z_scope.

(** ** The abstract resource *)

(** How many connections of a location are free and busy, and who waits. *)
Record Slots := mkSlots { s_free : nat; s_busy : nat; s_waiting : list RqId }.

Definition abs_list (l : NetLocList) : Slots :=
  mkSlots (size (nl_free l)) (size (nl_busy l)) (nl_queue l).

(** A request takes a free connection, or a new one below the bound (the first one
    in any case), or waits at the end of the line. *)
Definition acquire (bound : Z) (r : RqId) (o : option Slots) : bool * Slots :=
  match o with
  | None => (true, mkSlots 0 1 [])
  | Some (mkSlots (S free) busy line) => (true, mkSlots free (S busy) line)
  | Some (mkSlots O busy line) =>
      if Z.of_nat busy <? bound then (true, mkSlots 0 (S busy) line)
      else (false, mkSlots 0 busy (line ++ [r]))
  end.

(** A connection that was used serves the first in the line, or becomes free. *)
Definition release (s : Slots) : option RqId * Slots :=
  match s_waiting s with
  | r :: line => (Some r, mkSlots (s_free s) (s_busy s) line)
  | [] => (None, mkSlots (S (s_free s)) (Nat.pred (s_busy s)) [])
  end.

Section Refine.
Context `{ClientProto} `{!ClientProtoLaws} `{!ClientEnv} `{!ClientEnvLaws}.
Implicit Types (w : CWorld).

Lemma size_grab (X Y : gset ClientId) c :
  c ∈ X → c ∉ Y → size X = S (size (X ∖ {[ c ]})) ∧ size (Y ∪ {[ c ]}) = S (size Y).
Proof.
  intros HX HY. split.
  - rewrite size_difference, size_singleton by set_solver.
    assert (size X ≠ 0%nat); [|lia]. rewrite size_empty_iff. set_solver.
  - rewrite (size_union Y), size_singleton by set_solver. lia.
Qed.

(** A client that does not exist yet is in no list. *)
Lemma fresh_unlisted D HD w p pq n l h :
  CInv D HD None None w → cw_pools w !! p = Some pq → pl_clients pq !! n = Some l →
  ¬ in_list h l (fresh (dom (cw_clients w))).
Proof.
  intros Hi Hp Hl Hin. destruct (lo_in _ _ _ _ _ _ _ (ci_list _ _ _ _ _ Hi p pq n l Hp Hl) _ h Hin) as (k & Hk & _).
  by rewrite fresh_none in Hk.
Qed.

Lemma listed_once D HD w p pq n l c :
  CInv D HD None None w → cw_pools w !! p = Some pq → pl_clients pq !! n = Some l → c ∈ nl_free l → c ∉ nl_busy l.
Proof.
  intros Hi Hp Hl Hf Hb. pose proof (ci_list _ _ _ _ _ Hi p pq n l Hp Hl) as Hlo.
  destruct (lo_in _ _ _ _ _ _ _ Hlo c false Hf) as (k & Hk & _ & Hh).
  destruct (lo_in _ _ _ _ _ _ _ Hlo c true Hb) as (k' & Hk' & _ & Hh'). congruence.
Qed.

(** What [put_list] leaves of the lists of a pool. *)
Definition lists_but w w' p (n : NetLoc) (s : Slots) : Prop :=
  abs_list <$> list_at w' p n = Some s ∧ (∀ p' n', (p', n') ≠ (p, n) → list_at w' p' n' = list_at w p' n').

Lemma put_lists w w' p pq n l s :
  put_at w p pq n l w' → abs_list l = s → lists_but w w' p n s.
Proof.
  intros Hput <-. split.
  - by rewrite (put_at_list _ _ _ _ _ _ _ _ Hput), decide_True.
  - intros p' n' Hne. rewrite (put_at_list _ _ _ _ _ _ _ _ Hput), decide_False by naive_solver. done.
Qed.

Lemma lists_but_pools w w1 w' p n s : cw_pools w1 = cw_pools w → lists_but w1 w' p n s → lists_but w w' p n s.
Proof. intros E [L1 L2]. split; [done|]. intros p' n' Hne. by rewrite L2, (list_at_pools w w1). Qed.

Lemma wp_choose_slots `{!CCallbacks} D HD w p pq r q n E :
  CInv D HD None None w → cw_pools w !! p = Some pq → cw_reqs w !! r = Some q →
  wp (choose_client p r n)
    (λ o w', bool_decide (is_Some o) = (acquire (pl_max_connections pq) r (abs_list <$> list_at w p n)).1 ∧
      lists_but w w' p n (acquire (pl_max_connections pq) r (abs_list <$> list_at w p n)).2) E w.
Proof.
  intros Hi Hp Hq. rewrite (list_at_lookup w p pq) by done.
  assert (∀ w1, cw_pools w1 = cw_pools w → ∀ l s c (Q : option ClientId → CWorld → Prop), abs_list l = s →
    (∀ w', lists_but w w' p n s → Q (Some c) w') →
    wp (put_list p n l ;; mret (Some c)) Q E w1) as Hput.
  { intros w1 Ep l s c Q Hs HQ. apply wp_bind. eapply wp_put_list; [by rewrite Ep|]. intros w' Hput _ _.
    apply wp_ret, HQ. eapply lists_but_pools; [exact Ep|]. by eapply put_lists. }
  assert (∀ (Q : ClientId → CWorld → Prop), (∀ w', cw_pools w' = cw_pools w → Q (fresh (dom (cw_clients w))) w') →
    wp (new_client p) Q E w) as Hnew.
  { intros Q HQ. apply wp_bind. eapply wp_get_pool; [done|]. rewrite (ci_factory _ _ _ _ _ Hi p pq Hp).
    apply wp_bind, wp_gets, wp_bind, wp_modify, wp_ret. by apply HQ. }
  unfold choose_client. apply wp_bind. eapply wp_find_list; [done|].
  destruct (pl_clients pq !! n) as [l|] eqn:Hl; cbn [fmap option_fmap option_map].
  2: { apply wp_bind, Hnew. intros w1 Ep1. eapply Hput; [done| |done].
       unfold abs_list. cbn. by rewrite size_empty, size_singleton. }
  pose proof (ci_list _ _ _ _ _ Hi p pq n l Hp Hl) as Hlo.
  destruct (set_begin (nl_free l)) as [c|] eqn:Hb.
  - apply set_begin_in in Hb. destruct (size_grab _ _ _ Hb (listed_once _ _ _ _ _ _ _ _ Hi Hp Hl Hb)) as [E1 E2].
    unfold abs_list, acquire. rewrite E1. eapply Hput; [done| |done]. unfold abs_list. cbn. by rewrite E2.
  - apply set_begin_none in Hb. apply wp_bind. eapply wp_get_pool; [done|].
    unfold abs_list at 1 2, acquire. rewrite Hb, size_empty.
    destruct (Z.ltb_spec (Z.of_nat (size (nl_busy l))) (pl_max_connections pq)).
    + apply wp_bind, Hnew. intros w1 Ep1. eapply Hput; [done| |done]. unfold abs_list. cbn.
      assert (fresh (dom (cw_clients w)) ∉ nl_busy l) as Hf by apply (fresh_unlisted _ _ _ _ _ _ _ true Hi Hp Hl).
      rewrite Hb, size_empty, size_union, size_singleton by set_solver. f_equal. lia.
    + apply wp_bind. eapply wp_put_list; [done|]. intros w1 Hp1 Ec1 Er1.
      assert (lists_but w w1 p n (mkSlots 0 (size (nl_busy l)) (nl_queue l ++ [r]))) as Hbut.
      { eapply put_lists; [exact Hp1|]. unfold abs_list, set_queue. cbn. by rewrite Hb, size_empty. }
      apply wp_bind. eapply wp_get_rq; [by rewrite Er1|]. apply wp_bind.
      destruct (negb _); [|by apply wp_ret, wp_ret].
      eapply wp_ensure_timer; [by rewrite Er1|]. intros w2 q' _ _ Ep2 _ _ _. apply wp_ret. split; [done|].
      destruct Hbut as [B1 B2]. split; [by rewrite (list_at_pools w1)|].
      intros p' n' Hne. rewrite (list_at_pools w1) by done. by apply B2.
Qed.
End Refine.

Section Properties.
Context `{ClientProto} `{!ClientProtoLaws} `{!ClientEnv} `{!ClientEnvLaws}.
Implicit Types (w : CWorld).

(** C22: in every reachable state a pool shares out the connections of a location as
    the abstract resource does: a request gets a client exactly when [acquire] says
    so, the sizes of the lists and the waiting line are those of [acquire], and no
    other location is touched. *)
Theorem pool_refines_acquire (P : CProgram) m w p pq r q n :
  well_behaved P → creach P m w →
  cw_pools w !! p = Some pq → cw_reqs w !! r = Some q →
  ∃ o w', choose_client (H1 := client_callbacks P (S m)) p r n w = Ok o w' ∧
    bool_decide (is_Some o) = (acquire (pl_max_connections pq) r (abs_list <$> list_at w p n)).1 ∧
    lists_but w w' p n (acquire (pl_max_connections pq) r (abs_list <$> list_at w p n)).2.
Proof.
  intros HP Hr Hp Hq. destruct (creach_settled P m w HP Hr) as [Hi _].
  pose proof (@wp_choose_slots _ _ _ _ (client_callbacks P (S m)) _ _ w p pq r q n no_throw Hi Hp Hq) as Hwp.
  unfold wpf in Hwp. destruct (choose_client p r n w) as [o w'|e w'|f]; [|done..]. by exists o, w'.
Qed.

(** C23: a client that is put back serves the first request that waits at its
    location, which leaves the line; without one the client becomes free; no other
    location is touched. *)
Theorem pool_refines_release `{!CCallbacks} {CO : ClientOps} w p pq c k l :
  cw_clients w !! c = Some k → cw_pools w !! p = Some pq → pl_clients pq !! cl_netloc k = Some l →
  c ∈ nl_busy l → c ∉ nl_free l →
  ∃ w1, lists_but w w1 p (cl_netloc k) (release (abs_list l)).2 ∧
    cw_clients w1 = cw_clients w ∧ cw_reqs w1 = cw_reqs w ∧
    pool_do_putback p c w = match (release (abs_list l)).1 with
                            | Some r => client_start c r w1
                            | None => Ok tt w1
                            end.
Proof.
  intros Hk Hp Hl Hb Hf. unfold release, abs_list. cbn [s_waiting s_free s_busy].
  assert (∀ l' s, abs_list l' = s → ∃ w1, put_list p (cl_netloc k) l' w = Ok tt w1 ∧
    lists_but w w1 p (cl_netloc k) s ∧ cw_clients w1 = cw_clients w ∧ cw_reqs w1 = cw_reqs w) as Hput.
  { intros l' s Hs.
    assert (wp (put_list p (cl_netloc k) l') (λ _ w1, lists_but w w1 p (cl_netloc k) s ∧
      cw_clients w1 = cw_clients w ∧ cw_reqs w1 = cw_reqs w) no_throw w) as Hwp.
    { eapply wp_put_list; [done|]. intros w' Hput Ec Er. split; [by eapply put_lists|done]. }
    unfold wpf in Hwp. destruct (put_list p (cl_netloc k) l' w) as [[] w1|e w1|f]; [|done..]. by exists w1. }
  unfold pool_do_putback, get_client, find_list, get_pool, gets, mbind, M_bind. rewrite Hk.
  cbv [deref mret M_ret]. rewrite Hp, Hl. rewrite bool_decide_eq_true_2 by (by eexists).
  cbv [assert mret M_ret].
  destruct (nl_queue l) as [|r line] eqn:Hq.
  - rewrite (bool_decide_eq_true_2 (c ∈ nl_busy l)) by done.
    destruct (Hput (l <| nl_busy ::= λ X, X ∖ {[ c ]} |> <| nl_free ::= λ X, X ∪ {[ c ]} |>)
      (mkSlots (S (size (nl_free l))) (Nat.pred (size (nl_busy l))) [])) as (w1 & E1 & Hbut & Ec & Er).
    { destruct (size_grab _ _ _ Hb Hf) as [E1 E2]. unfold abs_list. cbn. by rewrite Hq, E1, E2. }
    exists w1. split_and!; [done..|]. by rewrite <-E1.
  - destruct (Hput (set_queue l line) (mkSlots (size (nl_free l)) (size (nl_busy l)) line))
      as (w1 & E1 & Hbut & Ec & Er); [done|].
    exists w1. split_and!; [done..|]. cbn [fst]. unfold mbind, M_bind. by rewrite E1.
Qed.

(** A free client's list is the one of its location. *)
Lemma gone_iff D w t p pq c k :
  CInv D ∅ None None w → cw_pools w !! p = Some pq → cw_clients w !! c = Some k →
  gone w t p c ↔ cl_pool k = Some p ∧ cl_request k = None ∧ cl_last_activity_time k < t.
Proof.
  intros Hi Hp Hk. split.
  - intros Hg. destruct (gone_free _ _ _ _ _ Hi Hg) as (k' & ? & ? & ?). simplify_eq.
    destruct Hg as (pq' & n & l & _ & _ & _ & Hina). unfold inactive in Hina. rewrite Hk in Hina.
    by apply Z.ltb_lt in Hina.
  - intros (Hkp & Hkr & Ht). destruct (client_listed _ _ _ _ _ _ _ _ Hi Hk Hkp) as (pq' & l & Hp' & Hl & Hin & _).
    unfold home in *. rewrite Hkr in *. cbn in *. exists pq', (cl_netloc k), l. split_and!; [done..|].
    unfold inactive. rewrite Hk. by apply Z.ltb_lt.
Qed.

(** C27: the idle timer of a pool lets go exactly the clients of the pool that serve
    no request and were last active before [now - idle_timeout], the subtraction
    being that of 64-bit numbers; no client with a request is destroyed, and every
    other client stays as it is. When the timeout is not more than the loop's time,
    the clients that are let go were last active more than [idle_timeout] ago. *)
Theorem idle_clients_dropped (P : CProgram) m w p pq :
  well_behaved P → creach P m w →
  cw_pools w !! p = Some pq →
  let now := cw_now w (pl_loop pq) in
  let timeout := pl_idle_timeout pq in
  ∃ w', exec_cinput (CB := client_callbacks P (S m)) (CInIdleTimer p) w = Ok tt w' ∧
    ∀ c k, cw_clients w !! c = Some k →
      cw_clients w' !! c =
        (if bool_decide (cl_pool k = Some p) && bool_decide (cl_request k = None) &&
           (cl_last_activity_time k <? u64 (now - timeout))
         then None else Some k) ∧
      (0 ≤ timeout ≤ now → now < 2 ^ 64 →
       (cl_last_activity_time k <? u64 (now - timeout)) = (cl_last_activity_time k + timeout <? now)).
Proof.
  intros HP Hr Hp now timeout. destruct (creach_settled P m w HP Hr) as [Hi _].
  apply wp_no_throw. eapply wp_mono; [by eapply wp_check_inactivity| |done].
  intros [] w' [_ Hsw] c k Hk. split.
  - change (remove_time _ _) with (u64 (now - timeout)) in Hsw. set (t := u64 (now - timeout)) in *.
    pose proof (gone_iff _ w t p pq c k Hi Hp Hk) as Hg. destruct (_ && _) eqn:Hb.
    + apply andb_true_iff in Hb as [[?%bool_decide_eq_true ?%bool_decide_eq_true]%andb_true_iff ?%Z.ltb_lt].
      apply (sw_gone _ _ _ _ _ Hsw). by apply Hg.
    + rewrite (sw_stay _ _ _ _ _ Hsw); [done|]. rewrite Hg. intros (? & ? & ?%Z.ltb_lt).
      rewrite !bool_decide_eq_true_2 in Hb by done. cbn in Hb. congruence.
  - intros Ht Hmax. unfold u64. rewrite Z.mod_small by lia.
    destruct (Z.ltb_spec (cl_last_activity_time k) (now - timeout)), (Z.ltb_spec (cl_last_activity_time k + timeout) now); lia.
Qed.

(** When the clock is below the idle timeout, the subtraction wraps around and
    the sweep lets go every free client, however recently it was active. *)
Theorem sweep_underflow (P : CProgram) m w p pq c k :
  well_behaved P → creach P m w →
  cw_pools w !! p = Some pq →
  0 ≤ cw_now w (pl_loop pq) < pl_idle_timeout pq → pl_idle_timeout pq < 2 ^ 32 →
  cw_clients w !! c = Some k → cl_pool k = Some p → cl_request k = None →
  0 ≤ cl_last_activity_time k ≤ cw_now w (pl_loop pq) →
  ∃ w', exec_cinput (CB := client_callbacks P (S m)) (CInIdleTimer p) w = Ok tt w' ∧ cw_clients w' !! c = None.
Proof.
  intros HP Hr Hp Ht Hmax Hk Hkp Hkr Hact. destruct (creach_settled P m w HP Hr) as [Hi _].
  apply wp_no_throw. eapply wp_mono; [by eapply wp_check_inactivity| |done].
  intros [] w' [_ Hsw]. apply (sw_gone _ _ _ _ _ Hsw), (gone_iff _ w _ p pq c k Hi Hp Hk). split_and!; [done..|].
  unfold remove_time, u64. rewrite <-(Z.mod_add _ 1) by lia. rewrite Z.mod_small by lia. lia.
Qed.
End Properties.
