(* ===== verification/ClientFacts.v ===== *)
(** * Smaller contracts of the client's side

    The default SSL contexts, requests that are refused, forms, the builder, the
    guard of synchronous calls, and the end of the reading loop. *)
From S2P Require Import Prelude Errors Proto ClientProto ClientState ClientOps Form Client Pool UserAgent ClientStep ClientInv ClientSpecs ClientMoves PoolSpecs ClientFinish ClientRead ClientTrace.
Local Open Scope Z_scope.

(** ** The default SSL contexts *)

Section Ssl.
Context `{ClientProto} `{!ClientEnv}.
Implicit Types (w : CWorld).

(** The two static variables hold contexts of their kind. *)
Definition ssl_ok w : Prop :=
  (∀ x, cw_ssl_default w = Some x → cw_ctxs w !! x = Some false) ∧
  (∀ x, cw_ssl_verify w = Some x → cw_ctxs w !! x = Some true).

(** [get_default_ssl_context] returns a context that verifies peers exactly when
    it was asked to, and the same one when it is asked again. *)
Lemma default_ssl_contexts w b :
  ssl_ok w → default_verify_paths_ok (cw_log w) = true →
  ∃ x w', get_default_ssl_context b w = Ok x w' ∧ cw_ctxs w' !! x = Some b ∧ ssl_ok w' ∧
    get_default_ssl_context b w' = Ok x w' ∧
    (∀ y v, cw_ctxs w !! y = Some v → cw_ctxs w' !! y = Some v).
Proof.
  intros [Hd Hv] Hpaths. set (x := fresh (dom (cw_ctxs w))).
  assert (cw_ctxs w !! x = None) as Hx by apply not_elem_of_dom, is_fresh.
  assert (∀ y v z, cw_ctxs w !! y = Some v → <[x := z]> (cw_ctxs w) !! y = Some v) as Hold.
  { intros y v z Hy. rewrite lookup_insert_ne; [done|congruence]. }
  unfold get_default_ssl_context, verify_ssl_context, default_ssl_context, alloc_ctx, gets, modify, mbind, M_bind, mret, M_ret.
  destruct b.
  - destruct (cw_ssl_verify w) as [y|] eqn:Hy.
    + exists y, w. rewrite Hy. split_and!; try done; [by apply Hv|by split; [|rewrite Hy]].
    + cbn. rewrite ?Hy. cbn. rewrite Hpaths. cbn. eexists x, _. split; [done|]. cbn. fold x.
      rewrite insert_insert_eq, lookup_insert_eq. split_and!; try done.
      * split; cbn; rewrite ?insert_insert_eq; [intros y Hy'; apply Hold; by apply Hd|intros y [= <-]; apply lookup_insert_eq].
      * intros y v. apply Hold.
  - destruct (cw_ssl_default w) as [y|] eqn:Hy.
    + exists y, w. rewrite Hy. split_and!; try done; [by apply Hd|by split; [rewrite Hy|]].
    + cbn. rewrite ?Hy. cbn. eexists x, _. split; [done|]. cbn. fold x. rewrite lookup_insert_eq. split_and!; try done.
      * split; cbn; [intros y [= <-]; apply lookup_insert_eq|intros y Hy'; apply Hold; by apply Hv].
      * intros y v. apply Hold.
Qed.

(** When OpenSSL does not find its default verify paths, the first call throws,
    but the context is already stored: from then on a call that asks for
    verification gets a context that does not verify. *)
Lemma verify_context_after_failure w :
  cw_ssl_verify w = None → default_verify_paths_ok (cw_log w) = false →
  ∃ w1 x, get_default_ssl_context true w =
      Throw (HttpError "can not set ssl certificate default verify paths") w1 ∧
    get_default_ssl_context true w1 = Ok x w1 ∧ cw_ctxs w1 !! x = Some false.
Proof.
  intros Hv Hpaths. eexists _, (fresh (dom (cw_ctxs w))).
  unfold get_default_ssl_context, verify_ssl_context, alloc_ctx, gets, modify, mbind, M_bind, mret, M_ret.
  rewrite Hv. cbn. rewrite Hpaths. split; [done|]. cbn. split; [done|apply lookup_insert_eq].
Qed.
End Ssl.

(** ** Requests that are refused *)

Section Refuse.
Context `{ClientProto} `{!ClientEnv} `{!CCallbacks}.
Context (cancel_ : ClientId → option ErrorCode → M CWorld unit).
Implicit Types (w : CWorld).

(** C38: [Client::request] refuses, without changing anything, when the client
    serves a request, when the request is in progress, and when it has no URI or its
    URI has no host; the checks are made in this order. *)
Theorem request_refused w c k r q :
  cw_clients w !! c = Some k → cw_reqs w !! r = Some q →
  (∀ i, rq_uri q = Some i → is_Some (cw_uris w !! i)) →
  (cl_request k ≠ None ∨ rq_client q ≠ None ∨ rq_uri q = None ∨
   ∃ i u, rq_uri q = Some i ∧ cw_uris w !! i = Some u ∧ uri_host u = EmptyString) →
  client_request cancel_ c r w = Throw (HttpError
    (if bool_decide (is_Some (cl_request k)) then "client supports only one request at a time"
     else if bool_decide (is_Some (rq_client q)) then "request is already in progress"
     else if bool_decide (is_Some (rq_uri q)) then "uri must have host" else "request must have uri")%string) w.
Proof.
  intros Hk Hq Hu Hbad. unfold client_request, request_check, get_client, get_rq, get_uri, gets, mbind, M_bind, mret, M_ret.
  rewrite Hk. cbn. destruct (cl_request k) as [r'|] eqn:Hr; [done|]. cbn. rewrite Hq. cbn.
  destruct (rq_client q) as [c'|] eqn:Hc; [done|]. cbn. rewrite Hq. cbn.
  destruct (rq_uri q) as [i|] eqn:Hi; [|done]. destruct (Hu i eq_refl) as [u Hui]. rewrite Hui. cbn.
  destruct Hbad as [|[|[|(i' & u' & [= <-] & Hu' & Hh)]]]; [congruence..|]. simplify_eq. by rewrite Hh.
Qed.

(** A proxy of an unknown kind is found out late: the request is refused, but it
    keeps pointing to the client, which does not serve it, so that it counts as
    being in progress from then on. *)
Lemma bad_proxy_sticks w c k r q i u x v :
  cw_clients w !! c = Some k → cl_request k = None → cl_connected k = false →
  cw_reqs w !! r = Some q → rq_client q = None →
  rq_uri q = Some i → cw_uris w !! i = Some u → uri_host u ≠ EmptyString →
  uri_scheme u ≠ EmptyString → uri_secure u = false →
  rq_proxy q = Some x → cw_uris w !! x = Some v →
  uri_scheme v ≠ "socks5"%string → uri_scheme v ≠ "http"%string →
  ∃ w' q', client_request cancel_ c r w =
      Throw (HttpError "client supports only socks5 protocol for proxy") w' ∧
    cw_reqs w' !! r = Some q' ∧ rq_client q' = Some c ∧
    cw_clients w' !! c = Some k ∧
    client_request cancel_ c r w' = Throw (HttpError "request is already in progress") w'.
Proof.
  intros Hk Hr Hcon Hq Hc Hi Hu Hh Hs Hsec Hx Hv Hs5 Hhttp.
  apply String.eqb_neq in Hh, Hs, Hs5, Hhttp. set (q1 := q <| rq_client := Some c |>).
  assert (wp (client_request cancel_ c r) (λ _ _, False)
    (λ e w', e = HttpError "client supports only socks5 protocol for proxy" ∧ ∃ L, Tr w c r k q1 L w') w) as Hwp.
  { pose proof (Tr_start w c r k q Hk Hq) as HT. unfold client_request, request_check, default_scheme.
    tr_steps. rewrite Hr. apply wp_ret; cbv beta. tr_steps. rewrite Hc. apply wp_ret; cbv beta. tr_steps.
    rewrite Hi. tr_steps. rewrite Hh. tr_steps. tr_deref Hi. tr_steps. rewrite Hs. tr_steps.
    unfold request_netloc. tr_steps. change (rq_proxy _) with (rq_proxy q). rewrite Hx. tr_steps. rewrite Hhttp. tr_steps.
    tr_deref Hi. tr_steps. rewrite Hcon. cbn [negb orb]. unfold start_connection. tr_steps. rewrite Hcon. tr_steps.
    tr_deref Hi. tr_steps. rewrite Hsec. tr_steps. unfold setup_proxy. tr_steps.
    change (rq_proxy _) with (rq_proxy q). rewrite Hx. tr_steps. rewrite Hs5, Hhttp. apply wp_throw.
    split; [done|]. by eexists. }
  unfold wpf in Hwp. destruct (client_request cancel_ c r w) as [[] w'|e w'|f] eqn:E; [done| |done].
  destruct Hwp as (-> & L & HT). exists w', q1.
  assert (cw_reqs w' !! r = Some q1) as Hq1 by by rewrite (tr_reqs _ _ _ _ _ _ _ HT), lookup_insert_eq.
  assert (cw_clients w' !! c = Some k) as Hk1 by by rewrite (tr_clients _ _ _ _ _ _ _ HT), lookup_insert_eq.
  split_and!; [done..|].
  unfold client_request, get_client, get_rq, gets, mbind, M_bind, mret, M_ret. rewrite Hk1. cbn. rewrite Hr. cbn.
  by rewrite Hq1.
Qed.
End Refuse.

(** ** The loop of [Client::on_read] *)

Section Loop.
Context `{ClientProto} `{!ClientProtoLaws} `{!ClientEnv} `{!CCallbacks} {PO : PoolOps}.
Context (cancel_ : ClientId → option ErrorCode → M CWorld unit).

(** One round of the loop, as the source writes it; [again] is the rest of the
    loop. *)
Definition read_round (again : string → M CWorld unit) (c : ClientId) (buf : string) : M CWorld unit :=
  if String.eqb buf EmptyString then mret tt
  else
    k ← get_client c;
    match cl_context k with
    | None => drop_connection cancel_ c
    | Some q =>
        x ← client_parse c q buf;
        let '(res, st, err, rest) := x in
        mod_client c (λ k, k <| cl_response := Some res |>) ;;
        match err with
        | Some _ => cancel_ c err
        | None =>
            if state_le_headers st then mret tt
            else if negb (state_is_done st) then
              if resp_code (rp_msg res) =? 100 then again rest
              else
                k ← get_client c;
                r ← deref (cl_request k);
                req ← get_rq r;
                if rq_follow_redirect req && is_redirect (resp_code (rp_msg res))
                then again rest
                else emit_event (CEvPartial r res None) ;; again rest
            else analyze_request cancel_ c ;; again rest
        end
    end.

Lemma bind_ext {A B} (m : M CWorld A) (f g : A → M CWorld B) w :
  (∀ x w', m w = Ok x w' → f x w' = g x w') → (m ≫= f) w = (m ≫= g) w.
Proof. intros Hfg. unfold mbind, M_bind. destruct (m w) eqn:Hm; [by apply Hfg|done..]. Qed.

(** Two ways to go on that agree on what is shorter give the same round. *)
Lemma read_round_ext f g c buf w :
  (∀ rest w', (String.length rest < String.length buf)%nat → f rest w' = g rest w') →
  read_round f c buf w = read_round g c buf w.
Proof.
  intros Hfg. unfold read_round. destruct (String.eqb_spec buf EmptyString) as [|Hne]; [done|].
  apply bind_ext. intros k w1 _. destruct (cl_context k) as [r|]; [|done].
  apply bind_ext. intros [[[res st] err] rest] w2 Hparse.
  destruct err as [e|]; [done|].
  assert (String.length rest < String.length buf)%nat as Hlt.
  { revert Hparse. unfold client_parse, mbind, M_bind.
    destruct (get_client c w1) as [k1 w3| |]; [|done..]. destruct (get_rq r w3) as [q w4| |]; [|done..].
    destruct (rparse_shift (rq_msg q) (cl_parser k1) buf) as [p' [[[[keep msg] st'] err'] rest']] eqn:Hp.
    cbn. intros [= _ _ -> -> _]. eapply rparse_shrinks; [exact Hne|exact Hp]. }
  apply bind_ext. intros [] w3 _. destruct (state_le_headers st); [done|].
  destruct (negb _); [|apply bind_ext; intros [] w4 _; by apply Hfg].
  destruct (_ =? 100); [by apply Hfg|].
  apply bind_ext. intros k2 w4 _. apply bind_ext. intros r2 w5 _. apply bind_ext. intros q2 w6 _.
  destruct (_ && _); [by apply Hfg|]. apply bind_ext. intros [] w7 _. by apply Hfg.
Qed.

Lemma loop_round n c buf w : (String.length buf ≤ n)%nat →
  client_on_read_loop cancel_ n c buf w =
  read_round (client_on_read_loop cancel_ (Nat.pred n) c) c buf w.
Proof.
  intros Hn. destruct n as [|n]; [|done]. destruct buf; [done|cbn in Hn; lia].
Qed.

Lemma loop_enough n m c buf w :
  (String.length buf ≤ n)%nat → (String.length buf ≤ m)%nat →
  client_on_read_loop cancel_ n c buf w = client_on_read_loop cancel_ m c buf w.
Proof.
  revert m buf w. induction n as [|n IH]; intros m buf w Hn Hm.
  - destruct buf; [by destruct m|cbn in Hn; lia].
  - rewrite !loop_round by done. apply read_round_ext. intros rest w' Hlt. apply IH; cbn; lia.
Qed.

(** C28: the loop of [Client::on_read] terminates, whatever the callbacks do: every
    round that goes on does so with a shorter rest, and with the bound taken from the
    buffer's length the definition is the loop of the source, in which no bound
    occurs. *)
Theorem on_read_terminates c buf w :
  client_on_read cancel_ c buf None w = read_round (λ rest, client_on_read cancel_ c rest None) c buf w ∧
  (∀ f g, (∀ rest w', (String.length rest < String.length buf)%nat → f rest w' = g rest w') →
    read_round f c buf w = read_round g c buf w).
Proof.
  split; [|intros f g; apply read_round_ext]. unfold client_on_read.
  rewrite loop_round by done. apply read_round_ext. intros rest w' Hlt. apply loop_enough; lia.
Qed.
(** The largest limit is none: after 65535 redirects the counter wraps to 0 before it
    is compared, and the request goes on to the next target. *)
Lemma largest_limit_wraps c r q res w :
  cw_reqs w !! r = Some q → rq_redirection_limit q = 2 ^ 16 - 1 → rq_redirection_counter q = 2 ^ 16 - 1 →
  resp_location (rp_msg res) = EmptyString →
  redirect cancel_ c r res w = cancel_ c (Some (HttpErr no_redirect_uri))
    (w <| cw_reqs ::= alter (λ q, q <| rq_redirection_counter := 0 |>) r |>).
Proof.
  intros Hq Hlim Hcnt Hloc. unfold redirect. rewrite (bind_ok (a := q) (s' := w)).
  2: { unfold get_rq, gets, mbind, M_bind. by rewrite Hq. }
  rewrite Hlim, Hcnt. change (u16 (2 ^ 16 - 1 + 1)) with 0. change (2 ^ 16 - 1 =? 0) with false. cbv zeta iota.
  rewrite (bind_ok (a := tt) (s' := w <| cw_reqs ::= alter (λ q, q <| rq_redirection_counter := 0 |>) r |>)) by done.
  change (2 ^ 16 - 1 <? 0) with false. cbv iota. by rewrite Hloc.
Qed.
End Loop.

(** ** The guard of synchronous calls, and the builder *)

Section Guard.
Context `{ClientProto}.
Implicit Types (w : CWorld).

(** [BusyGuard]: a call from inside of a call is refused and changes nothing;
    otherwise the body runs with the flag set, its result is passed on, and the flag
    is cleared whether the body returns or throws. *)
Lemma busy_guard_contract {A} (m : M CWorld A) w :
  busy_guard m w =
    if cw_sync_busy w
    then Throw (PandaException "recursive syncronous http request detected") w
    else match m (w <| cw_sync_busy := true |>) with
         | Ok x w' => Ok x (w' <| cw_sync_busy := false |>)
         | Throw e w' => Throw e (w' <| cw_sync_busy := false |>)
         | Fault f => Fault f
         end.
Proof.
  unfold busy_guard, try_catch, gets, modify, throw, mbind, M_bind, mret, M_ret.
  destruct (cw_sync_busy w) eqn:Hb; rewrite ?Hb; [done|]. by destruct (m _).
Qed.

(** The form items among the calls of a builder. *)
Definition call_item (b : BuilderCall) : list FormItem :=
  match b with
  | BFormField name value => [FormField name value]
  | BFormItem item => [item]
  | BFormEmbedded name value mime filename => [FormEmbeddedFile name value mime filename]
  | BFormFile name mime filename => [FormFile name mime filename true None default_max_buf]
  | _ => []
  end.

Context `{!ClientProtoLaws}.

(** A built request carries the form items in the order of the calls, and is
    streamed as a form as soon as there is one, whatever else is called. *)
Theorem build_form verify l :
  rq_form (build verify l) = l ≫= call_item ∧
  (l ≫= call_item ≠ [] → cm_form_streaming (rq_msg (build verify l)) = true).
Proof.
  unfold build.
  assert (∀ q, let q' := fold_left (λ q b, builder_call b q) l q in
    rq_form q' = rq_form q ++ (l ≫= call_item) ∧
    (cm_form_streaming (rq_msg q) = true ∨ l ≫= call_item ≠ [] → cm_form_streaming (rq_msg q') = true)) as Hall.
  2: { destruct (Hall (default_request verify)) as [E Hs]. split; [done|auto]. }
  induction l as [|b l IH]; intros q; cbn [fold_left].
  { rewrite app_nil_r. split; [done|]. by intros [|[]]. }
  destruct (IH (builder_call b q)) as [E Hs]. cbv zeta. rewrite E. split.
  - destruct b; cbn; by rewrite <-?app_assoc.
  - intros Hq. apply Hs. destruct b; cbn in *; try (by left; apply cm_form_stream_on); exact Hq.
Qed.
End Guard.
