(* ===== verification/FactRuns.v ===== *)
(** * Concrete runs for the contracts of the client's side

    The worlds at which the hypotheses of the theorems of [ClientTrace],
    [FormFacts], [PoolFacts] and [ClientFacts] hold. *)
From S2P Require Import Prelude Errors Proto ClientProto ClientState ClientOps Form Client Pool UserAgent ClientStep ClientSample ClientInv ClientSpecs ClientMoves PoolSpecs ClientFinish ClientRead ClientGrow ClientProgram ClientSafety ClientRuns ClientTrace FormFacts AgentSpecs AgentFacts PoolFacts ClientFacts.
Local Open Scope Z_scope.

(** ** Silent listeners *)

#[local] Instance silent : CCallbacks := {|
  cfire _ w := Ok tt w; factory_new_client _ := fault_with OutOfFuel; loop_run _ _ w := Ok tt w |}.
Definition silent_cancel : ClientId → option ErrorCode → M CWorld unit := client_cancel.

Definition run_silent (l : list CInput) : CWorld :=
  match run_cinputs (CB := silent) l init_cworld with Ok _ w => w | _ => init_cworld end.

Definition client_at (w : CWorld) (c : nat) : Client :=
  default {| cl_loop := 0%nat; cl_pool := None; cl_netloc := sample_loc; cl_request := None; cl_response := None;
             cl_parser := rparser_init; cl_context := None; cl_last_activity_time := 0; cl_in_redirect := false;
             cl_redirect_canceled := false; cl_form_field := -1; cl_connected := false; cl_connecting := false;
             cl_pending := []; cl_weak := false |} (cw_clients w !! c).

(** A client without a pool, and a request over TLS. *)
Definition alone_inputs : list CInput :=
  [CInUser (UNewUri "sa8"); CInUser (UNewRequest true [BUri (Some 0%nat)]); CInUser (UNewClient 0)].
Definition alone_world : CWorld := run_silent alone_inputs.
Definition alone_uri : Uri := su_parse "sa8".

Lemma alone_good : good alone_world (rq_at alone_world 0).
Proof. apply plain_sound. vm_compute. reflexivity. Qed.

Lemma request_trace_witness :
  uri_secure alone_uri = true ∧
  ∃ w', client_request silent_cancel 0%nat 0%nat alone_world = Ok tt w' ∧ ∃ x k',
    cw_log w' = request_obs 0%nat 0%nat alone_world x (client_at alone_world 0) (rq_at alone_world 0) alone_uri sample_loc ++
      cw_log alone_world ∧
    cw_clients w' !! 0%nat = Some k' ∧ serving 0%nat (client_at alone_world 0) (rq_at alone_world 0) sample_loc k'.
Proof.
  split; [reflexivity|].
  apply (request_trace silent_cancel alone_world 0%nat (client_at alone_world 0) 0%nat (rq_at alone_world 0) 0%nat
    alone_uri sample_loc sample_paths); try (vm_compute; reflexivity). exact alone_good.
Defined.

(** The client while it serves the request, and has received a redirect. *)
Definition redirect_response (location : string) : CResponse := mkCResp (mkSResp 303 location true EmptyString) true.
Definition received (res : CResponse) (w : CWorld) : CWorld :=
  w <| cw_clients ::= alter (λ k, k <| cl_response := Some res |> <| cl_context := None |>) 0%nat |>
    <| cw_reqs ::= alter (λ q, q <| rq_transfer_completed := true |>) 0%nat |>.
Definition serving_world : CWorld :=
  received (redirect_response "pb7")
    (run_silent (alone_inputs ++ [CInUser (UClientRequest 0 0); CInConnect 0 None])).

(** The same with a client that belongs to a pool. *)
Definition pooled_world : CWorld :=
  received (redirect_response "pb7")
    (run_silent [CInUser (UNewUri "sa8"); CInUser (UNewRequest true [BUri (Some 0%nat)]);
       CInUser (UNewPool default_pool_config 0); CInUser (UPoolRequest 0 0); CInConnect 0 None]).

Lemma finish_trace_witness :
  survives None (rq_at pooled_world 0) (cl_response (client_at pooled_world 0)) = true ∧
  ∃ w1, finishing pooled_world 0%nat (client_at pooled_world 0) (rq_at pooled_world 0) None w1 ∧
    client_finish_request silent_cancel 0%nat None pooled_world =
      (pool_putback 0%nat 0%nat ;; finish_and_notify 0%nat (cl_response (client_at pooled_world 0)) None) w1.
Proof.
  split; [vm_compute; reflexivity|].
  destruct (finish_trace silent_cancel pooled_world 0%nat
    (client_at pooled_world 0) 0%nat (rq_at pooled_world 0) None) as (w1 & Hf & E & _);
    [vm_compute; reflexivity..|intros _; vm_compute; eexists; reflexivity|].
  exists w1. split; [exact Hf|].
  assert (cl_pool (client_at pooled_world 0) = Some 0%nat) as Hp by (vm_compute; reflexivity).
  assert (final_error None (rq_at pooled_world 0) = None) as He by (vm_compute; reflexivity).
  rewrite Hp, He in E. exact E.
Defined.

(** The request is redirected from [https://a:8] to [http://b:7]: without a pool the
    client carries it out itself, and in a pool another one does. *)
Lemma redirect_trace_witness :
  redirect_target "pb7" alone_uri = su_parse "pb7" ∧
  (∃ w1 n, following serving_world 0%nat 0%nat (client_at serving_world 0) (rq_at serving_world 0) 0%nat alone_uri
     (redirect_response "pb7") w1 ∧
   redirect silent_cancel 0%nat 0%nat (redirect_response "pb7") serving_world =
     hand_on silent_cancel 0%nat 0%nat (client_at serving_world 0) n w1) ∧
  cl_pool (client_at pooled_world 0) = Some 0%nat ∧
  (∃ w1 n, following pooled_world 0%nat 0%nat (client_at pooled_world 0) (rq_at pooled_world 0) 0%nat alone_uri
     (redirect_response "pb7") w1 ∧
   redirect silent_cancel 0%nat 0%nat (redirect_response "pb7") pooled_world =
     hand_on silent_cancel 0%nat 0%nat (client_at pooled_world 0) n w1).
Proof.
  split; [vm_compute; reflexivity|]. split; [|split; [vm_compute; reflexivity|]].
  - destruct (redirect_trace silent_cancel serving_world 0%nat (client_at serving_world 0) 0%nat (rq_at serving_world 0)
      0%nat alone_uri (redirect_response "pb7")) as (w1 & n & Hf & _ & E);
      [reflexivity|vm_compute; reflexivity..|intros x Hx; vm_compute in Hx; discriminate Hx|discriminate
      |vm_compute; split; [discriminate|reflexivity]|vm_compute; reflexivity|].
    exists w1, n. exact (conj Hf E).
  - destruct (redirect_trace silent_cancel pooled_world 0%nat (client_at pooled_world 0) 0%nat (rq_at pooled_world 0)
      0%nat alone_uri (redirect_response "pb7")) as (w1 & n & Hf & _ & E);
      [reflexivity|vm_compute; reflexivity..|intros x Hx; vm_compute in Hx; discriminate Hx|discriminate
      |vm_compute; split; [discriminate|reflexivity]|vm_compute; reflexivity|].
    exists w1, n. exact (conj Hf E).
Defined.

(** ** Forms *)

Definition sample_form : list BuilderCall :=
  [BUri (Some 0%nat); BFormField "name" "value"; BFormFile "f" "text/plain" "a.txt"; BFormField "x" "y"].
Definition form_inputs : list CInput :=
  [CInUser (UNewUri "pa8"); CInUser (UNewRequest true sample_form); CInUser (UNewClient 0);
   CInUser (UClientRequest 0 0)].
Definition form_world : CWorld := run_silent form_inputs.
Definition file_item : FormItem := FormFile "f" "text/plain" "a.txt" false (Some true) default_max_buf.

(** The form goes on behind the file when the file is complete. *)
Definition resumed_world : CWorld :=
  form_world <| cw_clients ::= alter (λ k, k <| cl_form_field ::= Z.succ |>) 0%nat |>.

Lemma form_trace_witness :
  cl_form_field (client_at form_world 0) = 1 ∧
  ∃ w', send_form 0%nat resumed_world = Ok tt w' ∧
    form_left 0%nat 0%nat resumed_world (rq_at resumed_world 0) 3
      (items_obs 0%nat 0%nat (rq_msg (rq_at resumed_world 0)) [FormField "x" "y"] ++ cw_log resumed_world) [] w'.
Proof.
  split; [vm_compute; reflexivity|].
  apply (form_trace resumed_world 0%nat 0%nat (client_at resumed_world 0) (rq_at resumed_world 0)
    [FormField "name" "value"; file_item] [FormField "x" "y"] []); try (vm_compute; reflexivity); by repeat constructor.
Defined.

Lemma build_form_witness :
  [FormField "name" "value"; FormFile "f" "text/plain" "a.txt" true None default_max_buf; FormField "x" "y"] =
    rq_form (build true sample_form) ∧
  cm_form_streaming (rq_msg (build true sample_form)) = true.
Proof. split; [reflexivity|]. apply (build_form true sample_form). discriminate. Defined.

(** ** Pools *)

Lemma pool_refines_acquire_witness :
  acquire 1 1%nat (abs_list <$> list_at answered_world 0%nat sample_loc) = (false, mkSlots 0 1 [2%nat; 1%nat]) ∧
  ∃ o w', choose_client (H1 := client_callbacks chaining 2) 0%nat 1%nat sample_loc answered_world = Ok o w' ∧
    bool_decide (is_Some o) = (acquire (pl_max_connections (pool_at answered_world 0)) 1%nat
      (abs_list <$> list_at answered_world 0%nat sample_loc)).1 ∧
    lists_but answered_world w' 0%nat sample_loc (acquire (pl_max_connections (pool_at answered_world 0)) 1%nat
      (abs_list <$> list_at answered_world 0%nat sample_loc)).2.
Proof.
  split; [vm_compute; reflexivity|].
  apply (pool_refines_acquire chaining 1 answered_world 0%nat (pool_at answered_world 0) 1%nat
    (rq_at answered_world 1) sample_loc chaining_well_behaved answered_reach); vm_compute; reflexivity.
Defined.

Lemma pool_refines_release_witness :
  release (abs_list (sample_list answered_world)) = (Some 2%nat, mkSlots 0 1 []) ∧
  ∃ w1, lists_but answered_world w1 0%nat (cl_netloc (client_at answered_world 0))
      (release (abs_list (sample_list answered_world))).2 ∧
    cw_clients w1 = cw_clients answered_world ∧ cw_reqs w1 = cw_reqs answered_world ∧
    pool_do_putback 0%nat 0%nat answered_world = match (release (abs_list (sample_list answered_world))).1 with
                                                 | Some r => client_start 0%nat r w1
                                                 | None => Ok tt w1
                                                 end.
Proof.
  split; [vm_compute; reflexivity|].
  assert (0%nat ∈ nl_busy (sample_list answered_world) ∧ 0%nat ∉ nl_free (sample_list answered_world)) as [Hb Hf].
  { apply (bool_decide_unpack _). vm_compute. exact I. }
  apply (pool_refines_release answered_world 0%nat (pool_at answered_world 0) 0%nat (client_at answered_world 0)
    (sample_list answered_world)); first [exact Hb|exact Hf|vm_compute; reflexivity].
Defined.

(** One request that was answered; its client is free. *)
Definition free_inputs : list CInput :=
  [CInUser (UNewUri "pa8"); CInUser (UNewPool (mkPoolConfig 1 60000 false) 0);
   CInUser (UNewRequest true [BUri (Some 0%nat)]); CInUser (UPoolRequest 0 0); CInConnect 0 None;
   CInTick 0 1000; CInRead 0 "O" None].
Definition free_world : CWorld := run_chaining free_inputs.
Definition late_world : CWorld := run_chaining (free_inputs ++ [CInTick 0 70000]).

Lemma free_reach : creach chaining 1 free_world.
Proof. apply run_chaining_reach. vm_compute. reflexivity. Qed.
Lemma late_reach : creach chaining 1 late_world.
Proof. apply run_chaining_reach. vm_compute. reflexivity. Qed.

Lemma idle_clients_dropped_witness :
  ∃ w', exec_cinput (CB := client_callbacks chaining 2) (CInIdleTimer 0) late_world = Ok tt w' ∧
    cw_clients w' !! 0%nat = None.
Proof.
  destruct (idle_clients_dropped chaining 1 late_world 0%nat (pool_at late_world 0)
    chaining_well_behaved late_reach) as (w' & E & Hw'); [vm_compute; reflexivity|].
  exists w'. split; [exact E|].
  destruct (Hw' 0%nat (client_at late_world 0)) as [-> _]; [vm_compute; reflexivity|]. vm_compute. reflexivity.
Defined.

(** The client was active at the very moment at which the sweep lets it go. *)
Lemma sweep_underflow_witness :
  cl_last_activity_time (client_at free_world 0) = cw_now free_world 0%nat ∧
  ∃ w', exec_cinput (CB := client_callbacks chaining 2) (CInIdleTimer 0) free_world = Ok tt w' ∧
    cw_clients w' !! 0%nat = None.
Proof.
  split; [vm_compute; reflexivity|].
  apply (sweep_underflow chaining 1 free_world 0%nat (pool_at free_world 0) 0%nat (client_at free_world 0)
    chaining_well_behaved free_reach); try (vm_compute; reflexivity).
  - vm_compute. split; [discriminate|reflexivity].
  - vm_compute. split; discriminate.
Defined.

(** ** SSL contexts and refusals *)

Lemma default_ssl_contexts_witness :
  ∃ x w', get_default_ssl_context true alone_world = Ok x w' ∧ cw_ctxs w' !! x = Some true ∧ ssl_ok w' ∧
    get_default_ssl_context true w' = Ok x w' ∧
    (∀ y v, cw_ctxs alone_world !! y = Some v → cw_ctxs w' !! y = Some v).
Proof. apply (default_ssl_contexts alone_world true); [|reflexivity]. split; intros x [=]. Defined.

(** An environment without certificates. *)
Definition no_certificates : ClientEnv := {|
  set_begin X := head (elements X); default_verify_paths_ok _ := false |}.

Lemma verify_context_after_failure_witness :
  ∃ w1 x, get_default_ssl_context (H0 := no_certificates) true alone_world =
      Throw (HttpError "can not set ssl certificate default verify paths") w1 ∧
    get_default_ssl_context (H0 := no_certificates) true w1 = Ok x w1 ∧ cw_ctxs w1 !! x = Some false.
Proof. apply (@verify_context_after_failure _ no_certificates alone_world); reflexivity. Defined.

Lemma request_refused_witness :
  client_request silent_cancel 0%nat 0%nat serving_world =
    Throw (HttpError "client supports only one request at a time") serving_world.
Proof.
  apply (request_refused silent_cancel serving_world 0%nat (client_at serving_world 0) 0%nat (rq_at serving_world 0)).
  - vm_compute. reflexivity.
  - vm_compute. reflexivity.
  - intros i Hi. assert (i = 0%nat) as -> by (vm_compute in Hi; congruence). by eexists.
  - left. vm_compute. discriminate.
Defined.

(** A request through a proxy that speaks [https]. *)
Definition bad_proxy_world : CWorld := run_silent
  [CInUser (UNewUri "pa8"); CInUser (UNewUri "sb8");
   CInUser (UNewRequest true [BUri (Some 0%nat); BProxy (Some 1%nat)]); CInUser (UNewClient 0)].

Lemma bad_proxy_sticks_witness :
  ∃ w' q', client_request silent_cancel 0%nat 0%nat bad_proxy_world =
      Throw (HttpError "client supports only socks5 protocol for proxy") w' ∧
    cw_reqs w' !! 0%nat = Some q' ∧ rq_client q' = Some 0%nat ∧
    cw_clients w' !! 0%nat = Some (client_at bad_proxy_world 0) ∧
    client_request silent_cancel 0%nat 0%nat w' = Throw (HttpError "request is already in progress") w'.
Proof.
  apply (bad_proxy_sticks silent_cancel bad_proxy_world 0%nat (client_at bad_proxy_world 0) 0%nat
    (rq_at bad_proxy_world 0) 0%nat (su_parse "pa8") 1%nat (su_parse "sb8")); try (vm_compute; reflexivity); done.
Defined.

(** ** A user agent *)

Definition agent_world : CWorld := run_silent
  [CInUser (UNewUri "sa8"); CInUser (UNewRequest true [BUri (Some 0%nat)]);
   CInUser (UNewAgent 0 EmptyString default_agent_config); CInTick 0 5000].
Definition the_agent (w : CWorld) : UserAgent := default (mkAgent 0%nat 0%nat None None None) (cw_agents w !! 0%nat).
Definition the_jar (w : CWorld) : CookieJar := default (jar_parse EmptyString) (cw_jars w !! 0%nat).

Lemma the_agent_at w :
  cw_agents w !! 0%nat = Some (the_agent w) → ua_pool (the_agent w) = 0%nat → ua_cookie_jar (the_agent w) = 0%nat →
  cw_pools w !! 0%nat = Some (pool_at w 0) → cw_jars w !! 0%nat = Some (the_jar w) →
  agent_at w 0%nat (the_agent w) (pool_at w 0) (the_jar w).
Proof. intros Ha Ep Ej Hp Hj. split; [exact Ha|by rewrite Ep|by rewrite Ej]. Qed.

Lemma agent_request_contract_witness :
  ua_identity (the_agent agent_world) = Some DEFAULT_UA ∧
  agent_request 0%nat 0%nat 0%nat true agent_world =
    pool_request (ua_pool (the_agent agent_world)) 0%nat (agent_world <| cw_reqs :=
      <[0%nat := equipped (the_agent agent_world) (the_jar agent_world)
         ((rq_at agent_world 0) <| rq_listeners ::= λ ls, ls ++ [LAgent 0 0 true] |>) alone_uri alone_uri true
         (cw_now agent_world (pl_loop (pool_at agent_world 0)))]> (cw_reqs agent_world) |>).
Proof.
  split; [vm_compute; reflexivity|].
  apply (agent_request_contract agent_world 0%nat (the_agent agent_world) (pool_at agent_world 0) (the_jar agent_world)
    0%nat (rq_at agent_world 0) alone_uri 0%nat alone_uri true); [|vm_compute; reflexivity| |vm_compute; reflexivity].
  - apply the_agent_at; vm_compute; reflexivity.
  - exists 0%nat. split; vm_compute; reflexivity.
Defined.

(** The request of an agent, once it is on its way. *)
Definition agent_busy_world : CWorld :=
  match agent_request 0%nat 0%nat 0%nat true agent_world with Ok _ w => w | _ => agent_world end.

(** The cookies of its answer, and those of a redirect, which the request then has. *)
Lemma agent_listener_contract_witness :
  cl_request (client_at agent_busy_world 0) = Some 0%nat ∧
  run_listeners (CEvContinue 0) agent_busy_world = Ok tt agent_busy_world ∧
  (∃ w', run_listeners (CEvResponse 0 (redirect_response "pb7") None) agent_busy_world = Ok tt w' ∧
     the_jar w' = [("c", "a")]%string) ∧
  (∃ w', run_listeners (CEvRedirect 0 (redirect_response "pb7") (left_behind 0 (rq_at agent_busy_world 0)))
      agent_busy_world = Ok tt w' ∧
     the_jar w' = [("c", "a")]%string ∧ cm_cookies (rq_msg (rq_at w' 0)) = [("c", "a")]%string).
Proof.
  split; [vm_compute; reflexivity|].
  destruct (agent_listener_contract agent_busy_world 0%nat (the_agent agent_busy_world) (pool_at agent_busy_world 0)
    (the_jar agent_busy_world) 0%nat (rq_at agent_busy_world 0) alone_uri 0%nat alone_uri true) as (Er & Ed & _ & _ & E);
    [|vm_compute; reflexivity| |vm_compute; reflexivity|vm_compute; reflexivity|].
  - apply the_agent_at; vm_compute; reflexivity.
  - exists 0%nat. split; vm_compute; reflexivity.
  - split; [exact E|]. split.
    + eexists. split; [exact (Er (redirect_response "pb7"))|vm_compute; reflexivity].
    + eexists. split; [exact (Ed (redirect_response "pb7") (left_behind 0 (rq_at agent_busy_world 0)) alone_uri eq_refl)|].
      split; vm_compute; reflexivity.
Defined.

(** ** The loop of a read *)

(** A loop that gives up unless the rest is shorter. *)
Definition strict_read (rest : string) : M CWorld unit :=
  if Nat.ltb (String.length rest) 2 then client_on_read silent_cancel 0%nat rest None else fault_with OutOfFuel.

Lemma on_read_terminates_witness :
  client_on_read silent_cancel 0%nat "OO" None serving_world =
    read_round silent_cancel strict_read 0%nat "OO" serving_world.
Proof.
  destruct (on_read_terminates silent_cancel 0%nat "OO" serving_world) as [-> Hext].
  apply Hext. intros rest w' Hlt. unfold strict_read. by rewrite (proj2 (Nat.ltb_lt _ 2) Hlt).
Defined.

(** ** The listener of a synchronous call *)

(** The loop delivers the response of the synchronous call. *)
Definition answer_now : CProgram := {|
  pr_event _ _ _ _ := None; pr_calls := 0;
  pr_loop l _ w :=
    match cw_clients w !! 0%nat with
    | Some k => if bool_decide (cl_request k = Some 0%nat)
                then Some (if cl_connecting k then CInConnect 0 None else CInRead 0 "O" None) else None
    | None => None
    end |}.

Definition sync_run (l : list CInput) : outcome CWorld unit :=
  run_cinputs (CB := client_callbacks answer_now 5) l init_cworld.

(** The listener that a synchronous call adds to its request refers to the
    call's stack frame and is never removed: when the same request is handed over
    again, its response is written to a frame that is gone. *)
Lemma sync_listener_dangles :
  sync_run [CInUser (UNewUri "pa8"); CInUser (UNewRequest true [BUri (Some 0%nat)]); CInUser (UHttpSync 0);
            CInUser (UHttpRequest 0 0); CInConnect 1 None; CInRead 1 "O" None] = Fault DanglingRef.
Proof. vm_compute. reflexivity. Qed.
